(** * Floppy bridge (WinUAE, od-win32): a shallow embedding of the bridge
    facade, the revolution aligner and the two flux encoders, with the
    properties of the specification proved or refuted over it.

    Sources embedded here:
    - [ArduinoFloppyBridge.h] / [ArduinoFloppyBridge.cpp]  (module [ArduinoFloppyBridge])
    - [ArduinoInterface.cpp]                               (module [ArduinoInterface])
    - [GreaseWeazleInterface.cpp]                          (module [GreaseWeazleInterface])
    - the queue and the read stream of [ArduinoInterface.cpp]
                                            (modules [FastQueue], [ArduinoStream])

    Conventions.  C++ integers are [Z]; every conversion that can change a
    value (to [unsigned char], [unsigned int], [int]) is written out with the
    functions of [CTypes].  [GetTickCount()] is the argument [now].  Objects
    mutated in place are threaded through the functions as explicit state. *)

From Stdlib Require Import ZArith List Bool Lia.
From coqutil Require Import Z.bitblast.
Import ListNotations.
Local Open Scope Z_scope.

(** ** Machine integers *)

Module CTypes.

(** Conversion to [unsigned char]. *)
Definition to_uint8 (x : Z) : Z := x mod 256.

(** Conversion to [unsigned short]. *)
Definition to_uint16 (x : Z) : Z := x mod 65536.

(** Conversion to [unsigned int] / [DWORD] / 32-bit [size_t] arithmetic. *)
Definition to_uint32 (x : Z) : Z := x mod 4294967296.

(** Conversion to [int] (two's complement, as MSVC does it). *)
Definition to_int32 (x : Z) : Z := (x + 2147483648) mod 4294967296 - 2147483648.

(** [memcpy(&dst[pos], src, n * sizeof(elem))] on arrays seen as index maps. *)
Definition memcpy {A : Type} (dst : Z -> A) (pos : Z) (src : Z -> A) (n : Z) : Z -> A :=
  fun i => if (pos <=? i) && (i <? pos + n) then src (i - pos) else dst i.

(** [arr[idx] = v] on an array seen as an index map. *)
Definition store {A : Type} (arr : Z -> A) (idx : Z) (v : A) : Z -> A :=
  fun i => if i =? idx then v else arr i.

(** The last element of a [std::queue] / [std::vector], if any. *)
Fixpoint back {A : Type} (q : list A) : option A :=
  match q with
  | [] => None
  | [x] => Some x
  | _ :: r => back r
  end.

(** In-place update of the last element ([q.back() = f(q.back())]). *)
Fixpoint mapBack {A : Type} (f : A -> A) (q : list A) : list A :=
  match q with
  | [] => []
  | [x] => [f x]
  | x :: r => x :: mapBack f r
  end.

End CTypes.

Import CTypes.

(** ** The bridge facade: [ArduinoFloppyBridge.h], [ArduinoFloppyBridge.cpp] *)

Module ArduinoFloppyBridge.

Definition THEORETICAL_MINIMUM_TRACK_LENGTH : Z := 12134.
Definition NUM_BITS_IN_CHUNK : Z := 128.
Definition DRIVE_STEP_GARBAGE_TIME : Z := 500.
Definition DISKCHANGE_BEFORE_INSERTED_CHECK_INTERVAL : Z := 2500.
Definition DISKCHANGE_ONCE_INSERTED_CHECK_INTERVAL : Z := 500.
Definition DISKCHANGE_BEFORE_INSERTED_CHECK_INTERVAL_NONMOD : Z := 3000.
Definition DISKCHANGE_ONCE_INSERTED_CHECK_INTERVAL_NONMOD : Z := 3000.
Definition DISK_SPINUP_TIME : Z := 750.
Definition ARD_MFM_BUFFER_MAX_TRACK_LENGTH : Z := 0x3800.
Definition ARD_MAX_CYLINDER_BRIDGE : Z := 82.

(** Modelled from the spec: [enum class DiskSurface] is declared in
    ArduinoInterface.h, which is not among the sources.  The bridge uses the
    two values [dsUpper] and [dsLower] and indexes the second dimension of the
    track cache with them. *)
Inductive DiskSurface : Type := dsUpper | dsLower.

Definition DiskSurface_eqb (a b : DiskSurface) : bool :=
  match a, b with
  | dsUpper, dsUpper | dsLower, dsLower => true
  | _, _ => false
  end.

(** Modelled from the spec: [struct MFMSample] is declared in
    ArduinoInterface.h, which is not among the sources.  An MFM sample packs
    eight bits, MSB first, in [mfmData] and carries one [unsigned char] speed
    per bit in [speed[8]]; these are the two fields the bridge reads. *)
Record MFMSample : Type := mkMFMSample {
  speed : Z -> Z;
  mfmData : Z
}.

Definition zeroSample : MFMSample := mkMFMSample (fun _ => 0) 0.

Inductive QueueCommand : Type :=
  qcTerminate | qcMotorOn | qcMotorOff | writeMFMData | qcGotoToTrack | qcSelectDiskSide.

Definition QueueCommand_eqb (a b : QueueCommand) : bool :=
  match a, b with
  | qcTerminate, qcTerminate | qcMotorOn, qcMotorOn | qcMotorOff, qcMotorOff
  | writeMFMData, writeMFMData | qcGotoToTrack, qcGotoToTrack
  | qcSelectDiskSide, qcSelectDiskSide => true
  | _, _ => false
  end.

(** [union { int i; bool b; } option]: the member last written. *)
Inductive QueueOption : Type :=
  | OptI (i : Z)
  | OptB (b : bool).

(** [struct QueueInfo]; the field [option] is called [qi_option] here. *)
Record QueueInfo : Type := mkQueueInfo {
  command : QueueCommand;
  qi_option : QueueOption
}.

(** [info.option.i].  Every command that is read through [i] was queued
    through [i]; the other case only fixes a value for the inactive member. *)
Definition option_i (info : QueueInfo) : Z :=
  match qi_option info with OptI i => i | OptB b => Z.b2z b end.

(** [info.option.b]. *)
Definition option_b (info : QueueInfo) : bool :=
  match qi_option info with OptB b => b | OptI i => negb (i =? 0) end.

(** [struct TrackToWrite]; its [mfmBuffer] is called [tw_mfmBuffer] here,
    since [MFMCache] has a field of the same name. *)
Record TrackToWrite : Type := mkTrackToWrite {
  tw_mfmBuffer : Z -> Z;
  side : DiskSurface;
  trackNumber : Z;
  floppyBufferSizeBits : Z;
  writeFromIndex : bool
}.

(** [struct MFMCache]. *)
Record MFMCache : Type := mkMFMCache {
  mfmBuffer : Z -> MFMSample;
  ready : bool;
  amountReadInBits : Z
}.

(** [struct MFMCaches]. *)
Record MFMCaches : Type := mkMFMCaches {
  current : MFMCache;
  next : MFMCache;
  startBitPatterns : list Z
}.

(** [memset(&cache, 0, sizeof(cache))]. *)
Definition zeroCache : MFMCache := mkMFMCache (fun _ => zeroSample) false 0.

(** The members of [class ArduinoFloppyDiskBridge] that the modelled functions
    read or write.  [m_queueSemaphore] is the semaphore's count and
    [m_readBufferAvailable] the state of the manual-reset event. *)
Record Bridge : Type := mkBridge {
  m_pendingTrackWrites : list TrackToWrite;
  m_currentWriteTrack : TrackToWrite;
  m_currentWriteStartMfmPosition : Z;
  m_delayStreaming : bool;
  m_delayStreamingStart : Z;
  m_mfmRead : Z -> DiskSurface -> MFMCaches;
  m_currentTrack : Z;
  m_actualCurrentCylinder : Z;
  m_writeProtected : bool;
  m_diskInDrive : bool;
  m_motorSpinningUp : bool;
  m_motorSpinningUpStart : Z;
  m_motorIsReady : bool;
  m_isMotorRunning : bool;
  m_lastDiskCheckTime : Z;
  m_lastDriveStepTime : Z;
  m_floppySide : DiskSurface;
  m_actualFloppySide : DiskSurface;
  m_queue : list QueueInfo;
  m_queueSemaphore : Z;
  m_readBufferAvailable : bool
}.

(** Assignment to one member, the others unchanged. *)
Definition set_m_pendingTrackWrites (v : list TrackToWrite) (st : Bridge) : Bridge :=
  mkBridge v (m_currentWriteTrack st) (m_currentWriteStartMfmPosition st)
    (m_delayStreaming st) (m_delayStreamingStart st) (m_mfmRead st) (m_currentTrack st)
    (m_actualCurrentCylinder st) (m_writeProtected st) (m_diskInDrive st)
    (m_motorSpinningUp st) (m_motorSpinningUpStart st) (m_motorIsReady st)
    (m_isMotorRunning st) (m_lastDiskCheckTime st) (m_lastDriveStepTime st)
    (m_floppySide st) (m_actualFloppySide st) (m_queue st) (m_queueSemaphore st)
    (m_readBufferAvailable st).

Definition set_m_currentWriteTrack (v : TrackToWrite) (st : Bridge) : Bridge :=
  mkBridge (m_pendingTrackWrites st) v (m_currentWriteStartMfmPosition st)
    (m_delayStreaming st) (m_delayStreamingStart st) (m_mfmRead st) (m_currentTrack st)
    (m_actualCurrentCylinder st) (m_writeProtected st) (m_diskInDrive st)
    (m_motorSpinningUp st) (m_motorSpinningUpStart st) (m_motorIsReady st)
    (m_isMotorRunning st) (m_lastDiskCheckTime st) (m_lastDriveStepTime st)
    (m_floppySide st) (m_actualFloppySide st) (m_queue st) (m_queueSemaphore st)
    (m_readBufferAvailable st).

Definition set_m_currentWriteStartMfmPosition (v : Z) (st : Bridge) : Bridge :=
  mkBridge (m_pendingTrackWrites st) (m_currentWriteTrack st) v (m_delayStreaming st)
    (m_delayStreamingStart st) (m_mfmRead st) (m_currentTrack st)
    (m_actualCurrentCylinder st) (m_writeProtected st) (m_diskInDrive st)
    (m_motorSpinningUp st) (m_motorSpinningUpStart st) (m_motorIsReady st)
    (m_isMotorRunning st) (m_lastDiskCheckTime st) (m_lastDriveStepTime st)
    (m_floppySide st) (m_actualFloppySide st) (m_queue st) (m_queueSemaphore st)
    (m_readBufferAvailable st).

Definition set_m_delayStreaming (v : bool) (st : Bridge) : Bridge :=
  mkBridge (m_pendingTrackWrites st) (m_currentWriteTrack st)
    (m_currentWriteStartMfmPosition st) v (m_delayStreamingStart st) (m_mfmRead st)
    (m_currentTrack st) (m_actualCurrentCylinder st) (m_writeProtected st)
    (m_diskInDrive st) (m_motorSpinningUp st) (m_motorSpinningUpStart st)
    (m_motorIsReady st) (m_isMotorRunning st) (m_lastDiskCheckTime st)
    (m_lastDriveStepTime st) (m_floppySide st) (m_actualFloppySide st) (m_queue st)
    (m_queueSemaphore st) (m_readBufferAvailable st).

Definition set_m_delayStreamingStart (v : Z) (st : Bridge) : Bridge :=
  mkBridge (m_pendingTrackWrites st) (m_currentWriteTrack st)
    (m_currentWriteStartMfmPosition st) (m_delayStreaming st) v (m_mfmRead st)
    (m_currentTrack st) (m_actualCurrentCylinder st) (m_writeProtected st)
    (m_diskInDrive st) (m_motorSpinningUp st) (m_motorSpinningUpStart st)
    (m_motorIsReady st) (m_isMotorRunning st) (m_lastDiskCheckTime st)
    (m_lastDriveStepTime st) (m_floppySide st) (m_actualFloppySide st) (m_queue st)
    (m_queueSemaphore st) (m_readBufferAvailable st).

Definition set_m_mfmRead (v : Z -> DiskSurface -> MFMCaches) (st : Bridge) : Bridge :=
  mkBridge (m_pendingTrackWrites st) (m_currentWriteTrack st)
    (m_currentWriteStartMfmPosition st) (m_delayStreaming st) (m_delayStreamingStart st) v
    (m_currentTrack st) (m_actualCurrentCylinder st) (m_writeProtected st)
    (m_diskInDrive st) (m_motorSpinningUp st) (m_motorSpinningUpStart st)
    (m_motorIsReady st) (m_isMotorRunning st) (m_lastDiskCheckTime st)
    (m_lastDriveStepTime st) (m_floppySide st) (m_actualFloppySide st) (m_queue st)
    (m_queueSemaphore st) (m_readBufferAvailable st).

Definition set_m_currentTrack (v : Z) (st : Bridge) : Bridge :=
  mkBridge (m_pendingTrackWrites st) (m_currentWriteTrack st)
    (m_currentWriteStartMfmPosition st) (m_delayStreaming st) (m_delayStreamingStart st)
    (m_mfmRead st) v (m_actualCurrentCylinder st) (m_writeProtected st) (m_diskInDrive st)
    (m_motorSpinningUp st) (m_motorSpinningUpStart st) (m_motorIsReady st)
    (m_isMotorRunning st) (m_lastDiskCheckTime st) (m_lastDriveStepTime st)
    (m_floppySide st) (m_actualFloppySide st) (m_queue st) (m_queueSemaphore st)
    (m_readBufferAvailable st).

Definition set_m_actualCurrentCylinder (v : Z) (st : Bridge) : Bridge :=
  mkBridge (m_pendingTrackWrites st) (m_currentWriteTrack st)
    (m_currentWriteStartMfmPosition st) (m_delayStreaming st) (m_delayStreamingStart st)
    (m_mfmRead st) (m_currentTrack st) v (m_writeProtected st) (m_diskInDrive st)
    (m_motorSpinningUp st) (m_motorSpinningUpStart st) (m_motorIsReady st)
    (m_isMotorRunning st) (m_lastDiskCheckTime st) (m_lastDriveStepTime st)
    (m_floppySide st) (m_actualFloppySide st) (m_queue st) (m_queueSemaphore st)
    (m_readBufferAvailable st).

Definition set_m_writeProtected (v : bool) (st : Bridge) : Bridge :=
  mkBridge (m_pendingTrackWrites st) (m_currentWriteTrack st)
    (m_currentWriteStartMfmPosition st) (m_delayStreaming st) (m_delayStreamingStart st)
    (m_mfmRead st) (m_currentTrack st) (m_actualCurrentCylinder st) v (m_diskInDrive st)
    (m_motorSpinningUp st) (m_motorSpinningUpStart st) (m_motorIsReady st)
    (m_isMotorRunning st) (m_lastDiskCheckTime st) (m_lastDriveStepTime st)
    (m_floppySide st) (m_actualFloppySide st) (m_queue st) (m_queueSemaphore st)
    (m_readBufferAvailable st).

Definition set_m_diskInDrive (v : bool) (st : Bridge) : Bridge :=
  mkBridge (m_pendingTrackWrites st) (m_currentWriteTrack st)
    (m_currentWriteStartMfmPosition st) (m_delayStreaming st) (m_delayStreamingStart st)
    (m_mfmRead st) (m_currentTrack st) (m_actualCurrentCylinder st) (m_writeProtected st) v
    (m_motorSpinningUp st) (m_motorSpinningUpStart st) (m_motorIsReady st)
    (m_isMotorRunning st) (m_lastDiskCheckTime st) (m_lastDriveStepTime st)
    (m_floppySide st) (m_actualFloppySide st) (m_queue st) (m_queueSemaphore st)
    (m_readBufferAvailable st).

Definition set_m_motorSpinningUp (v : bool) (st : Bridge) : Bridge :=
  mkBridge (m_pendingTrackWrites st) (m_currentWriteTrack st)
    (m_currentWriteStartMfmPosition st) (m_delayStreaming st) (m_delayStreamingStart st)
    (m_mfmRead st) (m_currentTrack st) (m_actualCurrentCylinder st) (m_writeProtected st)
    (m_diskInDrive st) v (m_motorSpinningUpStart st) (m_motorIsReady st)
    (m_isMotorRunning st) (m_lastDiskCheckTime st) (m_lastDriveStepTime st)
    (m_floppySide st) (m_actualFloppySide st) (m_queue st) (m_queueSemaphore st)
    (m_readBufferAvailable st).

Definition set_m_motorSpinningUpStart (v : Z) (st : Bridge) : Bridge :=
  mkBridge (m_pendingTrackWrites st) (m_currentWriteTrack st)
    (m_currentWriteStartMfmPosition st) (m_delayStreaming st) (m_delayStreamingStart st)
    (m_mfmRead st) (m_currentTrack st) (m_actualCurrentCylinder st) (m_writeProtected st)
    (m_diskInDrive st) (m_motorSpinningUp st) v (m_motorIsReady st) (m_isMotorRunning st)
    (m_lastDiskCheckTime st) (m_lastDriveStepTime st) (m_floppySide st)
    (m_actualFloppySide st) (m_queue st) (m_queueSemaphore st) (m_readBufferAvailable st).

Definition set_m_motorIsReady (v : bool) (st : Bridge) : Bridge :=
  mkBridge (m_pendingTrackWrites st) (m_currentWriteTrack st)
    (m_currentWriteStartMfmPosition st) (m_delayStreaming st) (m_delayStreamingStart st)
    (m_mfmRead st) (m_currentTrack st) (m_actualCurrentCylinder st) (m_writeProtected st)
    (m_diskInDrive st) (m_motorSpinningUp st) (m_motorSpinningUpStart st) v
    (m_isMotorRunning st) (m_lastDiskCheckTime st) (m_lastDriveStepTime st)
    (m_floppySide st) (m_actualFloppySide st) (m_queue st) (m_queueSemaphore st)
    (m_readBufferAvailable st).

Definition set_m_isMotorRunning (v : bool) (st : Bridge) : Bridge :=
  mkBridge (m_pendingTrackWrites st) (m_currentWriteTrack st)
    (m_currentWriteStartMfmPosition st) (m_delayStreaming st) (m_delayStreamingStart st)
    (m_mfmRead st) (m_currentTrack st) (m_actualCurrentCylinder st) (m_writeProtected st)
    (m_diskInDrive st) (m_motorSpinningUp st) (m_motorSpinningUpStart st)
    (m_motorIsReady st) v (m_lastDiskCheckTime st) (m_lastDriveStepTime st)
    (m_floppySide st) (m_actualFloppySide st) (m_queue st) (m_queueSemaphore st)
    (m_readBufferAvailable st).

Definition set_m_lastDiskCheckTime (v : Z) (st : Bridge) : Bridge :=
  mkBridge (m_pendingTrackWrites st) (m_currentWriteTrack st)
    (m_currentWriteStartMfmPosition st) (m_delayStreaming st) (m_delayStreamingStart st)
    (m_mfmRead st) (m_currentTrack st) (m_actualCurrentCylinder st) (m_writeProtected st)
    (m_diskInDrive st) (m_motorSpinningUp st) (m_motorSpinningUpStart st)
    (m_motorIsReady st) (m_isMotorRunning st) v (m_lastDriveStepTime st) (m_floppySide st)
    (m_actualFloppySide st) (m_queue st) (m_queueSemaphore st) (m_readBufferAvailable st).

Definition set_m_lastDriveStepTime (v : Z) (st : Bridge) : Bridge :=
  mkBridge (m_pendingTrackWrites st) (m_currentWriteTrack st)
    (m_currentWriteStartMfmPosition st) (m_delayStreaming st) (m_delayStreamingStart st)
    (m_mfmRead st) (m_currentTrack st) (m_actualCurrentCylinder st) (m_writeProtected st)
    (m_diskInDrive st) (m_motorSpinningUp st) (m_motorSpinningUpStart st)
    (m_motorIsReady st) (m_isMotorRunning st) (m_lastDiskCheckTime st) v (m_floppySide st)
    (m_actualFloppySide st) (m_queue st) (m_queueSemaphore st) (m_readBufferAvailable st).

Definition set_m_floppySide (v : DiskSurface) (st : Bridge) : Bridge :=
  mkBridge (m_pendingTrackWrites st) (m_currentWriteTrack st)
    (m_currentWriteStartMfmPosition st) (m_delayStreaming st) (m_delayStreamingStart st)
    (m_mfmRead st) (m_currentTrack st) (m_actualCurrentCylinder st) (m_writeProtected st)
    (m_diskInDrive st) (m_motorSpinningUp st) (m_motorSpinningUpStart st)
    (m_motorIsReady st) (m_isMotorRunning st) (m_lastDiskCheckTime st)
    (m_lastDriveStepTime st) v (m_actualFloppySide st) (m_queue st) (m_queueSemaphore st)
    (m_readBufferAvailable st).

Definition set_m_actualFloppySide (v : DiskSurface) (st : Bridge) : Bridge :=
  mkBridge (m_pendingTrackWrites st) (m_currentWriteTrack st)
    (m_currentWriteStartMfmPosition st) (m_delayStreaming st) (m_delayStreamingStart st)
    (m_mfmRead st) (m_currentTrack st) (m_actualCurrentCylinder st) (m_writeProtected st)
    (m_diskInDrive st) (m_motorSpinningUp st) (m_motorSpinningUpStart st)
    (m_motorIsReady st) (m_isMotorRunning st) (m_lastDiskCheckTime st)
    (m_lastDriveStepTime st) (m_floppySide st) v (m_queue st) (m_queueSemaphore st)
    (m_readBufferAvailable st).

Definition set_m_queue (v : list QueueInfo) (st : Bridge) : Bridge :=
  mkBridge (m_pendingTrackWrites st) (m_currentWriteTrack st)
    (m_currentWriteStartMfmPosition st) (m_delayStreaming st) (m_delayStreamingStart st)
    (m_mfmRead st) (m_currentTrack st) (m_actualCurrentCylinder st) (m_writeProtected st)
    (m_diskInDrive st) (m_motorSpinningUp st) (m_motorSpinningUpStart st)
    (m_motorIsReady st) (m_isMotorRunning st) (m_lastDiskCheckTime st)
    (m_lastDriveStepTime st) (m_floppySide st) (m_actualFloppySide st) v
    (m_queueSemaphore st) (m_readBufferAvailable st).

Definition set_m_queueSemaphore (v : Z) (st : Bridge) : Bridge :=
  mkBridge (m_pendingTrackWrites st) (m_currentWriteTrack st)
    (m_currentWriteStartMfmPosition st) (m_delayStreaming st) (m_delayStreamingStart st)
    (m_mfmRead st) (m_currentTrack st) (m_actualCurrentCylinder st) (m_writeProtected st)
    (m_diskInDrive st) (m_motorSpinningUp st) (m_motorSpinningUpStart st)
    (m_motorIsReady st) (m_isMotorRunning st) (m_lastDiskCheckTime st)
    (m_lastDriveStepTime st) (m_floppySide st) (m_actualFloppySide st) (m_queue st) v
    (m_readBufferAvailable st).

Definition set_m_readBufferAvailable (v : bool) (st : Bridge) : Bridge :=
  mkBridge (m_pendingTrackWrites st) (m_currentWriteTrack st)
    (m_currentWriteStartMfmPosition st) (m_delayStreaming st) (m_delayStreamingStart st)
    (m_mfmRead st) (m_currentTrack st) (m_actualCurrentCylinder st) (m_writeProtected st)
    (m_diskInDrive st) (m_motorSpinningUp st) (m_motorSpinningUpStart st)
    (m_motorIsReady st) (m_isMotorRunning st) (m_lastDiskCheckTime st)
    (m_lastDriveStepTime st) (m_floppySide st) (m_actualFloppySide st) (m_queue st)
    (m_queueSemaphore st) v.

Definition set_ready (v : bool) (c : MFMCache) : MFMCache :=
  mkMFMCache (mfmBuffer c) v (amountReadInBits c).

Definition set_amountReadInBits (v : Z) (c : MFMCache) : MFMCache :=
  mkMFMCache (mfmBuffer c) (ready c) v.

Definition set_mfmBuffer (v : Z -> MFMSample) (c : MFMCache) : MFMCache :=
  mkMFMCache v (ready c) (amountReadInBits c).

Definition set_current (v : MFMCache) (e : MFMCaches) : MFMCaches :=
  mkMFMCaches v (next e) (startBitPatterns e).

Definition set_next (v : MFMCache) (e : MFMCaches) : MFMCaches :=
  mkMFMCaches (current e) v (startBitPatterns e).

(** [m_mfmRead[cylinder][(int)side]], read. *)
Definition cacheAt (st : Bridge) (cylinder : Z) (s : DiskSurface) : MFMCaches :=
  m_mfmRead st cylinder s.

(** [m_mfmRead[cylinder][(int)side] = e], the other entries unchanged. *)
Definition setCacheAt (cylinder : Z) (s : DiskSurface) (e : MFMCaches) (st : Bridge) : Bridge :=
  set_m_mfmRead
    (fun c s' => if (c =? cylinder) && DiskSurface_eqb s' s then e else m_mfmRead st c s') st.

(** The entry the emulator reads: [m_mfmRead[m_currentTrack][(int)m_floppySide]]. *)
Definition activeCache (st : Bridge) : MFMCaches :=
  cacheAt st (m_currentTrack st) (m_floppySide st).

Definition boolSideToDiskSurface (surface : bool) : DiskSurface :=
  if surface then dsUpper else dsLower.

Definition diskSurfaceToBoolSide (s : DiskSurface) : bool :=
  DiskSurface_eqb s dsUpper.

(** [ReleaseSemaphore(m_queueSemaphore, 1, NULL)] on a semaphore created with
    a maximum count of 100: the call fails, and the count stays, at the maximum. *)
Definition releaseSemaphore (st : Bridge) : Bridge :=
  if m_queueSemaphore st + 1 <=? 100
  then set_m_queueSemaphore (m_queueSemaphore st + 1) st
  else st.

(** [pushOntoQueue].  [m_io->abortReadStreaming()] acts on the device only. *)
Definition pushOntoQueue (info : QueueInfo) (st : Bridge) : Bridge :=
  let st := set_m_queue (m_queue st ++ [info]) st in
  releaseSemaphore st.

(** [queueCommand(QueueCommand command, int optionI = 0)]. *)
Definition queueCommand_i (cmd : QueueCommand) (optionI : Z) (st : Bridge) : Bridge :=
  pushOntoQueue (mkQueueInfo cmd (OptI optionI)) st.

(** [queueCommand(QueueCommand command, bool optionB)]. *)
Definition queueCommand_b (cmd : QueueCommand) (optionB : bool) (st : Bridge) : Bridge :=
  pushOntoQueue (mkQueueInfo cmd (OptB optionB)) st.

(** [resetWriteBuffer]; [trackNumber] is an [unsigned char], so [-1] is 255. *)
Definition resetWriteBuffer (st : Bridge) : Bridge :=
  let w := m_currentWriteTrack st in
  let w := mkTrackToWrite (tw_mfmBuffer w) (side w) (to_uint8 (-1)) 0 false in
  let st := set_m_currentWriteTrack w st in
  set_m_currentWriteStartMfmPosition 0 st.

(** [if (!m_mfmRead[m_currentTrack][(int)m_floppySide].current.ready)
      ResetEvent(m_readBufferAvailable);] *)
Definition resetEventUnlessReady (st : Bridge) : Bridge :=
  if negb (ready (current (activeCache st)))
  then set_m_readBufferAvailable false st
  else st.

(** [switchDiskSide]. *)
Definition switchDiskSide (now : Z) (sideB : bool) (st : Bridge) : Bridge :=
  if negb (DiskSurface_eqb (boolSideToDiskSurface sideB) (m_floppySide st)) then
    let st := resetWriteBuffer st in
    let st := set_m_floppySide (boolSideToDiskSurface sideB) st in
    let st := resetEventUnlessReady st in
    let st := set_m_lastDriveStepTime now st in
    queueCommand_b qcSelectDiskSide sideB st
  else st.

(** [gotoCylinder]: the seek is merged into a seek already at the back of the
    queue, and queued otherwise. *)
Definition gotoCylinder (now : Z) (trackNo : Z) (sideB : bool) (st : Bridge) : Bridge :=
  if m_currentTrack st =? trackNo then st else
  let st := resetWriteBuffer st in
  let st := set_m_currentTrack trackNo st in
  let st := set_m_lastDriveStepTime now st in
  let st := switchDiskSide now sideB st in
  let queueUpdated :=
    match back (m_queue st) with
    | Some b => QueueCommand_eqb (command b) qcGotoToTrack
    | None => false
    end in
  if queueUpdated then
    let st := set_m_queue
                (mapBack (fun b => mkQueueInfo (command b) (OptI trackNo)) (m_queue st)) st in
    resetEventUnlessReady st
  else
    let st := resetEventUnlessReady st in
    queueCommand_i qcGotoToTrack trackNo st.

(** [resetMFMCache]: every entry of the 82 x 2 array is zeroed. *)
Definition resetMFMCache (st : Bridge) : Bridge :=
  let st := set_m_mfmRead
              (fun c s => if (0 <=? c) && (c <? ARD_MAX_CYLINDER_BRIDGE)
                          then mkMFMCaches zeroCache zeroCache []
                          else m_mfmRead st c s) st in
  let st := resetWriteBuffer st in
  set_m_readBufferAvailable false st.

(** [internalSwitchCylinder]: a ready [next] replaces [current]. *)
Definition internalSwitchCylinder (cylinder : Z) (s : DiskSurface) (st : Bridge) : Bridge :=
  let e := cacheAt st cylinder s in
  if ready (next e) then
    let e := set_current (next e) e in
    let e := set_next (set_amountReadInBits 0 (next e)) e in
    let e := set_next (set_ready false (next e)) e in
    setCacheAt cylinder s e st
  else st.

(** [saveNextBuffer]. *)
Definition saveNextBuffer (cylinder : Z) (s : DiskSurface) (st : Bridge) : Bridge :=
  let e := cacheAt st cylinder s in
  let st := if negb (amountReadInBits (next e) =? 0)
            then setCacheAt cylinder s (set_next (set_ready true (next e)) e) st
            else st in
  if negb (ready (next (cacheAt st cylinder s))) then st else
  if negb (ready (current (cacheAt st cylinder s))) then
    let st := internalSwitchCylinder cylinder s st in
    if (cylinder =? m_currentTrack st) && DiskSurface_eqb s (m_floppySide st)
    then set_m_readBufferAvailable true st
    else st
  else st.

(** [isMFMPositionAtIndex]. *)
Definition isMFMPositionAtIndex (st : Bridge) (mfmPositionBits : Z) : bool :=
  if ready (current (activeCache st))
  then (mfmPositionBits =? 0)
       || (mfmPositionBits =? amountReadInBits (current (activeCache st)))
  else mfmPositionBits =? 0.

(** [maxMFMBitPosition]. *)
Definition maxMFMBitPosition (st : Bridge) : Z :=
  if ready (current (activeCache st))
  then amountReadInBits (current (activeCache st))
  else Z.max (THEORETICAL_MINIMUM_TRACK_LENGTH * 8) (amountReadInBits (next (activeCache st))).

(** [mfmSwitchBuffer]. *)
Definition mfmSwitchBuffer (now : Z) (sideB : bool) (st : Bridge) : Bridge :=
  let st := switchDiskSide now sideB st in
  internalSwitchCylinder (m_currentTrack st) (m_floppySide st) st.

(** [GetTickCount() - m_lastDriveStepTime < DRIVE_STEP_GARBAGE_TIME], a
    comparison of [DWORD]s. *)
Definition inGarbageWindow (now : Z) (st : Bridge) : bool :=
  to_uint32 (now - m_lastDriveStepTime st) <? DRIVE_STEP_GARBAGE_TIME.

(** [10 * (int)(cache.mfmBuffer[mfmPositionByte].speed[mfmPositionBit])],
    limited to 700..3000 by the two [if]s that follow it in [getMFMSpeed]. *)
Definition limitedSpeed (c : MFMCache) (mfmPositionByte mfmPositionBit : Z) : Z :=
  let speed := 10 * speed (mfmBuffer c mfmPositionByte) mfmPositionBit in
  let speed := if speed <? 700 then 700 else speed in
  let speed := if speed >? 3000 then 3000 else speed in
  speed.

(** [getMFMSpeed]. *)
Definition getMFMSpeed (now : Z) (st : Bridge) (mfmPositionBits : Z) : Z :=
  if negb (m_diskInDrive st) || negb (m_motorIsReady st) then 1000 else
  let mfmPositionByte := Z.shiftr mfmPositionBits 3 in
  let mfmPositionBit := 7 - Z.land mfmPositionBits 7 in
  if ready (current (activeCache st)) then
    limitedSpeed (current (activeCache st)) mfmPositionByte mfmPositionBit
  else if inGarbageWindow now st then 1000
  else if negb (ready (current (activeCache st))) then
    if mfmPositionBits <? amountReadInBits (next (activeCache st))
    then limitedSpeed (next (activeCache st)) mfmPositionByte mfmPositionBit
    else 1000
  else 1000.

(** [(cache.mfmBuffer[mfmPositionByte].mfmData & (1 << mfmPositionBit)) != 0]. *)
Definition bitOf (c : MFMCache) (mfmPositionByte mfmPositionBit : Z) : bool :=
  negb (Z.land (mfmData (mfmBuffer c mfmPositionByte)) (Z.shiftl 1 mfmPositionBit) =? 0).

(** The wait loop of [getMFMBit], [checks] iterations from iteration [a] on.
    Between two checks the caller sleeps in [WaitForSingleObject] while the
    worker thread fills and promotes buffers: [later a] is the active cache
    entry as the check of iteration [a] finds it. *)
Fixpoint waitForData (checks : nat) (a : Z) (later : Z -> MFMCaches)
    (mfmPositionBits mfmPositionByte mfmPositionBit : Z) : bool :=
  match checks with
  | O => false
  | S checks' =>
      if negb (ready (current (later a))) then
        if mfmPositionBits <? amountReadInBits (next (later a))
        then bitOf (next (later a)) mfmPositionByte mfmPositionBit
        else waitForData checks' (a + 1) later mfmPositionBits mfmPositionByte mfmPositionBit
      else bitOf (current (later a)) mfmPositionByte mfmPositionBit
  end.

(** [getMFMBit]. *)
Definition getMFMBit (now : Z) (st : Bridge) (later : Z -> MFMCaches)
    (mfmPositionBits : Z) : bool :=
  if negb (m_diskInDrive st) || negb (m_motorIsReady st) then false else
  let mfmPositionByte := Z.shiftr mfmPositionBits 3 in
  let mfmPositionBit := 7 - Z.land mfmPositionBits 7 in
  if ready (current (activeCache st)) then
    bitOf (current (activeCache st)) mfmPositionByte mfmPositionBit
  else if inGarbageWindow now st then false
  else
    let DelayBetweenChecks := 5 in
    waitForData (Z.to_nat (600 / DelayBetweenChecks)) 0 later
      mfmPositionBits mfmPositionByte mfmPositionBit.

(** [isReady]. *)
Definition isReady (st : Bridge) : bool :=
  m_motorIsReady st && negb (m_motorSpinningUp st).

(** [isMotorRunning]. *)
Definition isMotorRunning (st : Bridge) : bool := m_isMotorRunning st.

(** [isDiskInDrive]. *)
Definition isDiskInDrive (st : Bridge) : bool := m_diskInDrive st.

(** [hasDiskChanged]: the value returned and the state the call leaves. *)
Definition hasDiskChanged (st : Bridge) : bool * Bridge :=
  (negb (m_diskInDrive st), st).

(** [isWriteProtected]. *)
Definition isWriteProtected (st : Bridge) : bool := m_writeProtected st.

(** [setMotorStatus]. *)
Definition setMotorStatus (now : Z) (sideB turnOn : bool) (st : Bridge) : Bridge :=
  let st := switchDiskSide now sideB st in
  if Bool.eqb (m_isMotorRunning st) turnOn then st else
  let st := set_m_isMotorRunning turnOn st in
  let st := set_m_motorIsReady false st in
  let st := set_m_motorSpinningUp false st in
  queueCommand_i (if turnOn then qcMotorOn else qcMotorOff) 0 st.

(** [resetDrive]. *)
Definition resetDrive (now : Z) (st : Bridge) : Bridge :=
  let st := set_m_pendingTrackWrites [] st in
  let st := setMotorStatus now (diskSurfaceToBoolSide (m_floppySide st)) false st in
  resetMFMCache st.

(** The capacity test of [writeShortToBuffer]:
    [(ARD_MFM_BUFFER_MAX_TRACK_LENGTH * 8) - 16]. *)
Definition writeBufferLimit : Z := ARD_MFM_BUFFER_MAX_TRACK_LENGTH * 8 - 16.

(** The last statement of [writeShortToBuffer]: the word is appended, high
    byte first, when the buffer has room for it. *)
Definition appendWord (sideB : bool) (track mfmWord mfmPosition : Z) (st : Bridge) : Bridge :=
  let w := m_currentWriteTrack st in
  if floppyBufferSizeBits w <? writeBufferLimit then
    let first := floppyBufferSizeBits w =? 0 in
    let w := if first
             then mkTrackToWrite (tw_mfmBuffer w) (boolSideToDiskSurface sideB) (to_uint8 track)
                    (floppyBufferSizeBits w) (writeFromIndex w)
             else w in
    let st := if first then set_m_currentWriteStartMfmPosition mfmPosition st else st in
    let buf := store (tw_mfmBuffer w) (Z.shiftr (floppyBufferSizeBits w) 3)
                 (to_uint8 (Z.shiftr mfmWord 8)) in
    let buf := store buf (Z.shiftr (floppyBufferSizeBits w) 3 + 1)
                 (to_uint8 (Z.land mfmWord 0xFF)) in
    let w := mkTrackToWrite buf (side w) (trackNumber w)
               (to_uint32 (floppyBufferSizeBits w + 16)) (writeFromIndex w) in
    set_m_currentWriteTrack w st
  else st.

(** [writeShortToBuffer(bool side, unsigned int track, unsigned short mfmData,
    int mfmPosition)]. *)
Definition writeShortToBuffer (now : Z) (sideB : bool) (track mfmWord mfmPosition : Z)
    (st : Bridge) : Bridge :=
  let st := switchDiskSide now sideB st in
  let st := gotoCylinder now (to_int32 track) sideB st in
  let st := set_m_delayStreaming true st in
  let st := set_m_delayStreamingStart now st in
  appendWord sideB track mfmWord mfmPosition st.

(** The block of [commitWriteBuffer] under [// Prevent old data being read
    back by WinUAE]. *)
Definition invalidateCache (track : Z) (st : Bridge) : Bridge :=
  let cache := cacheAt st track (m_floppySide st) in
  let cache := set_current (set_ready false (current cache)) cache in
  let cache := set_next (set_amountReadInBits 0 (next cache)) cache in
  let cache := set_next (set_ready false (next cache)) cache in
  setCacheAt track (m_floppySide st) cache st.

(** The body of the [if] of [commitWriteBuffer]: [writeFromIndex] is set from
    the position of the first word, the buffer is pushed onto the pending
    writes, the write command is queued and the cache entry invalidated. *)
Definition pushPendingWrite (track : Z) (st : Bridge) : Bridge :=
  let w := m_currentWriteTrack st in
  let w := mkTrackToWrite (tw_mfmBuffer w) (side w) (trackNumber w) (floppyBufferSizeBits w)
             ((m_currentWriteStartMfmPosition st <=? 10)
              || (m_currentWriteStartMfmPosition st >=? maxMFMBitPosition st - 10)) in
  let st := set_m_currentWriteTrack w st in
  let st := set_m_pendingTrackWrites (m_pendingTrackWrites st ++ [m_currentWriteTrack st]) st in
  let st := queueCommand_i writeMFMData 0 st in
  invalidateCache track st.

(** [commitWriteBuffer(bool side, unsigned int track)]: the state it leaves
    and the track length it returns. *)
Definition commitWriteBuffer (now : Z) (sideB : bool) (track : Z) (st : Bridge)
    : Bridge * Z :=
  let st := switchDiskSide now sideB st in
  let st := gotoCylinder now (to_int32 track) sideB st in
  let st := set_m_delayStreaming true st in
  let st := set_m_delayStreamingStart now st in
  let st :=
    if negb (floppyBufferSizeBits (m_currentWriteTrack st) =? 0)
       && (trackNumber (m_currentWriteTrack st) =? track)
       && DiskSurface_eqb (side (m_currentWriteTrack st)) (boolSideToDiskSurface sideB)
    then pushPendingWrite track st
    else st in
  let st := resetWriteBuffer st in
  (st, to_uint32 (maxMFMBitPosition st)).


(** *** The worker thread *)

(** The calls of the emulator thread that change the bridge. *)
Inductive EmulatorCall : Type :=
  | callResetDrive
  | callSetMotorStatus (sideB turnOn : bool)
  | callGotoCylinder (trackNo : Z) (sideB : bool)
  | callMfmSwitchBuffer (sideB : bool)
  | callWriteShortToBuffer (sideB : bool) (track mfmWord mfmPosition : Z)
  | callCommitWriteBuffer (sideB : bool) (track : Z).

Definition emulatorCall (now : Z) (c : EmulatorCall) (st : Bridge) : Bridge :=
  match c with
  | callResetDrive => resetDrive now st
  | callSetMotorStatus sideB turnOn => setMotorStatus now sideB turnOn st
  | callGotoCylinder trackNo sideB => gotoCylinder now trackNo sideB st
  | callMfmSwitchBuffer sideB => mfmSwitchBuffer now sideB st
  | callWriteShortToBuffer sideB track mfmWord mfmPosition =>
      writeShortToBuffer now sideB track mfmWord mfmPosition st
  | callCommitWriteBuffer sideB track => fst (commitWriteBuffer now sideB track st)
  end.

(** One invocation of the callback that [handleBackgroundDiskRead] hands to
    [readCurrentTrackStream]: the samples at [mfmData], their length in bits
    and the end-of-revolution flag. *)
Record StreamChunk : Type := mkStreamChunk {
  chunkData : Z -> MFMSample;
  dataLengthInBits : Z;
  isEndOfRevolution : bool
}.

(** What happens while a read stream runs: the device delivers a chunk, or
    the emulator thread gets to make a call between two chunks. *)
Inductive StreamEvent : Type :=
  | seChunk (chunk : StreamChunk)
  | seEmulator (c : EmulatorCall).

(** The answers of the device ([m_io]) during one pass of the worker loop. *)
Record DeviceAnswers : Type := mkDeviceAnswers {
  fullControlMod : bool;
  writeProtectedReply : bool;
  diskInDriveReply : bool;
  stream : list StreamEvent;
  streamNoDisk : bool
}.

(** The lambda of [handleBackgroundDiskRead].  [trackData] is bound to
    [m_mfmRead[m_actualCurrentCylinder][(int)m_actualFloppySide].next] before
    the stream starts; only the worker, which is inside the stream, assigns
    these two members, so the entry is the same throughout.  The result is the
    state, [trackPositionInBytes] and the value returned to the stream. *)
Definition streamCallback (chunk : StreamChunk) (st : Bridge) (trackPositionInBytes : Z)
    : Bridge * Z * bool :=
  let cyl := m_actualCurrentCylinder st in
  let s := m_actualFloppySide st in
  let e := cacheAt st cyl s in
  if negb (Z.of_nat (length (m_queue st)) =? 0) then
    (setCacheAt cyl s (set_next (set_amountReadInBits 0 (next e)) e) st,
     trackPositionInBytes, false)
  else
    let endPos := to_uint32 (trackPositionInBytes + dataLengthInBits chunk / 8) in
    if endPos >=? ARD_MFM_BUFFER_MAX_TRACK_LENGTH then
      let bytesRemaining := to_uint32 (ARD_MFM_BUFFER_MAX_TRACK_LENGTH - trackPositionInBytes) in
      let nx := if negb (bytesRemaining =? 0)
                then set_mfmBuffer (memcpy (mfmBuffer (next e)) trackPositionInBytes
                                      (chunkData chunk) bytesRemaining) (next e)
                else next e in
      let nx := set_amountReadInBits (ARD_MFM_BUFFER_MAX_TRACK_LENGTH * 8) nx in
      let st := setCacheAt cyl s (set_next nx e) st in
      let st := saveNextBuffer cyl s st in
      (st, trackPositionInBytes, false)
    else
      let lengthInBytes := to_int32 (dataLengthInBits chunk / 8) in
      let lengthInBytes := if negb (Z.land (dataLengthInBits chunk) 7 =? 0)
                           then lengthInBytes + 1 else lengthInBytes in
      let nx := set_mfmBuffer (memcpy (mfmBuffer (next e)) trackPositionInBytes
                                 (chunkData chunk) lengthInBytes) (next e) in
      let nx := set_amountReadInBits
                  (to_int32 (amountReadInBits nx + dataLengthInBits chunk)) nx in
      let st := setCacheAt cyl s (set_next nx e) st in
      let trackPositionInBytes := to_uint32 (trackPositionInBytes + lengthInBytes) in
      if isEndOfRevolution chunk then
        let st := saveNextBuffer cyl s st in
        if negb (ready (next (cacheAt st cyl s))) then (st, 0, true) else (st, 0, false)
      else (st, trackPositionInBytes, true).

(** [readCurrentTrackStream] as the bridge sees it: the callback is invoked
    for each chunk until it returns false or the device stops delivering. *)
Fixpoint runStream (now : Z) (events : list StreamEvent) (st : Bridge)
    (trackPositionInBytes : Z) : Bridge :=
  match events with
  | [] => st
  | seEmulator c :: rest => runStream now rest (emulatorCall now c st) trackPositionInBytes
  | seChunk chunk :: rest =>
      let '(st', pos', continue) := streamCallback chunk st trackPositionInBytes in
      if continue then runStream now rest st' pos' else st'
  end.

(** [handleBackgroundDiskRead]. *)
Definition handleBackgroundDiskRead (now : Z) (io : DeviceAnswers) (st : Bridge) : Bridge :=
  if negb (isReady st) then st else
  let cyl := m_actualCurrentCylinder st in
  let s := m_actualFloppySide st in
  if ready (next (cacheAt st cyl s)) then st else
  let e := cacheAt st cyl s in
  let e := set_next (set_amountReadInBits 0 (next e)) e in
  let e := set_next (set_ready false (next e)) e in
  let st := setCacheAt cyl s e st in
  let st := runStream now (stream io) st 0 in
  let st := if streamNoDisk io then set_m_diskInDrive false st else st in
  let e := cacheAt st cyl s in
  let st := if negb (ready (next e))
            then setCacheAt cyl s (set_next (set_amountReadInBits 0 (next e)) e) st
            else st in
  set_m_lastDiskCheckTime now st.

(** [processCommand], with [m_io] open.  The calls on [m_io] act on the
    device; what they answer is taken from [io]. *)
Definition processCommand (now : Z) (io : DeviceAnswers) (info : QueueInfo) (st : Bridge)
    : Bridge :=
  match command info with
  | qcMotorOn =>
      let st := set_m_motorSpinningUp true st in
      set_m_motorSpinningUpStart now st
  | qcGotoToTrack =>
      let st := set_m_lastDriveStepTime now st in
      let ignoreDiskCheck := m_motorSpinningUp st && negb (m_motorIsReady st) in
      let sinceCheck := to_uint32 (now - m_lastDiskCheckTime st) in
      let ignoreDiskCheck :=
        if negb (fullControlMod io) then
          ignoreDiskCheck
          || (((sinceCheck <=? DISKCHANGE_ONCE_INSERTED_CHECK_INTERVAL_NONMOD)
               && m_diskInDrive st)
              && ((sinceCheck <=? DISKCHANGE_BEFORE_INSERTED_CHECK_INTERVAL_NONMOD)
                  && negb (m_diskInDrive st)))
        else ignoreDiskCheck in
      let st := if negb ignoreDiskCheck then set_m_lastDiskCheckTime now st else st in
      let st := set_m_writeProtected (writeProtectedReply io) st in
      let st := set_m_actualCurrentCylinder (option_i info) st in
      set_m_lastDriveStepTime now st
  | qcMotorOff =>
      let st := set_m_motorSpinningUp false st in
      set_m_motorIsReady false st
  | qcSelectDiskSide =>
      let st := set_m_lastDriveStepTime now st in
      set_m_actualFloppySide (boolSideToDiskSurface (option_b info)) st
  | writeMFMData =>
      match m_pendingTrackWrites st with
      | track :: rest =>
          let st := set_m_pendingTrackWrites rest st in
          if negb (floppyBufferSizeBits track =? 0) then
            let st := if negb (m_actualCurrentCylinder st =? trackNumber track)
                      then set_m_actualCurrentCylinder (trackNumber track) st else st in
            let st := if negb (DiskSurface_eqb (m_actualFloppySide st) (side track))
                      then set_m_actualFloppySide (side track) st else st in
            let e := cacheAt st (m_actualCurrentCylinder st) (m_actualFloppySide st) in
            let st := setCacheAt (m_actualCurrentCylinder st) (m_actualFloppySide st)
                        (set_current (set_ready false (current e)) e) st in
            let st := set_m_lastDriveStepTime now st in
            set_m_delayStreaming false st
          else st
      | [] => st
      end
  | qcTerminate => st
  end.

(** [processQueue]: the state and whether the thread should quit. *)
Definition processQueue (now : Z) (io : DeviceAnswers) (st : Bridge) : Bridge * bool :=
  match m_queue st with
  | cmd :: rest =>
      let st := set_m_queue rest st in
      if QueueCommand_eqb (command cmd) qcTerminate then (st, true)
      else (processCommand now io cmd st, false)
  | [] => (st, false)
  end.

(** The [else] branch of the wait in [mainThread], taken when the wait on
    the semaphore times out: a background read when the motor is ready and no
    write is under way, then the periodic check for a disk. *)
Definition idleWork (now : Z) (io : DeviceAnswers) (st : Bridge) : Bridge :=
  let st :=
    if m_motorIsReady st then
      if negb (m_delayStreaming st)
         || (m_delayStreaming st && (to_uint32 (now - m_delayStreamingStart st) >? 100))
      then handleBackgroundDiskRead now io st else st
    else st in
  let sinceCheck := to_uint32 (now - m_lastDiskCheckTime st) in
  let readyForDiskCheck :=
    if fullControlMod io then
      ((sinceCheck >? DISKCHANGE_ONCE_INSERTED_CHECK_INTERVAL) && m_diskInDrive st)
      || ((sinceCheck >? DISKCHANGE_BEFORE_INSERTED_CHECK_INTERVAL)
          && negb (m_diskInDrive st))
    else
      ((sinceCheck >? DISKCHANGE_ONCE_INSERTED_CHECK_INTERVAL_NONMOD) && m_diskInDrive st)
      || ((sinceCheck >? DISKCHANGE_BEFORE_INSERTED_CHECK_INTERVAL_NONMOD)
          && negb (m_diskInDrive st)) in
  if readyForDiskCheck && (Z.of_nat (length (m_queue st)) <? 1) then
    let st := set_m_lastDiskCheckTime now st in
    set_m_writeProtected (writeProtectedReply io) st
  else st.

(** The end of the loop body of [mainThread]: the spin-up timer, then the
    disk state as the device reports it; the cache is erased when the disk
    has gone. *)
Definition updateDriveStatus (now : Z) (io : DeviceAnswers) (st : Bridge) : Bridge :=
  let st :=
    if m_motorSpinningUp st
       && (to_uint32 (now - m_motorSpinningUpStart st) >=? DISK_SPINUP_TIME)
    then
      let st := set_m_motorSpinningUp false st in
      let st := set_m_motorIsReady true st in
      set_m_lastDriveStepTime now st
    else st in
  let lastDiskState := m_diskInDrive st in
  let st := set_m_diskInDrive (diskInDriveReply io) st in
  if negb (Bool.eqb lastDiskState (m_diskInDrive st)) then
    if negb (m_diskInDrive st) then resetMFMCache st else st
  else st.

(** One pass through the [for (;;)] of [mainThread]; the boolean is true when
    the thread returns.  [WaitForSingleObject] on the semaphore succeeds, and
    takes one count, when the count is positive. *)
Definition mainThreadPass (now : Z) (io : DeviceAnswers) (st : Bridge) : Bridge * bool :=
  let '(st, quit) :=
    if 0 <? m_queueSemaphore st then
      processQueue now io (set_m_queueSemaphore (m_queueSemaphore st - 1) st)
    else (idleWork now io st, false) in
  if quit then (st, true) else (updateDriveStatus now io st, false).

(** The constructor: the members it initialises, over whatever the object's
    memory [mem] held. *)
Definition construct (mem : Bridge) : Bridge :=
  let st := set_m_motorSpinningUp false mem in
  let st := set_m_motorSpinningUpStart 0 st in
  let st := set_m_actualCurrentCylinder 0 st in
  let st := set_m_currentTrack 0 st in
  let st := set_m_motorIsReady false st in
  let st := set_m_isMotorRunning false st in
  let st := set_m_floppySide dsLower st in
  let st := set_m_pendingTrackWrites [] st in
  let st := set_m_queue [] st in
  let st := set_m_readBufferAvailable false st in
  let st := set_m_queueSemaphore 0 st in
  set_m_mfmRead (fun _ _ => mkMFMCaches zeroCache zeroCache []) st.

(** [initialise] on the path where the port opens with firmware 1.8 or later:
    the state in which the worker thread starts ([mainThread] begins with
    [m_lastDiskCheckTime = GetTickCount()]). *)
Definition initialise (now : Z) (diskInDrive : bool) (st : Bridge) : Bridge :=
  let st := set_m_currentTrack 0 st in
  let st := set_m_isMotorRunning false st in
  let st := set_m_motorIsReady false st in
  let st := set_m_writeProtected true st in
  let st := set_m_diskInDrive false st in
  let st := set_m_queue [] st in
  let st := set_m_queueSemaphore 0 st in
  let st := set_m_actualFloppySide dsLower st in
  let st := set_m_floppySide dsLower st in
  let st := set_m_diskInDrive diskInDrive st in
  set_m_lastDiskCheckTime now st.

(** What the two threads do, in the order in which it takes effect. *)
Inductive Event : Type :=
  | evEmulator (now : Z) (c : EmulatorCall)
  | evWorker (now : Z) (io : DeviceAnswers).

Definition step (ev : Event) (st : Bridge) : Bridge :=
  match ev with
  | evEmulator now c => emulatorCall now c st
  | evWorker now io => fst (mainThreadPass now io st)
  end.

Definition run (events : list Event) (st : Bridge) : Bridge :=
  fold_left (fun st ev => step ev st) events st.

(** The states of a bridge that was constructed and initialised. *)
Inductive Reachable : Bridge -> Prop :=
  | reach_start (mem : Bridge) (now : Z) (diskInDrive : bool) :
      Reachable (initialise now diskInDrive (construct mem))
  | reach_step (st : Bridge) (ev : Event) :
      Reachable st -> Reachable (step ev st).

End ArduinoFloppyBridge.

(** ** The packed-protocol adapter: [ArduinoInterface.cpp] *)

Module ArduinoInterface.

Definition OVERLAP_WINDOW_SIZE : Z := 32.
Definition QUEUE_SIZE : Z := OVERLAP_WINDOW_SIZE * 4.

(** [struct ArduinoPacket]. *)
Record ArduinoPacket : Type := mkArduinoPacket {
  isIndex : bool;
  readSpeed : Z;
  mfm : Z
}.

(** The inner [for] of [findSlidingWindow]: the number of positions [pos],
    from [pos] on, at which [searchSequence[pos] == searchArea[startIndex + pos]].
    [startIndex + pos] is computed in [unsigned int], which makes the test
    [startIndex + pos >= 0] always true. *)
Fixpoint scoreFrom (searchSequence searchArea : list Z) (startIndex pos : Z) : Z :=
  match searchSequence with
  | [] => 0
  | c :: rest =>
      let idx := to_uint32 (startIndex + pos) in
      (if (0 <=? idx) && (idx <? Z.of_nat (length searchArea))
          && (c =? nth (Z.to_nat idx) searchArea 0)
       then 1 else 0)
      + scoreFrom rest searchArea startIndex (pos + 1)
  end.

(** The score of the candidate [startIndex]. *)
Definition scoreAt (searchSequence searchArea : list Z) (startIndex : Z) : Z :=
  scoreFrom searchSequence searchArea startIndex 0.

(** The two nested [for] loops of [findSlidingWindow], with [n] values of [a]
    left to visit, from [a] on.  For each [a] the candidate [midPoint - a] is
    scored before [midPoint + a]; a score equal to the length of the search
    sequence ends both loops.  The result is [bestIndex] and, for the proofs
    only, the candidates scored so far, the last one first. *)
Fixpoint fanOut (searchSequence searchArea : list Z) (midPoint : Z) (n : nat) (a : Z)
    (bestIndex bestScore : Z) (scored : list Z) : Z * list Z :=
  match n with
  | O => (bestIndex, scored)
  | S n' =>
      let startIndex := midPoint + (-1) * a in
      let score := scoreAt searchSequence searchArea startIndex in
      let scored := startIndex :: scored in
      let improved := score >? bestScore in
      let bestIndex := if improved then startIndex else bestIndex in
      let bestScore := if improved then score else bestScore in
      if improved && (score =? Z.of_nat (length searchSequence)) then (bestIndex, scored)
      else
        let startIndex := midPoint + 1 * a in
        let score := scoreAt searchSequence searchArea startIndex in
        let scored := startIndex :: scored in
        let improved := score >? bestScore in
        let bestIndex := if improved then startIndex else bestIndex in
        let bestScore := if improved then score else bestScore in
        if improved && (score =? Z.of_nat (length searchSequence)) then (bestIndex, scored)
        else fanOut searchSequence searchArea midPoint n' (a + 1) bestIndex bestScore scored
  end.

(** [findSlidingWindow] on the run-length codes: [searchSequence] is the
    fingerprint, [futureCodes] and [currentCodes] are the [mfm] members of the
    two queues, front first.  [midPoint] is computed in [size_t] (32 bits in
    the Win32 build) and stored in an [int]. *)
Definition findSlidingWindowTrace (searchSequence futureCodes currentCodes : list Z)
    : Z * list Z :=
  if Z.of_nat (length futureCodes) <? OVERLAP_WINDOW_SIZE then (0, []) else
  if Z.of_nat (length currentCodes) <? OVERLAP_WINDOW_SIZE then (0, []) else
  if Z.of_nat (length searchSequence) <? OVERLAP_WINDOW_SIZE then (0, []) else
  let searchArea := currentCodes ++ futureCodes in
  let bestIndex := to_int32 (Z.of_nat (length currentCodes) - 1) in
  let bestScore := 0 in
  let midPoint :=
    to_int32 (to_uint32 (Z.of_nat (length searchArea) - Z.of_nat (length searchSequence)) / 2) in
  fanOut searchSequence searchArea midPoint (Z.to_nat (midPoint + 1)) 0 bestIndex bestScore [].

(** [findSlidingWindow(searchSequence, futureBitSequences, currentBitSequences)]. *)
Definition findSlidingWindow (searchSequence : list Z)
    (futureBitSequences currentBitSequences : list ArduinoPacket) : Z :=
  fst (findSlidingWindowTrace searchSequence (map mfm futureBitSequences)
         (map mfm currentBitSequences)).

(** *** Writing with precompensation *)

Definition PRECOMP_NONE : Z := 0x00.
Definition PRECOMP_ERLY : Z := 0x04.
Definition PRECOMP_LATE : Z := 0x08.

(** [readBit(buffer, maxLength, pos, bit)]: the bit and the new [pos], [bit].
    Past the end of the buffer it supplies the padding 0101... *)
Definition readBit (buffer : Z -> Z) (maxLength : Z) (pos bit : Z) : Z * Z * Z :=
  if pos >=? to_int32 maxLength then
    let bit := bit - 1 in
    let '(bit, pos) := if bit <? 0 then (7, pos + 1) else (bit, pos) in
    (if negb (Z.land bit 1 =? 0) then 0 else 1, pos, bit)
  else
    let ret := Z.land (Z.shiftr (buffer pos) bit) 1 in
    let bit := bit - 1 in
    let '(bit, pos) := if bit <? 0 then (7, pos + 1) else (bit, pos) in
    (ret, pos, bit).

(** The variables the encoding loop carries from one flux transition to the
    next: the read position, the rolling window [sequence] (an [unsigned
    char] kept to seven bits) and the previous gap [lastCount]. *)
Record Encoder : Type := mkEncoder {
  pos : Z;
  bit : Z;
  sequence : Z;
  lastCount : Z
}.

(** The [do ... while] that reads up to the next 1 bit: [fuel] bounds the
    iterations left after this one.  The result is [pos], [bit], [sequence]
    and [count]. *)
Fixpoint scanToOne (fuel : nat) (mfmData : Z -> Z) (numBytes : Z)
    (pos bit sequence count : Z) : Z * Z * Z * Z :=
  let '(b, pos, bit) := readBit mfmData numBytes pos bit in
  let sequence := Z.lor (Z.land (Z.shiftl sequence 1) 0x7F) b in
  let count := count + 1 in
  if (Z.land sequence 0x08 =? 0) && (pos <? numBytes + 8) then
    match fuel with
    | O => (pos, bit, sequence, count)
    | S fuel' => scanToOne fuel' mfmData numBytes pos bit sequence count
    end
  else (pos, bit, sequence, count).

(** Enough iterations for [scanToOne] to leave its loop by the loop test:
    every iteration consumes one of the bits left before [numBytes + 8]. *)
Definition scanFuel (numBytes pos : Z) : nat := Z.to_nat (8 * (numBytes + 9 - pos)).

(** The [switch (sequence)] of [writeCurrentTrackPrecomp]. *)
Definition precompFor (usePrecomp : bool) (sequence : Z) : Z :=
  if usePrecomp then
    if (sequence =? 0x09) || (sequence =? 0x0A) || (sequence =? 0x4A) then PRECOMP_ERLY
    else if (sequence =? 0x28) || (sequence =? 0x29) || (sequence =? 0x48) then PRECOMP_LATE
    else PRECOMP_NONE
  else PRECOMP_NONE.

(** One pass through the body of [for (int i = 0; i < 2; i++)]: the encoder
    after it and the value [(lastCount - 2) | precomp] that is shifted into
    the output byte. *)
Definition encodeNibble (usePrecomp : bool) (mfmData : Z -> Z) (numBytes : Z) (e : Encoder)
    : Encoder * Z :=
  let '(pos, bit, sequence, count) :=
    scanToOne (scanFuel numBytes (pos e)) mfmData numBytes (pos e) (bit e) (sequence e) 0 in
  let count := if count <? 2 then 2 else count in
  let count := if count >? 5 then 5 else count in
  let precomp := precompFor usePrecomp sequence in
  (mkEncoder pos bit sequence count, Z.lor (lastCount e - 2) precomp).

(** One pass through the body of the [while]: the output byte holds the
    nibble of [i = 0] in its low half and that of [i = 1] in its high half. *)
Definition encodeByte (usePrecomp : bool) (mfmData : Z -> Z) (numBytes : Z) (e : Encoder)
    : Encoder * Z :=
  let output := 0 in
  let '(e, nibble) := encodeNibble usePrecomp mfmData numBytes e in
  let output := to_uint8 (Z.lor output (Z.shiftl nibble (0 * 4))) in
  let '(e, nibble) := encodeNibble usePrecomp mfmData numBytes e in
  let output := to_uint8 (Z.lor output (Z.shiftl nibble (1 * 4))) in
  (e, output).

(** How the encoding part of [writeCurrentTrackPrecomp] ends. *)
Inductive Encoded : Type :=
  | encoded (outputBuffer : list Z)
  | drSendParameterFailed
  | outOfFuel.

(** The [while (pos < numBytes + 8)] loop.  [outputBuffer] is the output so
    far and [outputPos] its length. *)
Fixpoint encodeLoop (fuel : nat) (usePrecomp : bool) (mfmData : Z -> Z) (numBytes : Z)
    (maxOutSize : Z) (e : Encoder) (outputBuffer : list Z) (outputPos : Z) : Encoded :=
  if pos e <? numBytes + 8 then
    match fuel with
    | O => outOfFuel
    | S fuel' =>
        let '(e, output) := encodeByte usePrecomp mfmData numBytes e in
        let outputBuffer := outputBuffer ++ [output] in
        let outputPos := to_uint32 (outputPos + 1) in
        if outputPos >=? maxOutSize then drSendParameterFailed
        else encodeLoop fuel' usePrecomp mfmData numBytes maxOutSize e outputBuffer outputPos
    end
  else encoded outputBuffer.

(** [writeCurrentTrackPrecomp] up to the call of [internalWriteTrack]: the
    packed buffer it hands over.  [numBytes] is an [unsigned short]. *)
Definition writeCurrentTrackPrecomp (mfmData : Z -> Z) (numBytes : Z) (usePrecomp : bool)
    : Encoded :=
  let maxOutSize := to_uint32 (numBytes * 4 + 16) in
  encodeLoop (Z.to_nat (8 * (numBytes + 9))) usePrecomp mfmData numBytes maxOutSize
    (mkEncoder 0 7 0xAA 2) [] 0.

End ArduinoInterface.

(** ** The opcode-flux adapter: [GreaseWeazleInterface.cpp] *)

Module GreaseWeazleInterface.

Definition ONE_NANOSECOND : Z := 1000000000.
Definition BITCELL_SIZE_IN_NS : Z := 2000.
Definition OVERLAP_WINDOW_SIZE : Z := 32.

(** [enum class FluxOp { Index = 1, Space = 2, Astable = 3 }]. *)
Definition FluxOp_Index : Z := 1.
Definition FluxOp_Space : Z := 2.
Definition FluxOp_Astable : Z := 3.

(** [struct Sequence]. *)
Record Sequence : Type := mkSequence {
  sequence : Z;
  speed : Z;
  atIndex : bool
}.

(** [struct PLLData], the two members [unpackStreamQueue] uses. *)
Record PLLData : Type := mkPLLData {
  freq : Z;
  ticks : Z
}.

(** [FastQueue2<unsigned char>], front first.  [front()] of an empty queue
    reads a stale slot of the ring buffer; the callers test [size()] first. *)
Definition front (queue : list Z) : Z := hd 0 queue.

(** [pop()]: nothing happens on an empty queue. *)
Definition pop (queue : list Z) : list Z := tl queue.

(** [next()]: [front()] then [pop()]. *)
Definition queue_next (queue : list Z) : Z * list Z := (front queue, pop queue).

(** [read_28bit]: the value and the queue it leaves. *)
Definition read_28bit (queue : list Z) : Z * list Z :=
  let '(b, queue) := queue_next queue in
  let x := Z.shiftr b 1 in
  let '(b, queue) := queue_next queue in
  let x := Z.lor x (Z.shiftl (Z.land b 0xfe) 6) in
  let '(b, queue) := queue_next queue in
  let x := Z.lor x (Z.shiftl (Z.land b 0xfe) 13) in
  let '(b, queue) := queue_next queue in
  let x := Z.lor x (Z.shiftl (Z.land b 0xfe) 20) in
  (x, queue).

(** [write28bit]: four bytes are appended to [output].  In C++ [&] binds
    tighter than [|], so each byte is [1 | (... & 255)]. *)
Definition write28bit (value : Z) (output : list Z) : list Z :=
  let output := output ++ [to_uint8 (Z.lor 1 (Z.land (Z.shiftl value 1) 255))] in
  let output := output ++ [to_uint8 (Z.lor 1 (Z.land (Z.shiftr value 6) 255))] in
  let output := output ++ [to_uint8 (Z.lor 1 (Z.land (Z.shiftr value 13) 255))] in
  let output := output ++ [to_uint8 (Z.lor 1 (Z.land (Z.shiftr value 20) 255))] in
  output.

(** [nSecToTicks(int nSec, int sampleFrequency)]: a [long long] product and a
    truncating division, returned as [int]. *)
Definition nSecToTicks (nSec sampleFrequency : Z) : Z :=
  to_int32 (Z.quot (nSec * sampleFrequency) ONE_NANOSECOND).

(** [ticksToNSec(int ticks, int sampleFrequency)]. *)
Definition ticksToNSec (ticks sampleFrequency : Z) : Z :=
  to_int32 (Z.quot (ticks * ONE_NANOSECOND) sampleFrequency).

(** The [while (t > (BITCELL_SIZE_IN_NS / 2))] of [unpackStreamQueue]:
    [output.sequence], an [unsigned char], after the loop. *)
Fixpoint clockOut (fuel : nat) (t : Z) (sequence : Z) : Z :=
  match fuel with
  | O => sequence
  | S fuel' =>
      if t >? BITCELL_SIZE_IN_NS / 2
      then clockOut fuel' (t - BITCELL_SIZE_IN_NS) (to_uint8 (sequence + 1))
      else sequence
  end.

(** The part of [unpackStreamQueue] from [pllData.ticks += val;] on, which the
    one-byte and the two-byte run lengths share. *)
Definition accumulateTicks (val : Z) (queue : list Z) (pllData : PLLData) (output : Sequence)
    : Z * list Z * PLLData * Sequence :=
  let pllData := mkPLLData (freq pllData) (ticks pllData + val) in
  let tickInNS := ticksToNSec (ticks pllData) (to_int32 (freq pllData)) in
  if tickInNS >? BITCELL_SIZE_IN_NS then
    let t := tickInNS - BITCELL_SIZE_IN_NS in
    let s := clockOut (Z.to_nat t) t 0 in
    let s := if s <? 1 then 1 else s in
    let s := to_uint8 (s - 1) in
    let sp := to_uint16 (Z.quot (tickInNS * 100) ((s + 2) * BITCELL_SIZE_IN_NS)) in
    (1, queue, mkPLLData (freq pllData) 0, mkSequence s sp (atIndex output))
  else (0, queue, pllData, output).

(** [unpackStreamQueue]: the value returned (0 nothing, 1 data, 2 index) and
    the queue, [pllData] and [output] it leaves. *)
Definition unpackStreamQueue (queue : list Z) (pllData : PLLData) (output : Sequence)
    : Z * list Z * PLLData * Sequence :=
  if Z.of_nat (length queue) <? 1 then (0, queue, pllData, output) else
  let i := front queue in
  if i =? 255 then
    if Z.of_nat (length queue) <? 6 then (0, queue, pllData, output) else
    let queue := pop queue in
    let '(op, queue) := queue_next queue in
    if op =? FluxOp_Index then
      let '(_, queue) := read_28bit queue in
      (2, queue, pllData, output)
    else if op =? FluxOp_Space then
      let '(v, queue) := read_28bit queue in
      (0, queue, mkPLLData (freq pllData) (ticks pllData + v), output)
    else (0, queue, pllData, output)
  else
    if i <? 250 then
      accumulateTicks i (pop queue) pllData output
    else
      if Z.of_nat (length queue) >=? 2 then
        let queue := pop queue in
        let val := 250 + (i - 250) * 255 in
        let '(b, queue) := queue_next queue in
        let val := val + (b - 1) in
        accumulateTicks val queue pllData output
      else (0, queue, pllData, output).

(** *** Writing with precompensation *)

(** [precompTime], the Amiga default of 140 ns. *)
Definition precompTime : Z := 140.

(** The variables the encoding loop of [writeCurrentTrackPrecomp] carries
    from one flux transition to the next.  The rolling window, [sequence] in
    the source, is called [sequenceBits] here, [sequence] being a member of
    [Sequence]. *)
Record Encoder : Type := mkEncoder {
  pos : Z;
  bit : Z;
  sequenceBits : Z;
  extraTimeFromPrevious : Z
}.

(** The [if (usePrecomp) switch (sequence)]: [timeInNS] and
    [extraTimeFromPrevious] after it. *)
Definition applyPrecomp (usePrecomp : bool) (sequenceBits timeInNS extraTimeFromPrevious : Z)
    : Z * Z :=
  if usePrecomp then
    if (sequenceBits =? 0x09) || (sequenceBits =? 0x0A) || (sequenceBits =? 0x4A)
    then (timeInNS - precompTime, precompTime)
    else if (sequenceBits =? 0x28) || (sequenceBits =? 0x29) || (sequenceBits =? 0x48)
    then (timeInNS + precompTime, - precompTime)
    else (timeInNS, 0)
  else (timeInNS, extraTimeFromPrevious).

(** The block under [// Encode for GW]: the bytes appended for one interval
    of [ticks] sample ticks.  [nfa_thresh] is computed once per call in
    [float] arithmetic from the sample frequency and is taken as given. *)
Definition encodeTicks (ticks nfa_thresh : Z) (outputBuffer : list Z) : list Z :=
  if ticks >? 0 then
    if ticks <? 250 then outputBuffer ++ [to_uint8 ticks]
    else
      if ticks >? nfa_thresh then
        let outputBuffer := outputBuffer ++ [255] in
        let outputBuffer := outputBuffer ++ [FluxOp_Space] in
        let outputBuffer := write28bit ticks outputBuffer in
        let outputBuffer := outputBuffer ++ [255] in
        outputBuffer ++ [FluxOp_Space]
      else
        let high := to_uint32 (Z.quot (ticks - 250) 255) in
        if high <? 5 then
          let outputBuffer := outputBuffer ++ [to_uint8 (250 + high)] in
          outputBuffer ++ [to_uint8 (1 + Z.rem (ticks - 250) 255)]
        else
          let outputBuffer := outputBuffer ++ [255] in
          let outputBuffer := outputBuffer ++ [FluxOp_Space] in
          let outputBuffer := write28bit (ticks - 249) outputBuffer in
          outputBuffer ++ [249]
  else outputBuffer.

(** One pass through the body of [while (pos < numBytes + 1)]: the encoder
    and the output after it and, for the proofs only, the [timeInNS] that was
    converted to ticks.  [readBit] and the [do ... while] are, text for text,
    those of [ArduinoInterface.cpp]. *)
Definition encodeInterval (usePrecomp : bool) (sample_freq nfa_thresh : Z)
    (mfmData : Z -> Z) (numBytes : Z) (e : Encoder) (outputBuffer : list Z)
    : Encoder * list Z * Z :=
  let '(pos, bit, sequenceBits, count) :=
    ArduinoInterface.scanToOne (ArduinoInterface.scanFuel numBytes (pos e)) mfmData numBytes
      (pos e) (bit e) (sequenceBits e) 0 in
  let count := if count <? 2 then 2 else count in
  let count := if count >? 5 then 5 else count in
  let timeInNS := extraTimeFromPrevious e + count * 2000 in
  let '(timeInNS, extra) :=
    applyPrecomp usePrecomp sequenceBits timeInNS (extraTimeFromPrevious e) in
  let ticks := nSecToTicks timeInNS (to_int32 sample_freq) in
  (mkEncoder pos bit sequenceBits extra, encodeTicks ticks nfa_thresh outputBuffer, timeInNS).

(** How the encoding part of [writeCurrentTrackPrecomp] ends. *)
Inductive Encoded : Type :=
  | encoded (outputBuffer : list Z)
  | outOfFuel.

(** The [while (pos < numBytes + 1)] loop and the final [push_back(0)]. *)
Fixpoint encodeLoop (fuel : nat) (usePrecomp : bool) (sample_freq nfa_thresh : Z)
    (mfmData : Z -> Z) (numBytes : Z) (e : Encoder) (outputBuffer : list Z) : Encoded :=
  if pos e <? numBytes + 1 then
    match fuel with
    | O => outOfFuel
    | S fuel' =>
        let '(e, outputBuffer, _) :=
          encodeInterval usePrecomp sample_freq nfa_thresh mfmData numBytes e outputBuffer in
        encodeLoop fuel' usePrecomp sample_freq nfa_thresh mfmData numBytes e outputBuffer
    end
  else encoded (outputBuffer ++ [0]).

(** [writeCurrentTrackPrecomp] up to the bytes it sends after the
    [WriteFlux] command. *)
Definition writeCurrentTrackPrecomp (sample_freq nfa_thresh : Z) (mfmData : Z -> Z)
    (numBytes : Z) (usePrecomp : bool) : Encoded :=
  encodeLoop (Z.to_nat (8 * (numBytes + 2))) usePrecomp sample_freq nfa_thresh mfmData numBytes
    (mkEncoder 0 7 0xAA 0) [].

(** [findSlidingWindow]: its body is, text for text, that of
    [ArduinoInterface.cpp], over the [sequence] members of the two queues. *)
Definition findSlidingWindow (searchSequence : list Z)
    (futureBitSequences currentBitSequences : list Sequence) : Z :=
  fst (ArduinoInterface.findSlidingWindowTrace searchSequence
         (map sequence futureBitSequences) (map sequence currentBitSequences)).

End GreaseWeazleInterface.

(** ** Concrete runs used by the examples *)

Module Scenario.

Import ArduinoFloppyBridge.

(** An object whose memory is all zero before the constructor runs. *)
Definition zeroMemory : Bridge :=
  mkBridge [] (mkTrackToWrite (fun _ => 0) dsUpper 0 0 false) 0 false 0
    (fun _ _ => mkMFMCaches zeroCache zeroCache []) 0 0 false false false 0 false false 0 0
    dsUpper dsUpper [] 0 false.

(** A bridge just started at tick 0, with a disk in the drive. *)
Definition started : Bridge := initialise 0 true (construct zeroMemory).

(** A device with a disk in it that delivers nothing. *)
Definition idleDevice : DeviceAnswers := mkDeviceAnswers true false true [] false.

(** Samples whose first bit is a 1, read at 120% of the nominal cell time. *)
Definition someSamples : Z -> MFMSample := fun _ => mkMFMSample (fun _ => 120) 0x80.

(** A device that delivers a revolution of 1024 bits: one chunk of 128 bytes,
    then the end-of-revolution callback with no further bits. *)
Definition shortRevolution : DeviceAnswers :=
  mkDeviceAnswers true false true
    [seChunk (mkStreamChunk someSamples 1024 false);
     seChunk (mkStreamChunk someSamples 0 true)]
    false.

(** The emulator starts the motor, the worker runs the command, sees the
    spin-up time pass and captures the short revolution of cylinder 0. *)
Definition readShortRevolution : list Event :=
  [evEmulator 0 (callSetMotorStatus false true);
   evWorker 10 idleDevice;
   evWorker 800 idleDevice;
   evWorker 801 shortRevolution].

(** ... after which the emulator seeks to cylinder 1 and straight back. *)
Definition seekAwayAndBack : list Event :=
  readShortRevolution
  ++ [evEmulator 2000 (callGotoCylinder 1 false);
      evEmulator 2001 (callGotoCylinder 0 false)].

(** A device whose disk has been taken out. *)
Definition diskRemoved : DeviceAnswers := mkDeviceAnswers true false false [] false.

(** The worker notices the removal on its next pass. *)
Definition removalObserved : list Event :=
  readShortRevolution ++ [evWorker 1500 diskRemoved].

(** After a reset, the emulator writes one word starting at bit position
    97050 of cylinder 0 and commits the write. *)
Definition oneWordWritten : list Event :=
  [evEmulator 0 callResetDrive;
   evEmulator 100 (callWriteShortToBuffer false 0 0x4489 97050)].

(** Four bytes of MFM data to write. *)
Definition someTrackData : Z -> Z :=
  fun i => if i =? 0 then 0x44 else if i =? 1 then 0x89 else if i =? 2 then 0x2A else 0xAA.

End Scenario.

(** ** Notions used in the statements *)

Module Notions.

Import ArduinoFloppyBridge.

(** A queue item is a seek. *)
Definition isSeek (info : QueueInfo) : bool := QueueCommand_eqb (command info) qcGotoToTrack.

(** The pending write buffer holds whole 16-bit words and no more than the
    capacity test of [writeShortToBuffer] lets in. *)
Definition WriteBufferInv (st : Bridge) : Prop :=
  floppyBufferSizeBits (m_currentWriteTrack st) mod 16 = 0
  /\ 0 <= floppyBufferSizeBits (m_currentWriteTrack st) <= writeBufferLimit.

(** A call of [writeShortToBuffer]: tick count, side, track, word, position. *)
Definition applyWrite (st : Bridge) (c : Z * bool * Z * Z * Z) : Bridge :=
  let '(now, sideB, track, mfmWord, mfmPosition) := c in
  writeShortToBuffer now sideB track mfmWord mfmPosition st.

(** The wording of C7: the write began within 10 bits of position 0, or it
    ended, [bits] bits after its start, within 10 bits of the maximum bit
    position. *)
Definition writeFromIndex_claimed (start bits maxBits : Z) : bool :=
  (start <=? 10) || (Z.abs (maxBits - (start + bits)) <=? 10).







(** The score of the specification: the number of positions at which the
    search sequence and the search area, taken from the start index on, hold
    the same code. *)
Fixpoint matchCount (fingerprint window : list Z) : Z :=
  match fingerprint, window with
  | c :: fingerprint', w :: window' =>
      (if c =? w then 1 else 0) + matchCount fingerprint' window'
  | _, _ => 0
  end.

(** The candidates in the order of the fan-out: for [a] from [a] on,
    [midPoint - a] then [midPoint + a]. *)
Fixpoint fanOrder (midPoint : Z) (n : nat) (a : Z) : list Z :=
  match n with
  | O => []
  | S n' => (midPoint - a) :: (midPoint + a) :: fanOrder midPoint n' (a + 1)
  end.

(** The number of [readBit] calls after which [pos] reaches [numBytes + 8],
    the position at which the encoding loops give up looking for a 1. *)
Definition bitsLeft (numBytes pos bit : Z) : Z := 8 * (numBytes + 8 - pos) + bit - 7.

(** What holds of [bestIndex] and [bestScore] in [findSlidingWindow] when
    the candidates at a distance below [a] from the mid-point have been
    scored and none of them reached the full score [len]; [fallback] is the
    initial [bestIndex]. *)
Definition fanOutInv (score : Z -> Z) (len midPoint fallback a bestIndex bestScore : Z)
    : Prop :=
  0 <= bestScore < len
  /\ ((bestScore = 0 /\ bestIndex = fallback
       /\ forall s, midPoint - a < s < midPoint + a -> score s = 0)
      \/ (0 < bestScore /\ score bestIndex = bestScore
          /\ midPoint - a < bestIndex < midPoint + a
          /\ forall s, midPoint - a < s < midPoint + a ->
                       score s <= bestScore
                       /\ (score s = bestScore ->
                           Z.abs (bestIndex - midPoint) <= Z.abs (s - midPoint)))).

(** What holds of the index that [findSlidingWindow] returns. *)
Definition fanOutPost (score : Z -> Z) (midPoint fallback r : Z) : Prop :=
  (r = fallback /\ forall s, 0 <= s <= 2 * midPoint -> score s = 0)
  \/ (0 <= r <= 2 * midPoint /\ 0 < score r
      /\ forall s, 0 <= s <= 2 * midPoint ->
                   score s <= score r
                   /\ (score s = score r ->
                       Z.abs (r - midPoint) <= Z.abs (s - midPoint))).

End Notions.

(** ** Proof steps shared by the bridge proofs *)

Module BridgeTactics.

Import ArduinoFloppyBridge.

(** Reading a member back after assignments to members. *)
Ltac members :=
  cbn [
    m_pendingTrackWrites m_currentWriteTrack m_currentWriteStartMfmPosition
    m_delayStreaming m_delayStreamingStart m_mfmRead m_currentTrack
    m_actualCurrentCylinder m_writeProtected m_diskInDrive m_motorSpinningUp
    m_motorSpinningUpStart m_motorIsReady m_isMotorRunning m_lastDiskCheckTime
    m_lastDriveStepTime m_floppySide m_actualFloppySide m_queue m_queueSemaphore
    m_readBufferAvailable set_m_pendingTrackWrites set_m_currentWriteTrack
    set_m_currentWriteStartMfmPosition set_m_delayStreaming set_m_delayStreamingStart
    set_m_mfmRead set_m_currentTrack set_m_actualCurrentCylinder set_m_writeProtected
    set_m_diskInDrive set_m_motorSpinningUp set_m_motorSpinningUpStart
    set_m_motorIsReady set_m_isMotorRunning set_m_lastDiskCheckTime
    set_m_lastDriveStepTime set_m_floppySide set_m_actualFloppySide set_m_queue
    set_m_queueSemaphore set_m_readBufferAvailable tw_mfmBuffer side trackNumber
    floppyBufferSizeBits writeFromIndex mfmBuffer ready amountReadInBits current next
    startBitPatterns set_ready set_amountReadInBits set_mfmBuffer set_current set_next
    command qi_option fst snd ].

(** The helpers that only touch the queue, the event or the write buffer. *)
Ltac unfold_helpers :=
  unfold queueCommand_i, queueCommand_b, pushOntoQueue, releaseSemaphore,
    resetEventUnlessReady, resetWriteBuffer.

Ltac split_ifs :=
  repeat match goal with
         | |- context [if ?c then _ else _] => destruct c eqn:?
         end.

End BridgeTactics.

(** ** The ring-buffer queue of the two adapters: [FastQueue], [FastQueue2] *)

Module FastQueue.

(** [#define QUEUE_SIZE (OVERLAP_WINDOW_SIZE*4)], in both adapters. *)
Definition QUEUE_SIZE : Z := ArduinoInterface.QUEUE_SIZE.

(** [template <class queueType> class FastQueue]: the array and the three
    [unsigned int] members.  [FastQueue2] of [GreaseWeazleInterface.cpp] is,
    text for text, the same class. *)
Record FastQueue (queueType : Type) : Type := mkFastQueue {
  buffer : Z -> queueType;
  readHead : Z;
  writeHead : Z;
  bytes : Z
}.

Arguments mkFastQueue {queueType}.
Arguments buffer {queueType}.
Arguments readHead {queueType}.
Arguments writeHead {queueType}.
Arguments bytes {queueType}.

(** A queue as its declaration leaves it: the three members are 0 and the
    array holds whatever the memory [mem] held. *)
Definition newQueue {queueType : Type} (mem : Z -> queueType) : FastQueue queueType :=
  mkFastQueue mem 0 0 0.

(** [front()]. *)
Definition front {queueType : Type} (q : FastQueue queueType) : queueType :=
  buffer q (readHead q).

(** [pop()]: without effect on an empty queue. *)
Definition pop {queueType : Type} (q : FastQueue queueType) : FastQueue queueType :=
  if negb (bytes q =? 0) then
    mkFastQueue (buffer q) (to_uint32 (readHead q + 1) mod QUEUE_SIZE) (writeHead q)
      (to_uint32 (bytes q - 1))
  else q.

(** [next()]: [front()] then [pop()]. *)
Definition next {queueType : Type} (q : FastQueue queueType)
    : queueType * FastQueue queueType :=
  (front q, pop q).

(** [size()]. *)
Definition size {queueType : Type} (q : FastQueue queueType) : Z := bytes q.

(** [push(c)]: without effect on a full queue. *)
Definition push {queueType : Type} (c : queueType) (q : FastQueue queueType)
    : FastQueue queueType :=
  if bytes q <? QUEUE_SIZE then
    mkFastQueue (store (buffer q) (writeHead q) c) (readHead q)
      (to_uint32 (writeHead q + 1) mod QUEUE_SIZE) (to_uint32 (bytes q + 1))
  else q.

(** The two operations that change a queue. *)
Inductive QueueOp (queueType : Type) : Type :=
  | opPush (c : queueType)
  | opPop.

Arguments opPush {queueType}.
Arguments opPop {queueType}.

Definition applyOp {queueType : Type} (q : FastQueue queueType) (op : QueueOp queueType)
    : FastQueue queueType :=
  match op with
  | opPush c => push c q
  | opPop => pop q
  end.

(** The elements a queue holds, the front first: [bytes] slots of the ring,
    from [readHead] on. *)
Definition contents {queueType : Type} (q : FastQueue queueType) : list queueType :=
  map (fun i => buffer q ((readHead q + Z.of_nat i) mod QUEUE_SIZE))
      (seq 0 (Z.to_nat (bytes q))).

(** The same two operations on a first-in first-out list that holds at most
    [QUEUE_SIZE] elements. *)
Definition fifoOp {queueType : Type} (l : list queueType) (op : QueueOp queueType)
    : list queueType :=
  match op with
  | opPush c => if Z.of_nat (length l) <? QUEUE_SIZE then l ++ [c] else l
  | opPop => tl l
  end.

(** What the members of a queue satisfy between two calls. *)
Definition QueueInv {queueType : Type} (q : FastQueue queueType) : Prop :=
  0 <= readHead q < QUEUE_SIZE
  /\ 0 <= bytes q <= QUEUE_SIZE
  /\ writeHead q = (readHead q + bytes q) mod QUEUE_SIZE.

End FastQueue.

(** ** The read stream of the packed-protocol adapter: [ArduinoInterface.cpp] *)

Module ArduinoStream.

Import ArduinoFloppyBridge.
Import ArduinoInterface.

Definition BITCELL_SIZE_IN_NS : Z := 2000.

(** The two packets [readCurrentTrackStream] pushes onto
    [futureBitSequences] for one byte of the stream. *)
Definition packetsOfByte (byteRead : Z) : ArduinoPacket * ArduinoPacket :=
  (mkArduinoPacket (negb (Z.land byteRead 0x80 =? 0))
     (to_uint8 (Z.land byteRead 0x07 * 16))
     (to_uint8 (Z.land (Z.shiftr byteRead 5) 0x03)),
   mkArduinoPacket false
     (to_uint8 (Z.land byteRead 0x07 * 16))
     (to_uint8 (Z.land (Z.shiftr byteRead 3) 0x03))).

(** [writeStreamBit(output, pos, bit, value, valuespeed, maxLength)]: the
    buffer, [pos] and [bit] after the call. *)
Definition writeStreamBit (output : Z -> MFMSample) (pos bit value valuespeed maxLength : Z)
    : (Z -> MFMSample) * Z * Z :=
  if pos >=? maxLength then (output, pos, bit) else
  let d := to_uint8 (Z.shiftl (mfmData (output pos)) 1) in
  let d := to_uint8 (Z.lor d value) in
  let sp := store (speed (output pos)) (to_uint32 (7 - bit)) (to_uint8 valuespeed) in
  let output := store output pos (mkMFMSample sp d) in
  let bit := to_uint32 (bit + 1) in
  if bit >=? 8 then (output, to_uint32 (pos + 1), 0) else (output, pos, bit).

(** [int sequence = (value.mfm == 0) ? 2 : value.mfm - 1;] *)
Definition sequenceOf (value : ArduinoPacket) : Z :=
  if mfm value =? 0 then 2 else mfm value - 1.

(** The local [speed] of [outputBitSequence]: the time of the sequence, in
    percent of the time [sequence + 2] bit cells should take. *)
Definition speedOf (value : ArduinoPacket) : Z :=
  let sequence := sequenceOf value in
  let ticksInNS :=
    to_int32 (3000 + sequence * 2000 + Z.quot (to_int32 (64 + readSpeed value * 2000)) 128) in
  to_int32 (Z.quot (ticksInNS * 100) ((sequence + 2) * BITCELL_SIZE_IN_NS)).

(** [for (int a = 0; a <= sequence; a++) writeStreamBit(buffer, pos, bit, 0,
    speed, maxBufferSize);], [n] iterations of it. *)
Fixpoint writeZeroBits (n : nat) (buffer : Z -> MFMSample) (pos bit valuespeed maxLength : Z)
    : (Z -> MFMSample) * Z * Z :=
  match n with
  | O => (buffer, pos, bit)
  | S n' =>
      let '(buffer, pos, bit) := writeStreamBit buffer pos bit 0 valuespeed maxLength in
      writeZeroBits n' buffer pos bit valuespeed maxLength
  end.

(** [outputBitSequence(value, buffer, pos, bit, maxBufferSize)]. *)
Definition outputBitSequence (value : ArduinoPacket) (buffer : Z -> MFMSample)
    (pos bit maxBufferSize : Z) : (Z -> MFMSample) * Z * Z :=
  let sequence := sequenceOf value in
  let speed := to_uint32 (speedOf value) in
  let maxLength := to_uint32 maxBufferSize in
  let '(buffer, pos, bit) :=
    writeZeroBits (Z.to_nat (sequence + 1)) buffer pos bit speed maxLength in
  writeStreamBit buffer pos bit (if sequence =? 3 then 0 else 1) speed maxLength.

(** The pointer [bufStart]: the buffer seen from sample [offset] on. *)
Definition from {A : Type} (buffer : Z -> A) (offset : Z) : Z -> A :=
  fun i => buffer (offset + i).

(** How a call of [flushAndPush] ends: the value returned, the buffer, [pos]
    and [bit], the state of the callback and, for the proofs only, the
    chunks the callback was given, the first one first. *)
Record Flushed (St : Type) : Type := mkFlushed {
  continue : bool;
  buffer : Z -> MFMSample;
  pos : Z;
  bit : Z;
  receiver : St;
  delivered : list StreamChunk
}.

Arguments mkFlushed {St}.
Arguments continue {St}.
Arguments buffer {St}.
Arguments pos {St}.
Arguments bit {St}.
Arguments receiver {St}.
Arguments delivered {St}.

Section FlushAndPush.

Context {St : Type}.

(** The callback [dataStream]: what it returns and the state it leaves. *)
Variable dataStream : StreamChunk -> St -> St * bool.

(** The [while ((int)pos > flushSize)] of [flushAndPush]: [None] when [fuel]
    iterations were not enough; otherwise whether every call of the callback
    returned true, [pos], [bufStart] as an offset into the buffer, the state
    of the callback and the chunks it was given. *)
Fixpoint flushLoop (fuel : nat) (buffer : Z -> MFMSample) (pos bufStart flushSize : Z)
    (maxBlockSize : Z) (s : St) (given : list StreamChunk)
    : option (bool * Z * Z * St * list StreamChunk) :=
  if to_int32 pos >? flushSize then
    match fuel with
    | O => None
    | S fuel' =>
        let amountToSend := to_int32 maxBlockSize in
        let amountToSend := if to_int32 pos <? amountToSend then to_int32 pos
                            else amountToSend in
        let chunk := mkStreamChunk (from buffer bufStart) (to_uint32 (amountToSend * 8)) false in
        let '(s, more) := dataStream chunk s in
        let given := given ++ [chunk] in
        if negb more then Some (false, pos, bufStart, s, given)
        else flushLoop fuel' buffer (to_uint32 (pos - amountToSend)) (bufStart + amountToSend)
               flushSize maxBlockSize s given
    end
  else Some (true, pos, bufStart, s, given).

(** The second half of [flushAndPush], under [if (flushALL)]. *)
Definition flushRest (buffer : Z -> MFMSample) (pos bit : Z) (s : St)
    (given : list StreamChunk) : Flushed St :=
  if negb (bit =? 0) then
    let shiftAmount := to_int32 (8 - bit) in
    let first := mkMFMSample (speed (buffer 0))
                   (to_uint8 (Z.shiftl (mfmData (buffer 0)) shiftAmount)) in
    let buffer := store buffer 0 first in
    let chunk := mkStreamChunk buffer bit true in
    let '(s, more) := dataStream chunk s in
    if negb more then mkFlushed false buffer pos bit s (given ++ [chunk])
    else mkFlushed true buffer pos 0 s (given ++ [chunk])
  else
    let chunk := mkStreamChunk buffer 0 true in
    let '(s, more) := dataStream chunk s in
    mkFlushed more buffer pos bit s (given ++ [chunk]).

(** [flushAndPush(buffer, pos, bit, maxBlockSize, maxBufferSize, dataStream,
    flushALL)].  [MoveMemory] copies [maxBufferSize - startBytes + 1] samples
    from [bufStart] to the start of the buffer; its size is computed in bytes
    and does not wrap while [startBytes] is at most [maxBufferSize + 1].  The
    loop is given [fuel] iterations. *)
Definition flushAndPush (fuel : nat) (buffer : Z -> MFMSample) (pos bit : Z)
    (maxBlockSize maxBufferSize : Z) (flushALL : bool) (s : St) : option (Flushed St) :=
  let flushSize := if flushALL then 0 else to_int32 maxBlockSize in
  if to_int32 pos >? flushSize then
    let startBytes := to_int32 pos in
    match flushLoop fuel buffer pos 0 flushSize maxBlockSize s [] with
    | None => None
    | Some (false, pos, bufStart, s, given) =>
        Some (mkFlushed false buffer pos bit s given)
    | Some (true, pos, bufStart, s, given) =>
        let '(buffer, pos) :=
          if (bit >? 0) || (pos >? 0)
          then (memcpy buffer 0 (from buffer bufStart)
                  (to_uint32 (maxBufferSize - startBytes + 1)), pos)
          else (buffer, 0) in
        Some (if flushALL then flushRest buffer pos bit s given
              else mkFlushed true buffer pos bit s given)
    end
  else
    Some (if flushALL then flushRest buffer pos bit s []
          else mkFlushed true buffer pos bit s []).

(** The loop [for (ArduinoPacket& value : patternsToOutput)] of
    [readCurrentTrackStream], and likewise the loop that empties
    [currentBitSequences]: every packet is written with [outputBitSequence]
    and the buffer then offered to [flushAndPush].  The loop goes on when
    [flushAndPush] returns false ([abortReadStreaming] acts on the device);
    [continue] records whether it ever did.  The loop of [flushAndPush] takes
    at most [pos] iterations, which it is given. *)
Fixpoint outputPatterns (patterns : list ArduinoPacket) (maxBlockSize maxBufferSize : Z)
    (r : Flushed St) : option (Flushed St) :=
  match patterns with
  | [] => Some r
  | value :: rest =>
      let '(buffer, pos, bit) :=
        outputBitSequence value (buffer r) (pos r) (bit r) (to_int32 maxBufferSize) in
      match flushAndPush (Z.to_nat pos) buffer pos bit maxBlockSize maxBufferSize false
              (receiver r) with
      | None => None
      | Some r' =>
          outputPatterns rest maxBlockSize maxBufferSize
            (mkFlushed (continue r && continue r') (ArduinoStream.buffer r')
               (ArduinoStream.pos r') (ArduinoStream.bit r') (receiver r')
               (delivered r ++ delivered r'))
      end
  end.

End FlushAndPush.

(** [const unsigned int maxBufferSize = maxBlockSize + (OVERLAP_WINDOW_SIZE *
    2) + 10;] in [readCurrentTrackStream]. *)
Definition maxBufferSizeFor (maxBlockSize : Z) : Z :=
  to_uint32 (maxBlockSize + OVERLAP_WINDOW_SIZE * 2 + 10).

End ArduinoStream.

(** ** Notions the properties of the read stream are stated with *)

Module StreamNotions.

Import ArduinoFloppyBridge.

(** A bit of the stream with the speed stored for it. *)
Definition Cell : Type := (bool * Z)%type.

(** The first [n] bits written into a sample, in the order written: the bit
    written as number [k] is bit [n - 1 - k] of [mfmData], and its speed is
    [speed[7 - k]]. *)
Definition sampleCells (s : MFMSample) (n : Z) : list Cell :=
  map (fun k => (Z.testbit (mfmData s) (n - 1 - Z.of_nat k), speed s (7 - Z.of_nat k)))
      (seq 0 (Z.to_nat n)).

(** The bits of the [n] samples from [offset] on, eight of each. *)
Definition samplesCells (buffer : Z -> MFMSample) (offset : Z) (n : nat) : list Cell :=
  concat (map (fun i => sampleCells (buffer (offset + Z.of_nat i)) 8) (seq 0 n)).

(** The bits a stream buffer holds: [pos] samples of eight bits and [bit]
    bits in the sample at [pos]. *)
Definition streamCells (buffer : Z -> MFMSample) (pos bit : Z) : list Cell :=
  samplesCells buffer 0 (Z.to_nat pos) ++ sampleCells (buffer pos) bit.

(** The bits of a chunk as the bridge addresses them ([getMFMBit] and
    [getMFMSpeed] read bit and speed [7 - (p & 7)] of sample [p >> 3]): the
    first [dataLengthInBits] bits of its samples. *)
Definition chunkCells (chunk : StreamChunk) : list Cell :=
  samplesCells (chunkData chunk) 0 (Z.to_nat (dataLengthInBits chunk / 8))
  ++ firstn (Z.to_nat (dataLengthInBits chunk mod 8))
       (sampleCells (chunkData chunk (dataLengthInBits chunk / 8)) 8).

(** The bits of a list of chunks. *)
Definition chunksCells (chunks : list StreamChunk) : list Cell :=
  concat (map chunkCells chunks).

(** The bits [outputBitSequence] is to write for a packet: [sequence + 1]
    zero bits, then a one bit (a zero bit when [sequence] is 3), every one
    with the speed of the packet. *)
Definition packetCells (value : ArduinoInterface.ArduinoPacket) : list Cell :=
  let sequence := ArduinoStream.sequenceOf value in
  let speed := to_uint8 (ArduinoStream.speedOf value) in
  repeat (false, speed) (Z.to_nat (sequence + 1)) ++ [(negb (sequence =? 3), speed)].

(** A callback that asks for more whatever it is given. *)
Definition neverStops {St : Type} (dataStream : StreamChunk -> St -> St * bool) : Prop :=
  forall chunk s, snd (dataStream chunk s) = true.

(** A callback that takes everything and keeps nothing. *)
Definition acceptAll : StreamChunk -> unit -> unit * bool := fun _ s => (s, true).

(** A buffer of zeroed samples. *)
Definition zeroBuffer : Z -> MFMSample := fun _ => zeroSample.

(** A byte of a Greaseweazle flux stream that is not the terminator. *)
Definition fluxByte (b : Z) : Prop := 1 <= b <= 255.

End StreamNotions.

(** ** Notions the properties of the two threads are stated with *)

Module ThreadNotions.

Import ArduinoFloppyBridge.

(** What the functions the emulator thread calls write, one assignment after
    the other, starting from [st0]: the members of the write buffer, of the
    position the emulator asked for and of the event, freely; the two motor
    flags, to false only; the queue, by [pushOntoQueue] and by the in-place
    update of [gotoCylinder]; the pending writes, emptied or extended
    together with a write command; the cache, by [internalSwitchCylinder],
    [invalidateCache] and the loop of [resetMFMCache]. *)
Inductive EmulatorWrite (st0 : Bridge) : Bridge -> Prop :=
  | ew_none : EmulatorWrite st0 st0
  | ew_currentWriteTrack (w : TrackToWrite) (st : Bridge) :
      EmulatorWrite st0 st -> EmulatorWrite st0 (set_m_currentWriteTrack w st)
  | ew_currentWriteStartMfmPosition (v : Z) (st : Bridge) :
      EmulatorWrite st0 st -> EmulatorWrite st0 (set_m_currentWriteStartMfmPosition v st)
  | ew_delayStreaming (v : bool) (st : Bridge) :
      EmulatorWrite st0 st -> EmulatorWrite st0 (set_m_delayStreaming v st)
  | ew_delayStreamingStart (v : Z) (st : Bridge) :
      EmulatorWrite st0 st -> EmulatorWrite st0 (set_m_delayStreamingStart v st)
  | ew_currentTrack (v : Z) (st : Bridge) :
      EmulatorWrite st0 st -> EmulatorWrite st0 (set_m_currentTrack v st)
  | ew_lastDriveStepTime (v : Z) (st : Bridge) :
      EmulatorWrite st0 st -> EmulatorWrite st0 (set_m_lastDriveStepTime v st)
  | ew_floppySide (v : DiskSurface) (st : Bridge) :
      EmulatorWrite st0 st -> EmulatorWrite st0 (set_m_floppySide v st)
  | ew_readBufferAvailable (v : bool) (st : Bridge) :
      EmulatorWrite st0 st -> EmulatorWrite st0 (set_m_readBufferAvailable v st)
  | ew_isMotorRunning (v : bool) (st : Bridge) :
      EmulatorWrite st0 st -> EmulatorWrite st0 (set_m_isMotorRunning v st)
  | ew_motorIsReady (st : Bridge) :
      EmulatorWrite st0 st -> EmulatorWrite st0 (set_m_motorIsReady false st)
  | ew_motorSpinningUp (st : Bridge) :
      EmulatorWrite st0 st -> EmulatorWrite st0 (set_m_motorSpinningUp false st)
  | ew_push (info : QueueInfo) (st : Bridge) :
      command info <> writeMFMData ->
      EmulatorWrite st0 st -> EmulatorWrite st0 (pushOntoQueue info st)
  | ew_retarget (trackNo : Z) (st : Bridge) :
      EmulatorWrite st0 st ->
      EmulatorWrite st0
        (set_m_queue (mapBack (fun b => mkQueueInfo (command b) (OptI trackNo)) (m_queue st))
           st)
  | ew_clearPending (st : Bridge) :
      EmulatorWrite st0 st -> EmulatorWrite st0 (set_m_pendingTrackWrites [] st)
  | ew_pendingWrite (w : TrackToWrite) (st : Bridge) :
      EmulatorWrite st0 st ->
      EmulatorWrite st0
        (queueCommand_i writeMFMData 0
           (set_m_pendingTrackWrites (m_pendingTrackWrites st ++ [w]) st))
  | ew_switch (cylinder : Z) (s : DiskSurface) (st : Bridge) :
      EmulatorWrite st0 st -> EmulatorWrite st0 (internalSwitchCylinder cylinder s st)
  | ew_invalidate (track : Z) (st : Bridge) :
      EmulatorWrite st0 st -> EmulatorWrite st0 (invalidateCache track st)
  | ew_eraseCache (st : Bridge) :
      EmulatorWrite st0 st ->
      EmulatorWrite st0
        (set_m_mfmRead
           (fun c s => if (0 <=? c) && (c <? ARD_MAX_CYLINDER_BRIDGE)
                       then mkMFMCaches zeroCache zeroCache []
                       else m_mfmRead st c s) st).

(** The members only the worker thread assigns are the same in [st'] as in
    [st], and the two motor flags are not raised. *)
Definition workerMembersKept (st st' : Bridge) : Prop :=
  m_actualCurrentCylinder st' = m_actualCurrentCylinder st
  /\ m_actualFloppySide st' = m_actualFloppySide st
  /\ m_writeProtected st' = m_writeProtected st
  /\ m_diskInDrive st' = m_diskInDrive st
  /\ m_motorSpinningUpStart st' = m_motorSpinningUpStart st
  /\ m_lastDiskCheckTime st' = m_lastDiskCheckTime st
  /\ (m_motorIsReady st' = true -> m_motorIsReady st = true)
  /\ (m_motorSpinningUp st' = true -> m_motorSpinningUp st = true).

(** A queue item is a write command. *)
Definition isWrite (info : QueueInfo) : bool :=
  QueueCommand_eqb (command info) writeMFMData.

(** The count of the semaphore never exceeds the length of the queue, nor the
    maximum of 100 the semaphore was created with. *)
Definition QueueInv (st : Bridge) : Prop :=
  0 <= m_queueSemaphore st <= Z.of_nat (length (m_queue st))
  /\ m_queueSemaphore st <= 100.

(** For every pending track write there is a write command in the queue. *)
Definition PendingInv (st : Bridge) : Prop :=
  (length (m_pendingTrackWrites st) <= length (filter isWrite (m_queue st)))%nat.

(** The queue, the semaphore and the pending writes are the same in [st'] as
    in [st]. *)
Definition queueKept (st st' : Bridge) : Prop :=
  m_queue st' = m_queue st
  /\ m_queueSemaphore st' = m_queueSemaphore st
  /\ m_pendingTrackWrites st' = m_pendingTrackWrites st.

(** [st'] is [st] but for the cache and the event. *)
Definition cacheWritten (st st' : Bridge) : Prop :=
  st' = set_m_readBufferAvailable (m_readBufferAvailable st') (set_m_mfmRead (m_mfmRead st') st).

(** An entry of the cache nothing was read into. *)
Definition blankEntry : MFMCaches := mkMFMCaches zeroCache zeroCache [].

(** A buffer of the cache holds at most as many bits as it has room for, and
    nothing was ever stored past its last sample. *)
Definition bufferOK (c : MFMCache) : Prop :=
  0 <= amountReadInBits c <= ARD_MFM_BUFFER_MAX_TRACK_LENGTH * 8
  /\ forall i, ~ (0 <= i < ARD_MFM_BUFFER_MAX_TRACK_LENGTH) -> mfmBuffer c i = zeroSample.

Definition BufferInv (st : Bridge) : Prop :=
  forall (cylinder : Z) (s : DiskSurface),
    bufferOK (current (cacheAt st cylinder s)) /\ bufferOK (next (cacheAt st cylinder s)).

(** The state while a read stream runs, [trackPositionInBytes] samples into
    the [next] buffer of the entry under the head. *)
Definition StreamBufferInv (trackPositionInBytes : Z) (st : Bridge) : Prop :=
  BufferInv st
  /\ 0 <= trackPositionInBytes <= ARD_MFM_BUFFER_MAX_TRACK_LENGTH
  /\ amountReadInBits
       (next (cacheAt st (m_actualCurrentCylinder st) (m_actualFloppySide st)))
     <= 8 * trackPositionInBytes.

(** No [next] buffer holds more in [st'] than in [st], unless it is empty. *)
Definition nextShrinks (st st' : Bridge) : Prop :=
  forall (cylinder : Z) (s : DiskSurface),
    amountReadInBits (next (cacheAt st' cylinder s)) = 0
    \/ amountReadInBits (next (cacheAt st' cylinder s))
       = amountReadInBits (next (cacheAt st cylinder s)).

(** The [current] buffers that are ready in [st] are the same in [st']. *)
Definition servedKept (st st' : Bridge) : Prop :=
  forall (cylinder : Z) (s : DiskSurface),
    ready (current (cacheAt st cylinder s)) = true ->
    current (cacheAt st' cylinder s) = current (cacheAt st cylinder s).

(** The event of a stream is a chunk, not a call of the emulator. *)
Definition isChunk (ev : StreamEvent) : bool :=
  match ev with
  | seChunk _ => true
  | seEmulator _ => false
  end.

(** The length of a chunk is an [unsigned]. *)
Definition chunkOK (chunk : StreamChunk) : Prop :=
  0 <= dataLengthInBits chunk <= 4294967295.

Definition streamEventOK (ev : StreamEvent) : Prop :=
  match ev with
  | seChunk chunk => chunkOK chunk
  | seEmulator _ => True
  end.

Definition eventOK (ev : Event) : Prop :=
  match ev with
  | evWorker _ io => Forall streamEventOK (stream io)
  | evEmulator _ _ => True
  end.

End ThreadNotions.

(** ** Notions the properties of the read path are stated with *)

Module ReadPathNotions.

Import ArduinoFloppyBridge.
Import StreamNotions.

(** The bits of a list of chunks, counted. *)
Definition chunksBits (chunks : list StreamChunk) : Z :=
  fold_right (fun chunk acc => dataLengthInBits chunk + acc) 0 chunks.

(** A chunk of whole samples that does not end the revolution. *)
Definition wholeChunk (chunk : StreamChunk) : Prop :=
  isEndOfRevolution chunk = false
  /\ 0 <= dataLengthInBits chunk /\ dataLengthInBits chunk mod 8 = 0.

(** The bit and the speed the bridge reads for a position: bit and speed
    [7 - (p & 7)] of sample [p >> 3], as [getMFMBit] and [getMFMSpeed]
    address them. *)
Definition cellAt (c : MFMCache) (mfmPositionBits : Z) : Cell :=
  (bitOf c (Z.shiftr mfmPositionBits 3) (7 - Z.land mfmPositionBits 7),
   speed (mfmBuffer c (Z.shiftr mfmPositionBits 3)) (7 - Z.land mfmPositionBits 7)).

(** The state while the callback fills the [next] buffer under the head, no
    command waiting: [trackPositionInBytes] samples are stored, their bits
    are [cells], and no [current] buffer is ready for that track. *)
Definition Filling (trackPositionInBytes : Z) (cells : list Cell) (st : Bridge) : Prop :=
  let e := cacheAt st (m_actualCurrentCylinder st) (m_actualFloppySide st) in
  m_queue st = []
  /\ 0 <= trackPositionInBytes
  /\ amountReadInBits (next e) = 8 * trackPositionInBytes
  /\ samplesCells (mfmBuffer (next e)) 0 (Z.to_nat trackPositionInBytes) = cells
  /\ ready (current e) = false.

End ReadPathNotions.

(** ** The read stream of the flux adapter: [GreaseWeazleInterface.cpp],
    and the speed [GreaseWeazleBridge.cpp] reports for it *)

Module GreaseWeazleStream.

(** [struct GWMfmSample]: one [unsigned short] speed for the eight bits of
    [mfmData]. *)
Record GWMfmSample : Type := mkGWMfmSample {
  speed : Z;
  mfmData : Z
}.

(** [writeStreamBit(output, pos, bit, value, valuespeed, maxLength)] of
    [GreaseWeazleInterface.cpp]: the buffer, [pos] and [bit] after the
    call.  The speed of a sample is reset with its first bit and the speed
    of every bit is added to it. *)
Definition writeStreamBit (output : Z -> GWMfmSample) (pos bit value valuespeed maxLength : Z)
    : (Z -> GWMfmSample) * Z * Z :=
  if pos >=? maxLength then (output, pos, bit) else
  let d := to_uint8 (Z.shiftl (mfmData (output pos)) 1) in
  let d := to_uint8 (Z.lor d value) in
  let sp := if bit =? 0 then 0 else speed (output pos) in
  let sp := to_uint16 (sp + valuespeed) in
  let output := store output pos (mkGWMfmSample sp d) in
  let bit := to_uint32 (bit + 1) in
  if bit >=? 8 then (output, to_uint32 (pos + 1), 0) else (output, pos, bit).

(** A run of calls of [writeStreamBit], one for each [(value, valuespeed)]
    of [writes]. *)
Fixpoint writeStreamBits (writes : list (Z * Z)) (output : Z -> GWMfmSample)
    (pos bit maxLength : Z) : (Z -> GWMfmSample) * Z * Z :=
  match writes with
  | [] => (output, pos, bit)
  | (value, valuespeed) :: rest =>
      let '(output, pos, bit) := writeStreamBit output pos bit value valuespeed maxLength in
      writeStreamBits rest output pos bit maxLength
  end.

(** [GreaseWeazleDiskBridge::getMFMSpeed], the value it returns for a sample
    of a buffer it reads from:
    [(10 * (int)(...mfmBuffer[mfmPositionByte].speed)) / 8], limited to
    700..3000 by the two [if]s that follow. *)
Definition limitedSpeed (sample : GWMfmSample) : Z :=
  let speed := Z.quot (10 * speed sample) 8 in
  let speed := if speed <? 700 then 700 else speed in
  let speed := if speed >? 3000 then 3000 else speed in
  speed.

(** The bits written, most significant first, as a number. *)
Definition valueOf (writes : list (Z * Z)) (start : Z) : Z :=
  fold_left (fun acc w => 2 * acc + fst w) writes start.

(** The sum of the speeds written. *)
Definition speedSum (writes : list (Z * Z)) : Z :=
  fold_right (fun w acc => snd w + acc) 0 writes.

(** A write of a bit at a speed that leaves room in the [unsigned short] for
    eight of them. *)
Definition writeOK (w : Z * Z) : Prop := 0 <= fst w <= 1 /\ 0 <= snd w <= 8191.

End GreaseWeazleStream.

(** ** Properties of the bridge facade *)

Module BridgeProperties.

Import ArduinoFloppyBridge.
Import Notions.
Import BridgeTactics.

Lemma Reachable_run (events : list Event) (st : Bridge) :
  Reachable st -> Reachable (run events st).
Proof.
  revert st. induction events as [|ev events IH]; intros st H.
  - exact H.
  - apply (IH (step ev st)). apply reach_step. exact H.
Qed.

Lemma limitedSpeed_range (c : MFMCache) (byte bitInByte : Z) :
  700 <= limitedSpeed c byte bitInByte <= 3000.
Proof.
  unfold limitedSpeed.
  destruct (10 * speed (mfmBuffer c byte) bitInByte <? 700) eqn:Hlo.
  - simpl. lia.
  - apply Z.ltb_ge in Hlo.
    destruct (10 * speed (mfmBuffer c byte) bitInByte >? 3000) eqn:Hhi.
    + lia.
    + rewrite Z.gtb_ltb in Hhi. apply Z.ltb_ge in Hhi. lia.
Qed.

(** C2.  Whatever the position, the time and the state of the bridge and of
    its cache, [getMFMSpeed] returns a value between 700 and 3000; when the
    motor is not ready or no disk is present it returns exactly 1000. *)
Theorem getMFMSpeed_clamped (now : Z) (st : Bridge) (mfmPositionBits : Z) :
  700 <= getMFMSpeed now st mfmPositionBits <= 3000
  /\ (m_motorIsReady st = false \/ m_diskInDrive st = false ->
      getMFMSpeed now st mfmPositionBits = 1000).
Proof.
  split.
  - unfold getMFMSpeed.
    destruct (negb (m_diskInDrive st) || negb (m_motorIsReady st)); [lia|].
    destruct (ready (current (activeCache st))); [apply limitedSpeed_range|].
    destruct (inGarbageWindow now st); [lia|]. simpl.
    destruct (mfmPositionBits <? amountReadInBits (next (activeCache st)));
      [apply limitedSpeed_range | lia].
  - intros H. unfold getMFMSpeed.
    destruct H as [H | H]; rewrite H; simpl;
      [rewrite orb_true_r | ]; reflexivity.
Qed.

Lemma getMFMSpeed_clamped_witness :
  m_motorIsReady Scenario.started = false /\ getMFMSpeed 0 Scenario.started 0 = 1000.
Proof.
  split; [reflexivity|].
  apply (proj2 (getMFMSpeed_clamped 0 Scenario.started 0)).
  left. reflexivity.
Defined.

(** C1 as stated does not hold.  After a short revolution of cylinder 0 was
    captured and the emulator sought to cylinder 1 and back, the bridge is 99
    ms into the garbage window, the current buffer of the active entry is
    ready, and the two functions serve the cached bit (a 1) and speed (1200). *)
Lemma garbage_window_counterexample :
  ~ (forall (now : Z) (st : Bridge) (later : Z -> MFMCaches) (mfmPositionBits : Z),
        Reachable st ->
        inGarbageWindow now st = true ->
        getMFMBit now st later mfmPositionBits = false
        /\ getMFMSpeed now st mfmPositionBits = 1000).
Proof.
  intros claim.
  pose (st := run Scenario.seekAwayAndBack Scenario.started).
  assert (Hr : Reachable st) by (apply Reachable_run, reach_start).
  destruct (claim 2100 st (fun _ => activeCache st) 0 Hr) as [Hbit _].
  - vm_compute. reflexivity.
  - vm_compute in Hbit. discriminate Hbit.
Qed.

(** C1, amended.  Inside the 500 ms that follow a head step or side change,
    [getMFMBit] returns 0 and [getMFMSpeed] returns 1000 when the current
    buffer of the active cache entry is not ready; when it is ready, with a
    disk present and the motor ready, both serve that buffer: its bit and its
    speed limited to 700..3000. *)
Theorem garbage_window_behaviour (now : Z) (st : Bridge) (later : Z -> MFMCaches)
    (mfmPositionBits : Z) :
  inGarbageWindow now st = true ->
  (ready (current (activeCache st)) = false ->
   getMFMBit now st later mfmPositionBits = false
   /\ getMFMSpeed now st mfmPositionBits = 1000)
  /\ (ready (current (activeCache st)) = true ->
      m_diskInDrive st = true -> m_motorIsReady st = true ->
      getMFMBit now st later mfmPositionBits
      = bitOf (current (activeCache st)) (Z.shiftr mfmPositionBits 3)
          (7 - Z.land mfmPositionBits 7)
      /\ getMFMSpeed now st mfmPositionBits
         = limitedSpeed (current (activeCache st)) (Z.shiftr mfmPositionBits 3)
             (7 - Z.land mfmPositionBits 7)).
Proof.
  intros Hwin. unfold getMFMBit, getMFMSpeed. split.
  - intros Hnr. rewrite Hnr, Hwin.
    destruct (negb (m_diskInDrive st) || negb (m_motorIsReady st)); split; reflexivity.
  - intros Hr Hd Hm. rewrite Hr, Hd, Hm. simpl. split; reflexivity.
Qed.

Lemma garbage_window_behaviour_witness :
  let st := run (firstn 3 Scenario.readShortRevolution) Scenario.started in
  inGarbageWindow 900 st = true
  /\ ready (current (activeCache st)) = false
  /\ getMFMBit 900 st (fun _ => activeCache st) 0 = false
  /\ getMFMSpeed 900 st 0 = 1000.
Proof.
  intros st.
  assert (Hwin : inGarbageWindow 900 st = true) by (vm_compute; reflexivity).
  assert (Hnr : ready (current (activeCache st)) = false) by (vm_compute; reflexivity).
  split; [exact Hwin|]. split; [exact Hnr|].
  exact (proj1 (garbage_window_behaviour 900 st (fun _ => activeCache st) 0 Hwin) Hnr).
Defined.

(** *** Seek coalescing *)

Lemma DiskSurface_eqb_refl (s : DiskSurface) : DiskSurface_eqb s s = true.
Proof. destruct s; reflexivity. Qed.

Lemma DiskSurface_eqb_eq (a b : DiskSurface) : DiskSurface_eqb a b = true <-> a = b.
Proof. destruct a, b; simpl; split; intros H; try reflexivity; discriminate. Qed.

Lemma back_app_one {A : Type} (q : list A) (x : A) : back (q ++ [x]) = Some x.
Proof.
  induction q as [|y q IH]; [reflexivity|].
  simpl. destruct (q ++ [x]) eqn:E; [destruct q; discriminate | exact IH].
Qed.

Lemma mapBack_app_one {A : Type} (f : A -> A) (q : list A) (x : A) :
  mapBack f (q ++ [x]) = q ++ [f x].
Proof.
  induction q as [|y q IH]; [reflexivity|].
  simpl. destruct (q ++ [x]) eqn:E; [destruct q; discriminate |].
  rewrite IH. reflexivity.
Qed.

Lemma m_queue_releaseSemaphore (st : Bridge) :
  m_queue (releaseSemaphore st) = m_queue st.
Proof. unfold releaseSemaphore. destruct (_ <=? _); reflexivity. Qed.

Lemma m_queue_pushOntoQueue (info : QueueInfo) (st : Bridge) :
  m_queue (pushOntoQueue info st) = m_queue st ++ [info].
Proof. unfold pushOntoQueue. rewrite m_queue_releaseSemaphore. reflexivity. Qed.

Lemma m_queue_resetEventUnlessReady (st : Bridge) :
  m_queue (resetEventUnlessReady st) = m_queue st.
Proof. unfold resetEventUnlessReady. destruct (negb _); reflexivity. Qed.

(** The queue after [switchDiskSide]: a side-select command is appended
    exactly when the side changes. *)
Lemma m_queue_switchDiskSide (now : Z) (sideB : bool) (st : Bridge) :
  m_queue (switchDiskSide now sideB st)
  = if DiskSurface_eqb (boolSideToDiskSurface sideB) (m_floppySide st)
    then m_queue st
    else m_queue st ++ [mkQueueInfo qcSelectDiskSide (OptB sideB)].
Proof.
  unfold switchDiskSide.
  destruct (DiskSurface_eqb (boolSideToDiskSurface sideB) (m_floppySide st)); simpl.
  - reflexivity.
  - unfold queueCommand_b. rewrite m_queue_pushOntoQueue. members.
    rewrite m_queue_resetEventUnlessReady. reflexivity.
Qed.

(** The queue after [gotoCylinder], in terms of the queue [q1] that
    [switchDiskSide] leaves. *)
Lemma m_queue_gotoCylinder (now : Z) (trackNo : Z) (sideB : bool) (st : Bridge) :
  m_queue (gotoCylinder now trackNo sideB st)
  = if m_currentTrack st =? trackNo then m_queue st else
    let q1 := m_queue (switchDiskSide now sideB st) in
    match back q1 with
    | Some b =>
        if QueueCommand_eqb (command b) qcGotoToTrack
        then mapBack (fun b => mkQueueInfo (command b) (OptI trackNo)) q1
        else q1 ++ [mkQueueInfo qcGotoToTrack (OptI trackNo)]
    | None => q1 ++ [mkQueueInfo qcGotoToTrack (OptI trackNo)]
    end.
Proof.
  unfold gotoCylinder.
  destruct (m_currentTrack st =? trackNo); [reflexivity|].
  cbv zeta.
  set (st1 := switchDiskSide now sideB _).
  assert (Hq : m_queue st1 = m_queue (switchDiskSide now sideB st)).
  { unfold st1. rewrite !m_queue_switchDiskSide. reflexivity. }
  rewrite <- Hq.
  destruct (back (m_queue st1)) as [b|].
  - destruct (QueueCommand_eqb (command b) qcGotoToTrack).
    + rewrite m_queue_resetEventUnlessReady. reflexivity.
    + unfold queueCommand_i. rewrite m_queue_pushOntoQueue, m_queue_resetEventUnlessReady.
      reflexivity.
  - unfold queueCommand_i. rewrite m_queue_pushOntoQueue, m_queue_resetEventUnlessReady.
    reflexivity.
Qed.

Lemma m_floppySide_switchDiskSide (now : Z) (sideB : bool) (st : Bridge) :
  m_floppySide (switchDiskSide now sideB st) = boolSideToDiskSurface sideB.
Proof.
  unfold switchDiskSide.
  destruct (DiskSurface_eqb (boolSideToDiskSurface sideB) (m_floppySide st)) eqn:E; simpl.
  - apply DiskSurface_eqb_eq in E. congruence.
  - unfold_helpers. members. split_ifs; reflexivity.
Qed.

Lemma m_currentTrack_switchDiskSide (now : Z) (sideB : bool) (st : Bridge) :
  m_currentTrack (switchDiskSide now sideB st) = m_currentTrack st.
Proof.
  unfold switchDiskSide. unfold_helpers. members. split_ifs; reflexivity.
Qed.

Lemma m_currentTrack_gotoCylinder (now : Z) (trackNo : Z) (sideB : bool) (st : Bridge) :
  m_currentTrack (gotoCylinder now trackNo sideB st) = trackNo.
Proof.
  unfold gotoCylinder.
  destruct (m_currentTrack st =? trackNo) eqn:E; [apply Z.eqb_eq; exact E|].
  cbv zeta.
  set (st1 := switchDiskSide now sideB _).
  assert (H1 : m_currentTrack st1 = trackNo)
    by (unfold st1; rewrite m_currentTrack_switchDiskSide; reflexivity).
  clearbody st1.
  unfold_helpers. members. split_ifs; members; exact H1.
Qed.

Lemma m_floppySide_gotoCylinder (now : Z) (trackNo : Z) (sideB : bool) (st : Bridge) :
  m_floppySide (gotoCylinder now trackNo sideB st)
  = if m_currentTrack st =? trackNo then m_floppySide st else boolSideToDiskSurface sideB.
Proof.
  unfold gotoCylinder.
  destruct (m_currentTrack st =? trackNo) eqn:E; [reflexivity|].
  cbv zeta.
  set (st1 := switchDiskSide now sideB _).
  assert (H1 : m_floppySide st1 = boolSideToDiskSurface sideB)
    by (unfold st1; apply m_floppySide_switchDiskSide).
  clearbody st1.
  unfold_helpers. members. split_ifs; members; exact H1.
Qed.

(** C6.  When [gotoCylinder] gets to queue a seek (the track differs from
    the current one) and the back of the queue is a seek, the cylinder of
    that element is overwritten and the queue keeps its length; this is the
    case whenever the side does not change, a side change putting a
    side-select command at the back first.  From an empty queue, the three
    calls for cylinders 5, 9 and 12 leave exactly one seek in the queue, at
    its back, for cylinder 12. *)
Theorem seek_coalescing :
  (forall (now : Z) (st : Bridge) (trackNo : Z) (sideB : bool) (q : list QueueInfo)
          (c : QueueOption),
      m_currentTrack st <> trackNo ->
      boolSideToDiskSurface sideB = m_floppySide st ->
      m_queue st = q ++ [mkQueueInfo qcGotoToTrack c] ->
      m_queue (gotoCylinder now trackNo sideB st)
      = q ++ [mkQueueInfo qcGotoToTrack (OptI trackNo)])
  /\ (forall (now1 now2 now3 : Z) (sideB : bool) (st : Bridge),
        m_queue st = [] ->
        let st' := gotoCylinder now3 12 sideB
                     (gotoCylinder now2 9 sideB (gotoCylinder now1 5 sideB st)) in
        back (m_queue st') = Some (mkQueueInfo qcGotoToTrack (OptI 12))
        /\ length (filter isSeek (m_queue st')) = 1%nat).
Proof.
  split.
  - intros now st trackNo sideB q c Hne Hside Hq.
    rewrite m_queue_gotoCylinder.
    apply Z.eqb_neq in Hne. rewrite Hne. cbv zeta.
    rewrite m_queue_switchDiskSide, Hside, DiskSurface_eqb_refl, Hq.
    rewrite back_app_one. simpl. rewrite mapBack_app_one. reflexivity.
  - intros now1 now2 now3 sideB st Hq st'. unfold st'.
    repeat progress
      (rewrite ?m_queue_gotoCylinder, ?m_currentTrack_gotoCylinder,
         ?m_queue_switchDiskSide, ?m_floppySide_gotoCylinder; cbv zeta).
    rewrite Hq.
    change (9 =? 12) with false. change (5 =? 9) with false.
    destruct (m_currentTrack st =? 5);
      destruct (DiskSurface_eqb (boolSideToDiskSurface sideB) (m_floppySide st)) eqn:E;
      rewrite ?DiskSurface_eqb_refl, ?E; simpl; rewrite ?DiskSurface_eqb_refl, ?E; simpl;
      split; reflexivity.
Qed.

Lemma seek_coalescing_witness :
  let st := set_m_queue [mkQueueInfo qcGotoToTrack (OptI 5)] Scenario.started in
  m_currentTrack st <> 9
  /\ m_queue (gotoCylinder 1 9 false st) = [mkQueueInfo qcGotoToTrack (OptI 9)]
  /\ back (m_queue (gotoCylinder 3 12 false
              (gotoCylinder 2 9 false (gotoCylinder 1 5 false Scenario.started))))
     = Some (mkQueueInfo qcGotoToTrack (OptI 12)).
Proof.
  intros st.
  assert (Hne : m_currentTrack st <> 9) by (vm_compute; discriminate).
  split; [exact Hne|]. split.
  - exact (proj1 seek_coalescing 1 st 9 false [] (OptI 5) Hne eq_refl eq_refl).
  - exact (proj1 (proj2 seek_coalescing 1 2 3 false Scenario.started eq_refl)).
Defined.

(** *** The write buffer *)

(** [switchDiskSide] and [gotoCylinder] either leave the bridge as it is or
    empty the write buffer. *)
Lemma switchDiskSide_cases (now : Z) (sideB : bool) (st : Bridge) :
  switchDiskSide now sideB st = st
  \/ floppyBufferSizeBits (m_currentWriteTrack (switchDiskSide now sideB st)) = 0.
Proof.
  unfold switchDiskSide.
  destruct (DiskSurface_eqb (boolSideToDiskSurface sideB) (m_floppySide st)); simpl.
  - left. reflexivity.
  - right. unfold_helpers. members. split_ifs; reflexivity.
Qed.

Lemma gotoCylinder_cases (now : Z) (trackNo : Z) (sideB : bool) (st : Bridge) :
  gotoCylinder now trackNo sideB st = st
  \/ floppyBufferSizeBits (m_currentWriteTrack (gotoCylinder now trackNo sideB st)) = 0.
Proof.
  unfold gotoCylinder.
  destruct (m_currentTrack st =? trackNo); [left; reflexivity|right].
  cbv zeta.
  set (st1 := switchDiskSide now sideB _).
  assert (H1 : floppyBufferSizeBits (m_currentWriteTrack st1) = 0).
  { unfold st1. destruct (switchDiskSide_cases now sideB
                            (set_m_lastDriveStepTime now
                               (set_m_currentTrack trackNo (resetWriteBuffer st))))
      as [E | E]; [rewrite E; reflexivity | exact E]. }
  clearbody st1.
  unfold_helpers. members. split_ifs; members; exact H1.
Qed.

Lemma m_pendingTrackWrites_switchDiskSide (now : Z) (sideB : bool) (st : Bridge) :
  m_pendingTrackWrites (switchDiskSide now sideB st) = m_pendingTrackWrites st.
Proof.
  unfold switchDiskSide. unfold_helpers. members. split_ifs; reflexivity.
Qed.

Lemma m_pendingTrackWrites_gotoCylinder (now : Z) (trackNo : Z) (sideB : bool) (st : Bridge) :
  m_pendingTrackWrites (gotoCylinder now trackNo sideB st) = m_pendingTrackWrites st.
Proof.
  unfold gotoCylinder.
  destruct (m_currentTrack st =? trackNo); [reflexivity|].
  cbv zeta.
  set (st1 := switchDiskSide now sideB _).
  assert (H1 : m_pendingTrackWrites st1 = m_pendingTrackWrites st)
    by (unfold st1; rewrite m_pendingTrackWrites_switchDiskSide; reflexivity).
  clearbody st1.
  unfold_helpers. members. split_ifs; members; exact H1.
Qed.

Lemma m_pendingTrackWrites_pushOntoQueue (info : QueueInfo) (st : Bridge) :
  m_pendingTrackWrites (pushOntoQueue info st) = m_pendingTrackWrites st.
Proof. unfold pushOntoQueue, releaseSemaphore. destruct (_ <=? _); reflexivity. Qed.

(** [pushPendingWrite] appends the write buffer, with [writeFromIndex]
    computed from the position of its first word. *)
Lemma m_pendingTrackWrites_pushPendingWrite (track : Z) (st : Bridge) :
  m_pendingTrackWrites (pushPendingWrite track st)
  = m_pendingTrackWrites st
    ++ [mkTrackToWrite (tw_mfmBuffer (m_currentWriteTrack st))
          (side (m_currentWriteTrack st)) (trackNumber (m_currentWriteTrack st))
          (floppyBufferSizeBits (m_currentWriteTrack st))
          ((m_currentWriteStartMfmPosition st <=? 10)
           || (m_currentWriteStartMfmPosition st >=? maxMFMBitPosition st - 10))].
Proof.
  unfold pushPendingWrite, invalidateCache, queueCommand_i, setCacheAt.
  cbv zeta. cbn [m_pendingTrackWrites set_m_mfmRead].
  rewrite m_pendingTrackWrites_pushOntoQueue. reflexivity.
Qed.

(** What [commitWriteBuffer] does to the list of pending writes: with data
    for this track and side in the write buffer it appends the buffer;
    otherwise the list stays. *)
Lemma commitWriteBuffer_pending (now : Z) (sideB : bool) (track : Z) (st : Bridge) :
  m_pendingTrackWrites (fst (commitWriteBuffer now sideB track st)) = m_pendingTrackWrites st
  \/ (floppyBufferSizeBits (m_currentWriteTrack st) <> 0
      /\ m_pendingTrackWrites (fst (commitWriteBuffer now sideB track st))
         = m_pendingTrackWrites st
           ++ [mkTrackToWrite (tw_mfmBuffer (m_currentWriteTrack st))
                 (side (m_currentWriteTrack st)) (trackNumber (m_currentWriteTrack st))
                 (floppyBufferSizeBits (m_currentWriteTrack st))
                 ((m_currentWriteStartMfmPosition st <=? 10)
                  || (m_currentWriteStartMfmPosition st >=? maxMFMBitPosition st - 10))]).
Proof.
  unfold commitWriteBuffer.
  set (st2 := gotoCylinder now (to_int32 track) sideB (switchDiskSide now sideB st)).
  assert (Hp : m_pendingTrackWrites st2 = m_pendingTrackWrites st).
  { unfold st2. rewrite m_pendingTrackWrites_gotoCylinder.
    apply m_pendingTrackWrites_switchDiskSide. }
  assert (Hc : st2 = st \/ floppyBufferSizeBits (m_currentWriteTrack st2) = 0).
  { unfold st2. destruct (gotoCylinder_cases now (to_int32 track) sideB
                            (switchDiskSide now sideB st)) as [E | E].
    - rewrite E. apply switchDiskSide_cases.
    - right. exact E. }
  clearbody st2.
  set (st3 := set_m_delayStreamingStart now (set_m_delayStreaming true st2)).
  change (m_currentWriteTrack st3) with (m_currentWriteTrack st2).
  cbv zeta. cbn [fst].
  assert (Hr : forall s0, m_pendingTrackWrites (resetWriteBuffer s0) = m_pendingTrackWrites s0)
    by reflexivity.
  rewrite Hr.
  destruct (floppyBufferSizeBits (m_currentWriteTrack st2) =? 0) eqn:Hz.
  - left. exact Hp.
  - apply Z.eqb_neq in Hz. destruct Hc as [Hc | Hc]; [|contradiction].
    destruct (negb false && (trackNumber (m_currentWriteTrack st2) =? track)
              && DiskSurface_eqb (side (m_currentWriteTrack st2))
                   (boolSideToDiskSurface sideB)).
    + right. rewrite m_pendingTrackWrites_pushPendingWrite. subst st2.
      split; [exact Hz|]. reflexivity.
    + left. exact Hp.
Qed.

(** [switchDiskSide] and [gotoCylinder] leave the write buffer as it is or
    as [resetWriteBuffer] makes it. *)
Lemma writeTrack_switchDiskSide (now : Z) (sideB : bool) (st : Bridge) :
  m_currentWriteTrack (switchDiskSide now sideB st) = m_currentWriteTrack st
  \/ m_currentWriteTrack (switchDiskSide now sideB st)
     = m_currentWriteTrack (resetWriteBuffer st).
Proof.
  unfold switchDiskSide.
  destruct (DiskSurface_eqb (boolSideToDiskSurface sideB) (m_floppySide st)); simpl.
  - left. reflexivity.
  - right. unfold_helpers. members. split_ifs; reflexivity.
Qed.

Lemma writeTrack_gotoCylinder (now : Z) (trackNo : Z) (sideB : bool) (st : Bridge) :
  m_currentWriteTrack (gotoCylinder now trackNo sideB st) = m_currentWriteTrack st
  \/ m_currentWriteTrack (gotoCylinder now trackNo sideB st)
     = m_currentWriteTrack (resetWriteBuffer st).
Proof.
  unfold gotoCylinder.
  destruct (m_currentTrack st =? trackNo); [left; reflexivity|right].
  cbv zeta.
  set (st1 := switchDiskSide now sideB _).
  assert (H1 : m_currentWriteTrack st1 = m_currentWriteTrack (resetWriteBuffer st)).
  { unfold st1. destruct (writeTrack_switchDiskSide now sideB
                            (set_m_lastDriveStepTime now
                               (set_m_currentTrack trackNo (resetWriteBuffer st))))
      as [E | E]; rewrite E; reflexivity. }
  clearbody st1.
  unfold_helpers. members. split_ifs; members; exact H1.
Qed.

(** The write buffer at the point where [writeShortToBuffer] appends. *)
Lemma writeTrack_before_append (now : Z) (sideB : bool) (track : Z) (st : Bridge) :
  let st1 := set_m_delayStreamingStart now
               (set_m_delayStreaming true
                  (gotoCylinder now (to_int32 track) sideB (switchDiskSide now sideB st))) in
  m_currentWriteTrack st1 = m_currentWriteTrack st
  \/ m_currentWriteTrack st1 = m_currentWriteTrack (resetWriteBuffer st).
Proof.
  intros st1. unfold st1. members.
  destruct (writeTrack_gotoCylinder now (to_int32 track) sideB (switchDiskSide now sideB st))
    as [E | E]; rewrite E;
    destruct (writeTrack_switchDiskSide now sideB st) as [F | F].
  - left. exact F.
  - right. exact F.
  - right. unfold resetWriteBuffer. members. rewrite F. reflexivity.
  - right. unfold resetWriteBuffer at 1. members. rewrite F. reflexivity.
Qed.

Lemma WriteBufferInv_resetWriteBuffer (st : Bridge) : WriteBufferInv (resetWriteBuffer st).
Proof. unfold WriteBufferInv. simpl. vm_compute. intuition discriminate. Qed.

Lemma appendWord_bits (sideB : bool) (track mfmWord mfmPosition : Z) (st : Bridge) :
  floppyBufferSizeBits (m_currentWriteTrack (appendWord sideB track mfmWord mfmPosition st))
  = if floppyBufferSizeBits (m_currentWriteTrack st) <? writeBufferLimit
    then to_uint32 (floppyBufferSizeBits (m_currentWriteTrack st) + 16)
    else floppyBufferSizeBits (m_currentWriteTrack st).
Proof.
  unfold appendWord. cbv zeta.
  destruct (floppyBufferSizeBits (m_currentWriteTrack st) <? writeBufferLimit);
    [|reflexivity].
  destruct (floppyBufferSizeBits (m_currentWriteTrack st) =? 0); reflexivity.
Qed.

Lemma appendWord_buffer (sideB : bool) (track mfmWord mfmPosition : Z) (st : Bridge) :
  tw_mfmBuffer (m_currentWriteTrack (appendWord sideB track mfmWord mfmPosition st))
  = if floppyBufferSizeBits (m_currentWriteTrack st) <? writeBufferLimit
    then store
           (store (tw_mfmBuffer (m_currentWriteTrack st))
              (Z.shiftr (floppyBufferSizeBits (m_currentWriteTrack st)) 3)
              (to_uint8 (Z.shiftr mfmWord 8)))
           (Z.shiftr (floppyBufferSizeBits (m_currentWriteTrack st)) 3 + 1)
           (to_uint8 (Z.land mfmWord 0xFF))
    else tw_mfmBuffer (m_currentWriteTrack st).
Proof.
  unfold appendWord. cbv zeta.
  destruct (floppyBufferSizeBits (m_currentWriteTrack st) <? writeBufferLimit);
    [|reflexivity].
  destruct (floppyBufferSizeBits (m_currentWriteTrack st) =? 0); reflexivity.
Qed.

Lemma WriteBufferInv_appendWord (sideB : bool) (track mfmWord mfmPosition : Z) (st : Bridge) :
  WriteBufferInv st -> WriteBufferInv (appendWord sideB track mfmWord mfmPosition st).
Proof.
  unfold WriteBufferInv. rewrite appendWord_bits.
  set (b := floppyBufferSizeBits (m_currentWriteTrack st)).
  unfold writeBufferLimit, ARD_MFM_BUFFER_MAX_TRACK_LENGTH, to_uint32.
  intros [Hm Hb].
  destruct (b <? 14336 * 8 - 16) eqn:E; [|split; assumption].
  apply Z.ltb_lt in E.
  rewrite (Z.mod_small (b + 16)) by lia.
  assert (Hb16 : b = 16 * (b / 16)) by (apply Z.div_exact; lia).
  split.
  - rewrite <- Z.add_mod_idemp_l, Hm by lia. reflexivity.
  - lia.
Qed.

Lemma WriteBufferInv_writeShortToBuffer (now : Z) (sideB : bool)
    (track mfmWord mfmPosition : Z) (st : Bridge) :
  WriteBufferInv st -> WriteBufferInv (writeShortToBuffer now sideB track mfmWord mfmPosition st).
Proof.
  intros H. unfold writeShortToBuffer. cbv zeta.
  apply WriteBufferInv_appendWord.
  unfold WriteBufferInv.
  destruct (writeTrack_before_append now sideB track st) as [E | E];
    cbv zeta in E; rewrite E.
  - exact H.
  - apply WriteBufferInv_resetWriteBuffer.
Qed.

Lemma switchDiskSide_same_side (now : Z) (sideB : bool) (st : Bridge) :
  boolSideToDiskSurface sideB = m_floppySide st -> switchDiskSide now sideB st = st.
Proof.
  intros H. unfold switchDiskSide. rewrite H, DiskSurface_eqb_refl. reflexivity.
Qed.

Lemma gotoCylinder_same_track (now : Z) (trackNo : Z) (sideB : bool) (st : Bridge) :
  trackNo = m_currentTrack st -> gotoCylinder now trackNo sideB st = st.
Proof.
  intros H. unfold gotoCylinder. rewrite H, Z.eqb_refl. reflexivity.
Qed.

Lemma store_outside {A : Type} (arr : Z -> A) (idx i : Z) (v : A) :
  i <> idx -> store arr idx v i = arr i.
Proof. intros H. unfold store. apply Z.eqb_neq in H. rewrite H. reflexivity. Qed.

(** C10.  From a state in which the pending write buffer holds a multiple of
    16 bits, at most [ARD_MFM_BUFFER_MAX_TRACK_LENGTH * 8 - 16], every
    sequence of [writeShortToBuffer] calls leaves it so.  A word that arrives
    when the buffer for this side and track is at that limit is dropped: the
    buffer and its bit count stay as they are.  No call writes outside the
    [ARD_MFM_BUFFER_MAX_TRACK_LENGTH] bytes of [mfmBuffer]. *)
Theorem write_buffer_within_capacity (st : Bridge) :
  WriteBufferInv st ->
  (forall calls : list (Z * bool * Z * Z * Z),
      WriteBufferInv (fold_left applyWrite calls st))
  /\ (forall (now : Z) (sideB : bool) (track mfmWord mfmPosition : Z),
        let st' := writeShortToBuffer now sideB track mfmWord mfmPosition st in
        (boolSideToDiskSurface sideB = m_floppySide st ->
         to_int32 track = m_currentTrack st ->
         floppyBufferSizeBits (m_currentWriteTrack st) = writeBufferLimit ->
         m_currentWriteTrack st' = m_currentWriteTrack st)
        /\ (forall i : Z,
              ~ (0 <= i < ARD_MFM_BUFFER_MAX_TRACK_LENGTH) ->
              tw_mfmBuffer (m_currentWriteTrack st') i
              = tw_mfmBuffer (m_currentWriteTrack st) i)).
Proof.
  intros Hinv. split.
  - intros calls. revert st Hinv.
    induction calls as [|c calls IH]; intros st Hinv; simpl; [exact Hinv|].
    apply IH. destruct c as [[[[now sideB] track] mfmWord] mfmPosition].
    apply WriteBufferInv_writeShortToBuffer. exact Hinv.
  - intros now sideB track mfmWord mfmPosition st'. split.
    + intros Hside Htrack Hfull. unfold st', writeShortToBuffer. cbv zeta.
      rewrite (switchDiskSide_same_side now sideB st Hside).
      rewrite (gotoCylinder_same_track now (to_int32 track) sideB st Htrack).
      unfold appendWord. members. rewrite Hfull, Z.ltb_irrefl. reflexivity.
    + intros i Hout. unfold st', writeShortToBuffer. cbv zeta.
      rewrite appendWord_buffer.
      assert (Hb : tw_mfmBuffer (m_currentWriteTrack (resetWriteBuffer st))
                   = tw_mfmBuffer (m_currentWriteTrack st)) by reflexivity.
      assert (H0 : floppyBufferSizeBits (m_currentWriteTrack (resetWriteBuffer st)) = 0)
        by reflexivity.
      destruct Hinv as [_ Hrange].
      destruct (writeTrack_before_append now sideB track st) as [E | E];
        cbv zeta in E; rewrite E; clear E; rewrite ?Hb, ?H0.
      * destruct (floppyBufferSizeBits (m_currentWriteTrack st) <? writeBufferLimit) eqn:Hlt;
          [|reflexivity].
        apply Z.ltb_lt in Hlt.
        unfold writeBufferLimit, ARD_MFM_BUFFER_MAX_TRACK_LENGTH in *.
        rewrite Z.shiftr_div_pow2 by lia. change (2 ^ 3) with 8.
        assert (0 <= floppyBufferSizeBits (m_currentWriteTrack st) / 8 < 14334)
          by (split; [apply Z.div_pos; lia | apply Z.div_lt_upper_bound; lia]).
        rewrite !store_outside by lia. reflexivity.
      * change (0 <? writeBufferLimit) with true. cbv iota.
        unfold ARD_MFM_BUFFER_MAX_TRACK_LENGTH in Hout.
        change (Z.shiftr 0 3) with 0.
        rewrite !store_outside by lia. reflexivity.
Qed.

Lemma write_buffer_within_capacity_witness :
  let st := run Scenario.oneWordWritten Scenario.started in
  WriteBufferInv st
  /\ WriteBufferInv (fold_left applyWrite [(200, false, 0, 0x2AAA, 97066)] st)
  /\ tw_mfmBuffer (m_currentWriteTrack (writeShortToBuffer 200 false 0 0x2AAA 97066 st))
       ARD_MFM_BUFFER_MAX_TRACK_LENGTH
     = tw_mfmBuffer (m_currentWriteTrack st) ARD_MFM_BUFFER_MAX_TRACK_LENGTH.
Proof.
  intros st.
  assert (Hinv : WriteBufferInv st) by (vm_compute; intuition discriminate).
  split; [exact Hinv|]. split.
  - exact (proj1 (write_buffer_within_capacity st Hinv) [(200, false, 0, 0x2AAA, 97066)]).
  - apply (proj2 (proj2 (write_buffer_within_capacity st Hinv) 200 false 0 0x2AAA 97066)).
    unfold ARD_MFM_BUFFER_MAX_TRACK_LENGTH. lia.
Defined.

(** C7 as stated does not hold.  A write of one word that starts at bit
    97050 of a track of 97072 bits ends 6 bits before the maximum bit
    position, yet it is queued with [writeFromIndex] false. *)
Lemma writeFromIndex_counterexample :
  ~ (forall (now : Z) (sideB : bool) (track : Z) (st : Bridge) (w : TrackToWrite),
        m_pendingTrackWrites (fst (commitWriteBuffer now sideB track st))
        = m_pendingTrackWrites st ++ [w] ->
        writeFromIndex w
        = writeFromIndex_claimed (m_currentWriteStartMfmPosition st)
            (floppyBufferSizeBits w) (maxMFMBitPosition st)).
Proof.
  intros claim.
  pose (st := run Scenario.oneWordWritten Scenario.started).
  destruct (commitWriteBuffer_pending 101 false 0 st) as [H | [_ H]].
  - vm_compute in H. discriminate H.
  - specialize (claim 101 false 0 st _ H). vm_compute in claim. discriminate claim.
Qed.

(** C7, amended.  When [commitWriteBuffer] pushes a pending write, its
    [writeFromIndex] is true if and only if the write began at most 10 bits
    after position 0 or began no more than 10 bits before (or anywhere
    beyond) the maximum bit position of the track. *)
Theorem writeFromIndex_from_start (now : Z) (sideB : bool) (track : Z) (st : Bridge)
    (w : TrackToWrite) :
  m_pendingTrackWrites (fst (commitWriteBuffer now sideB track st))
  = m_pendingTrackWrites st ++ [w] ->
  (writeFromIndex w = true
   <-> m_currentWriteStartMfmPosition st <= 10
       \/ m_currentWriteStartMfmPosition st >= maxMFMBitPosition st - 10).
Proof.
  intros H.
  destruct (commitWriteBuffer_pending now sideB track st) as [E | [_ E]].
  - rewrite E in H. apply (f_equal (@length _)) in H.
    rewrite length_app in H. simpl in H. lia.
  - rewrite E in H. apply app_inv_head in H. injection H as <-. simpl.
    rewrite orb_true_iff, Z.leb_le, Z.geb_le. lia.
Qed.

Lemma writeFromIndex_from_start_witness :
  let st := run Scenario.oneWordWritten Scenario.started in
  exists w : TrackToWrite,
    m_pendingTrackWrites (fst (commitWriteBuffer 101 false 0 st))
    = m_pendingTrackWrites st ++ [w]
    /\ (writeFromIndex w = true
        <-> m_currentWriteStartMfmPosition st <= 10
            \/ m_currentWriteStartMfmPosition st >= maxMFMBitPosition st - 10).
Proof.
  intros st.
  destruct (commitWriteBuffer_pending 101 false 0 st) as [E | [_ E]].
  - exfalso. vm_compute in E. discriminate E.
  - eexists. split; [exact E|].
    exact (writeFromIndex_from_start 101 false 0 st _ E).
Defined.

(** C9.  The code does not do what the claim (and the comment above
    [hasDiskChanged]: "This should reset its status after being called")
    says.  [hasDiskChanged] returns the negation of [m_diskInDrive] and
    changes nothing, so once the worker has observed the removal of the disk
    every call returns true, not only the first. *)
Theorem hasDiskChanged_never_resets :
  (forall st : Bridge,
      hasDiskChanged st = (negb (m_diskInDrive st), st))
  /\ (let st := run Scenario.removalObserved Scenario.started in
      m_diskInDrive (run Scenario.readShortRevolution Scenario.started) = true
      /\ isDiskInDrive st = false
      /\ fst (hasDiskChanged st) = true
      /\ fst (hasDiskChanged (snd (hasDiskChanged st))) = true
      /\ fst (hasDiskChanged (snd (hasDiskChanged (snd (hasDiskChanged st))))) = true).
Proof.
  split.
  - intros st. reflexivity.
  - vm_compute. repeat split.
Qed.

End BridgeProperties.

(** ** Properties of the opcode-flux codec *)

Module FluxProperties.

Import GreaseWeazleInterface.

(** The bytes of [write28bit], read back as [read_28bit] reads them. *)
Lemma byte_upper_bits (x : Z) :
  Z.land (to_uint8 (Z.lor 1 (Z.land x 255))) 0xfe = Z.land x 0xfe.
Proof.
  unfold to_uint8. change 256 with (2 ^ 8). change 255 with (Z.ones 8).
  change 0xfe with (Z.shiftl (Z.ones 7) 1). change 1 with (Z.ones 1) at 1.
  Z.bitblast.
Qed.

Lemma first_byte_value (v : Z) :
  Z.shiftr (to_uint8 (Z.lor 1 (Z.land (Z.shiftl v 1) 255))) 1 = Z.land v (Z.ones 7).
Proof.
  unfold to_uint8. change 256 with (2 ^ 8). change 255 with (Z.ones 8).
  change 1 with (Z.ones 1) at 1.
  Z.bitblast.
Qed.

Lemma seven_bit_field (v s : Z) :
  0 <= s ->
  Z.shiftl (Z.land (Z.shiftr v s) 0xfe) s = Z.land v (Z.shiftl (Z.ones 7) (s + 1)).
Proof.
  intros Hs. change 0xfe with (Z.shiftl (Z.ones 7) 1).
  Z.bitblast.
Qed.

Lemma read_28bit_write28bit (v : Z) (rest : list Z) :
  0 <= v < 2 ^ 28 -> read_28bit (write28bit v [] ++ rest) = (v, rest).
Proof.
  intros Hv. unfold write28bit, read_28bit, queue_next, front, pop. cbn [app hd tl].
  f_equal.
  rewrite first_byte_value, !byte_upper_bits.
  rewrite (seven_bit_field v 6), (seven_bit_field v 13), (seven_bit_field v 20) by lia.
  rewrite <- !Z.land_lor_distr_r.
  change (Z.lor (Z.lor (Z.lor (Z.ones 7) (Z.shiftl (Z.ones 7) (6 + 1)))
                   (Z.shiftl (Z.ones 7) (13 + 1)))
            (Z.shiftl (Z.ones 7) (20 + 1))) with (Z.ones 28).
  rewrite Z.land_ones by lia. apply Z.mod_small. exact Hv.
Qed.

(** What [unpackStreamQueue] does with a two-byte run length. *)
Lemma unpack_two_bytes (v b : Z) (queue : list Z) (pllData : PLLData) (output : Sequence) :
  250 <= v <= 254 ->
  unpackStreamQueue (v :: b :: queue) pllData output
  = accumulateTicks (250 + (v - 250) * 255 + (b - 1)) queue pllData output.
Proof.
  intros Hv. unfold unpackStreamQueue, front, queue_next, pop. cbn [hd tl length].
  replace (Z.of_nat (S (S (length queue))) <? 1) with false by (symmetry; apply Z.ltb_ge; lia).
  replace (v =? 255) with false by (symmetry; apply Z.eqb_neq; lia).
  replace (v <? 250) with false by (symmetry; apply Z.ltb_ge; lia).
  replace (Z.of_nat (S (S (length queue))) >=? 2) with true
    by (symmetry; apply Z.geb_le; lia).
  reflexivity.
Qed.

(** What the encoder emits for an interval of 250 to 1524 ticks that is not
    above [nfa_thresh]. *)
Lemma encodeTicks_two_bytes (ticks nfa_thresh : Z) (outputBuffer : list Z) :
  250 <= ticks <= 1524 -> ticks <= nfa_thresh ->
  encodeTicks ticks nfa_thresh outputBuffer
  = outputBuffer ++ [250 + (ticks - 250) / 255; 1 + (ticks - 250) mod 255].
Proof.
  intros Ht Hn. unfold encodeTicks.
  replace (ticks >? 0) with true by (symmetry; apply Z.gtb_lt; lia).
  replace (ticks <? 250) with false by (symmetry; apply Z.ltb_ge; lia).
  replace (ticks >? nfa_thresh) with false
    by (symmetry; rewrite Z.gtb_ltb; apply Z.ltb_ge; lia).
  rewrite Z.quot_div_nonneg, Z.rem_mod_nonneg by lia.
  assert (Hq : 0 <= (ticks - 250) / 255 < 5)
    by (split; [apply Z.div_pos; lia | apply Z.div_lt_upper_bound; lia]).
  assert (Hr : 0 <= (ticks - 250) mod 255 < 255) by (apply Z.mod_pos_bound; lia).
  unfold to_uint32, to_uint8.
  rewrite (Z.mod_small ((ticks - 250) / 255)) by lia.
  replace ((ticks - 250) / 255 <? 5) with true by (symmetry; apply Z.ltb_lt; lia).
  rewrite !Z.mod_small by lia.
  rewrite <- app_assoc. reflexivity.
Qed.

Lemma encodeTicks_above_threshold (ticks nfa_thresh : Z) :
  250 <= ticks -> nfa_thresh < ticks -> length (encodeTicks ticks nfa_thresh []) = 8%nat.
Proof.
  intros Ht Hn. unfold encodeTicks.
  replace (ticks >? 0) with true by (symmetry; apply Z.gtb_lt; lia).
  replace (ticks <? 250) with false by (symmetry; apply Z.ltb_ge; lia).
  replace (ticks >? nfa_thresh) with true by (symmetry; apply Z.gtb_lt; lia).
  reflexivity.
Qed.

(** C8.  A run-length pair whose first byte [v] is 250 to 254 and whose
    second byte is [b] adds [250 + (v - 250) * 255 + (b - 1)] ticks to the
    decoder's count.  For 250 to 1524 ticks, whenever the encoder emits two
    bytes (it does unless the interval is above [nfa_thresh]), the decoder
    gets the same number of ticks from them.  [read_28bit] returns the 28-bit
    value whose four bytes [write28bit] produced. *)
Theorem flux_run_length_roundtrip :
  (forall (v b : Z) (queue : list Z) (pllData : PLLData) (output : Sequence),
      250 <= v <= 254 ->
      unpackStreamQueue (v :: b :: queue) pllData output
      = accumulateTicks (250 + (v - 250) * 255 + (b - 1)) queue pllData output)
  /\ (forall (ticks nfa_thresh b0 b1 : Z) (queue : list Z) (pllData : PLLData)
             (output : Sequence),
        250 <= ticks <= 1524 ->
        encodeTicks ticks nfa_thresh [] = [b0; b1] ->
        unpackStreamQueue (b0 :: b1 :: queue) pllData output
        = accumulateTicks ticks queue pllData output)
  /\ (forall ticks nfa_thresh : Z,
        250 <= ticks <= 1524 -> ticks <= nfa_thresh ->
        exists b0 b1 : Z, encodeTicks ticks nfa_thresh [] = [b0; b1])
  /\ (forall (v : Z) (rest : list Z),
        0 <= v < 2 ^ 28 -> read_28bit (write28bit v [] ++ rest) = (v, rest)).
Proof.
  split; [|split; [|split]].
  - exact unpack_two_bytes.
  - intros ticks nfa_thresh b0 b1 queue pllData output Ht Henc.
    destruct (Z_le_gt_dec ticks nfa_thresh) as [Hn | Hn].
    + rewrite (encodeTicks_two_bytes ticks nfa_thresh [] Ht Hn) in Henc.
      cbn [app] in Henc.
      assert (Hb0 : b0 = 250 + (ticks - 250) / 255) by congruence.
      assert (Hb1 : b1 = 1 + (ticks - 250) mod 255) by congruence.
      clear Henc. subst b0 b1.
      assert (Hq : 0 <= (ticks - 250) / 255 < 5)
        by (split; [apply Z.div_pos; lia | apply Z.div_lt_upper_bound; lia]).
      rewrite unpack_two_bytes.
      * f_equal.
        pose proof (Z.div_mod (ticks - 250) 255 ltac:(lia)) as Hdm. lia.
      * clear - Hq. lia.
    + pose proof (encodeTicks_above_threshold ticks nfa_thresh ltac:(lia) ltac:(lia)) as Hlen.
      rewrite Henc in Hlen. discriminate Hlen.
  - intros ticks nfa_thresh Ht Hn. eexists. eexists.
    apply (encodeTicks_two_bytes ticks nfa_thresh [] Ht Hn).
  - exact read_28bit_write28bit.
Qed.

Lemma flux_run_length_roundtrip_witness :
  unpackStreamQueue [252; 7] (mkPLLData 72000000 0) (mkSequence 0 0 false)
  = accumulateTicks 766 [] (mkPLLData 72000000 0) (mkSequence 0 0 false)
  /\ encodeTicks 1000 10800 [] = [252; 241]
  /\ unpackStreamQueue [252; 241] (mkPLLData 72000000 0) (mkSequence 0 0 false)
     = accumulateTicks 1000 [] (mkPLLData 72000000 0) (mkSequence 0 0 false)
  /\ (exists b0 b1 : Z, encodeTicks 1000 10800 [] = [b0; b1])
  /\ read_28bit (write28bit 123456789 [] ++ [0]) = (123456789, [0]).
Proof.
  assert (H252 : 250 <= 252 <= 254) by lia.
  assert (H1000 : 250 <= 1000 <= 1524) by lia.
  assert (Hnfa : 1000 <= 10800) by lia.
  assert (Henc : encodeTicks 1000 10800 [] = [252; 241]) by reflexivity.
  assert (H28 : 0 <= 123456789 < 2 ^ 28) by (split; [lia | reflexivity]).
  split; [|split; [|split; [|split]]].
  - exact (proj1 flux_run_length_roundtrip 252 7 [] _ _ H252).
  - exact Henc.
  - exact (proj1 (proj2 flux_run_length_roundtrip) 1000 10800 252 241 [] _ _ H1000 Henc).
  - exact (proj1 (proj2 (proj2 flux_run_length_roundtrip)) 1000 10800 H1000 Hnfa).
  - exact (proj2 (proj2 (proj2 flux_run_length_roundtrip)) 123456789 [0] H28).
Defined.

End FluxProperties.

(** ** Properties of the precompensation encoders *)

Module PrecompProperties.

Import ArduinoInterface.
Import Notions.













(** *** The encoding loops run to their end *)

Lemma readBit_advance (buffer : Z -> Z) (maxLength numBytes pos bit : Z) :
  0 <= bit <= 7 ->
  0 <= snd (readBit buffer maxLength pos bit) <= 7
  /\ bitsLeft numBytes (snd (fst (readBit buffer maxLength pos bit)))
       (snd (readBit buffer maxLength pos bit))
     = bitsLeft numBytes pos bit - 1.
Proof.
  intros Hb. unfold readBit, bitsLeft.
  destruct (pos >=? to_int32 maxLength);
    destruct (Z.ltb_spec (bit - 1) 0); cbn [fst snd]; lia.
Qed.

(** With [scanFuel] iterations the [do ... while] ends by its own test, and
    it consumes at least one bit. *)
Lemma scanToOne_exits (mfmData : Z -> Z) (numBytes : Z) (fuel : nat) :
  forall pos bit sequence count : Z,
    0 <= bit <= 7 ->
    bitsLeft numBytes pos bit - 1 <= Z.of_nat fuel ->
    let result := scanToOne fuel mfmData numBytes pos bit sequence count in
    let pos' := fst (fst (fst result)) in
    let bit' := snd (fst (fst result)) in
    let sequence' := snd (fst result) in
    0 <= bit' <= 7
    /\ bitsLeft numBytes pos' bit' < bitsLeft numBytes pos bit
    /\ (Z.land sequence' 0x08 <> 0 \/ numBytes + 8 <= pos').
Proof.
  induction fuel as [|fuel IH]; intros pos bit sequence count Hb Hfuel;
    cbv zeta; cbn [scanToOne];
    pose proof (readBit_advance mfmData numBytes numBytes pos bit Hb) as [Hb1 Hl1];
    destruct (readBit mfmData numBytes pos bit) as [[b pos1] bit1];
    cbn [fst snd] in Hb1, Hl1;
    set (sequence1 := Z.lor (Z.land (Z.shiftl sequence 1) 0x7F) b);
    destruct (Z.eqb_spec (Z.land sequence1 0x08) 0) as [E | E];
    destruct (Z.ltb_spec pos1 (numBytes + 8)) as [L | L];
    cbn [andb fst snd]; try (split; [exact Hb1 | split; [lia | auto]]).
  - unfold bitsLeft in *. lia.
  - specialize (IH pos1 bit1 sequence1 (count + 1) Hb1 ltac:(lia)).
    cbv zeta in IH. destruct IH as (A & B & C).
    split; [exact A | split; [lia | exact C]].
Qed.

Lemma encodeNibble_advance (usePrecomp : bool) (mfmData : Z -> Z) (numBytes : Z)
    (e : Encoder) :
  0 <= bit e <= 7 ->
  0 <= bit (fst (encodeNibble usePrecomp mfmData numBytes e)) <= 7
  /\ bitsLeft numBytes (pos (fst (encodeNibble usePrecomp mfmData numBytes e)))
       (bit (fst (encodeNibble usePrecomp mfmData numBytes e)))
     < bitsLeft numBytes (pos e) (bit e).
Proof.
  intros Hb. unfold encodeNibble.
  assert (Hfuel : bitsLeft numBytes (pos e) (bit e) - 1
                  <= Z.of_nat (scanFuel numBytes (pos e)))
    by (unfold bitsLeft, scanFuel; lia).
  pose proof (scanToOne_exits mfmData numBytes (scanFuel numBytes (pos e))
                (pos e) (bit e) (sequence e) 0 Hb Hfuel) as H.
  cbv zeta in H.
  destruct (scanToOne _ mfmData numBytes (pos e) (bit e) (sequence e) 0) as [[[p b] sq] c].
  cbn [fst snd pos bit] in *. destruct H as (A & B & _). split; assumption.
Qed.

Lemma encodeByte_advance (usePrecomp : bool) (mfmData : Z -> Z) (numBytes : Z)
    (e : Encoder) :
  0 <= bit e <= 7 ->
  0 <= bit (fst (encodeByte usePrecomp mfmData numBytes e)) <= 7
  /\ bitsLeft numBytes (pos (fst (encodeByte usePrecomp mfmData numBytes e)))
       (bit (fst (encodeByte usePrecomp mfmData numBytes e)))
     < bitsLeft numBytes (pos e) (bit e).
Proof.
  intros Hb. unfold encodeByte.
  pose proof (encodeNibble_advance usePrecomp mfmData numBytes e Hb) as [A1 B1].
  destruct (encodeNibble usePrecomp mfmData numBytes e) as [e1 n1].
  cbn [fst] in A1, B1.
  pose proof (encodeNibble_advance usePrecomp mfmData numBytes e1 A1) as [A2 B2].
  destruct (encodeNibble usePrecomp mfmData numBytes e1) as [e2 n2].
  cbn [fst] in A2, B2 |- *. split; [exact A2 | lia].
Qed.

Lemma encodeLoop_completes (usePrecomp : bool) (mfmData : Z -> Z) (numBytes maxOutSize : Z)
    (fuel : nat) :
  forall (e : Encoder) (outputBuffer : list Z) (outputPos : Z),
    0 <= bit e <= 7 ->
    bitsLeft numBytes (pos e) (bit e) <= Z.of_nat fuel ->
    encodeLoop fuel usePrecomp mfmData numBytes maxOutSize e outputBuffer outputPos
    <> outOfFuel.
Proof.
  induction fuel as [|fuel IH]; intros e outputBuffer outputPos Hb Hfuel; cbn [encodeLoop];
    destruct (Z.ltb_spec (pos e) (numBytes + 8)) as [L | L]; try discriminate.
  - unfold bitsLeft in Hfuel. lia.
  - pose proof (encodeByte_advance usePrecomp mfmData numBytes e Hb) as [A B].
    destruct (encodeByte usePrecomp mfmData numBytes e) as [e' output].
    cbn [fst] in A, B.
    destruct (to_uint32 (outputPos + 1) >=? maxOutSize); [discriminate|].
    apply IH; [exact A | lia].
Qed.

(** The encoding part of [writeCurrentTrackPrecomp] always ends: with the
    packed buffer, or with [drSendParameterFailed]. *)
Lemma writeCurrentTrackPrecomp_completes (mfmData : Z -> Z) (numBytes : Z)
    (usePrecomp : bool) :
  writeCurrentTrackPrecomp mfmData numBytes usePrecomp <> outOfFuel.
Proof.
  unfold writeCurrentTrackPrecomp. apply encodeLoop_completes.
  - cbn [bit]. lia.
  - unfold bitsLeft. cbn [pos bit]. lia.
Qed.

Lemma encodeInterval_advance (usePrecomp : bool) (sample_freq nfa_thresh : Z)
    (mfmData : Z -> Z) (numBytes : Z) (e : GreaseWeazleInterface.Encoder)
    (outputBuffer : list Z) :
  let e' := fst (fst (GreaseWeazleInterface.encodeInterval usePrecomp sample_freq nfa_thresh
                        mfmData numBytes e outputBuffer)) in
  0 <= GreaseWeazleInterface.bit e <= 7 ->
  0 <= GreaseWeazleInterface.bit e' <= 7
  /\ bitsLeft numBytes (GreaseWeazleInterface.pos e') (GreaseWeazleInterface.bit e')
     < bitsLeft numBytes (GreaseWeazleInterface.pos e) (GreaseWeazleInterface.bit e).
Proof.
  intros e' Hb. unfold e', GreaseWeazleInterface.encodeInterval.
  assert (Hfuel : bitsLeft numBytes (GreaseWeazleInterface.pos e) (GreaseWeazleInterface.bit e)
                  - 1 <= Z.of_nat (scanFuel numBytes (GreaseWeazleInterface.pos e)))
    by (unfold bitsLeft, scanFuel; lia).
  pose proof (scanToOne_exits mfmData numBytes (scanFuel numBytes (GreaseWeazleInterface.pos e))
                (GreaseWeazleInterface.pos e) (GreaseWeazleInterface.bit e)
                (GreaseWeazleInterface.sequenceBits e) 0 Hb Hfuel) as H.
  cbv zeta in H.
  destruct (scanToOne _ mfmData numBytes (GreaseWeazleInterface.pos e)
              (GreaseWeazleInterface.bit e) (GreaseWeazleInterface.sequenceBits e) 0)
    as [[[p b] sq] c].
  cbn [fst snd] in H. destruct H as (A & B & _).
  destruct (GreaseWeazleInterface.applyPrecomp usePrecomp sq _ _) as [t x].
  cbn [fst GreaseWeazleInterface.pos GreaseWeazleInterface.bit]. split; assumption.
Qed.

Lemma gw_encodeLoop_completes (usePrecomp : bool) (sample_freq nfa_thresh : Z)
    (mfmData : Z -> Z) (numBytes : Z) (fuel : nat) :
  forall (e : GreaseWeazleInterface.Encoder) (outputBuffer : list Z),
    0 <= GreaseWeazleInterface.bit e <= 7 ->
    bitsLeft numBytes (GreaseWeazleInterface.pos e) (GreaseWeazleInterface.bit e) - 56
    <= Z.of_nat fuel ->
    GreaseWeazleInterface.encodeLoop fuel usePrecomp sample_freq nfa_thresh mfmData numBytes
      e outputBuffer
    <> GreaseWeazleInterface.outOfFuel.
Proof.
  induction fuel as [|fuel IH]; intros e outputBuffer Hb Hfuel;
    cbn [GreaseWeazleInterface.encodeLoop];
    destruct (Z.ltb_spec (GreaseWeazleInterface.pos e) (numBytes + 1)) as [L | L];
    try discriminate.
  - unfold bitsLeft in Hfuel. lia.
  - pose proof (encodeInterval_advance usePrecomp sample_freq nfa_thresh mfmData numBytes e
                  outputBuffer) as H.
    cbv zeta in H. specialize (H Hb).
    destruct (GreaseWeazleInterface.encodeInterval usePrecomp sample_freq nfa_thresh mfmData
                numBytes e outputBuffer) as [[e' out'] t].
    cbn [fst] in H. destruct H as [A B].
    apply IH; [exact A | lia].
Qed.

(** So does that of [GreaseWeazleInterface.cpp]. *)
Lemma gw_writeCurrentTrackPrecomp_completes (sample_freq nfa_thresh : Z) (mfmData : Z -> Z)
    (numBytes : Z) (usePrecomp : bool) :
  GreaseWeazleInterface.writeCurrentTrackPrecomp sample_freq nfa_thresh mfmData numBytes
    usePrecomp
  <> GreaseWeazleInterface.outOfFuel.
Proof.
  unfold GreaseWeazleInterface.writeCurrentTrackPrecomp. apply gw_encodeLoop_completes.
  - cbn [GreaseWeazleInterface.bit]. lia.
  - unfold bitsLeft. cbn [GreaseWeazleInterface.pos GreaseWeazleInterface.bit]. lia.
Qed.



End PrecompProperties.

(** ** Properties of the revolution aligner *)

Module AlignerProperties.

Import ArduinoInterface.
Import Notions.

Lemma scoreFrom_range (searchSequence searchArea : list Z) (startIndex pos : Z) :
  0 <= scoreFrom searchSequence searchArea startIndex pos
  <= Z.of_nat (length searchSequence).
Proof.
  revert pos. induction searchSequence as [|c rest IH]; intros pos.
  - simpl. lia.
  - cbn [scoreFrom length]. specialize (IH (pos + 1)).
    destruct ((0 <=? to_uint32 (startIndex + pos))
              && (to_uint32 (startIndex + pos) <? Z.of_nat (length searchArea))
              && (c =? nth (Z.to_nat (to_uint32 (startIndex + pos))) searchArea 0)); lia.
Qed.

Lemma skipn_cons_nth (l : list Z) (k : nat) :
  (k < length l)%nat -> skipn k l = nth k l 0 :: skipn (S k) l.
Proof.
  revert k. induction l as [|x l IH]; intros k Hk; [simpl in Hk; lia|].
  destruct k as [|k]; [reflexivity|].
  simpl in Hk. change (skipn (S k) (x :: l)) with (skipn k l).
  change (skipn (S (S k)) (x :: l)) with (skipn (S k) l).
  change (nth (S k) (x :: l) 0) with (nth k l 0).
  apply IH. lia.
Qed.

(** On a window that lies inside the search area the loop computes the score
    of the specification. *)
Lemma scoreFrom_matchCount (searchSequence searchArea : list Z) (startIndex : Z) :
  forall pos : Z,
    0 <= startIndex -> 0 <= pos ->
    startIndex + pos + Z.of_nat (length searchSequence) <= Z.of_nat (length searchArea) ->
    Z.of_nat (length searchArea) < 4294967296 ->
    scoreFrom searchSequence searchArea startIndex pos
    = matchCount searchSequence (skipn (Z.to_nat (startIndex + pos)) searchArea).
Proof.
  induction searchSequence as [|c rest IH]; intros pos Hs Hp Hfit Hsmall.
  - reflexivity.
  - cbn [scoreFrom length] in *.
    unfold to_uint32. rewrite Z.mod_small by lia.
    rewrite skipn_cons_nth by lia.
    cbn [matchCount].
    rewrite (IH (pos + 1)) by lia.
    replace (Z.to_nat (startIndex + (pos + 1))) with (S (Z.to_nat (startIndex + pos))) by lia.
    replace (0 <=? startIndex + pos) with true by (symmetry; apply Z.leb_le; lia).
    replace (startIndex + pos <? Z.of_nat (length searchArea)) with true
      by (symmetry; apply Z.ltb_lt; lia).
    reflexivity.
Qed.

Section FanOut.

Variables (searchSequence searchArea : list Z) (midPoint fallback : Z).

Let score (s : Z) : Z := scoreAt searchSequence searchArea s.
Let len : Z := Z.of_nat (length searchSequence).

Lemma score_range (s : Z) : 0 <= score s <= len.
Proof. apply scoreFrom_range. Qed.

Lemma fanOut_result (n : nat) :
  forall (a bestIndex bestScore : Z) (scored : list Z),
    0 <= a -> a + Z.of_nat n = midPoint + 1 ->
    fanOutInv score len midPoint fallback a bestIndex bestScore ->
    fanOutPost score midPoint fallback (fst (fanOut searchSequence searchArea midPoint n a bestIndex bestScore scored)).
Proof.
  induction n as [|n IH]; intros a bestIndex bestScore scored Ha Hn Hinv.
  - cbn [fanOut fst]. destruct Hinv as [Hb [(H0 & Hf & Hall) | (Hpos & Hsc & Hin & Hall)]].
    + left. split; [exact Hf|]. intros s Hs. apply Hall. lia.
    + right. split; [lia|]. split; [lia|]. intros s Hs.
      rewrite Hsc. apply Hall. lia.
  - cbn [fanOut]. fold (score (midPoint + -1 * a)). fold (score (midPoint + 1 * a)).
    fold len.
    replace (midPoint + -1 * a) with (midPoint - a) by lia.
    replace (midPoint + 1 * a) with (midPoint + a) by lia.
    pose proof (score_range (midPoint - a)) as R1.
    pose proof (score_range (midPoint + a)) as R2.
    assert (Hmid : a <= midPoint) by lia.
    destruct Hinv as [Hb Hinv].
    rewrite !Z.gtb_ltb.
    destruct (Z.ltb_spec bestScore (score (midPoint - a))) as [I1 | I1];
      cbn [andb].
    + (* the lower candidate improves *)
      destruct (Z.eqb_spec (score (midPoint - a)) len) as [P1 | P1].
      * (* and is perfect: both loops end *)
        cbn [fst]. right. split; [lia|]. split; [lia|]. intros s Hs.
        pose proof (score_range s) as Rs. split; [lia|]. intros Heq.
        assert (Hcase : midPoint - a < s < midPoint + a
                        \/ s <= midPoint - a \/ midPoint + a <= s) by lia.
        destruct Hcase as [Hc | Hc]; [|lia].
        destruct Hinv as [(_ & _ & Hall) | (_ & _ & _ & Hall)];
          specialize (Hall s Hc); lia.
      * destruct (Z.ltb_spec (score (midPoint - a)) (score (midPoint + a))) as [I2 | I2];
          cbn [andb].
        -- destruct (Z.eqb_spec (score (midPoint + a)) len) as [P2 | P2].
           ++ cbn [fst]. right. split; [lia|]. split; [lia|]. intros s Hs.
              pose proof (score_range s) as Rs. split; [lia|]. intros Heq.
              assert (Hcase : midPoint - a < s < midPoint + a \/ s = midPoint - a
                              \/ s < midPoint - a \/ midPoint + a <= s) by lia.
              destruct Hcase as [Hc | [Hc | Hc]]; [| subst s; lia | lia].
              destruct Hinv as [(_ & _ & Hall) | (_ & _ & _ & Hall)];
                specialize (Hall s Hc); lia.
           ++ apply IH; [lia | lia |].
              split; [lia|]. right. split; [lia|]. split; [reflexivity|].
              split; [lia|]. intros s Hs.
              assert (Hcase : midPoint - a < s < midPoint + a \/ s = midPoint - a
                              \/ s = midPoint + a) by lia.
              destruct Hcase as [Hc | [Hc | Hc]]; [| subst s; lia | subst s; lia].
              destruct Hinv as [(_ & _ & Hall) | (_ & _ & _ & Hall)];
                specialize (Hall s Hc); lia.
        -- apply IH; [lia | lia |].
           split; [lia|]. right. split; [lia|]. split; [reflexivity|].
           split; [lia|]. intros s Hs.
           assert (Hcase : midPoint - a < s < midPoint + a \/ s = midPoint - a
                           \/ s = midPoint + a) by lia.
           destruct Hcase as [Hc | [Hc | Hc]]; [| subst s; lia | subst s; lia].
           destruct Hinv as [(_ & _ & Hall) | (_ & _ & _ & Hall)];
             specialize (Hall s Hc); lia.
    + (* the lower candidate does not improve *)
      destruct (Z.ltb_spec bestScore (score (midPoint + a))) as [I2 | I2];
        cbn [andb].
      * destruct (Z.eqb_spec (score (midPoint + a)) len) as [P2 | P2].
        -- cbn [fst]. right. split; [lia|]. split; [lia|]. intros s Hs.
           pose proof (score_range s) as Rs. split; [lia|]. intros Heq.
           assert (Hcase : midPoint - a < s < midPoint + a \/ s = midPoint - a
                           \/ s < midPoint - a \/ midPoint + a <= s) by lia.
           destruct Hcase as [Hc | [Hc | Hc]]; [| subst s; lia | lia].
           destruct Hinv as [(_ & _ & Hall) | (_ & _ & _ & Hall)];
             specialize (Hall s Hc); lia.
        -- apply IH; [lia | lia |].
           split; [lia|]. right. split; [lia|]. split; [reflexivity|].
           split; [lia|]. intros s Hs.
           assert (Hcase : midPoint - a < s < midPoint + a \/ s = midPoint - a
                           \/ s = midPoint + a) by lia.
           destruct Hcase as [Hc | [Hc | Hc]]; [| subst s; lia | subst s; lia].
           destruct Hinv as [(_ & _ & Hall) | (_ & _ & _ & Hall)];
             specialize (Hall s Hc); lia.
      * apply IH; [lia | lia |].
        split; [lia|].
        destruct Hinv as [(H0 & Hf & Hall) | (Hpos & Hsc & Hin & Hall)].
        -- left. split; [exact H0|]. split; [exact Hf|]. intros s Hs.
           assert (Hcase : midPoint - a < s < midPoint + a \/ s = midPoint - a
                           \/ s = midPoint + a) by lia.
           destruct Hcase as [Hc | [Hc | Hc]]; [apply Hall; exact Hc | subst s; lia | subst s; lia].
        -- right. split; [exact Hpos|]. split; [exact Hsc|]. split; [lia|]. intros s Hs.
           assert (Hcase : midPoint - a < s < midPoint + a \/ s = midPoint - a
                           \/ s = midPoint + a) by lia.
           destruct Hcase as [Hc | [Hc | Hc]]; [apply Hall; exact Hc | subst s; lia | subst s; lia].
Qed.

(** The candidates are scored in the order of the fan-out, and the loops
    stop before its end only at a candidate with the full score, which is
    then the index returned. *)
Lemma fanOut_scored (n : nat) :
  forall (a bestIndex bestScore : Z) (scored : list Z),
    let result := fanOut searchSequence searchArea midPoint n a bestIndex bestScore scored in
    exists done rest : list Z,
      snd result = rev done ++ scored
      /\ fanOrder midPoint n a = done ++ rest
      /\ (rest = [] \/ exists d0, done = d0 ++ [fst result] /\ score (fst result) = len).
Proof.
  induction n as [|n IH]; intros a bestIndex bestScore scored.
  - exists [], []. cbn. auto.
  - cbv zeta. cbn [fanOut fanOrder]. fold (score (midPoint + -1 * a)).
    fold (score (midPoint + 1 * a)). fold len.
    replace (midPoint + -1 * a) with (midPoint - a) by lia.
    replace (midPoint + 1 * a) with (midPoint + a) by lia.
    destruct (score (midPoint - a) >? bestScore) eqn:I1; cbn [andb].
    + destruct (Z.eqb_spec (score (midPoint - a)) len) as [P1 | P1].
      * exists [midPoint - a], (midPoint + a :: fanOrder midPoint n (a + 1)).
        cbn [fst snd]. split; [reflexivity|]. split; [reflexivity|].
        right. exists []. split; [reflexivity | exact P1].
      * destruct (score (midPoint + a) >? score (midPoint - a)) eqn:I2; cbn [andb].
        -- destruct (Z.eqb_spec (score (midPoint + a)) len) as [P2 | P2].
           ++ exists [midPoint - a; midPoint + a], (fanOrder midPoint n (a + 1)).
              cbn [fst snd]. split; [reflexivity|]. split; [reflexivity|].
              right. exists [midPoint - a]. split; [reflexivity | exact P2].
           ++ destruct (IH (a + 1) (midPoint + a) (score (midPoint + a))
                          (midPoint + a :: midPoint - a :: scored))
                as (done & rest & Hs & Hf & Hr).
              exists (midPoint - a :: midPoint + a :: done), rest.
              split; [rewrite Hs; cbn [rev]; rewrite <- !app_assoc; reflexivity|].
              split; [rewrite Hf; reflexivity|].
              destruct Hr as [Hr | (d0 & Hd & Hp)]; [left; exact Hr|].
              right. exists (midPoint - a :: midPoint + a :: d0).
              split; [rewrite Hd; reflexivity | exact Hp].
        -- destruct (IH (a + 1) (midPoint - a) (score (midPoint - a))
                       (midPoint + a :: midPoint - a :: scored))
             as (done & rest & Hs & Hf & Hr).
           exists (midPoint - a :: midPoint + a :: done), rest.
           split; [rewrite Hs; cbn [rev]; rewrite <- !app_assoc; reflexivity|].
           split; [rewrite Hf; reflexivity|].
           destruct Hr as [Hr | (d0 & Hd & Hp)]; [left; exact Hr|].
           right. exists (midPoint - a :: midPoint + a :: d0).
           split; [rewrite Hd; reflexivity | exact Hp].
    + destruct (score (midPoint + a) >? bestScore) eqn:I2; cbn [andb].
      * destruct (Z.eqb_spec (score (midPoint + a)) len) as [P2 | P2].
        -- exists [midPoint - a; midPoint + a], (fanOrder midPoint n (a + 1)).
           cbn [fst snd]. split; [reflexivity|]. split; [reflexivity|].
           right. exists [midPoint - a]. split; [reflexivity | exact P2].
        -- destruct (IH (a + 1) (midPoint + a) (score (midPoint + a))
                       (midPoint + a :: midPoint - a :: scored))
             as (done & rest & Hs & Hf & Hr).
           exists (midPoint - a :: midPoint + a :: done), rest.
           split; [rewrite Hs; cbn [rev]; rewrite <- !app_assoc; reflexivity|].
           split; [rewrite Hf; reflexivity|].
           destruct Hr as [Hr | (d0 & Hd & Hp)]; [left; exact Hr|].
           right. exists (midPoint - a :: midPoint + a :: d0).
           split; [rewrite Hd; reflexivity | exact Hp].
      * destruct (IH (a + 1) bestIndex bestScore (midPoint + a :: midPoint - a :: scored))
          as (done & rest & Hs & Hf & Hr).
        exists (midPoint - a :: midPoint + a :: done), rest.
        split; [rewrite Hs; cbn [rev]; rewrite <- !app_assoc; reflexivity|].
        split; [rewrite Hf; reflexivity|].
        destruct Hr as [Hr | (d0 & Hd & Hp)]; [left; exact Hr|].
        right. exists (midPoint - a :: midPoint + a :: d0).
        split; [rewrite Hd; reflexivity | exact Hp].
Qed.

(** A candidate with the full score ends both loops: as long as [bestScore]
    is below the full score, a candidate that reaches it is the last one
    scored and the index returned. *)
Lemma fanOut_stops (n : nat) :
  forall (a bestIndex bestScore : Z) (scored : list Z),
    bestScore < len ->
    let result := fanOut searchSequence searchArea midPoint n a bestIndex bestScore scored in
    exists done : list Z,
      snd result = rev done ++ scored
      /\ forall (d0 : list Z) (x : Z) (d1 : list Z),
           done = d0 ++ x :: d1 -> score x = len -> d1 = [] /\ x = fst result.
Proof.
  induction n as [|n IH]; intros a bestIndex bestScore scored Hbest.
  - exists []. split; [reflexivity|]. intros d0 x d1 Hd. destruct d0; discriminate Hd.
  - cbv zeta. cbn [fanOut]. fold (score (midPoint + -1 * a)).
    fold (score (midPoint + 1 * a)). fold len.
    set (c1 := midPoint + -1 * a). set (c2 := midPoint + 1 * a).
    pose proof (score_range c1) as R1. pose proof (score_range c2) as R2.
    set (best1 := if score c1 >? bestScore then score c1 else bestScore).
    set (index1 := if score c1 >? bestScore then c1 else bestIndex).
    destruct ((score c1 >? bestScore) && (score c1 =? len)) eqn:Stop1.
    + apply andb_prop in Stop1. destruct Stop1 as [I1 _].
      assert (E1 : index1 = c1) by (unfold index1; rewrite I1; reflexivity).
      exists [c1]. cbn [fst snd]. split; [reflexivity|].
      intros d0 x d1 Hd _. destruct d0 as [|y d0].
      * injection Hd as <- <-. split; [reflexivity | symmetry; exact E1].
      * injection Hd as _ Hd. destruct d0; discriminate Hd.
    + assert (L1 : score c1 < len).
      { destruct (Z.gtb_spec (score c1) bestScore) as [G | G]; [| lia].
        destruct (Z.eqb_spec (score c1) len) as [P | P]; [discriminate Stop1 | lia]. }
      assert (B1 : best1 < len) by (unfold best1; destruct (score c1 >? bestScore); lia).
      clearbody best1 index1.
      set (best2 := if score c2 >? best1 then score c2 else best1).
      set (index2 := if score c2 >? best1 then c2 else index1).
      destruct ((score c2 >? best1) && (score c2 =? len)) eqn:Stop2.
      * apply andb_prop in Stop2. destruct Stop2 as [I2 _].
        assert (E2 : index2 = c2) by (unfold index2; rewrite I2; reflexivity).
        exists [c1; c2]. cbn [fst snd]. split; [reflexivity|].
        intros d0 x d1 Hd Hx. destruct d0 as [|y d0].
        -- injection Hd as <- _. lia.
        -- injection Hd as _ Hd. destruct d0 as [|z d0].
           ++ injection Hd as <- <-. split; [reflexivity | symmetry; exact E2].
           ++ injection Hd as _ Hd. destruct d0; discriminate Hd.
      * assert (L2 : score c2 < len).
        { destruct (Z.gtb_spec (score c2) best1) as [G | G]; [| lia].
          destruct (Z.eqb_spec (score c2) len) as [P | P]; [discriminate Stop2 | lia]. }
        assert (B2 : best2 < len) by (unfold best2; destruct (score c2 >? best1); lia).
        clearbody best2 index2.
        destruct (IH (a + 1) index2 best2 (c2 :: c1 :: scored) B2) as (done & Hs & Hfull).
        exists (c1 :: c2 :: done). split.
        -- rewrite Hs. cbn [rev]. rewrite <- !app_assoc. reflexivity.
        -- intros d0 x d1 Hd Hx. destruct d0 as [|y d0].
           ++ injection Hd as <- _. lia.
           ++ injection Hd as _ Hd. destruct d0 as [|z d0].
              ** injection Hd as <- _. lia.
              ** injection Hd as _ Hd. exact (Hfull d0 x d1 Hd Hx).
Qed.

End FanOut.

Lemma to_uint32_small (x : Z) : 0 <= x < 4294967296 -> to_uint32 x = x.
Proof. intros H. unfold to_uint32. apply Z.mod_small. exact H. Qed.

Lemma to_int32_small (x : Z) : -2147483648 <= x < 2147483648 -> to_int32 x = x.
Proof. intros H. unfold to_int32. rewrite Z.mod_small by lia. lia. Qed.

(** C5 as stated does not hold.  With a fingerprint of 32 codes 1 and a
    search area of 128 codes 0 (32 current, 96 future) every candidate scores
    0; the mid-point is 48, and the function returns 31, the index before the
    hardware index, though the candidate 48 ties with it and is closer to the
    mid-point. *)
Lemma findSlidingWindow_counterexample :
  ~ (forall searchSequence futureCodes currentCodes : list Z,
        Z.of_nat (length searchSequence) = OVERLAP_WINDOW_SIZE ->
        OVERLAP_WINDOW_SIZE <= Z.of_nat (length currentCodes) <= QUEUE_SIZE ->
        OVERLAP_WINDOW_SIZE <= Z.of_nat (length futureCodes) <= QUEUE_SIZE ->
        let searchArea := currentCodes ++ futureCodes in
        let midPoint := (Z.of_nat (length searchArea) - OVERLAP_WINDOW_SIZE) / 2 in
        let score := fun s => matchCount searchSequence (skipn (Z.to_nat s) searchArea) in
        let r := fst (findSlidingWindowTrace searchSequence futureCodes currentCodes) in
        forall s : Z,
          0 <= s <= 2 * midPoint ->
          score s <= score r
          /\ (score s = score r -> Z.abs (r - midPoint) <= Z.abs (s - midPoint))).
Proof.
  intros claim.
  specialize (claim (repeat 1 32%nat) (repeat 0 96%nat) (repeat 0 32%nat)).
  assert (H : Z.abs (31 - 48) <= Z.abs (48 - 48)).
  { refine (proj2 (claim _ _ _ 48 _) _); vm_compute; try reflexivity;
      try (split; discriminate). }
  vm_compute in H. apply H. reflexivity.
Qed.

(** C5, amended.  [findSlidingWindow] returns 0 when one of its three inputs
    has fewer than W = 32 elements.  Otherwise, for a fingerprint of W codes,
    it scores the candidates [mid - a], [mid + a], for a = 0, 1, ... up to
    [mid = (len(current ++ future) - W) / 2], by the number of positions at
    which the concatenated buffer matches the fingerprint.  It stops at the
    first candidate with the full score W: such a candidate is the last one
    scored and is returned, and the scan ends before the end of the fan-out
    only there.  When some candidate scores at least 1 it returns a candidate
    of the highest score, and among those one closest to the mid-point; when
    every candidate scores 0 it returns [len(current) - 1]. *)
Theorem findSlidingWindow_best (searchSequence futureCodes currentCodes : list Z) :
  let searchArea := currentCodes ++ futureCodes in
  let midPoint := (Z.of_nat (length searchArea) - OVERLAP_WINDOW_SIZE) / 2 in
  let score := fun s => matchCount searchSequence (skipn (Z.to_nat s) searchArea) in
  let r := fst (findSlidingWindowTrace searchSequence futureCodes currentCodes) in
  let scored := rev (snd (findSlidingWindowTrace searchSequence futureCodes currentCodes)) in
  (Z.of_nat (length searchSequence) < OVERLAP_WINDOW_SIZE
   \/ Z.of_nat (length currentCodes) < OVERLAP_WINDOW_SIZE
   \/ Z.of_nat (length futureCodes) < OVERLAP_WINDOW_SIZE -> r = 0)
  /\ (Z.of_nat (length searchSequence) = OVERLAP_WINDOW_SIZE ->
      OVERLAP_WINDOW_SIZE <= Z.of_nat (length currentCodes) <= QUEUE_SIZE ->
      OVERLAP_WINDOW_SIZE <= Z.of_nat (length futureCodes) <= QUEUE_SIZE ->
      (exists rest : list Z,
          fanOrder midPoint (Z.to_nat (midPoint + 1)) 0 = scored ++ rest
          /\ (rest = []
              \/ exists d0, scored = d0 ++ [r] /\ score r = OVERLAP_WINDOW_SIZE))
      /\ (forall (d0 : list Z) (x : Z) (d1 : list Z),
             scored = d0 ++ x :: d1 -> score x = OVERLAP_WINDOW_SIZE -> d1 = [] /\ x = r)
      /\ ((r = Z.of_nat (length currentCodes) - 1
           /\ forall s, 0 <= s <= 2 * midPoint -> score s = 0)
          \/ (0 <= r <= 2 * midPoint /\ 0 < score r
              /\ forall s, 0 <= s <= 2 * midPoint ->
                           score s <= score r
                           /\ (score s = score r ->
                               Z.abs (r - midPoint) <= Z.abs (s - midPoint))))).
Proof.
  intros searchArea midPoint score r scored. split.
  - intros Hshort. unfold r, findSlidingWindowTrace.
    destruct (Z.ltb_spec (Z.of_nat (length futureCodes)) OVERLAP_WINDOW_SIZE);
      [reflexivity|].
    destruct (Z.ltb_spec (Z.of_nat (length currentCodes)) OVERLAP_WINDOW_SIZE);
      [reflexivity|].
    destruct (Z.ltb_spec (Z.of_nat (length searchSequence)) OVERLAP_WINDOW_SIZE);
      [reflexivity|].
    lia.
  - intros Hfp Hcur Hfut.
    unfold QUEUE_SIZE, OVERLAP_WINDOW_SIZE in *.
    assert (Harea : Z.of_nat (length searchArea)
                    = Z.of_nat (length currentCodes) + Z.of_nat (length futureCodes))
      by (unfold searchArea; rewrite length_app; lia).
    assert (Hmid : 0 <= 2 * midPoint <= Z.of_nat (length searchArea) - 32)
      by (unfold midPoint; split;
          [apply Z.mul_nonneg_nonneg; [lia | apply Z.div_pos; lia]
          | apply Z.mul_div_le; lia]).
    assert (Htrace : findSlidingWindowTrace searchSequence futureCodes currentCodes
                     = fanOut searchSequence searchArea midPoint (Z.to_nat (midPoint + 1)) 0
                         (Z.of_nat (length currentCodes) - 1) 0 []).
    { unfold findSlidingWindowTrace, OVERLAP_WINDOW_SIZE.
      replace (Z.of_nat (length futureCodes) <? 32) with false
        by (symmetry; apply Z.ltb_ge; lia).
      replace (Z.of_nat (length currentCodes) <? 32) with false
        by (symmetry; apply Z.ltb_ge; lia).
      replace (Z.of_nat (length searchSequence) <? 32) with false
        by (symmetry; apply Z.ltb_ge; lia).
      fold searchArea. rewrite Hfp.
      rewrite (to_uint32_small (Z.of_nat (length searchArea) - 32)) by lia.
      fold midPoint.
      rewrite (to_int32_small midPoint), (to_int32_small (Z.of_nat (length currentCodes) - 1))
        by lia.
      reflexivity. }
    assert (Hscore : forall s, 0 <= s <= 2 * midPoint ->
                               scoreAt searchSequence searchArea s = score s).
    { intros s Hs. unfold scoreAt, score.
      rewrite scoreFrom_matchCount by lia.
      replace (s + 0) with s by lia. reflexivity. }
    assert (Hrange : forall n a x, 0 <= a -> a + Z.of_nat n = midPoint + 1 ->
                                   In x (fanOrder midPoint n a) -> 0 <= x <= 2 * midPoint).
    { induction n as [|n IHn]; intros a x Ha Hn Hx; [destruct Hx|].
      cbn [fanOrder] in Hx. destruct Hx as [<- | [<- | Hx]]; [lia | lia |].
      apply (IHn (a + 1) x); [lia | lia | exact Hx]. }
    destruct (fanOut_scored searchSequence searchArea midPoint
                (Z.to_nat (midPoint + 1)) 0 (Z.of_nat (length currentCodes) - 1) 0 [])
      as (done & rest & Htr & Hfan & Hstop).
    rewrite <- Htrace in Htr, Hstop. fold r in Hstop.
    assert (Hdone : scored = done).
    { unfold scored. rewrite Htr, app_nil_r. apply rev_involutive. }
    assert (Hscored : forall x, In x scored -> 0 <= x <= 2 * midPoint).
    { intros x Hx. apply (Hrange (Z.to_nat (midPoint + 1)) 0 x); [lia | lia |].
      rewrite Hfan, <- Hdone. apply in_or_app. left. exact Hx. }
    split; [| split].
    + exists rest. rewrite Hdone. split; [exact Hfan|].
      destruct Hstop as [Hstop | (d0 & Hd & Hp)]; [left; exact Hstop|].
      right. exists d0. split; [exact Hd|].
      rewrite <- (Hscore r), Hp; [lia|].
      apply Hscored. rewrite Hdone, Hd. apply in_or_app. right. left. reflexivity.
    + destruct (fanOut_stops searchSequence searchArea midPoint
                  (Z.to_nat (midPoint + 1)) 0 (Z.of_nat (length currentCodes) - 1) 0 []
                  ltac:(lia))
        as (done' & Htr' & Hfull).
      rewrite <- Htrace in Htr', Hfull. fold r in Hfull.
      assert (Hdone' : scored = done').
      { unfold scored. rewrite Htr', app_nil_r. apply rev_involutive. }
      intros d0 x d1 Hd Hx. apply (Hfull d0 x d1); [rewrite <- Hdone'; exact Hd |].
      rewrite Hscore, Hx; [lia |].
      apply Hscored. rewrite Hd. apply in_or_app. right. left. reflexivity.
    + pose proof (fanOut_result searchSequence searchArea midPoint
                    (Z.of_nat (length currentCodes) - 1) (Z.to_nat (midPoint + 1)) 0
                    (Z.of_nat (length currentCodes) - 1) 0 []) as Hpost.
      rewrite <- Htrace in Hpost. fold r in Hpost.
      assert (Hinv : fanOutInv (scoreAt searchSequence searchArea)
                       (Z.of_nat (length searchSequence)) midPoint
                       (Z.of_nat (length currentCodes) - 1) 0
                       (Z.of_nat (length currentCodes) - 1) 0).
      { split; [lia|]. left. split; [reflexivity|]. split; [reflexivity|].
        intros s Hs. lia. }
      specialize (Hpost ltac:(lia) ltac:(lia) Hinv).
      destruct Hpost as [(Hr & Hall) | (Hr & Hpos & Hall)].
      * left. split; [exact Hr|]. intros s Hs. rewrite <- Hscore by exact Hs.
        apply Hall. exact Hs.
      * right. split; [exact Hr|]. rewrite <- (Hscore r) by exact Hr.
        split; [exact Hpos|]. intros s Hs. rewrite <- (Hscore s) by exact Hs.
        apply Hall. exact Hs.
Qed.

Lemma findSlidingWindow_best_witness :
  let searchSequence := repeat 1 32%nat in
  let futureCodes := repeat 1 32%nat ++ repeat 0 32%nat in
  let currentCodes := repeat 0 32%nat in
  let scored := rev (snd (findSlidingWindowTrace searchSequence futureCodes currentCodes)) in
  fst (findSlidingWindowTrace (repeat 1 31%nat) futureCodes currentCodes) = 0
  /\ scored = [32]
  /\ fst (findSlidingWindowTrace searchSequence futureCodes currentCodes) = 32
  /\ exists rest : list Z, fanOrder 32 33%nat 0 = scored ++ rest.
Proof.
  intros searchSequence futureCodes currentCodes scored.
  assert (Hshort : Z.of_nat (length (repeat 1 31%nat)) < OVERLAP_WINDOW_SIZE) by reflexivity.
  assert (Hfp : Z.of_nat (length searchSequence) = OVERLAP_WINDOW_SIZE) by reflexivity.
  assert (Hcur : OVERLAP_WINDOW_SIZE <= Z.of_nat (length currentCodes) <= QUEUE_SIZE)
    by (split; discriminate).
  assert (Hfut : OVERLAP_WINDOW_SIZE <= Z.of_nat (length futureCodes) <= QUEUE_SIZE)
    by (split; discriminate).
  assert (Hs : scored = [] ++ 32 :: []) by (vm_compute; reflexivity).
  assert (Hx : matchCount searchSequence
                 (skipn (Z.to_nat 32) (currentCodes ++ futureCodes))
               = OVERLAP_WINDOW_SIZE) by (vm_compute; reflexivity).
  split.
  - exact (proj1 (findSlidingWindow_best (repeat 1 31%nat) futureCodes currentCodes)
             (or_introl Hshort)).
  - destruct (proj2 (findSlidingWindow_best searchSequence futureCodes currentCodes)
                Hfp Hcur Hfut) as ([rest [Hf _]] & Hfull & _).
    split; [exact Hs |]. split; [| exists rest; exact Hf].
    symmetry. exact (proj2 (Hfull [] 32 [] Hs Hx)).
Defined.

End AlignerProperties.

(** ** The track cache in the reachable states *)

Module CacheProperties.

Import ArduinoFloppyBridge.
Import Notions.
Import BridgeTactics.
Import BridgeProperties.






















(** *** The worker thread *)
















End CacheProperties.

(** ** Properties of the ring-buffer queue *)

Module QueueProperties.

Import FastQueue.

Section Queue.

Context {queueType : Type}.

Implicit Types (q : FastQueue queueType) (c : queueType).

Lemma QUEUE_SIZE_value : QUEUE_SIZE = 128.
Proof. reflexivity. Qed.

Lemma QueueInv_newQueue (mem : Z -> queueType) : QueueInv (newQueue mem).
Proof. unfold QueueInv, newQueue; cbn [readHead writeHead bytes]. rewrite QUEUE_SIZE_value. repeat split; lia. Qed.

Lemma length_contents q : 0 <= bytes q -> Z.of_nat (length (contents q)) = bytes q.
Proof. intros H. unfold contents. rewrite length_map, length_seq. lia. Qed.

Lemma QueueInv_push c q : QueueInv q -> QueueInv (push c q).
Proof.
  unfold QueueInv, push. rewrite QUEUE_SIZE_value. intros (Hr & Hb & Hw).
  destruct (Z.ltb_spec (bytes q) 128) as [L | L]; cbn [readHead writeHead bytes]; [| auto].
  unfold to_uint32. rewrite Hw.
  assert (0 <= (readHead q + bytes q) mod 128 < 128) by (apply Z.mod_pos_bound; lia).
  rewrite !(Z.mod_small _ 4294967296) by lia.
  repeat split; try lia.
  rewrite Z.add_assoc. rewrite <- (Zplus_mod_idemp_l (readHead q + bytes q)). reflexivity.
Qed.

Lemma QueueInv_pop q : QueueInv q -> QueueInv (pop q).
Proof.
  unfold QueueInv, pop. rewrite QUEUE_SIZE_value. intros (Hr & Hb & Hw).
  destruct (Z.eqb_spec (bytes q) 0) as [E | E]; cbn [negb readHead writeHead bytes]; [auto |].
  unfold to_uint32. rewrite !(Z.mod_small _ 4294967296) by lia.
  repeat split; try lia; try (apply Z.mod_pos_bound; lia).
  rewrite Zplus_mod_idemp_l. rewrite Hw. f_equal. lia.
Qed.

(** A slot in use is not the slot the next [push] writes. *)
Lemma slot_in_use q (i : nat) :
  QueueInv q -> Z.of_nat i < bytes q -> bytes q < QUEUE_SIZE ->
  (readHead q + Z.of_nat i) mod QUEUE_SIZE <> writeHead q.
Proof.
  unfold QueueInv. rewrite QUEUE_SIZE_value. intros (Hr & Hb & Hw) Hi Hlt E.
  rewrite Hw in E.
  assert (D : (readHead q + bytes q - (readHead q + Z.of_nat i)) mod 128 = 0).
  { rewrite Zminus_mod, E, Z.sub_diag. reflexivity. }
  replace (readHead q + bytes q - (readHead q + Z.of_nat i)) with (bytes q - Z.of_nat i) in D
    by lia.
  rewrite Z.mod_small in D by lia. lia.
Qed.

Lemma contents_push c q :
  QueueInv q ->
  contents (push c q)
  = if Z.of_nat (length (contents q)) <? QUEUE_SIZE then contents q ++ [c] else contents q.
Proof.
  intros Hinv. pose proof Hinv as (Hr & Hb & Hw).
  rewrite length_contents by lia. unfold push.
  destruct (Z.ltb_spec (bytes q) QUEUE_SIZE) as [L | L]; [| reflexivity].
  unfold contents; cbn [buffer readHead bytes].
  rewrite QUEUE_SIZE_value in *. unfold to_uint32.
  rewrite (Z.mod_small (bytes q + 1)) by lia.
  replace (Z.to_nat (bytes q + 1)) with (Z.to_nat (bytes q) + 1)%nat by lia.
  rewrite seq_app, map_app. cbn [seq map]. f_equal.
  - apply map_ext_in. intros i Hi. apply in_seq in Hi. unfold store.
    destruct (Z.eqb_spec ((readHead q + Z.of_nat i) mod 128) (writeHead q)) as [E | E];
      [| reflexivity].
    exfalso. apply (slot_in_use q i Hinv); rewrite ?QUEUE_SIZE_value; lia.
  - unfold store. rewrite Hw.
    replace (Z.of_nat (0 + Z.to_nat (bytes q))) with (bytes q) by lia.
    rewrite Z.eqb_refl. reflexivity.
Qed.

Lemma contents_pop q : QueueInv q -> contents (pop q) = tl (contents q).
Proof.
  intros (Hr & Hb & Hw). unfold pop.
  destruct (Z.eqb_spec (bytes q) 0) as [E | E]; cbn [negb].
  - unfold contents. rewrite E. reflexivity.
  - unfold contents; cbn [buffer readHead bytes].
    rewrite QUEUE_SIZE_value in *. unfold to_uint32.
    rewrite !(Z.mod_small _ 4294967296) by lia.
    replace (Z.to_nat (bytes q)) with (S (Z.to_nat (bytes q - 1))) by lia.
    cbn [seq map tl]. rewrite <- seq_shift, map_map.
    apply map_ext. intros i. f_equal.
    rewrite Zplus_mod_idemp_l. f_equal. lia.
Qed.

Lemma QueueInv_applyOp q (op : QueueOp queueType) : QueueInv q -> QueueInv (applyOp q op).
Proof. destruct op; [apply QueueInv_push | apply QueueInv_pop]. Qed.

Lemma contents_applyOp q (op : QueueOp queueType) :
  QueueInv q -> contents (applyOp q op) = fifoOp (contents q) op.
Proof. destruct op; [apply contents_push | apply contents_pop]. Qed.

Lemma run_ops (ops : list (QueueOp queueType)) :
  forall q, QueueInv q ->
    QueueInv (fold_left applyOp ops q)
    /\ contents (fold_left applyOp ops q) = fold_left fifoOp ops (contents q).
Proof.
  induction ops as [| op ops IH]; intros q Hinv; cbn [fold_left]; [auto |].
  rewrite <- contents_applyOp by exact Hinv.
  apply IH, QueueInv_applyOp, Hinv.
Qed.

Lemma front_contents q :
  QueueInv q -> contents q <> [] -> hd_error (contents q) = Some (front q).
Proof.
  intros (Hr & Hb & Hw) Hne. unfold contents in *.
  destruct (Z.to_nat (bytes q)) as [| n]; [contradiction |].
  cbn [seq map hd_error]. unfold front. rewrite Z.add_0_r, Z.mod_small by lia. reflexivity.
Qed.

(** X1.  [FastQueue] and [FastQueue2] are first-in first-out queues of at most
    [QUEUE_SIZE] = 128 elements.  After any sequence of [push] and [pop] on a
    new queue, whatever its array held, the elements from [readHead] on are
    those a list holds on which [push] appends while fewer than 128 are held
    and is dropped otherwise, and [pop] removes the first, if any; [size()]
    is their number and [front()] the first of them. *)
Theorem fast_queue_is_bounded_fifo (mem : Z -> queueType) (ops : list (QueueOp queueType)) :
  let q := fold_left applyOp ops (newQueue mem) in
  contents q = fold_left fifoOp ops []
  /\ size q = Z.of_nat (length (contents q))
  /\ Z.of_nat (length (contents q)) <= QUEUE_SIZE
  /\ (contents q <> [] -> hd_error (contents q) = Some (front q)).
Proof.
  intros q. destruct (run_ops ops (newQueue mem) (QueueInv_newQueue mem)) as [Hinv Hc].
  fold q in Hinv, Hc. pose proof Hinv as (Hr & Hb & Hw).
  split; [exact Hc |]. rewrite length_contents by lia.
  repeat split; [lia | apply front_contents, Hinv].
Qed.

End Queue.

End QueueProperties.

(** ** Properties of the read stream of [ArduinoInterface.cpp] *)

Module StreamProperties.

Import ArduinoFloppyBridge.
Import ArduinoInterface.
Import ArduinoStream.
Import StreamNotions.

(** *** Bits and samples *)

Lemma testbit_pushed (d v j : Z) :
  0 <= j < 8 -> 0 <= v <= 1 ->
  Z.testbit (to_uint8 (Z.lor (to_uint8 (Z.shiftl d 1)) v)) j
  = if j =? 0 then v =? 1 else Z.testbit d (j - 1).
Proof.
  intros Hj Hv. unfold to_uint8. change 256 with (2 ^ 8).
  rewrite Z.mod_pow2_bits_low, Z.lor_spec, Z.mod_pow2_bits_low, Z.shiftl_spec by lia.
  destruct (Z.eqb_spec j 0) as [-> | Hne].
  - rewrite Z.testbit_neg_r by lia. assert (v = 0 \/ v = 1) as [-> | ->] by lia; reflexivity.
  - replace (Z.testbit v j) with false; [apply orb_false_r |].
    assert (v = 0 \/ v = 1) as [-> | ->] by lia.
    + symmetry. apply Z.bits_0.
    + symmetry. apply (Z.ones_spec_high 1 j). lia.
Qed.

Lemma seq_snoc (n : nat) : seq 0 (S n) = seq 0 n ++ [n].
Proof. rewrite <- Nat.add_1_r, seq_app. reflexivity. Qed.

Lemma samplesCells_snoc (buffer : Z -> MFMSample) (offset : Z) (n : nat) :
  samplesCells buffer offset (S n)
  = samplesCells buffer offset n ++ sampleCells (buffer (offset + Z.of_nat n)) 8.
Proof.
  unfold samplesCells. rewrite seq_snoc, map_app, concat_app. cbn [map concat].
  rewrite app_nil_r. reflexivity.
Qed.

Lemma samplesCells_ext (b1 b2 : Z -> MFMSample) (o1 o2 : Z) (n : nat) :
  (forall i, 0 <= i < Z.of_nat n -> b1 (o1 + i) = b2 (o2 + i)) ->
  samplesCells b1 o1 n = samplesCells b2 o2 n.
Proof.
  intros H. unfold samplesCells. f_equal. apply map_ext_in. intros i Hi.
  apply in_seq in Hi. rewrite H by lia. reflexivity.
Qed.

Lemma samplesCells_app (buffer : Z -> MFMSample) (offset : Z) (n m : nat) :
  samplesCells buffer offset (n + m)
  = samplesCells buffer offset n ++ samplesCells buffer (offset + Z.of_nat n) m.
Proof.
  induction m as [| m IH].
  - rewrite Nat.add_0_r. unfold samplesCells at 3. cbn [seq map concat].
    rewrite app_nil_r. reflexivity.
  - rewrite Nat.add_succ_r, !samplesCells_snoc, IH, <- app_assoc.
    replace (offset + Z.of_nat (n + m)) with (offset + Z.of_nat n + Z.of_nat m) by lia.
    reflexivity.
Qed.

Lemma length_sampleCells (s : MFMSample) (n : Z) :
  length (sampleCells s n) = Z.to_nat n.
Proof. unfold sampleCells. rewrite length_map, length_seq. reflexivity. Qed.

Lemma length_samplesCells (buffer : Z -> MFMSample) (offset : Z) (n : nat) :
  length (samplesCells buffer offset n) = (8 * n)%nat.
Proof.
  induction n as [| n IH]; [reflexivity |].
  rewrite samplesCells_snoc, length_app, IH, length_sampleCells. lia.
Qed.

(** The sample [writeStreamBit] stores holds one bit more. *)
Lemma sampleCells_pushed (s : MFMSample) (bit value valuespeed : Z) :
  0 <= bit < 8 -> 0 <= value <= 1 ->
  sampleCells
    (mkMFMSample (store (speed s) (to_uint32 (7 - bit)) (to_uint8 valuespeed))
       (to_uint8 (Z.lor (to_uint8 (Z.shiftl (mfmData s) 1)) value)))
    (bit + 1)
  = sampleCells s bit ++ [(value =? 1, to_uint8 valuespeed)].
Proof.
  intros Hb Hv. unfold sampleCells.
  replace (Z.to_nat (bit + 1)) with (S (Z.to_nat bit)) by lia.
  rewrite seq_snoc, map_app. cbn [map mfmData speed].
  assert (E32 : to_uint32 (7 - bit) = 7 - bit) by (unfold to_uint32; apply Z.mod_small; lia).
  rewrite E32. apply (f_equal2 (@app _)).
  - apply map_ext_in. intros k Hk. apply in_seq in Hk.
    rewrite testbit_pushed by lia.
    destruct (Z.eqb_spec (bit + 1 - 1 - Z.of_nat k) 0) as [E | E]; [lia |].
    unfold store. destruct (Z.eqb_spec (7 - Z.of_nat k) (7 - bit)) as [E' | E']; [lia |].
    replace (bit + 1 - 1 - Z.of_nat k - 1) with (bit - 1 - Z.of_nat k) by lia. reflexivity.
  - rewrite testbit_pushed by lia.
    replace (bit + 1 - 1 - Z.of_nat (Z.to_nat bit)) with 0 by lia.
    unfold store. replace (7 - Z.of_nat (Z.to_nat bit)) with (7 - bit) by lia.
    rewrite !Z.eqb_refl. reflexivity.
Qed.

(** [writeStreamBit] with room left: the bit is appended to the stream. *)
Lemma writeStreamBit_appends (output : Z -> MFMSample)
    (pos bit value valuespeed maxLength : Z) :
  0 <= pos < maxLength -> maxLength <= 4294967295 -> 0 <= bit < 8 -> 0 <= value <= 1 ->
  let '(output', pos', bit') := writeStreamBit output pos bit value valuespeed maxLength in
  streamCells output' pos' bit'
  = streamCells output pos bit ++ [(value =? 1, to_uint8 valuespeed)]
  /\ 8 * pos' + bit' = 8 * pos + bit + 1
  /\ 0 <= bit' < 8
  /\ (forall i, i <> pos -> output' i = output i).
Proof.
  intros Hp Hm Hb Hv. unfold writeStreamBit.
  destruct (Z.geb_spec pos maxLength) as [G | G]; [lia |].
  assert (E32 : to_uint32 (bit + 1) = bit + 1) by (unfold to_uint32; apply Z.mod_small; lia).
  assert (P32 : to_uint32 (pos + 1) = pos + 1) by (unfold to_uint32; apply Z.mod_small; lia).
  rewrite E32, P32.
  set (s' := mkMFMSample _ _).
  assert (Hs : sampleCells s' (bit + 1)
               = sampleCells (output pos) bit ++ [(value =? 1, to_uint8 valuespeed)])
    by (apply sampleCells_pushed; assumption).
  assert (Hsame : samplesCells (store output pos s') 0 (Z.to_nat pos)
                  = samplesCells output 0 (Z.to_nat pos)).
  { apply samplesCells_ext. intros i Hi. unfold store.
    destruct (Z.eqb_spec (0 + i) pos); [lia | reflexivity]. }
  assert (Hat : store output pos s' pos = s') by (unfold store; rewrite Z.eqb_refl; reflexivity).
  assert (Hother : forall i, i <> pos -> store output pos s' i = output i).
  { intros i Hi. unfold store. destruct (Z.eqb_spec i pos); [contradiction | reflexivity]. }
  destruct (Z.geb_spec (bit + 1) 8) as [G8 | G8].
  - assert (bit = 7) by lia. subst bit. unfold streamCells.
    replace (Z.to_nat (pos + 1)) with (S (Z.to_nat pos)) by lia.
    rewrite samplesCells_snoc, Hsame.
    replace (0 + Z.of_nat (Z.to_nat pos)) with pos by lia. rewrite Hat.
    change (7 + 1) with 8 in Hs. rewrite Hs.
    unfold sampleCells at 3. cbn [Z.to_nat seq map]. rewrite app_nil_r, app_assoc.
    repeat split; try lia. exact Hother.
  - unfold streamCells. rewrite Hsame, Hat, Hs, app_assoc.
    repeat split; try lia. exact Hother.
Qed.

(** [writeStreamBit] stores inside the buffer only, and nothing once the
    buffer is full. *)
Lemma writeStreamBit_within (output : Z -> MFMSample)
    (pos bit value valuespeed maxLength : Z) (i : Z) :
  0 <= pos -> ~ (0 <= i < maxLength) ->
  fst (fst (writeStreamBit output pos bit value valuespeed maxLength)) i = output i.
Proof.
  intros Hp Hi. unfold writeStreamBit.
  destruct (Z.geb_spec pos maxLength) as [G | G]; [reflexivity |].
  assert (E : (i =? pos) = false) by (apply Z.eqb_neq; lia).
  destruct (to_uint32 (bit + 1) >=? 8); cbn [fst]; unfold store; rewrite E; reflexivity.
Qed.

End StreamProperties.

(** *** Packets *)

Module PacketProperties.

Import ArduinoFloppyBridge.
Import ArduinoInterface.
Import ArduinoStream.
Import StreamNotions.
Import StreamProperties.

Lemma to_uint8_to_uint32 (x : Z) : to_uint8 (to_uint32 x) = to_uint8 x.
Proof.
  unfold to_uint8, to_uint32. rewrite (Z.mod_eq x 4294967296) by lia.
  replace (x - 4294967296 * (x / 4294967296))
    with (x + (-16777216 * (x / 4294967296)) * 256) by lia.
  apply Z.mod_add. lia.
Qed.

Lemma writeZeroBits_appends (n : nat) :
  forall (buffer : Z -> MFMSample) (pos bit valuespeed maxLength : Z),
    0 <= pos -> 0 <= bit < 8 -> maxLength <= 4294967295 ->
    8 * pos + bit + Z.of_nat n <= 8 * maxLength ->
    let '(buffer', pos', bit') := writeZeroBits n buffer pos bit valuespeed maxLength in
    streamCells buffer' pos' bit'
    = streamCells buffer pos bit ++ repeat (false, to_uint8 valuespeed) n
    /\ 8 * pos' + bit' = 8 * pos + bit + Z.of_nat n
    /\ 0 <= pos' /\ 0 <= bit' < 8.
Proof.
  induction n as [| n IH]; intros buffer pos bit valuespeed maxLength Hp Hb Hm Hroom.
  - cbn [writeZeroBits repeat]. rewrite app_nil_r. repeat split; lia.
  - cbn [writeZeroBits].
    pose proof (writeStreamBit_appends buffer pos bit 0 valuespeed maxLength) as H.
    destruct (writeStreamBit buffer pos bit 0 valuespeed maxLength) as [[b1 p1] t1].
    destruct H as (Hc & Hn & Ht & _); try lia.
    specialize (IH b1 p1 t1 valuespeed maxLength).
    destruct (writeZeroBits n b1 p1 t1 valuespeed maxLength) as [[b2 p2] t2].
    destruct IH as (Hc2 & Hn2 & Hp2 & Ht2); try lia.
    rewrite Hc2, Hc, <- app_assoc. cbn [repeat app Z.eqb].
    repeat split; lia.
Qed.

Lemma writeZeroBits_within (n : nat) :
  forall (buffer : Z -> MFMSample) (pos bit valuespeed maxLength : Z),
    0 <= pos <= maxLength -> maxLength <= 4294967295 ->
    let '(buffer', pos', bit') := writeZeroBits n buffer pos bit valuespeed maxLength in
    0 <= pos' <= maxLength
    /\ (forall i, ~ (0 <= i < maxLength) -> buffer' i = buffer i).
Proof.
  induction n as [| n IH]; intros buffer pos bit valuespeed maxLength Hp Hm.
  - cbn [writeZeroBits]. split; [lia | reflexivity].
  - cbn [writeZeroBits].
    pose proof (fun i => writeStreamBit_within buffer pos bit 0 valuespeed maxLength i) as Hw.
    assert (Hpos : 0 <= snd (fst (writeStreamBit buffer pos bit 0 valuespeed maxLength))
                   <= maxLength).
    { unfold writeStreamBit. destruct (Z.geb_spec pos maxLength); [cbn; lia |].
      destruct (to_uint32 (bit + 1) >=? 8); cbn [fst snd]; [| lia].
      unfold to_uint32. rewrite Z.mod_small by lia. lia. }
    destruct (writeStreamBit buffer pos bit 0 valuespeed maxLength) as [[b1 p1] t1].
    cbn [fst snd] in Hw, Hpos.
    specialize (IH b1 p1 t1 valuespeed maxLength Hpos Hm).
    destruct (writeZeroBits n b1 p1 t1 valuespeed maxLength) as [[b2 p2] t2].
    destruct IH as [Hp2 Hout]. split; [exact Hp2 |].
    intros i Hi. rewrite Hout by exact Hi. apply Hw; [lia | exact Hi].
Qed.

(** The bits [outputBitSequence] adds to the stream in the buffer. *)
Lemma outputBitSequence_cells (value : ArduinoPacket) (buffer : Z -> MFMSample)
    (pos bit maxBufferSize : Z) :
  0 <= mfm value <= 255 ->
  0 <= pos -> 0 <= bit < 8 -> 0 <= maxBufferSize <= 2147483647 ->
  8 * pos + bit + (sequenceOf value + 2) <= 8 * maxBufferSize ->
  let '(buffer', pos', bit') := outputBitSequence value buffer pos bit maxBufferSize in
  streamCells buffer' pos' bit' = streamCells buffer pos bit ++ packetCells value
  /\ 8 * pos' + bit' = 8 * pos + bit + (sequenceOf value + 2)
  /\ 0 <= bit' < 8.
Proof.
  intros Hmfm Hp Hb Hmax Hroom. unfold outputBitSequence, packetCells.
  assert (Hseq : 0 <= sequenceOf value <= 254).
  { unfold sequenceOf. destruct (Z.eqb_spec (mfm value) 0); lia. }
  assert (E : to_uint32 maxBufferSize = maxBufferSize)
    by (unfold to_uint32; apply Z.mod_small; lia).
  rewrite E.
  pose proof (writeZeroBits_appends (Z.to_nat (sequenceOf value + 1)) buffer pos bit
                (to_uint32 (speedOf value)) maxBufferSize) as H.
  destruct (writeZeroBits _ buffer pos bit _ maxBufferSize) as [[b1 p1] t1].
  destruct H as (Hc & Hn & Hp1 & Ht1); try lia.
  pose proof (writeStreamBit_appends b1 p1 t1 (if sequenceOf value =? 3 then 0 else 1)
                (to_uint32 (speedOf value)) maxBufferSize) as H.
  destruct (writeStreamBit b1 p1 t1 _ _ maxBufferSize) as [[b2 p2] t2].
  destruct H as (Hc2 & Hn2 & Ht2 & _); try lia.
  { destruct (sequenceOf value =? 3); lia. }
  rewrite Hc2, Hc, to_uint8_to_uint32, <- app_assoc.
  repeat split; try lia.
  do 3 f_equal. destruct (sequenceOf value =? 3); reflexivity.
Qed.

(** X2.  [outputBitSequence] with room for the packet: the stream in the
    buffer is extended by [sequence + 1] zero bits and a one bit (a zero bit
    when [sequence] is 3), each stored with the speed computed for the packet
    at the index at which the bridge reads the speed of that bit. *)
Theorem outputBitSequence_appends (value : ArduinoPacket) (buffer : Z -> MFMSample)
    (pos bit maxBufferSize : Z) :
  0 <= mfm value <= 255 ->
  0 <= pos -> 0 <= bit < 8 -> 0 <= maxBufferSize <= 2147483647 ->
  8 * pos + bit + (sequenceOf value + 2) <= 8 * maxBufferSize ->
  let '(buffer', pos', bit') := outputBitSequence value buffer pos bit maxBufferSize in
  streamCells buffer' pos' bit' = streamCells buffer pos bit ++ packetCells value
  /\ 8 * pos' + bit' = 8 * pos + bit + (sequenceOf value + 2)
  /\ 0 <= bit' < 8.
Proof. apply outputBitSequence_cells. Qed.

Lemma outputBitSequence_appends_witness :
  let value := mkArduinoPacket false 48 2 in
  let '(buffer', pos', bit') := outputBitSequence value (fun _ => zeroSample) 0 6 10 in
  streamCells buffer' pos' bit' = streamCells (fun _ => zeroSample) 0 6 ++ packetCells value
  /\ 8 * pos' + bit' = 8 * 0 + 6 + (sequenceOf value + 2)
  /\ 0 <= bit' < 8.
Proof.
  apply (outputBitSequence_appends (mkArduinoPacket false 48 2) (fun _ => zeroSample) 0 6 10);
    cbn; lia.
Defined.

(** X3.  [outputBitSequence] never stores a sample outside the [maxBufferSize]
    samples of the buffer and never moves [pos] past them: the bits that do
    not fit are dropped. *)
Theorem outputBitSequence_within (value : ArduinoPacket) (buffer : Z -> MFMSample)
    (pos bit maxBufferSize : Z) :
  0 <= pos <= maxBufferSize -> maxBufferSize <= 2147483647 ->
  let '(buffer', pos', bit') := outputBitSequence value buffer pos bit maxBufferSize in
  0 <= pos' <= maxBufferSize
  /\ (forall i, ~ (0 <= i < maxBufferSize) -> buffer' i = buffer i).
Proof.
  intros Hp Hmax. unfold outputBitSequence.
  assert (E : to_uint32 maxBufferSize = maxBufferSize)
    by (unfold to_uint32; apply Z.mod_small; lia).
  rewrite E.
  pose proof (writeZeroBits_within (Z.to_nat (sequenceOf value + 1)) buffer pos bit
                (to_uint32 (speedOf value)) maxBufferSize) as H.
  destruct (writeZeroBits _ buffer pos bit _ maxBufferSize) as [[b1 p1] t1].
  destruct H as [Hp1 Hout]; try lia.
  assert (Hlast : forall v,
             0 <= snd (fst (writeStreamBit b1 p1 t1 v (to_uint32 (speedOf value))
                              maxBufferSize)) <= maxBufferSize).
  { intros v. unfold writeStreamBit. destruct (Z.geb_spec p1 maxBufferSize); [cbn; lia |].
    destruct (to_uint32 (t1 + 1) >=? 8); cbn [fst snd]; [| lia].
    unfold to_uint32. rewrite Z.mod_small by lia. lia. }
  pose proof (fun v i => writeStreamBit_within b1 p1 t1 v (to_uint32 (speedOf value))
                           maxBufferSize i) as Hw.
  specialize (Hlast (if sequenceOf value =? 3 then 0 else 1)).
  specialize (Hw (if sequenceOf value =? 3 then 0 else 1)).
  destruct (writeStreamBit b1 p1 t1 _ _ maxBufferSize) as [[b2 p2] t2].
  cbn [fst snd] in Hlast, Hw. split; [exact Hlast |].
  intros i Hi. rewrite Hw by (lia || exact Hi). apply Hout, Hi.
Qed.

Lemma outputBitSequence_within_witness :
  let '(buffer', pos', bit') :=
    outputBitSequence (mkArduinoPacket false 48 2) (fun _ => zeroSample) 1 6 2 in
  0 <= pos' <= 2
  /\ (forall i, ~ (0 <= i < 2) -> buffer' i = zeroSample).
Proof.
  apply (outputBitSequence_within (mkArduinoPacket false 48 2) (fun _ => zeroSample) 1 6 2);
    lia.
Defined.

(** The two packets of each of the 256 bytes, checked one by one. *)
Lemma packets_checked :
  forallb (fun n =>
             let check (p : ArduinoPacket) :=
               (0 <=? sequenceOf p) && (sequenceOf p <=? 2)
               && (75 <=? speedOf p) && (speedOf p <=? 118) in
             check (fst (packetsOfByte (Z.of_nat n)))
             && check (snd (packetsOfByte (Z.of_nat n))))
          (seq 0 256) = true.
Proof. vm_compute. reflexivity. Qed.

Lemma packet_of_byte_range (byteRead : Z) (p : ArduinoPacket) :
  0 <= byteRead <= 255 ->
  p = fst (packetsOfByte byteRead) \/ p = snd (packetsOfByte byteRead) ->
  0 <= sequenceOf p <= 2 /\ 75 <= speedOf p <= 118.
Proof.
  intros Hb Hp. pose proof packets_checked as H.
  rewrite forallb_forall in H. specialize (H (Z.to_nat byteRead)).
  rewrite Z2Nat.id in H by lia. cbv zeta in H.
  assert (Hin : In (Z.to_nat byteRead) (seq 0 256)) by (apply in_seq; lia).
  specialize (H Hin). rewrite !andb_true_iff, !Z.leb_le in H.
  destruct Hp as [-> | ->]; lia.
Qed.

(** X4.  Every byte of the stream stands for two packets of two to four bits
    whose speed is between 75 and 118 percent.  A bit stored with such a
    speed is reported by the bridge at ten times that value: the limits 700
    and 3000 of [getMFMSpeed] never apply to what this adapter delivers. *)
Theorem stream_byte_speed (byteRead : Z) (p : ArduinoPacket) :
  0 <= byteRead <= 255 ->
  p = fst (packetsOfByte byteRead) \/ p = snd (packetsOfByte byteRead) ->
  0 <= sequenceOf p <= 2
  /\ 75 <= speedOf p <= 118
  /\ (forall (c : MFMCache) (mfmPositionByte mfmPositionBit : Z),
        speed (mfmBuffer c mfmPositionByte) mfmPositionBit = to_uint8 (speedOf p) ->
        limitedSpeed c mfmPositionByte mfmPositionBit = 10 * speedOf p).
Proof.
  intros Hb Hp. destruct (packet_of_byte_range byteRead p Hb Hp) as [Hs Hv].
  repeat split; try lia.
  intros c mfmPositionByte mfmPositionBit E. unfold limitedSpeed. rewrite E.
  unfold to_uint8. rewrite Z.mod_small by lia.
  destruct (Z.ltb_spec (10 * speedOf p) 700) as [L | L]; [lia |].
  destruct (Z.gtb_spec (10 * speedOf p) 3000) as [G | G]; [lia | reflexivity].
Qed.

Lemma stream_byte_speed_witness :
  let p := fst (packetsOfByte 0xA7) in
  0 <= sequenceOf p <= 2
  /\ 75 <= speedOf p <= 118
  /\ (forall (c : MFMCache) (mfmPositionByte mfmPositionBit : Z),
        speed (mfmBuffer c mfmPositionByte) mfmPositionBit = to_uint8 (speedOf p) ->
        limitedSpeed c mfmPositionByte mfmPositionBit = 10 * speedOf p).
Proof.
  apply (stream_byte_speed 0xA7 (fst (packetsOfByte 0xA7))); [lia | left; reflexivity].
Defined.

End PacketProperties.

(** *** Handing the buffer to the callback *)

Module FlushProperties.

Import ArduinoFloppyBridge.
Import ArduinoInterface.
Import ArduinoStream.
Import StreamNotions.
Import StreamProperties.

Lemma int32_of_small (x : Z) : 0 <= x <= 2147483647 -> to_int32 x = x.
Proof. intros H. unfold to_int32. rewrite Z.mod_small by lia. lia. Qed.

Lemma uint32_of_small (x : Z) : 0 <= x <= 4294967295 -> to_uint32 x = x.
Proof. intros H. unfold to_uint32. apply Z.mod_small. lia. Qed.

(** The bits of a chunk of whole samples. *)
Lemma chunkCells_whole (buffer : Z -> MFMSample) (bufStart n : Z) (last : bool) :
  0 <= n ->
  chunkCells (mkStreamChunk (from buffer bufStart) (8 * n) last)
  = samplesCells buffer bufStart (Z.to_nat n).
Proof.
  intros Hn. unfold chunkCells. cbn [chunkData dataLengthInBits].
  replace (8 * n / 8) with n by (rewrite (Z.mul_comm 8 n), Z.div_mul; lia).
  replace (8 * n mod 8) with 0 by (rewrite (Z.mul_comm 8 n), Z.mod_mul; lia).
  cbn [Z.to_nat firstn]. rewrite app_nil_r.
  apply samplesCells_ext. intros i Hi. unfold from. f_equal; lia.
Qed.

Lemma chunksCells_app (a b : list StreamChunk) :
  chunksCells (a ++ b) = chunksCells a ++ chunksCells b.
Proof. unfold chunksCells. rewrite map_app, concat_app. reflexivity. Qed.

Lemma chunksCells_one (c : StreamChunk) : chunksCells [c] = chunkCells c.
Proof. unfold chunksCells. cbn [map concat]. apply app_nil_r. Qed.

Lemma firstn_map_seq {A : Type} (f : nat -> A) (n m : nat) :
  (n <= m)%nat -> firstn n (map f (seq 0 m)) = map f (seq 0 n).
Proof.
  intros H. replace m with (n + (m - n))%nat by lia.
  rewrite seq_app, map_app, firstn_app, length_map, length_seq, Nat.sub_diag.
  cbn [firstn]. rewrite app_nil_r. apply firstn_all2.
  rewrite length_map, length_seq. lia.
Qed.

Section Flush.

Context {St : Type}.
Variable dataStream : StreamChunk -> St -> St * bool.
Hypothesis Hmore : neverStops dataStream.

(** The loop of [flushAndPush] under a callback that never stops: it hands
    over whole samples, [maxBlockSize] of them at a time while that many are
    held, in the order in which they lie in the buffer. *)
Lemma flushLoop_runs (buffer : Z -> MFMSample) (flushSize maxBlockSize : Z) (fuel : nat) :
  1 <= maxBlockSize <= 268435455 -> 0 <= flushSize ->
  forall (pos bufStart : Z) (s : St) (given : list StreamChunk),
    0 <= pos <= 2147483647 -> pos <= Z.of_nat fuel ->
    exists (pos' : Z) (s' : St) (chunks : list StreamChunk),
      flushLoop dataStream fuel buffer pos bufStart flushSize maxBlockSize s given
      = Some (true, pos', bufStart + (pos - pos'), s', given ++ chunks)
      /\ 0 <= pos' <= pos
      /\ (pos <= flushSize -> pos' = pos /\ chunks = [])
      /\ (flushSize < pos -> flushSize - maxBlockSize < pos' <= flushSize
                             /\ Z.min maxBlockSize pos <= pos - pos')
      /\ chunksCells chunks = samplesCells buffer bufStart (Z.to_nat (pos - pos'))
      /\ Forall (fun c => isEndOfRevolution c = false
                          /\ (maxBlockSize <= flushSize ->
                              dataLengthInBits c = 8 * maxBlockSize)) chunks.
Proof.
  intros Hmbs Hfs.
  induction fuel as [| fuel IH]; intros pos bufStart s given Hp Hfuel.
  - assert (pos = 0) by lia. subst pos. cbn [flushLoop]. rewrite int32_of_small by lia.
    destruct (Z.gtb_spec 0 flushSize) as [G | G]; [lia |].
    exists 0, s, []. rewrite app_nil_r, Z.sub_diag, Z.add_0_r.
    repeat split; try lia; try reflexivity; constructor.
  - cbn [flushLoop]. rewrite !int32_of_small by lia.
    destruct (Z.gtb_spec pos flushSize) as [G | G].
    + set (amountToSend := if pos <? maxBlockSize then pos else maxBlockSize).
      assert (Ha : amountToSend = Z.min maxBlockSize pos).
      { unfold amountToSend. destruct (Z.ltb_spec pos maxBlockSize); lia. }
      assert (Ha' : 1 <= amountToSend <= pos) by lia.
      set (chunk := mkStreamChunk (from buffer bufStart) (to_uint32 (amountToSend * 8)) false).
      pose proof (Hmore chunk s) as Hm.
      destruct (dataStream chunk s) as [s1 more]. cbn [snd] in Hm. subst more. cbn [negb].
      rewrite (uint32_of_small (pos - amountToSend)) by lia.
      destruct (IH (pos - amountToSend) (bufStart + amountToSend) s1 (given ++ [chunk]))
        as (pos' & s' & chunks & E & Hp' & Hle & Hgt & Hc & Hall); try lia.
      exists pos', s', (chunk :: chunks).
      rewrite E, <- app_assoc. cbn [app].
      split; [do 4 f_equal; lia |]. split; [lia |]. split; [lia |].
      split.
      { intros _. destruct (Z.le_gt_cases (pos - amountToSend) flushSize) as [L | L].
        - destruct (Hle L) as [-> _]. lia.
        - specialize (Hgt L). lia. }
      split.
      { change (chunk :: chunks) with ([chunk] ++ chunks).
        rewrite chunksCells_app, chunksCells_one, Hc. unfold chunk.
        rewrite uint32_of_small by lia.
        replace (amountToSend * 8) with (8 * amountToSend) by lia.
        rewrite chunkCells_whole by lia.
        replace (Z.to_nat (pos - pos'))
          with (Z.to_nat amountToSend + Z.to_nat (pos - amountToSend - pos'))%nat by lia.
        rewrite samplesCells_app. do 2 f_equal. lia. }
      constructor; [| exact Hall]. split; [reflexivity |].
      intros Hfull. unfold chunk. cbn [dataLengthInBits]. rewrite uint32_of_small by lia. lia.
    + exists pos, s, []. rewrite app_nil_r, Z.sub_diag, Z.add_0_r.
      repeat split; try lia; try reflexivity; constructor.
Qed.

(** The partial sample, once its bits are shifted to the most significant
    end, is read by the bridge as the bits that were written. *)
Lemma sampleCells_shifted (s : MFMSample) (bit : Z) :
  0 < bit < 8 ->
  firstn (Z.to_nat bit)
    (sampleCells (mkMFMSample (speed s) (to_uint8 (Z.shiftl (mfmData s) (to_int32 (8 - bit)))))
       8)
  = sampleCells s bit.
Proof.
  intros Hb. rewrite int32_of_small by lia. unfold sampleCells.
  rewrite firstn_map_seq by lia.
  apply map_ext_in. intros k Hk. apply in_seq in Hk. cbn [mfmData speed].
  f_equal. unfold to_uint8. change 256 with (2 ^ 8).
  rewrite Z.mod_pow2_bits_low, Z.shiftl_spec by lia. f_equal. lia.
Qed.

(** What [flushRest] does under a callback that never stops: one last chunk,
    marked as the end of the revolution, with the bits of the first sample. *)
Lemma flushRest_runs (buffer : Z -> MFMSample) (pos bit : Z) (s : St)
    (given : list StreamChunk) :
  0 <= bit < 8 ->
  exists (r : Flushed St) (last : StreamChunk),
    flushRest dataStream buffer pos bit s given = r
    /\ continue r = true /\ ArduinoStream.pos r = pos /\ ArduinoStream.bit r = 0
    /\ delivered r = given ++ [last]
    /\ isEndOfRevolution last = true /\ dataLengthInBits last = bit
    /\ chunkCells last = sampleCells (buffer 0) bit.
Proof.
  intros Hb. unfold flushRest.
  destruct (Z.eqb_spec bit 0) as [E | E]; cbn [negb].
  - subst bit. set (chunk := mkStreamChunk buffer 0 true).
    pose proof (Hmore chunk s) as Hm. destruct (dataStream chunk s) as [s1 more].
    cbn [snd] in Hm. subst more.
    eexists; exists chunk. repeat split.
  - set (first := mkMFMSample _ _). set (chunk := mkStreamChunk _ bit true).
    pose proof (Hmore chunk s) as Hm. destruct (dataStream chunk s) as [s1 more].
    cbn [snd] in Hm. subst more. cbn [negb].
    eexists; exists chunk. repeat split.
    unfold chunkCells, chunk. cbn [chunkData dataLengthInBits].
    rewrite Z.div_small, Z.mod_small by lia.
    cbn [Z.to_nat samplesCells seq map concat app]. unfold store. cbn [Z.eqb].
    unfold first. apply sampleCells_shifted. lia.
Qed.

Lemma flushAndPush_normal (buffer : Z -> MFMSample)
    (pos bit maxBlockSize maxBufferSize : Z) (fuel : nat) (s : St) :
  1 <= maxBlockSize <= 268435455 -> 0 <= pos -> maxBufferSize <= 2147483647 ->
  2 * pos <= maxBufferSize + maxBlockSize -> pos <= Z.of_nat fuel ->
  exists r : Flushed St,
    flushAndPush dataStream fuel buffer pos bit maxBlockSize maxBufferSize false s = Some r
    /\ continue r = true /\ ArduinoStream.bit r = bit
    /\ 0 <= ArduinoStream.pos r <= maxBlockSize
    /\ (pos <= maxBlockSize -> ArduinoStream.pos r = pos)
    /\ chunksCells (delivered r)
       ++ streamCells (ArduinoStream.buffer r) (ArduinoStream.pos r) (ArduinoStream.bit r)
       = streamCells buffer pos bit
    /\ Forall (fun c => isEndOfRevolution c = false
                        /\ dataLengthInBits c = 8 * maxBlockSize) (delivered r).
Proof.
  intros Hmbs Hp Hmax Hroom Hfuel. unfold flushAndPush.
  assert (Hp' : pos <= 2147483647) by lia.
  rewrite !int32_of_small by lia.
  destruct (Z.gtb_spec pos maxBlockSize) as [G | G].
  - destruct (flushLoop_runs buffer maxBlockSize maxBlockSize fuel Hmbs ltac:(lia)
                pos 0 s [] ltac:(lia) Hfuel)
      as (pos' & s' & chunks & E & Hpos' & _ & Hgt & Hc & Hall).
    rewrite E. destruct (Hgt G) as [Hrange Hsent]. cbn [app].
    replace ((bit >? 0) || (pos' >? 0)) with true
      by (symmetry; apply orb_true_iff; right; apply Z.gtb_lt; lia).
    eexists. split; [reflexivity |]. cbn [continue ArduinoStream.bit ArduinoStream.pos
                                            ArduinoStream.buffer delivered].
    repeat split; try lia.
    + rewrite Hc. unfold streamCells.
      rewrite uint32_of_small by lia.
      set (n := maxBufferSize - pos + 1). set (off := 0 + (pos - pos')).
      assert (Hmoved : forall i, 0 <= i <= pos' ->
                 memcpy buffer 0 (from buffer off) n i = buffer (off + i)).
      { intros i Hi. unfold memcpy, from.
        destruct (Z.leb_spec 0 i); [| lia].
        destruct (Z.ltb_spec i (0 + n)); [| lia]. cbn [andb]. f_equal. lia. }
      rewrite (samplesCells_ext (memcpy buffer 0 (from buffer off) n) buffer 0 off)
        by (intros i Hi; rewrite Hmoved by lia; f_equal; lia).
      rewrite Hmoved by lia. rewrite app_assoc.
      replace (Z.to_nat pos) with (Z.to_nat (pos - pos') + Z.to_nat pos')%nat by lia.
      rewrite samplesCells_app. do 3 f_equal; lia.
    + eapply Forall_impl; [| exact Hall]. cbv beta. intros c [H1 H2].
      split; [exact H1 | apply H2; lia].
  - eexists. split; [reflexivity |]. cbn [continue ArduinoStream.bit ArduinoStream.pos
                                            ArduinoStream.buffer delivered].
    repeat split; try lia. constructor.
Qed.

Lemma flushAndPush_all (buffer : Z -> MFMSample)
    (pos bit maxBlockSize maxBufferSize : Z) (fuel : nat) (s : St) :
  1 <= maxBlockSize <= 268435455 -> 0 <= pos <= maxBufferSize ->
  maxBufferSize <= 2147483647 -> 0 <= bit < 8 -> pos <= Z.of_nat fuel ->
  exists (r : Flushed St) (chunks : list StreamChunk) (last : StreamChunk),
    flushAndPush dataStream fuel buffer pos bit maxBlockSize maxBufferSize true s = Some r
    /\ continue r = true /\ ArduinoStream.pos r = 0 /\ ArduinoStream.bit r = 0
    /\ delivered r = chunks ++ [last]
    /\ Forall (fun c => isEndOfRevolution c = false) chunks
    /\ isEndOfRevolution last = true /\ dataLengthInBits last = bit
    /\ chunksCells (delivered r) = streamCells buffer pos bit.
Proof.
  intros Hmbs Hp Hmax Hb Hfuel. unfold flushAndPush.
  rewrite !int32_of_small by lia.
  destruct (Z.gtb_spec pos 0) as [G | G].
  - destruct (flushLoop_runs buffer 0 maxBlockSize fuel Hmbs ltac:(lia)
                pos 0 s [] ltac:(lia) Hfuel)
      as (pos' & s' & chunks & E & Hpos' & _ & Hgt & Hc & Hall).
    rewrite E. destruct (Hgt G) as [Hrange _]. assert (pos' = 0) by lia. subst pos'.
    cbn [app]. change (0 >? 0) with false. rewrite orb_false_r, Z.sub_0_r in *.
    assert (Hchunks : Forall (fun c => isEndOfRevolution c = false) chunks).
    { eapply Forall_impl; [| exact Hall]. cbv beta. intros c [H1 _]. exact H1. }
    destruct (Z.gtb_spec bit 0) as [Gb | Gb].
    + set (moved := memcpy buffer 0 (from buffer (0 + pos)) _).
      destruct (flushRest_runs moved 0 bit s' chunks Hb)
        as (r & last & Er & Hcont & Hpos & Hbit & Hdel & Hend & Hlen & Hcells).
      exists r, chunks, last. rewrite Er.
      repeat split; try assumption.
      rewrite Hdel, chunksCells_app, chunksCells_one, Hc, Hcells. unfold streamCells.
      do 2 f_equal. unfold moved, memcpy, from.
      rewrite uint32_of_small by lia.
      destruct (Z.ltb_spec 0 (0 + (maxBufferSize - pos + 1))); [| lia].
      change (0 <=? 0) with true. cbn [andb]. f_equal; lia.
    + assert (bit = 0) by lia. subst bit.
      destruct (flushRest_runs buffer 0 0 s' chunks Hb)
        as (r & last & Er & Hcont & Hpos & Hbit & Hdel & Hend & Hlen & Hcells).
      exists r, chunks, last. rewrite Er.
      repeat split; try assumption.
      rewrite Hdel, chunksCells_app, chunksCells_one, Hc, Hcells. unfold streamCells.
      reflexivity.
  - assert (pos = 0) by lia. subst pos.
    destruct (flushRest_runs buffer 0 bit s [] Hb)
      as (r & last & Er & Hcont & Hpos & Hbit & Hdel & Hend & Hlen & Hcells).
    exists r, [], last. rewrite Er.
    repeat split; try assumption; [constructor |].
    rewrite Hdel. cbn [app]. rewrite chunksCells_one, Hcells. reflexivity.
Qed.

End Flush.

End FlushProperties.

(** *** From packets to chunks *)

Module PipelineProperties.

Import ArduinoFloppyBridge.
Import ArduinoInterface.
Import ArduinoStream.
Import StreamNotions.
Import StreamProperties.
Import PacketProperties.
Import FlushProperties.

Section Pipeline.

Context {St : Type}.
Variable dataStream : StreamChunk -> St -> St * bool.
Hypothesis Hmore : neverStops dataStream.

Lemma maxBufferSizeFor_value (maxBlockSize : Z) :
  1 <= maxBlockSize <= 268435455 -> maxBufferSizeFor maxBlockSize = maxBlockSize + 74.
Proof.
  intros H. unfold maxBufferSizeFor, OVERLAP_WINDOW_SIZE. rewrite uint32_of_small; lia.
Qed.

Lemma outputPatterns_runs (maxBlockSize : Z) (patterns : list ArduinoPacket) :
  1 <= maxBlockSize <= 268435455 ->
  Forall (fun value => 0 <= mfm value <= 3) patterns ->
  forall r : Flushed St,
    continue r = true ->
    0 <= ArduinoStream.pos r <= maxBlockSize -> 0 <= ArduinoStream.bit r < 8 ->
    exists r' : Flushed St,
      outputPatterns dataStream patterns maxBlockSize (maxBufferSizeFor maxBlockSize) r
      = Some r'
      /\ continue r' = true
      /\ 0 <= ArduinoStream.pos r' <= maxBlockSize /\ 0 <= ArduinoStream.bit r' < 8
      /\ (exists chunks, delivered r' = delivered r ++ chunks
            /\ Forall (fun c => isEndOfRevolution c = false
                                /\ dataLengthInBits c = 8 * maxBlockSize) chunks
            /\ chunksCells chunks
               ++ streamCells (buffer r') (ArduinoStream.pos r') (ArduinoStream.bit r')
               = streamCells (buffer r) (ArduinoStream.pos r) (ArduinoStream.bit r)
                 ++ concat (map packetCells patterns)).
Proof.
  intros Hmbs Hall. rewrite maxBufferSizeFor_value by exact Hmbs.
  induction Hall as [| value rest Hv Hrest IH]; intros r Hc Hp Hb.
  - cbn [outputPatterns map concat]. exists r. repeat split; try lia; try assumption.
    exists []. rewrite !app_nil_r. repeat split. constructor.
  - cbn [outputPatterns]. rewrite int32_of_small by lia.
    assert (Hseq : 0 <= sequenceOf value <= 2).
    { unfold sequenceOf. destruct (Z.eqb_spec (mfm value) 0); lia. }
    pose proof (outputBitSequence_cells value (buffer r) (ArduinoStream.pos r)
                  (ArduinoStream.bit r) (maxBlockSize + 74)) as Hout.
    destruct (outputBitSequence value (buffer r) (ArduinoStream.pos r) (ArduinoStream.bit r)
                (maxBlockSize + 74)) as [[b1 p1] t1].
    destruct Hout as (Hcells & Hn & Ht1); try lia.
    destruct (flushAndPush_normal dataStream Hmore b1 p1 t1 maxBlockSize (maxBlockSize + 74)
                (Z.to_nat p1) (receiver r))
      as (r1 & E & Hc1 & Hb1 & Hp1 & _ & Hkept & Hchunks); try lia.
    rewrite E.
    set (r2 := mkFlushed _ _ _ _ _ _).
    destruct (IH r2) as (r' & E' & Hc' & Hp' & Hb' & chunks & Hd & Hok & Hsum).
    { unfold r2. cbn [continue]. rewrite Hc, Hc1. reflexivity. }
    { exact Hp1. }
    { unfold r2. cbn [ArduinoStream.bit]. lia. }
    exists r'. split; [exact E' |]. repeat split; try lia; try assumption.
    exists (delivered r1 ++ chunks). split; [| split].
    + rewrite Hd. unfold r2. cbn [delivered]. symmetry. apply app_assoc.
    + apply Forall_app. split; assumption.
    + rewrite chunksCells_app, <- app_assoc, Hsum. unfold r2.
      cbn [buffer ArduinoStream.pos ArduinoStream.bit map concat].
      rewrite app_assoc, Hkept, Hcells, <- app_assoc. reflexivity.
Qed.

(** X5.  [flushAndPush] without [flushALL], under a callback that never asks
    to stop: the callback is given blocks of exactly [maxBlockSize] samples
    until at most [maxBlockSize] are left, and what it is given followed by
    what the buffer holds afterwards is, bit for bit and speed for speed,
    what the buffer held before.  The samples kept must fit in the part
    [MoveMemory] moves, which [2 * pos <= maxBufferSize + maxBlockSize]
    secures. *)
Theorem flushAndPush_keeps_stream (buffer : Z -> MFMSample)
    (pos bit maxBlockSize maxBufferSize : Z) (fuel : nat) (s : St) :
  1 <= maxBlockSize <= 268435455 -> 0 <= pos -> maxBufferSize <= 2147483647 ->
  2 * pos <= maxBufferSize + maxBlockSize -> pos <= Z.of_nat fuel ->
  exists r : Flushed St,
    flushAndPush dataStream fuel buffer pos bit maxBlockSize maxBufferSize false s = Some r
    /\ continue r = true /\ ArduinoStream.bit r = bit
    /\ 0 <= ArduinoStream.pos r <= maxBlockSize
    /\ (pos <= maxBlockSize -> ArduinoStream.pos r = pos)
    /\ chunksCells (delivered r)
       ++ streamCells (ArduinoStream.buffer r) (ArduinoStream.pos r) (ArduinoStream.bit r)
       = streamCells buffer pos bit
    /\ Forall (fun c => isEndOfRevolution c = false
                        /\ dataLengthInBits c = 8 * maxBlockSize) (delivered r).
Proof. apply flushAndPush_normal, Hmore. Qed.

(** X6.  [flushAndPush] with [flushALL], under a callback that never asks to
    stop: everything the buffer holds is handed over, in order; the last
    chunk, and no other, is marked as the end of the revolution and carries
    the [bit] bits of the unfinished sample at its most significant end;
    afterwards the buffer is empty. *)
Theorem flushAndPush_closes_revolution (buffer : Z -> MFMSample)
    (pos bit maxBlockSize maxBufferSize : Z) (fuel : nat) (s : St) :
  1 <= maxBlockSize <= 268435455 -> 0 <= pos <= maxBufferSize ->
  maxBufferSize <= 2147483647 -> 0 <= bit < 8 -> pos <= Z.of_nat fuel ->
  exists (r : Flushed St) (chunks : list StreamChunk) (last : StreamChunk),
    flushAndPush dataStream fuel buffer pos bit maxBlockSize maxBufferSize true s = Some r
    /\ continue r = true /\ ArduinoStream.pos r = 0 /\ ArduinoStream.bit r = 0
    /\ delivered r = chunks ++ [last]
    /\ Forall (fun c => isEndOfRevolution c = false) chunks
    /\ isEndOfRevolution last = true /\ dataLengthInBits last = bit
    /\ chunksCells (delivered r) = streamCells buffer pos bit.
Proof. apply flushAndPush_all, Hmore. Qed.

(** X7.  The output loops of [readCurrentTrackStream], fed with packets as
    the stream yields them ([mfm] from 0 to 3) and with the buffer size the
    function allocates, under a callback that never asks to stop: the bits
    of the packets reach the callback in order, none lost and none twice, in
    chunks of exactly [maxBlockSize] samples, and at most [maxBlockSize]
    samples wait in the buffer. *)
Theorem packets_reach_the_callback (maxBlockSize : Z) (patterns : list ArduinoPacket)
    (r : Flushed St) :
  1 <= maxBlockSize <= 268435455 ->
  Forall (fun value => 0 <= mfm value <= 3) patterns ->
  continue r = true ->
  0 <= ArduinoStream.pos r <= maxBlockSize -> 0 <= ArduinoStream.bit r < 8 ->
  exists r' : Flushed St,
    outputPatterns dataStream patterns maxBlockSize (maxBufferSizeFor maxBlockSize) r
    = Some r'
    /\ continue r' = true
    /\ 0 <= ArduinoStream.pos r' <= maxBlockSize /\ 0 <= ArduinoStream.bit r' < 8
    /\ (exists chunks, delivered r' = delivered r ++ chunks
          /\ Forall (fun c => isEndOfRevolution c = false
                              /\ dataLengthInBits c = 8 * maxBlockSize) chunks
          /\ chunksCells chunks
             ++ streamCells (buffer r') (ArduinoStream.pos r') (ArduinoStream.bit r')
             = streamCells (buffer r) (ArduinoStream.pos r) (ArduinoStream.bit r)
               ++ concat (map packetCells patterns)).
Proof. intros. apply outputPatterns_runs; assumption. Qed.

End Pipeline.

Lemma acceptAll_neverStops : neverStops acceptAll.
Proof. intros chunk s. reflexivity. Qed.

Lemma flushAndPush_keeps_stream_witness :
  exists r : Flushed unit,
    flushAndPush acceptAll 3 zeroBuffer 3 5 2 10 false tt = Some r
    /\ chunksCells (delivered r)
       ++ streamCells (ArduinoStream.buffer r) (ArduinoStream.pos r) (ArduinoStream.bit r)
       = streamCells zeroBuffer 3 5.
Proof.
  destruct (flushAndPush_keeps_stream acceptAll acceptAll_neverStops zeroBuffer 3 5 2 10 3 tt)
    as (r & E & _ & _ & _ & _ & H & _); try lia.
  exists r. split; assumption.
Defined.

Lemma flushAndPush_closes_revolution_witness :
  exists r : Flushed unit,
    flushAndPush acceptAll 3 zeroBuffer 3 5 2 10 true tt = Some r
    /\ ArduinoStream.pos r = 0 /\ ArduinoStream.bit r = 0
    /\ chunksCells (delivered r) = streamCells zeroBuffer 3 5.
Proof.
  destruct (flushAndPush_closes_revolution acceptAll acceptAll_neverStops zeroBuffer 3 5 2 10
              3 tt)
    as (r & chunks & last & E & _ & Hp & Hb & _ & _ & _ & _ & H); try lia.
  exists r. repeat split; assumption.
Defined.

Lemma packets_reach_the_callback_witness :
  let patterns := [fst (packetsOfByte 0xA7); snd (packetsOfByte 0xA7)] in
  let r := mkFlushed true zeroBuffer 0 0 tt [] in
  exists r' : Flushed unit,
    outputPatterns acceptAll patterns 1 (maxBufferSizeFor 1) r = Some r'
    /\ chunksCells (delivered r')
       ++ streamCells (buffer r') (ArduinoStream.pos r') (ArduinoStream.bit r')
       = streamCells zeroBuffer 0 0 ++ concat (map packetCells patterns).
Proof.
  intros patterns r.
  destruct (packets_reach_the_callback acceptAll acceptAll_neverStops 1 patterns r)
    as (r' & E & _ & _ & _ & chunks & Hd & _ & H); try (cbn; lia); try reflexivity.
  - repeat constructor; cbn; lia.
  - exists r'. split; [exact E |]. rewrite Hd. exact H.
Defined.

End PipelineProperties.

(** ** Properties of the two threads of the bridge *)

Module ThreadProperties.

Import ArduinoFloppyBridge.
Import Notions.
Import ThreadNotions.
Import BridgeTactics.

(** *** What the calls of the emulator thread write *)

Lemma EmulatorWrite_trans (st0 st1 st2 : Bridge) :
  EmulatorWrite st0 st1 -> EmulatorWrite st1 st2 -> EmulatorWrite st0 st2.
Proof.
  intros H01 H12. induction H12; try (constructor; assumption); assumption.
Qed.

Section From.

Variable st0 : Bridge.

Lemma ew_resetWriteBuffer (st : Bridge) :
  EmulatorWrite st0 st -> EmulatorWrite st0 (resetWriteBuffer st).
Proof.
  intros H. unfold resetWriteBuffer. cbv zeta.
  apply ew_currentWriteStartMfmPosition, ew_currentWriteTrack, H.
Qed.

Lemma ew_resetEventUnlessReady (st : Bridge) :
  EmulatorWrite st0 st -> EmulatorWrite st0 (resetEventUnlessReady st).
Proof.
  intros H. unfold resetEventUnlessReady.
  destruct (negb _); [apply ew_readBufferAvailable |]; exact H.
Qed.

Lemma ew_switchDiskSide (now : Z) (sideB : bool) (st : Bridge) :
  EmulatorWrite st0 st -> EmulatorWrite st0 (switchDiskSide now sideB st).
Proof.
  intros H. unfold switchDiskSide. destruct (negb _); [| exact H]. cbv zeta.
  unfold queueCommand_b. apply ew_push; [discriminate |].
  apply ew_lastDriveStepTime, ew_resetEventUnlessReady, ew_floppySide, ew_resetWriteBuffer, H.
Qed.

Lemma ew_gotoCylinder (now trackNo : Z) (sideB : bool) (st : Bridge) :
  EmulatorWrite st0 st -> EmulatorWrite st0 (gotoCylinder now trackNo sideB st).
Proof.
  intros H. unfold gotoCylinder. destruct (_ =? _); [exact H |]. cbv zeta.
  set (st1 := switchDiskSide now sideB _).
  assert (H1 : EmulatorWrite st0 st1).
  { unfold st1. apply ew_switchDiskSide, ew_lastDriveStepTime, ew_currentTrack,
      ew_resetWriteBuffer, H. }
  clearbody st1.
  destruct (match back (m_queue st1) with
            | Some b => QueueCommand_eqb (command b) qcGotoToTrack
            | None => false
            end).
  - apply ew_resetEventUnlessReady, ew_retarget, H1.
  - unfold queueCommand_i. apply ew_push; [discriminate |].
    apply ew_resetEventUnlessReady, H1.
Qed.

Lemma ew_resetMFMCache (st : Bridge) :
  EmulatorWrite st0 st -> EmulatorWrite st0 (resetMFMCache st).
Proof.
  intros H. unfold resetMFMCache. cbv zeta.
  apply ew_readBufferAvailable, ew_resetWriteBuffer, ew_eraseCache, H.
Qed.

Lemma ew_mfmSwitchBuffer (now : Z) (sideB : bool) (st : Bridge) :
  EmulatorWrite st0 st -> EmulatorWrite st0 (mfmSwitchBuffer now sideB st).
Proof.
  intros H. unfold mfmSwitchBuffer. cbv zeta. apply ew_switch, ew_switchDiskSide, H.
Qed.

Lemma ew_setMotorStatus (now : Z) (sideB turnOn : bool) (st : Bridge) :
  EmulatorWrite st0 st -> EmulatorWrite st0 (setMotorStatus now sideB turnOn st).
Proof.
  intros H. unfold setMotorStatus. cbv zeta.
  set (st1 := switchDiskSide now sideB st).
  assert (H1 : EmulatorWrite st0 st1) by (apply ew_switchDiskSide, H).
  clearbody st1. destruct (Bool.eqb _ _); [exact H1 |].
  unfold queueCommand_i. apply ew_push; [destruct turnOn; discriminate |].
  apply ew_motorSpinningUp, ew_motorIsReady, ew_isMotorRunning, H1.
Qed.

Lemma ew_resetDrive (now : Z) (st : Bridge) :
  EmulatorWrite st0 st -> EmulatorWrite st0 (resetDrive now st).
Proof.
  intros H. unfold resetDrive. cbv zeta.
  apply ew_resetMFMCache, ew_setMotorStatus, ew_clearPending, H.
Qed.

Lemma ew_appendWord (sideB : bool) (track mfmWord mfmPosition : Z) (st : Bridge) :
  EmulatorWrite st0 st -> EmulatorWrite st0 (appendWord sideB track mfmWord mfmPosition st).
Proof.
  intros H. unfold appendWord. cbv zeta. destruct (_ <? _); [| exact H].
  apply ew_currentWriteTrack.
  destruct (_ =? 0); [apply ew_currentWriteStartMfmPosition |]; exact H.
Qed.

Lemma ew_writeShortToBuffer (now : Z) (sideB : bool) (track mfmWord mfmPosition : Z)
    (st : Bridge) :
  EmulatorWrite st0 st ->
  EmulatorWrite st0 (writeShortToBuffer now sideB track mfmWord mfmPosition st).
Proof.
  intros H. unfold writeShortToBuffer. cbv zeta.
  apply ew_appendWord, ew_delayStreamingStart, ew_delayStreaming, ew_gotoCylinder,
    ew_switchDiskSide, H.
Qed.

Lemma ew_pushPendingWrite (track : Z) (st : Bridge) :
  EmulatorWrite st0 st -> EmulatorWrite st0 (pushPendingWrite track st).
Proof.
  intros H. unfold pushPendingWrite. cbv zeta.
  apply ew_invalidate.
  apply (ew_pendingWrite st0 (m_currentWriteTrack (set_m_currentWriteTrack _ st))).
  apply ew_currentWriteTrack, H.
Qed.

Lemma ew_commitWriteBuffer (now : Z) (sideB : bool) (track : Z) (st : Bridge) :
  EmulatorWrite st0 st -> EmulatorWrite st0 (fst (commitWriteBuffer now sideB track st)).
Proof.
  intros H. unfold commitWriteBuffer. cbv zeta. cbn [fst].
  apply ew_resetWriteBuffer.
  set (st1 := set_m_delayStreamingStart now _).
  assert (H1 : EmulatorWrite st0 st1).
  { unfold st1. apply ew_delayStreamingStart, ew_delayStreaming, ew_gotoCylinder,
      ew_switchDiskSide, H. }
  clearbody st1.
  destruct (_ && _); [apply ew_pushPendingWrite |]; exact H1.
Qed.

Lemma ew_emulatorCall (now : Z) (c : EmulatorCall) (st : Bridge) :
  EmulatorWrite st0 st -> EmulatorWrite st0 (emulatorCall now c st).
Proof.
  intros H. destruct c; cbn [emulatorCall].
  - apply ew_resetDrive, H.
  - apply ew_setMotorStatus, H.
  - apply ew_gotoCylinder, H.
  - apply ew_mfmSwitchBuffer, H.
  - apply ew_writeShortToBuffer, H.
  - apply ew_commitWriteBuffer, H.
Qed.

End From.

(** The members that only the worker assigns. *)
Lemma EmulatorWrite_workerMembersKept (st0 st : Bridge) :
  EmulatorWrite st0 st -> workerMembersKept st0 st.
Proof.
  intros H. unfold workerMembersKept.
  induction H;
    unfold queueCommand_i, pushOntoQueue, releaseSemaphore, internalSwitchCylinder,
      invalidateCache, setCacheAt in *;
    cbv zeta; split_ifs; members; try assumption.
  - repeat split; auto.
  - intuition discriminate.
  - intuition discriminate.
Qed.

(** X8.  The calls of the emulator thread never assign the members the worker
    thread keeps about the drive: the cylinder and side the head is on, the
    write-protect and disk-present flags, the start of the spin-up and the
    time of the last disk check stay as they are; and a call never raises
    [m_motorIsReady] or [m_motorSpinningUp]. *)
Theorem emulator_calls_keep_worker_members (now : Z) (c : EmulatorCall) (st : Bridge) :
  workerMembersKept st (emulatorCall now c st).
Proof.
  apply EmulatorWrite_workerMembersKept, ew_emulatorCall, ew_none.
Qed.

End ThreadProperties.

(** *** The motor *)

Module MotorProperties.

Import ArduinoFloppyBridge.
Import Notions.
Import ThreadNotions.
Import BridgeTactics.
Import ThreadProperties.

Lemma updateDriveStatus_ready (now : Z) (io : DeviceAnswers) (st : Bridge) :
  m_motorIsReady (updateDriveStatus now io st) = true ->
  m_motorIsReady st = true
  \/ (m_motorSpinningUp st = true
      /\ DISK_SPINUP_TIME <= to_uint32 (now - m_motorSpinningUpStart st)).
Proof.
  unfold updateDriveStatus.
  destruct (m_motorSpinningUp st) eqn:Hs; cbn [andb].
  - destruct (Z.geb_spec (to_uint32 (now - m_motorSpinningUpStart st)) DISK_SPINUP_TIME)
      as [G | G].
    + intros _. right. split; [reflexivity | lia].
    + cbv zeta. unfold resetMFMCache, resetWriteBuffer. split_ifs; members; auto.
  - cbv zeta. unfold resetMFMCache, resetWriteBuffer. split_ifs; members; auto.
Qed.

Lemma processCommand_motor (now : Z) (io : DeviceAnswers) (info : QueueInfo) (st : Bridge) :
  (m_motorIsReady (processCommand now io info st) = true -> m_motorIsReady st = true)
  /\ (m_motorSpinningUp (processCommand now io info st) = true ->
      DISK_SPINUP_TIME
      <= to_uint32 (now - m_motorSpinningUpStart (processCommand now io info st)) ->
      m_motorSpinningUp st = true
      /\ m_motorSpinningUpStart (processCommand now io info st) = m_motorSpinningUpStart st).
Proof.
  unfold processCommand. destruct (command info).
  - auto.
  - cbv zeta. members. rewrite Z.sub_diag. unfold DISK_SPINUP_TIME.
    change (to_uint32 0) with 0. split; [auto | lia].
  - cbv zeta. members. split; discriminate.
  - destruct (m_pendingTrackWrites st) as [| track rest]; [auto |].
    cbv zeta. unfold setCacheAt. split_ifs; members; auto.
  - cbv zeta. split_ifs; members; auto.
  - cbv zeta. members. auto.
Qed.

Lemma idleWork_motor_off (now : Z) (io : DeviceAnswers) (st : Bridge) :
  m_motorIsReady st = false ->
  m_motorIsReady (idleWork now io st) = false
  /\ m_motorSpinningUp (idleWork now io st) = m_motorSpinningUp st
  /\ m_motorSpinningUpStart (idleWork now io st) = m_motorSpinningUpStart st.
Proof.
  intros H. unfold idleWork. rewrite H. cbv zeta. split_ifs; members; auto.
Qed.

(** X9.  [m_motorIsReady] is raised by the worker thread only, and not before
    [DISK_SPINUP_TIME] = 750 ms have passed since the worker began the
    spin-up: if a step of either thread takes the flag from false to true,
    the step is a pass of the worker at a tick [now], the motor was spinning
    up before the pass, and [now - m_motorSpinningUpStart], as a [DWORD], is
    at least 750. *)
Theorem motor_ready_after_spin_up (ev : Event) (st : Bridge) :
  m_motorIsReady st = false ->
  m_motorIsReady (step ev st) = true ->
  exists (now : Z) (io : DeviceAnswers),
    ev = evWorker now io
    /\ m_motorSpinningUp st = true
    /\ DISK_SPINUP_TIME <= to_uint32 (now - m_motorSpinningUpStart st).
Proof.
  intros Hoff Hon. destruct ev as [now c | now io]; cbn [step] in Hon.
  - pose proof (EmulatorWrite_workerMembersKept st _
                  (ew_emulatorCall st now c st (ew_none st))) as K.
    destruct K as (_ & _ & _ & _ & _ & _ & K & _). rewrite (K Hon) in Hoff. discriminate.
  - exists now, io. split; [reflexivity |]. revert Hon.
    unfold mainThreadPass.
    destruct (0 <? m_queueSemaphore st).
    + unfold processQueue. members.
      destruct (m_queue st) as [| cmd rest].
      * cbn [fst]. intros Hon. apply updateDriveStatus_ready in Hon. revert Hon. members.
        intros [Hon | Hon]; [congruence | exact Hon].
      * cbv zeta.
        destruct (QueueCommand_eqb (command cmd) qcTerminate).
        -- cbn [fst]. members. congruence.
        -- cbn [fst]. intros Hon. apply updateDriveStatus_ready in Hon.
           set (st1 := set_m_queue rest _) in Hon.
           assert (E1 : m_motorIsReady st1 = m_motorIsReady st) by reflexivity.
           assert (E2 : m_motorSpinningUp st1 = m_motorSpinningUp st) by reflexivity.
           assert (E3 : m_motorSpinningUpStart st1 = m_motorSpinningUpStart st)
             by reflexivity.
           destruct (processCommand_motor now io cmd st1) as [Hr Hs].
           destruct Hon as [Hon | [Hon Hel]].
           ++ apply Hr in Hon. congruence.
           ++ destruct (Hs Hon Hel) as [H1 H2]. rewrite H2, E3 in Hel.
              rewrite E2 in H1. split; assumption.
    + cbn [fst]. intros Hon. apply updateDriveStatus_ready in Hon.
      destruct (idleWork_motor_off now io st Hoff) as (H1 & H2 & H3).
      rewrite H1, H2, H3 in Hon. destruct Hon as [Hon | Hon]; [discriminate | exact Hon].
Qed.

Lemma motor_ready_after_spin_up_witness :
  let st := run [evEmulator 0 (callSetMotorStatus false true); evWorker 10 Scenario.idleDevice]
              Scenario.started in
  m_motorSpinningUp st = true
  /\ DISK_SPINUP_TIME <= to_uint32 (800 - m_motorSpinningUpStart st).
Proof.
  intros st.
  destruct (motor_ready_after_spin_up (evWorker 800 Scenario.idleDevice) st)
    as (now & io & E & H1 & H2); [vm_compute; reflexivity | vm_compute; reflexivity |].
  injection E as <- <-. split; assumption.
Defined.

End MotorProperties.

(** *** The command queue *)

Module QueueInvariants.

Import ArduinoFloppyBridge.
Import Notions.
Import ThreadNotions.
Import BridgeTactics.
Import ThreadProperties.

Lemma length_mapBack {A : Type} (f : A -> A) (q : list A) :
  length (mapBack f q) = length q.
Proof.
  induction q as [| x q IH]; [reflexivity |].
  destruct q as [| y q]; [reflexivity |].
  change (mapBack f (x :: y :: q)) with (x :: mapBack f (y :: q)).
  cbn [length] in *. rewrite IH. reflexivity.
Qed.

Lemma writes_mapBack (o : QueueOption) (q : list QueueInfo) :
  length (filter isWrite (mapBack (fun b => mkQueueInfo (command b) o) q))
  = length (filter isWrite q).
Proof.
  induction q as [| x q IH]; [reflexivity |].
  destruct q as [| y q].
  { cbn [mapBack filter]. unfold isWrite. cbn [command].
    destruct (QueueCommand_eqb (command x) writeMFMData); reflexivity. }
  change (mapBack (fun b => mkQueueInfo (command b) o) (x :: y :: q))
    with (x :: mapBack (fun b => mkQueueInfo (command b) o) (y :: q)).
  cbn [filter]. destruct (isWrite x); cbn [length]; rewrite IH; reflexivity.
Qed.

Lemma isWrite_false (info : QueueInfo) : command info <> writeMFMData -> isWrite info = false.
Proof. unfold isWrite. destruct (command info); intros H; congruence || reflexivity. Qed.

Lemma QueueInv_pushOntoQueue (info : QueueInfo) (st : Bridge) :
  QueueInv st -> QueueInv (pushOntoQueue info st).
Proof.
  unfold QueueInv, pushOntoQueue, releaseSemaphore. cbv zeta. members.
  intros [H1 H2].
  destruct (Z.leb_spec (m_queueSemaphore st + 1) 100); members;
    rewrite length_app; cbn [length]; lia.
Qed.

Lemma EmulatorWrite_QueueInv (st0 st : Bridge) :
  EmulatorWrite st0 st -> QueueInv st0 -> QueueInv st.
Proof.
  intros H H0. induction H; try exact H0; try exact IHEmulatorWrite.
  - apply QueueInv_pushOntoQueue, IHEmulatorWrite.
  - unfold QueueInv in *. members. rewrite length_mapBack. exact IHEmulatorWrite.
  - unfold queueCommand_i. apply QueueInv_pushOntoQueue. exact IHEmulatorWrite.
  - unfold internalSwitchCylinder. destruct (ready _); exact IHEmulatorWrite.
Qed.

Lemma PendingInv_pushOntoQueue (info : QueueInfo) (st : Bridge) :
  command info <> writeMFMData -> PendingInv st -> PendingInv (pushOntoQueue info st).
Proof.
  intros Hc. unfold PendingInv, pushOntoQueue, releaseSemaphore. cbv zeta.
  destruct (_ <=? _); members; rewrite filter_app; cbn [filter];
    rewrite (isWrite_false info Hc), app_nil_r; auto.
Qed.

Lemma EmulatorWrite_PendingInv (st0 st : Bridge) :
  EmulatorWrite st0 st -> PendingInv st0 -> PendingInv st.
Proof.
  intros H H0. induction H; try exact H0; try exact IHEmulatorWrite.
  - apply PendingInv_pushOntoQueue; assumption.
  - unfold PendingInv in *. members. rewrite writes_mapBack. exact IHEmulatorWrite.
  - unfold PendingInv. cbn. lia.
  - unfold PendingInv in *. unfold queueCommand_i, pushOntoQueue, releaseSemaphore.
    cbv zeta. destruct (_ <=? _); members;
      rewrite filter_app, !length_app; cbn [filter isWrite command QueueCommand_eqb length];
      lia.
  - unfold internalSwitchCylinder. destruct (ready _); exact IHEmulatorWrite.
Qed.

(** The worker's side. *)

Lemma QueueInv_kept (st st' : Bridge) : queueKept st st' -> QueueInv st -> QueueInv st'.
Proof. unfold queueKept, QueueInv. intros (-> & -> & _). auto. Qed.

Lemma PendingInv_kept (st st' : Bridge) : queueKept st st' -> PendingInv st -> PendingInv st'.
Proof. unfold queueKept, PendingInv. intros (-> & _ & ->). auto. Qed.

Lemma queueKept_refl (st : Bridge) : queueKept st st.
Proof. repeat split. Qed.

Lemma queueKept_trans (st1 st2 st3 : Bridge) :
  queueKept st1 st2 -> queueKept st2 st3 -> queueKept st1 st3.
Proof. unfold queueKept. intros (A & B & C) (D & E & F). repeat split; congruence. Qed.

Lemma queueKept_setCacheAt (c : Z) (s : DiskSurface) (e : MFMCaches) (st : Bridge) :
  queueKept st (setCacheAt c s e st).
Proof. repeat split. Qed.

Lemma queueKept_internalSwitchCylinder (c : Z) (s : DiskSurface) (st : Bridge) :
  queueKept st (internalSwitchCylinder c s st).
Proof. unfold internalSwitchCylinder. destruct (ready _); repeat split. Qed.

Lemma queueKept_saveNextBuffer (c : Z) (s : DiskSurface) (st : Bridge) :
  queueKept st (saveNextBuffer c s st).
Proof.
  unfold saveNextBuffer. cbv zeta.
  set (st1 := if negb _ then _ else st).
  assert (H1 : queueKept st st1) by (unfold st1; destruct (negb _); repeat split).
  clearbody st1.
  destruct (negb (ready (next (cacheAt st1 c s)))); [exact H1 |].
  destruct (negb (ready (current (cacheAt st1 c s)))); [| exact H1].
  pose proof (queueKept_internalSwitchCylinder c s st1) as H2.
  destruct (_ && _); (eapply queueKept_trans; [exact H1 |]);
    [| exact H2].
  eapply queueKept_trans; [exact H2 | repeat split].
Qed.

Lemma queueKept_streamCallback (chunk : StreamChunk) (st : Bridge) (pos : Z) :
  queueKept st (fst (fst (streamCallback chunk st pos))).
Proof.
  unfold streamCallback. cbv zeta.
  destruct (negb (Z.of_nat (length (m_queue st)) =? 0)); [repeat split |].
  destruct (_ >=? _); cbn [fst].
  - eapply queueKept_trans; [| apply queueKept_saveNextBuffer]. repeat split.
  - destruct (isEndOfRevolution chunk); [| repeat split].
    set (st1 := saveNextBuffer _ _ _).
    assert (H1 : queueKept st st1).
    { unfold st1. eapply queueKept_trans; [| apply queueKept_saveNextBuffer]. repeat split. }
    clearbody st1. destruct (negb _); exact H1.
Qed.

Lemma runStream_queue (now : Z) (events : list StreamEvent) :
  forall (st : Bridge) (pos : Z),
    QueueInv st /\ PendingInv st ->
    QueueInv (runStream now events st pos) /\ PendingInv (runStream now events st pos).
Proof.
  induction events as [| ev events IH]; intros st pos [HQ HP]; cbn [runStream]; [auto |].
  destruct ev as [chunk | c].
  - pose proof (queueKept_streamCallback chunk st pos) as K.
    destruct (streamCallback chunk st pos) as [[st' pos'] more]. cbn [fst] in K.
    assert (H' : QueueInv st' /\ PendingInv st')
      by (split; [eapply QueueInv_kept | eapply PendingInv_kept]; eassumption).
    destruct more; [apply IH |]; exact H'.
  - apply IH.
    pose proof (ew_emulatorCall st now c st (ew_none st)) as W.
    split; [eapply EmulatorWrite_QueueInv | eapply EmulatorWrite_PendingInv]; eassumption.
Qed.

Lemma handleBackgroundDiskRead_queue (now : Z) (io : DeviceAnswers) (st : Bridge) :
  QueueInv st /\ PendingInv st ->
  QueueInv (handleBackgroundDiskRead now io st)
  /\ PendingInv (handleBackgroundDiskRead now io st).
Proof.
  intros H. unfold handleBackgroundDiskRead.
  destruct (negb (isReady st)); [exact H |].
  destruct (ready _); [exact H |]. cbv zeta.
  set (st1 := runStream now _ _ _).
  assert (H1 : QueueInv st1 /\ PendingInv st1) by (unfold st1; apply runStream_queue; exact H).
  clearbody st1.
  set (st2 := if streamNoDisk io then _ else st1).
  assert (H2 : QueueInv st2 /\ PendingInv st2) by (unfold st2; destruct (streamNoDisk io); exact H1).
  clearbody st2.
  destruct (negb _); exact H2.
Qed.

Lemma idleWork_queue (now : Z) (io : DeviceAnswers) (st : Bridge) :
  QueueInv st /\ PendingInv st ->
  QueueInv (idleWork now io st) /\ PendingInv (idleWork now io st).
Proof.
  intros H. unfold idleWork. cbv zeta.
  set (st1 := if m_motorIsReady st then _ else st).
  assert (H1 : QueueInv st1 /\ PendingInv st1).
  { unfold st1. destruct (m_motorIsReady st); [| exact H].
    destruct (_ || _); [apply handleBackgroundDiskRead_queue |]; exact H. }
  clearbody st1.
  destruct (_ && _); exact H1.
Qed.

Lemma queueKept_updateDriveStatus (now : Z) (io : DeviceAnswers) (st : Bridge) :
  queueKept st (updateDriveStatus now io st).
Proof.
  unfold updateDriveStatus, resetMFMCache, resetWriteBuffer. cbv zeta.
  split_ifs; repeat split.
Qed.

(** [processCommand] leaves the queue and the semaphore; a write command
    takes the first pending write, if there is one. *)
Lemma processCommand_queue (now : Z) (io : DeviceAnswers) (info : QueueInfo) (st : Bridge) :
  m_queue (processCommand now io info st) = m_queue st
  /\ m_queueSemaphore (processCommand now io info st) = m_queueSemaphore st
  /\ m_pendingTrackWrites (processCommand now io info st)
     = if isWrite info then tl (m_pendingTrackWrites st) else m_pendingTrackWrites st.
Proof.
  unfold processCommand, isWrite. destruct (command info); cbn [QueueCommand_eqb];
    try (cbv zeta; split_ifs; repeat split; fail).
  destruct (m_pendingTrackWrites st) as [| track rest] eqn:E; [rewrite E; repeat split |].
  cbv zeta. unfold setCacheAt. split_ifs; repeat split.
Qed.

Lemma mainThreadPass_queue (now : Z) (io : DeviceAnswers) (st : Bridge) :
  QueueInv st /\ PendingInv st ->
  QueueInv (fst (mainThreadPass now io st)) /\ PendingInv (fst (mainThreadPass now io st)).
Proof.
  intros [HQ HP]. unfold mainThreadPass.
  destruct (Z.ltb_spec 0 (m_queueSemaphore st)) as [L | L].
  - unfold processQueue. members.
    destruct (m_queue st) as [| cmd rest] eqn:Eq.
    + exfalso. unfold QueueInv in HQ. rewrite Eq in HQ. cbn [length] in HQ. lia.
    + cbv zeta.
      set (st1 := set_m_queue rest _).
      assert (HQ1 : QueueInv st1).
      { unfold QueueInv in *. unfold st1. members. rewrite Eq in HQ.
        cbn [length] in HQ. lia. }
      assert (HP1 : (length (m_pendingTrackWrites st)
                     <= (if isWrite cmd then 1 else 0) + length (filter isWrite rest))%nat).
      { unfold PendingInv in HP. rewrite Eq in HP. cbn [filter] in HP.
        destruct (isWrite cmd); cbn [length] in HP; lia. }
      destruct (QueueCommand_eqb (command cmd) qcTerminate) eqn:Et; cbn [fst].
      * split; [exact HQ1 |]. unfold PendingInv, st1. members.
        assert (isWrite cmd = false)
          by (unfold isWrite; destruct (command cmd); discriminate || reflexivity).
        rewrite H in HP1. exact HP1.
      * destruct (processCommand_queue now io cmd st1) as (A & B & C).
        assert (HQ2 : QueueInv (processCommand now io cmd st1))
          by (unfold QueueInv in *; rewrite A, B; exact HQ1).
        assert (HP2 : PendingInv (processCommand now io cmd st1)).
        { unfold PendingInv. rewrite A, C. unfold st1. members.
          destruct (isWrite cmd); [| exact HP1].
          destruct (m_pendingTrackWrites st); cbn [tl length] in *; lia. }
        split; [eapply QueueInv_kept | eapply PendingInv_kept];
          try apply queueKept_updateDriveStatus; assumption.
  - cbn [fst].
    destruct (idleWork_queue now io st (conj HQ HP)) as [HQ1 HP1].
    split; [eapply QueueInv_kept | eapply PendingInv_kept];
      try apply queueKept_updateDriveStatus; assumption.
Qed.

Lemma Reachable_queue (st : Bridge) : Reachable st -> QueueInv st /\ PendingInv st.
Proof.
  induction 1 as [mem now diskInDrive | st ev _ IH].
  - split; [unfold QueueInv | unfold PendingInv]; cbn; lia.
  - destruct ev as [now c | now io]; cbn [step].
    + pose proof (ew_emulatorCall st now c st (ew_none st)) as W. destruct IH.
      split; [eapply EmulatorWrite_QueueInv | eapply EmulatorWrite_PendingInv]; eassumption.
    + apply mainThreadPass_queue, IH.
Qed.

(** X10.  Whatever the two threads did since the bridge was started, the
    count of the queue semaphore is at most the number of commands in the
    queue (and at most 100): whenever the worker's wait on the semaphore
    succeeds, [processQueue] finds a command to run. *)
Theorem semaphore_counts_queued_commands (st : Bridge) :
  Reachable st ->
  0 <= m_queueSemaphore st <= Z.of_nat (length (m_queue st))
  /\ m_queueSemaphore st <= 100
  /\ (0 < m_queueSemaphore st -> m_queue st <> []).
Proof.
  intros H. destruct (Reachable_queue st H) as [[H1 H2] _].
  repeat split; try lia. intros Hpos E. rewrite E in H1. cbn [length] in H1. lia.
Qed.

Lemma semaphore_counts_queued_commands_witness :
  let st := run [evEmulator 0 (callSetMotorStatus false true)] Scenario.started in
  m_queueSemaphore st = 1 /\ m_queue st <> [].
Proof.
  intros st.
  assert (Hr : Reachable st) by (apply BridgeProperties.Reachable_run, reach_start).
  assert (Hs : m_queueSemaphore st = 1) by (vm_compute; reflexivity).
  split; [exact Hs |].
  apply (proj2 (proj2 (semaphore_counts_queued_commands st Hr))). rewrite Hs. lia.
Defined.

(** X11.  Whatever the two threads did since the bridge was started, the
    queue holds at least as many write commands as there are pending track
    writes: a track handed over by [commitWriteBuffer] stays pending only
    while a command that will write it is queued. *)
Theorem pending_writes_have_commands (st : Bridge) :
  Reachable st ->
  (length (m_pendingTrackWrites st) <= length (filter isWrite (m_queue st)))%nat
  /\ (m_pendingTrackWrites st <> [] -> exists info, In info (m_queue st) /\ isWrite info = true).
Proof.
  intros H. destruct (Reachable_queue st H) as [_ HP]. unfold PendingInv in HP.
  split; [exact HP |]. intros Hne.
  destruct (filter isWrite (m_queue st)) as [| info rest] eqn:E.
  - destruct (m_pendingTrackWrites st); [contradiction | cbn [length] in HP; lia].
  - exists info. apply filter_In. rewrite E. left. reflexivity.
Qed.

Lemma pending_writes_have_commands_witness :
  let st := run (Scenario.oneWordWritten ++ [evEmulator 200 (callCommitWriteBuffer false 0)])
              Scenario.started in
  length (m_pendingTrackWrites st) = 1%nat
  /\ exists info, In info (m_queue st) /\ isWrite info = true.
Proof.
  intros st.
  assert (Hr : Reachable st) by (apply BridgeProperties.Reachable_run, reach_start).
  assert (Hp : length (m_pendingTrackWrites st) = 1%nat) by (vm_compute; reflexivity).
  split; [exact Hp |].
  apply (proj2 (pending_writes_have_commands st Hr)).
  intros E. rewrite E in Hp. discriminate.
Defined.

End QueueInvariants.

(** *** The disk in the drive *)

Module DiskProperties.

Import ArduinoFloppyBridge.
Import Notions.
Import ThreadNotions.
Import BridgeTactics.
Import ThreadProperties.

Lemma cacheWritten_refl (st : Bridge) : cacheWritten st st.
Proof. unfold cacheWritten. destruct st. reflexivity. Qed.

Lemma cacheWritten_trans (st1 st2 st3 : Bridge) :
  cacheWritten st1 st2 -> cacheWritten st2 st3 -> cacheWritten st1 st3.
Proof.
  unfold cacheWritten. intros H12 H23. rewrite H23 at 1. rewrite H12 at 1. reflexivity.
Qed.

Lemma cacheWritten_setCacheAt (c : Z) (s : DiskSurface) (e : MFMCaches) (st : Bridge) :
  cacheWritten st (setCacheAt c s e st).
Proof. unfold cacheWritten. destruct st. reflexivity. Qed.

Lemma cacheWritten_event (v : bool) (st : Bridge) :
  cacheWritten st (set_m_readBufferAvailable v st).
Proof. unfold cacheWritten. destruct st. reflexivity. Qed.

Lemma cacheWritten_internalSwitchCylinder (c : Z) (s : DiskSurface) (st : Bridge) :
  cacheWritten st (internalSwitchCylinder c s st).
Proof.
  unfold internalSwitchCylinder.
  destruct (ready _); [apply cacheWritten_setCacheAt | apply cacheWritten_refl].
Qed.

Lemma cacheWritten_saveNextBuffer (c : Z) (s : DiskSurface) (st : Bridge) :
  cacheWritten st (saveNextBuffer c s st).
Proof.
  unfold saveNextBuffer. cbv zeta.
  set (st1 := if negb _ then _ else st).
  assert (H1 : cacheWritten st st1).
  { unfold st1. destruct (negb _); [apply cacheWritten_setCacheAt | apply cacheWritten_refl]. }
  clearbody st1.
  destruct (negb (ready (next (cacheAt st1 c s)))); [exact H1 |].
  destruct (negb (ready (current (cacheAt st1 c s)))); [| exact H1].
  pose proof (cacheWritten_internalSwitchCylinder c s st1) as H2.
  destruct (_ && _).
  - eapply cacheWritten_trans; [exact H1 |].
    eapply cacheWritten_trans; [exact H2 | apply cacheWritten_event].
  - eapply cacheWritten_trans; eassumption.
Qed.

(** The callback of the read stream assigns nothing but the cache and the
    event. *)
Lemma cacheWritten_streamCallback (chunk : StreamChunk) (st : Bridge) (pos : Z) :
  cacheWritten st (fst (fst (streamCallback chunk st pos))).
Proof.
  unfold streamCallback. cbv zeta.
  destruct (negb (Z.of_nat (length (m_queue st)) =? 0)); [apply cacheWritten_setCacheAt |].
  destruct (_ >=? _); cbn [fst].
  - eapply cacheWritten_trans; [| apply cacheWritten_saveNextBuffer].
    apply cacheWritten_setCacheAt.
  - destruct (isEndOfRevolution chunk); [| apply cacheWritten_setCacheAt].
    set (st1 := saveNextBuffer _ _ _).
    assert (H1 : cacheWritten st st1).
    { unfold st1. eapply cacheWritten_trans; [| apply cacheWritten_saveNextBuffer].
      apply cacheWritten_setCacheAt. }
    clearbody st1. destruct (negb _); exact H1.
Qed.

Lemma cacheWritten_diskInDrive (st st' : Bridge) :
  cacheWritten st st' -> m_diskInDrive st' = m_diskInDrive st.
Proof. unfold cacheWritten. intros H. rewrite H. reflexivity. Qed.

Lemma runStream_diskInDrive (now : Z) (events : list StreamEvent) :
  forall (st : Bridge) (pos : Z),
    m_diskInDrive (runStream now events st pos) = m_diskInDrive st.
Proof.
  induction events as [| ev events IH]; intros st pos; cbn [runStream]; [reflexivity |].
  destruct ev as [chunk | c].
  - pose proof (cacheWritten_streamCallback chunk st pos) as K.
    destruct (streamCallback chunk st pos) as [[st' pos'] more]. cbn [fst] in K.
    apply cacheWritten_diskInDrive in K. destruct more; [rewrite IH |]; exact K.
  - rewrite IH.
    apply (EmulatorWrite_workerMembersKept st _ (ew_emulatorCall st now c st (ew_none st))).
Qed.

Lemma processCommand_diskInDrive (now : Z) (io : DeviceAnswers) (info : QueueInfo)
    (st : Bridge) :
  m_diskInDrive (processCommand now io info st) = m_diskInDrive st.
Proof.
  unfold processCommand. destruct (command info); cbv zeta;
    try (split_ifs; reflexivity).
  destruct (m_pendingTrackWrites st); [reflexivity |].
  unfold setCacheAt. split_ifs; reflexivity.
Qed.

Lemma idleWork_diskInDrive (now : Z) (io : DeviceAnswers) (st : Bridge) :
  streamNoDisk io = false -> m_diskInDrive (idleWork now io st) = m_diskInDrive st.
Proof.
  intros Hno. unfold idleWork. cbv zeta.
  set (st1 := if m_motorIsReady st then _ else st).
  assert (H1 : m_diskInDrive st1 = m_diskInDrive st).
  { unfold st1. destruct (m_motorIsReady st); [| reflexivity].
    destruct (_ || _); [| reflexivity].
    unfold handleBackgroundDiskRead. destruct (negb (isReady st)); [reflexivity |].
    destruct (ready _); [reflexivity |]. cbv zeta. rewrite Hno.
    set (st2 := runStream now _ _ _).
    assert (H2 : m_diskInDrive st2 = m_diskInDrive st)
      by (unfold st2; rewrite runStream_diskInDrive; reflexivity).
    clearbody st2. destruct (negb _); exact H2. }
  clearbody st1. destruct (_ && _); exact H1.
Qed.

(** What [updateDriveStatus] does when it finds the disk gone. *)
Lemma updateDriveStatus_erases (now : Z) (io : DeviceAnswers) (st : Bridge) :
  m_diskInDrive st = true -> diskInDriveReply io = false ->
  m_diskInDrive (updateDriveStatus now io st) = false
  /\ m_readBufferAvailable (updateDriveStatus now io st) = false
  /\ forall (c : Z) (s : DiskSurface),
       0 <= c < ARD_MAX_CYLINDER_BRIDGE ->
       cacheAt (updateDriveStatus now io st) c s = blankEntry.
Proof.
  intros Hin Hout. unfold updateDriveStatus. cbv zeta.
  set (st1 := if m_motorSpinningUp st && _ then _ else st).
  assert (H1 : m_diskInDrive st1 = true) by (unfold st1; destruct (_ && _); exact Hin).
  clearbody st1. members. rewrite H1, Hout. cbn [Bool.eqb negb].
  unfold resetMFMCache, resetWriteBuffer, cacheAt. cbv zeta. members.
  repeat split. intros c s Hc.
  destruct (Z.leb_spec 0 c); [| lia].
  destruct (Z.ltb_spec c ARD_MAX_CYLINDER_BRIDGE); [| lia]. reflexivity.
Qed.

(** X12.  When the worker runs a seek command, it notes the time of a disk
    check unless the motor is still spinning up.  The interval test meant for
    firmware without the control mod asks at once for a disk to be present
    and to be absent, so it never suppresses the check, whatever time has
    passed since the last one. *)
Theorem seek_disk_check (now : Z) (io : DeviceAnswers) (info : QueueInfo) (st : Bridge) :
  command info = qcGotoToTrack ->
  m_lastDiskCheckTime (processCommand now io info st)
  = (if m_motorSpinningUp st && negb (m_motorIsReady st)
     then m_lastDiskCheckTime st else now)
  /\ m_actualCurrentCylinder (processCommand now io info st) = option_i info
  /\ m_lastDriveStepTime (processCommand now io info st) = now.
Proof.
  intros Hc. unfold processCommand. rewrite Hc. cbv zeta. members.
  destruct (m_motorSpinningUp st), (m_motorIsReady st), (fullControlMod io),
    (m_diskInDrive st),
    (to_uint32 (now - m_lastDiskCheckTime st)
     <=? DISKCHANGE_ONCE_INSERTED_CHECK_INTERVAL_NONMOD),
    (to_uint32 (now - m_lastDiskCheckTime st)
     <=? DISKCHANGE_BEFORE_INSERTED_CHECK_INTERVAL_NONMOD);
    cbn [andb orb negb]; members; repeat split.
Qed.

Lemma seek_disk_check_witness :
  let info := mkQueueInfo qcGotoToTrack (OptI 5) in
  let io := mkDeviceAnswers false false true [] false in
  m_lastDiskCheckTime (processCommand 100 io info Scenario.started) = 100.
Proof.
  intros info io.
  exact (proj1 (seek_disk_check 100 io info Scenario.started eq_refl)).
Defined.

(** X13.  A pass of the worker that finds the disk gone erases the cache: if
    the bridge held a disk to be present, the read stream of the pass did not
    report otherwise and the device answers that no disk is in the drive,
    then after the pass, unless the thread was told to end, the bridge holds
    no disk to be present, every entry of the 82 cylinders is blank, with no
    buffer ready, and the event is reset. *)
Theorem disk_removal_erases_cache (now : Z) (io : DeviceAnswers) (st : Bridge) :
  m_diskInDrive st = true -> streamNoDisk io = false -> diskInDriveReply io = false ->
  snd (mainThreadPass now io st) = false ->
  let st' := fst (mainThreadPass now io st) in
  m_diskInDrive st' = false
  /\ m_readBufferAvailable st' = false
  /\ forall (c : Z) (s : DiskSurface),
       0 <= c < ARD_MAX_CYLINDER_BRIDGE -> cacheAt st' c s = blankEntry.
Proof.
  intros Hin Hno Hout. unfold mainThreadPass.
  destruct (0 <? m_queueSemaphore st).
  - unfold processQueue. members.
    destruct (m_queue st) as [| cmd rest].
    + cbn [fst snd]. intros _. apply updateDriveStatus_erases; assumption.
    + cbv zeta. destruct (QueueCommand_eqb (command cmd) qcTerminate); cbn [fst snd];
        [discriminate |].
      intros _. apply updateDriveStatus_erases; [| exact Hout].
      rewrite processCommand_diskInDrive. exact Hin.
  - cbn [fst snd]. intros _. apply updateDriveStatus_erases; [| exact Hout].
    rewrite idleWork_diskInDrive by exact Hno. exact Hin.
Qed.

Lemma disk_removal_erases_cache_witness :
  let st := run Scenario.readShortRevolution Scenario.started in
  ready (current (cacheAt st 0 dsLower)) = true
  /\ cacheAt (fst (mainThreadPass 1500 Scenario.diskRemoved st)) 0 dsLower = blankEntry.
Proof.
  intros st. split; [vm_compute; reflexivity |].
  apply (disk_removal_erases_cache 1500 Scenario.diskRemoved st);
    try (vm_compute; reflexivity).
  unfold ARD_MAX_CYLINDER_BRIDGE. lia.
Defined.

End DiskProperties.

(** *** The buffers the emulator is served from *)

Module ServedProperties.

Import ArduinoFloppyBridge.
Import Notions.
Import ThreadNotions.
Import BridgeTactics.
Import DiskProperties.

Lemma entry_setCacheAt (c : Z) (s : DiskSurface) (e : MFMCaches) (st : Bridge)
    (c' : Z) (s' : DiskSurface) :
  cacheAt (setCacheAt c s e st) c' s'
  = if (c' =? c) && DiskSurface_eqb s' s then e else cacheAt st c' s'.
Proof. reflexivity. Qed.

Lemma entry_setCacheAt_here (c : Z) (s : DiskSurface) (e : MFMCaches) (st : Bridge) :
  cacheAt (setCacheAt c s e st) c s = e.
Proof. rewrite entry_setCacheAt, Z.eqb_refl. destruct s; reflexivity. Qed.

Lemma entry_here (c c' : Z) (s s' : DiskSurface) :
  (c' =? c) && DiskSurface_eqb s' s = true -> c' = c /\ s' = s.
Proof.
  intros H. apply andb_prop in H. destruct H as [Hc Hs].
  apply Z.eqb_eq in Hc. destruct s, s'; try discriminate; auto.
Qed.

Lemma servedKept_refl (st : Bridge) : servedKept st st.
Proof. intros c s _. reflexivity. Qed.

Lemma servedKept_trans (st1 st2 st3 : Bridge) :
  servedKept st1 st2 -> servedKept st2 st3 -> servedKept st1 st3.
Proof.
  intros H12 H23 c s Hr. rewrite <- (H12 c s Hr). apply H23.
  rewrite (H12 c s Hr). exact Hr.
Qed.

(** Replacing an entry by one with the same [current]. *)
Lemma servedKept_setCacheAt (c : Z) (s : DiskSurface) (e : MFMCaches) (st : Bridge) :
  current e = current (cacheAt st c s) -> servedKept st (setCacheAt c s e st).
Proof.
  intros He c' s' _. rewrite entry_setCacheAt.
  destruct ((c' =? c) && DiskSurface_eqb s' s) eqn:E; [| reflexivity].
  apply entry_here in E. destruct E as [-> ->]. exact He.
Qed.

Lemma servedKept_same (st st' : Bridge) :
  m_mfmRead st' = m_mfmRead st -> servedKept st st'.
Proof. intros E c s _. unfold cacheAt. rewrite E. reflexivity. Qed.

(** [internalSwitchCylinder] replaces [current]: a [current] that is ready
    is kept only where the function is not called on its entry. *)
Lemma servedKept_saveNextBuffer (c : Z) (s : DiskSurface) (st : Bridge) :
  servedKept st (saveNextBuffer c s st).
Proof.
  unfold saveNextBuffer. cbv zeta.
  set (st1 := if negb _ then _ else st).
  assert (H1 : servedKept st st1).
  { unfold st1. destruct (negb _); [| apply servedKept_refl].
    apply servedKept_setCacheAt. reflexivity. }
  clearbody st1.
  destruct (negb (ready (next (cacheAt st1 c s)))); [exact H1 |].
  destruct (ready (current (cacheAt st1 c s))) eqn:Hcur; cbn [negb]; [exact H1 |].
  eapply servedKept_trans; [exact H1 |].
  assert (H2 : servedKept st1 (internalSwitchCylinder c s st1)).
  { intros c' s' Hr. unfold internalSwitchCylinder. cbv zeta.
    destruct (ready (next (cacheAt st1 c s))); [| reflexivity].
    rewrite entry_setCacheAt.
    destruct ((c' =? c) && DiskSurface_eqb s' s) eqn:E; [| reflexivity].
    apply entry_here in E. destruct E as [-> ->]. congruence. }
  destruct (_ && _); [| exact H2].
  eapply servedKept_trans; [exact H2 |]. apply servedKept_same. reflexivity.
Qed.

Lemma servedKept_streamCallback (chunk : StreamChunk) (st : Bridge) (pos : Z) :
  servedKept st (fst (fst (streamCallback chunk st pos))).
Proof.
  unfold streamCallback. cbv zeta.
  destruct (negb (Z.of_nat (length (m_queue st)) =? 0));
    [apply servedKept_setCacheAt; reflexivity |].
  destruct (_ >=? _); cbn [fst].
  - eapply servedKept_trans; [| apply servedKept_saveNextBuffer].
    apply servedKept_setCacheAt. reflexivity.
  - destruct (isEndOfRevolution chunk); [| apply servedKept_setCacheAt; reflexivity].
    set (st1 := saveNextBuffer _ _ _).
    assert (H1 : servedKept st st1).
    { unfold st1. eapply servedKept_trans; [| apply servedKept_saveNextBuffer].
      apply servedKept_setCacheAt. reflexivity. }
    clearbody st1. destruct (negb _); exact H1.
Qed.

Lemma servedKept_runStream (now : Z) (events : list StreamEvent) :
  forallb isChunk events = true ->
  forall (st : Bridge) (pos : Z), servedKept st (runStream now events st pos).
Proof.
  induction events as [| ev events IH]; intros Hall st pos; cbn [runStream];
    [apply servedKept_refl |].
  cbn [forallb] in Hall. apply andb_prop in Hall. destruct Hall as [Hev Hall].
  destruct ev as [chunk | c]; [| discriminate].
  pose proof (servedKept_streamCallback chunk st pos) as K.
  destruct (streamCallback chunk st pos) as [[st' pos'] more]. cbn [fst] in K.
  destruct more; [| exact K].
  eapply servedKept_trans; [exact K | apply IH, Hall].
Qed.

(** X14.  A background read during which the emulator makes no call fills
    [next] buffers only: every [current] buffer that is ready when
    [handleBackgroundDiskRead] is called is the same, sample for sample, when
    it returns, whatever the device delivers. *)
Theorem background_read_keeps_served_buffers (now : Z) (io : DeviceAnswers) (st : Bridge)
    (cylinder : Z) (s : DiskSurface) :
  forallb isChunk (stream io) = true ->
  ready (current (cacheAt st cylinder s)) = true ->
  current (cacheAt (handleBackgroundDiskRead now io st) cylinder s)
  = current (cacheAt st cylinder s).
Proof.
  intros Hall. revert cylinder s. change (servedKept st (handleBackgroundDiskRead now io st)).
  unfold handleBackgroundDiskRead.
  destruct (negb (isReady st)); [apply servedKept_refl |].
  destruct (ready _); [apply servedKept_refl |]. cbv zeta.
  set (st1 := setCacheAt _ _ _ st).
  assert (H1 : servedKept st st1) by (apply servedKept_setCacheAt; reflexivity).
  assert (E1 : m_actualCurrentCylinder st1 = m_actualCurrentCylinder st) by reflexivity.
  assert (E2 : m_actualFloppySide st1 = m_actualFloppySide st) by reflexivity.
  clearbody st1.
  pose proof (servedKept_runStream now (stream io) Hall st1 0) as H2.
  set (st2 := runStream now (stream io) st1 0) in *. clearbody st2.
  set (st3 := if streamNoDisk io then _ else st2).
  assert (H3 : servedKept st2 st3).
  { unfold st3. destruct (streamNoDisk io); [| apply servedKept_refl].
    apply servedKept_same. reflexivity. }
  clearbody st3.
  eapply servedKept_trans; [exact H1 |].
  eapply servedKept_trans; [exact H2 |].
  eapply servedKept_trans; [exact H3 |].
  destruct (negb _).
  - eapply servedKept_trans; [| apply servedKept_same; reflexivity].
    apply servedKept_setCacheAt. reflexivity.
  - apply servedKept_same. reflexivity.
Qed.

Lemma background_read_keeps_served_buffers_witness :
  let st := run Scenario.readShortRevolution Scenario.started in
  amountReadInBits
    (next (cacheAt (handleBackgroundDiskRead 900 Scenario.shortRevolution st) 0 dsLower))
  = 1024
  /\ current (cacheAt (handleBackgroundDiskRead 900 Scenario.shortRevolution st) 0 dsLower)
     = current (cacheAt st 0 dsLower).
Proof.
  intros st. split; [vm_compute; reflexivity |].
  apply (background_read_keeps_served_buffers 900 Scenario.shortRevolution st 0 dsLower);
    vm_compute; reflexivity.
Defined.

Lemma handleBackgroundDiskRead_no_disk (now : Z) (io : DeviceAnswers) (st : Bridge) :
  m_motorIsReady st = true -> m_motorSpinningUp st = false ->
  ready (next (cacheAt st (m_actualCurrentCylinder st) (m_actualFloppySide st))) = false ->
  stream io = [] -> streamNoDisk io = true ->
  m_diskInDrive (handleBackgroundDiskRead now io st) = false
  /\ m_motorSpinningUp (handleBackgroundDiskRead now io st) = false
  /\ forall (cylinder : Z) (s : DiskSurface),
       current (cacheAt (handleBackgroundDiskRead now io st) cylinder s)
       = current (cacheAt st cylinder s).
Proof.
  intros Hready Hspin Hnext Hstream Hno.
  assert (Hself : (m_actualCurrentCylinder st =? m_actualCurrentCylinder st)
                  && DiskSurface_eqb (m_actualFloppySide st) (m_actualFloppySide st) = true)
    by (rewrite Z.eqb_refl; destruct (m_actualFloppySide st); reflexivity).
  unfold handleBackgroundDiskRead, isReady. rewrite Hready, Hspin, Hnext. cbn [andb negb].
  cbv zeta. rewrite Hstream, Hno. cbn [runStream].
  destruct (negb _); members; (split; [reflexivity |]); (split; [exact Hspin |]);
    intros c s; unfold cacheAt, setCacheAt; members;
    (destruct ((c =? m_actualCurrentCylinder st)
               && DiskSurface_eqb s (m_actualFloppySide st)) eqn:E; [| reflexivity]);
    apply entry_here in E; destruct E as [-> ->]; rewrite ?Hself; reflexivity.
Qed.

(** X15.  A removal of the disk that the read stream reports does not erase
    the cache.  When a pass of the worker starts a background read, the
    device delivers nothing and answers that no disk is in the drive,
    [m_diskInDrive] is cleared before [mainThread] compares it with the
    answer of the device, so [resetMFMCache] is not called: every [current]
    buffer is as it was, the ready ones still ready, and [m_diskInDrive] ends
    as the device reports it. *)
Theorem stream_removal_keeps_cache (now : Z) (io : DeviceAnswers) (st : Bridge) :
  m_queueSemaphore st <= 0 ->
  m_motorIsReady st = true -> m_motorSpinningUp st = false ->
  m_delayStreaming st = false ->
  ready (next (cacheAt st (m_actualCurrentCylinder st) (m_actualFloppySide st))) = false ->
  stream io = [] -> streamNoDisk io = true ->
  let st' := fst (mainThreadPass now io st) in
  m_diskInDrive st' = diskInDriveReply io
  /\ forall (cylinder : Z) (s : DiskSurface),
       current (cacheAt st' cylinder s) = current (cacheAt st cylinder s).
Proof.
  intros Hsem Hready Hspin Hdelay Hnext Hstream Hno.
  destruct (handleBackgroundDiskRead_no_disk now io st Hready Hspin Hnext Hstream Hno)
    as (D1 & S1 & C1).
  unfold mainThreadPass. destruct (Z.ltb_spec 0 (m_queueSemaphore st)); [lia |].
  cbn [fst]. unfold idleWork. rewrite Hready, Hdelay. cbn [negb orb]. cbv zeta.
  set (st1 := handleBackgroundDiskRead now io st) in *. clearbody st1.
  set (st2 := if _ && _ then _ else st1).
  assert (D2 : m_diskInDrive st2 = false) by (unfold st2; destruct (_ && _); exact D1).
  assert (S2 : m_motorSpinningUp st2 = false) by (unfold st2; destruct (_ && _); exact S1).
  assert (C2 : forall c s, current (cacheAt st2 c s) = current (cacheAt st c s))
    by (intros c s; unfold st2; destruct (_ && _); apply C1).
  clearbody st2.
  unfold updateDriveStatus. rewrite S2. cbn [andb]. cbv zeta. members. rewrite D2.
  destruct (diskInDriveReply io); cbn [Bool.eqb negb]; members;
    (split; [reflexivity | exact C2]).
Qed.

Lemma stream_removal_keeps_cache_witness :
  let st := run Scenario.readShortRevolution Scenario.started in
  let io := mkDeviceAnswers true false false [] true in
  let st' := fst (mainThreadPass 1500 io st) in
  m_diskInDrive st = true /\ m_diskInDrive st' = false
  /\ ready (current (cacheAt st' 0 dsLower)) = true.
Proof.
  intros st io st'.
  assert (H1 : m_queueSemaphore st <= 0) by (vm_compute; discriminate).
  assert (H2 : m_motorIsReady st = true) by (vm_compute; reflexivity).
  assert (H3 : m_motorSpinningUp st = false) by (vm_compute; reflexivity).
  assert (H4 : m_delayStreaming st = false) by (vm_compute; reflexivity).
  assert (H5 : ready (next (cacheAt st (m_actualCurrentCylinder st) (m_actualFloppySide st)))
               = false) by (vm_compute; reflexivity).
  destruct (stream_removal_keeps_cache 1500 io st H1 H2 H3 H4 H5 eq_refl eq_refl)
    as [Hd Hc].
  split; [vm_compute; reflexivity |]. split; [exact Hd |].
  unfold st'. rewrite Hc. vm_compute. reflexivity.
Defined.

End ServedProperties.

(** *** The bounds of the cache buffers *)

Module BufferProperties.

Import ArduinoFloppyBridge.
Import Notions.
Import ThreadNotions.
Import BridgeTactics.
Import ThreadProperties.
Import DiskProperties.
Import ServedProperties.
Import FlushProperties.

Lemma bufferOK_zeroCache : bufferOK zeroCache.
Proof. split; [cbn; unfold ARD_MFM_BUFFER_MAX_TRACK_LENGTH; lia | reflexivity]. Qed.

Lemma bufferOK_emptied (c : MFMCache) : bufferOK c -> bufferOK (set_amountReadInBits 0 c).
Proof.
  intros [_ H]. split; [cbn; unfold ARD_MFM_BUFFER_MAX_TRACK_LENGTH; lia | exact H].
Qed.

Lemma bufferOK_ready (v : bool) (c : MFMCache) : bufferOK c -> bufferOK (set_ready v c).
Proof. intros H. exact H. Qed.

Lemma BufferInv_setCacheAt (c : Z) (s : DiskSurface) (e : MFMCaches) (st : Bridge) :
  BufferInv st -> bufferOK (current e) -> bufferOK (next e) ->
  BufferInv (setCacheAt c s e st).
Proof.
  intros Hinv Hc Hn c' s'. rewrite entry_setCacheAt.
  destruct ((c' =? c) && DiskSurface_eqb s' s); [split; assumption | apply Hinv].
Qed.

Lemma BufferInv_same (st st' : Bridge) :
  m_mfmRead st' = m_mfmRead st -> BufferInv st -> BufferInv st'.
Proof. intros E H c s. unfold cacheAt. rewrite E. apply H. Qed.

Lemma nextShrinks_refl (st : Bridge) : nextShrinks st st.
Proof. intros c s. right. reflexivity. Qed.

Lemma nextShrinks_trans (st1 st2 st3 : Bridge) :
  nextShrinks st1 st2 -> nextShrinks st2 st3 -> nextShrinks st1 st3.
Proof.
  intros H12 H23 c s. destruct (H23 c s) as [E | E]; [left; exact E |].
  rewrite E. apply H12.
Qed.

Lemma nextShrinks_same (st st' : Bridge) :
  m_mfmRead st' = m_mfmRead st -> nextShrinks st st'.
Proof. intros E c s. right. unfold cacheAt. rewrite E. reflexivity. Qed.

Lemma nextShrinks_setCacheAt (c : Z) (s : DiskSurface) (e : MFMCaches) (st : Bridge) :
  amountReadInBits (next e) = 0
  \/ amountReadInBits (next e) = amountReadInBits (next (cacheAt st c s)) ->
  nextShrinks st (setCacheAt c s e st).
Proof.
  intros He c' s'. rewrite entry_setCacheAt.
  destruct ((c' =? c) && DiskSurface_eqb s' s) eqn:E; [| right; reflexivity].
  apply entry_here in E. destruct E as [-> ->]. exact He.
Qed.

Lemma internalSwitchCylinder_buffers (c : Z) (s : DiskSurface) (st : Bridge) :
  BufferInv st ->
  BufferInv (internalSwitchCylinder c s st) /\ nextShrinks st (internalSwitchCylinder c s st).
Proof.
  intros Hinv. unfold internalSwitchCylinder. cbv zeta.
  destruct (ready (next (cacheAt st c s))); [| split; [exact Hinv | apply nextShrinks_refl]].
  destruct (Hinv c s) as [_ Hn]. split.
  - apply BufferInv_setCacheAt; [exact Hinv | exact Hn |].
    apply bufferOK_ready, bufferOK_emptied, Hn.
  - apply nextShrinks_setCacheAt. left. reflexivity.
Qed.

(** What the emulator thread writes keeps the buffers within their bounds
    and adds nothing to a [next] buffer. *)
Lemma EmulatorWrite_buffers (st0 st : Bridge) :
  EmulatorWrite st0 st -> BufferInv st0 -> BufferInv st /\ nextShrinks st0 st.
Proof.
  intros H H0. induction H as [| | | | | | | | | | | | info st Hc H IH | | |
                                w st H IH | cyl s st H IH | track st H IH | st H IH];
    try exact IHEmulatorWrite.
  - split; [exact H0 | apply nextShrinks_refl].
  - destruct IH as [I1 I2]. split.
    + eapply BufferInv_same; [| exact I1].
      unfold pushOntoQueue, releaseSemaphore. split_ifs; reflexivity.
    + eapply nextShrinks_trans; [exact I2 |]. apply nextShrinks_same.
      unfold pushOntoQueue, releaseSemaphore. split_ifs; reflexivity.
  - destruct IH as [I1 I2]. split.
    + eapply BufferInv_same; [| exact I1].
      unfold queueCommand_i, pushOntoQueue, releaseSemaphore. split_ifs; reflexivity.
    + eapply nextShrinks_trans; [exact I2 |]. apply nextShrinks_same.
      unfold queueCommand_i, pushOntoQueue, releaseSemaphore. split_ifs; reflexivity.
  - destruct IH as [I1 I2].
    destruct (internalSwitchCylinder_buffers cyl s st I1) as [J1 J2].
    split; [exact J1 | eapply nextShrinks_trans; eassumption].
  - destruct IH as [I1 I2]. unfold invalidateCache. cbv zeta.
    destruct (I1 track (m_floppySide st)) as [Hcur Hn]. split.
    + apply BufferInv_setCacheAt; [exact I1 | exact Hcur |].
      apply bufferOK_ready, bufferOK_emptied, Hn.
    + eapply nextShrinks_trans; [exact I2 |]. apply nextShrinks_setCacheAt.
      left. reflexivity.
  - destruct IH as [I1 I2]. split.
    + intros c s. unfold cacheAt. members.
      destruct ((0 <=? c) && (c <? ARD_MAX_CYLINDER_BRIDGE));
        [split; apply bufferOK_zeroCache | apply I1].
    + eapply nextShrinks_trans; [exact I2 |]. intros c s. unfold cacheAt. members.
      destruct ((0 <=? c) && (c <? ARD_MAX_CYLINDER_BRIDGE));
        [left | right]; reflexivity.
Qed.

Lemma saveNextBuffer_buffers (c : Z) (s : DiskSurface) (st : Bridge) :
  BufferInv st -> BufferInv (saveNextBuffer c s st).
Proof.
  intros Hinv. unfold saveNextBuffer. cbv zeta.
  set (st1 := if negb _ then _ else st).
  assert (H1 : BufferInv st1).
  { unfold st1. destruct (negb _); [| exact Hinv].
    destruct (Hinv c s) as [Hcur Hn].
    apply BufferInv_setCacheAt; [exact Hinv | exact Hcur | apply bufferOK_ready, Hn]. }
  clearbody st1.
  destruct (negb (ready (next (cacheAt st1 c s)))); [exact H1 |].
  destruct (negb (ready (current (cacheAt st1 c s)))); [| exact H1].
  destruct (internalSwitchCylinder_buffers c s st1 H1) as [H2 _].
  destruct (_ && _); [| exact H2].
  eapply BufferInv_same; [| exact H2]. reflexivity.
Qed.

(** After [saveNextBuffer], a [next] buffer that is not ready is empty. *)
Lemma saveNextBuffer_empty (c : Z) (s : DiskSurface) (st : Bridge) :
  ready (next (cacheAt (saveNextBuffer c s st) c s)) = false ->
  amountReadInBits (next (cacheAt (saveNextBuffer c s st) c s)) = 0.
Proof.
  assert (Hself : (c =? c) && DiskSurface_eqb s s = true)
    by (rewrite Z.eqb_refl; destruct s; reflexivity).
  unfold saveNextBuffer. cbv zeta.
  destruct (Z.eqb_spec (amountReadInBits (next (cacheAt st c s))) 0) as [E0 | E0];
    cbn [negb].
  - destruct (ready (next (cacheAt st c s))) eqn:Hn; cbn [negb]; [| intros _; exact E0].
    destruct (ready (current (cacheAt st c s))) eqn:Hcur; cbn [negb];
      [rewrite Hn; discriminate |].
    unfold internalSwitchCylinder. rewrite Hn. cbv zeta.
    match goal with
    | |- context [if ?b then set_m_readBufferAvailable true _ else _] => destruct b
    end; intros _; unfold cacheAt, setCacheAt; members; rewrite Hself; reflexivity.
  - rewrite !entry_setCacheAt, Hself. cbn [next set_next set_ready ready negb].
    cbn [current set_next].
    destruct (ready (current (cacheAt st c s))) eqn:Hcur; cbn [negb].
    + rewrite entry_setCacheAt, Hself. cbn. discriminate.
    + unfold internalSwitchCylinder. rewrite entry_setCacheAt, Hself.
      cbn [next set_next set_ready ready]. cbv zeta.
      match goal with
      | |- context [if ?b then set_m_readBufferAvailable true _ else _] => destruct b
      end; intros _; unfold cacheAt, setCacheAt; members; rewrite ?Hself; reflexivity.
Qed.

Lemma saveNextBuffer_actual (c : Z) (s : DiskSurface) (st : Bridge) :
  m_actualCurrentCylinder (saveNextBuffer c s st) = m_actualCurrentCylinder st
  /\ m_actualFloppySide (saveNextBuffer c s st) = m_actualFloppySide st.
Proof.
  pose proof (cacheWritten_saveNextBuffer c s st) as K. unfold cacheWritten in K.
  rewrite K. split; reflexivity.
Qed.

Lemma land_7 (x : Z) : Z.land x 7 = x mod 8.
Proof. change 7 with (Z.ones 3). rewrite Z.land_ones by lia. reflexivity. Qed.

Lemma bufferOK_memcpy (c : MFMCache) (pos n amount : Z) (src : Z -> MFMSample) :
  bufferOK c -> 0 <= pos -> pos + n <= ARD_MFM_BUFFER_MAX_TRACK_LENGTH ->
  0 <= amount <= ARD_MFM_BUFFER_MAX_TRACK_LENGTH * 8 ->
  bufferOK (set_amountReadInBits amount (set_mfmBuffer (memcpy (mfmBuffer c) pos src n) c)).
Proof.
  intros [_ Hout] Hpos Hn Ham. split; [exact Ham |].
  intros i Hi. cbn. unfold memcpy.
  destruct (Z.leb_spec pos i); [| apply Hout, Hi].
  destruct (Z.ltb_spec i (pos + n)); [lia | apply Hout, Hi].
Qed.

(** One chunk: the buffer stays within its bounds, and while the stream goes
    on the bits counted are bits of samples stored. *)
Lemma streamCallback_buffers (chunk : StreamChunk) (st : Bridge) (pos : Z) :
  chunkOK chunk -> StreamBufferInv pos st ->
  BufferInv (fst (fst (streamCallback chunk st pos)))
  /\ (snd (streamCallback chunk st pos) = true ->
      StreamBufferInv (snd (fst (streamCallback chunk st pos)))
        (fst (fst (streamCallback chunk st pos)))).
Proof.
  intros Hchunk (Hinv & Hpos & Ham).
  assert (Hself : (m_actualCurrentCylinder st =? m_actualCurrentCylinder st)
                  && DiskSurface_eqb (m_actualFloppySide st) (m_actualFloppySide st) = true)
    by (rewrite Z.eqb_refl; destruct (m_actualFloppySide st); reflexivity).
  destruct (Hinv (m_actualCurrentCylinder st) (m_actualFloppySide st)) as [Hcur Hn].
  pose proof (proj1 Hn) as Hn0.
  unfold chunkOK in Hchunk. unfold ARD_MFM_BUFFER_MAX_TRACK_LENGTH in Hpos, Hn0.
  assert (Hdiv : 0 <= dataLengthInBits chunk / 8 <= 536870911).
  { split; [apply Z.div_pos; lia |].
    assert (dataLengthInBits chunk / 8 < 536870912)
      by (apply Z.div_lt_upper_bound; lia).
    lia. }
  unfold streamCallback. cbv zeta.
  destruct (negb (Z.of_nat (length (m_queue st)) =? 0)); cbn [fst snd].
  { split; [| discriminate].
    apply BufferInv_setCacheAt; [exact Hinv | exact Hcur | apply bufferOK_emptied, Hn]. }
  rewrite (uint32_of_small (pos + dataLengthInBits chunk / 8))
    by (unfold ARD_MFM_BUFFER_MAX_TRACK_LENGTH in *; lia).
  destruct (Z.geb_spec (pos + dataLengthInBits chunk / 8) ARD_MFM_BUFFER_MAX_TRACK_LENGTH)
    as [G | G]; cbn [fst snd].
  { split; [| discriminate]. apply saveNextBuffer_buffers.
    apply BufferInv_setCacheAt; [exact Hinv | exact Hcur |].
    rewrite uint32_of_small by (unfold ARD_MFM_BUFFER_MAX_TRACK_LENGTH; lia).
    destruct (negb _).
    - apply bufferOK_memcpy; [exact Hn | lia | lia |].
      unfold ARD_MFM_BUFFER_MAX_TRACK_LENGTH. lia.
    - split; [cbn; unfold ARD_MFM_BUFFER_MAX_TRACK_LENGTH; lia | apply Hn]. }
  unfold ARD_MFM_BUFFER_MAX_TRACK_LENGTH in G.
  rewrite (int32_of_small (dataLengthInBits chunk / 8)) by lia.
  set (len := if negb (Z.land (dataLengthInBits chunk) 7 =? 0)
              then dataLengthInBits chunk / 8 + 1 else dataLengthInBits chunk / 8).
  assert (Hlen : dataLengthInBits chunk <= 8 * len <= 8 * (dataLengthInBits chunk / 8) + 8).
  { unfold len. rewrite land_7.
    pose proof (Z.div_mod (dataLengthInBits chunk) 8 ltac:(lia)) as Hdm.
    pose proof (Z.mod_pos_bound (dataLengthInBits chunk) 8 ltac:(lia)) as Hm.
    destruct (Z.eqb_spec (dataLengthInBits chunk mod 8) 0); cbn [negb]; lia. }
  cbn [amountReadInBits set_mfmBuffer].
  rewrite (int32_of_small
             (amountReadInBits
                (next (cacheAt st (m_actualCurrentCylinder st) (m_actualFloppySide st)))
              + dataLengthInBits chunk)) by lia.
  rewrite (uint32_of_small (pos + len)) by lia.
  set (nx := set_amountReadInBits _ _).
  assert (Hnx : bufferOK nx).
  { unfold nx. apply bufferOK_memcpy; [exact Hn | lia | |];
      unfold ARD_MFM_BUFFER_MAX_TRACK_LENGTH; lia. }
  assert (Hamx : amountReadInBits nx <= 8 * (pos + len)) by (unfold nx, set_amountReadInBits; cbn [amountReadInBits]; lia).
  set (st1 := setCacheAt _ _ _ st).
  assert (H1 : BufferInv st1)
    by (unfold st1; apply BufferInv_setCacheAt; [exact Hinv | exact Hcur | exact Hnx]).
  assert (A1 : m_actualCurrentCylinder st1 = m_actualCurrentCylinder st) by reflexivity.
  assert (A2 : m_actualFloppySide st1 = m_actualFloppySide st) by reflexivity.
  assert (N1 : next (cacheAt st1 (m_actualCurrentCylinder st) (m_actualFloppySide st)) = nx)
    by (unfold st1; rewrite entry_setCacheAt, Hself; reflexivity).
  clearbody st1 nx.
  destruct (isEndOfRevolution chunk); cbn [fst snd].
  - pose proof (saveNextBuffer_buffers (m_actualCurrentCylinder st) (m_actualFloppySide st)
                  st1 H1) as H2.
    pose proof (saveNextBuffer_empty (m_actualCurrentCylinder st) (m_actualFloppySide st)
                  st1) as H3.
    destruct (saveNextBuffer_actual (m_actualCurrentCylinder st) (m_actualFloppySide st)
                st1) as [B1 B2].
    set (st2 := saveNextBuffer _ _ st1) in *. clearbody st2.
    destruct (ready (next (cacheAt st2 _ _))) eqn:Hr; cbn [negb fst snd].
    + split; [exact H2 | discriminate].
    + split; [exact H2 |]. intros _. split; [exact H2 |].
      split; [unfold ARD_MFM_BUFFER_MAX_TRACK_LENGTH; lia |].
      rewrite B1, B2, A1, A2, H3 by reflexivity. lia.
  - split; [exact H1 |]. intros _. split; [exact H1 |].
    split; [unfold ARD_MFM_BUFFER_MAX_TRACK_LENGTH; lia |].
    rewrite A1, A2, N1. exact Hamx.
Qed.

Lemma streamCallback_actual (chunk : StreamChunk) (st : Bridge) (pos : Z) :
  m_actualCurrentCylinder (fst (fst (streamCallback chunk st pos)))
  = m_actualCurrentCylinder st
  /\ m_actualFloppySide (fst (fst (streamCallback chunk st pos))) = m_actualFloppySide st.
Proof.
  pose proof (cacheWritten_streamCallback chunk st pos) as K. unfold cacheWritten in K.
  rewrite K. split; reflexivity.
Qed.

Lemma StreamBufferInv_emulatorCall (now : Z) (c : EmulatorCall) (st : Bridge) (pos : Z) :
  StreamBufferInv pos st -> StreamBufferInv pos (emulatorCall now c st).
Proof.
  intros (Hinv & Hpos & Ham).
  pose proof (ew_emulatorCall st now c st (ew_none st)) as Hew.
  destruct (EmulatorWrite_buffers st _ Hew Hinv) as [I1 I2].
  destruct (EmulatorWrite_workerMembersKept st _ Hew) as (A1 & A2 & _).
  split; [exact I1 |]. split; [exact Hpos |]. rewrite A1, A2.
  destruct (I2 (m_actualCurrentCylinder st) (m_actualFloppySide st)) as [E | E];
    rewrite E; lia.
Qed.

Lemma runStream_buffers (now : Z) (events : list StreamEvent) :
  Forall streamEventOK events ->
  forall (st : Bridge) (pos : Z),
    StreamBufferInv pos st -> BufferInv (runStream now events st pos).
Proof.
  induction 1 as [| ev events Hev Hall IH]; intros st pos Hinv; cbn [runStream].
  - exact (proj1 Hinv).
  - destruct ev as [chunk | c].
    + destruct (streamCallback_buffers chunk st pos Hev Hinv) as [H1 H2].
      destruct (streamCallback chunk st pos) as [[st' pos'] more]. cbn [fst snd] in H1, H2.
      destruct more; [apply IH, H2; reflexivity | exact H1].
    + apply IH, StreamBufferInv_emulatorCall, Hinv.
Qed.

Lemma handleBackgroundDiskRead_buffers (now : Z) (io : DeviceAnswers) (st : Bridge) :
  Forall streamEventOK (stream io) -> BufferInv st ->
  BufferInv (handleBackgroundDiskRead now io st).
Proof.
  intros Hall Hinv. unfold handleBackgroundDiskRead.
  destruct (negb (isReady st)); [exact Hinv |].
  destruct (ready _); [exact Hinv |]. cbv zeta.
  destruct (Hinv (m_actualCurrentCylinder st) (m_actualFloppySide st)) as [Hcur Hn].
  set (st1 := setCacheAt _ _ _ st).
  assert (H1 : StreamBufferInv 0 st1).
  { split; [| split].
    - unfold st1. apply BufferInv_setCacheAt; [exact Hinv | exact Hcur |].
      apply bufferOK_ready, bufferOK_emptied, Hn.
    - unfold ARD_MFM_BUFFER_MAX_TRACK_LENGTH. lia.
    - unfold st1. change (m_actualCurrentCylinder (setCacheAt _ _ _ st))
        with (m_actualCurrentCylinder st).
      change (m_actualFloppySide (setCacheAt _ _ _ st)) with (m_actualFloppySide st).
      rewrite entry_setCacheAt_here. cbn [next set_next set_ready set_amountReadInBits
                                          amountReadInBits]. lia. }
  clearbody st1.
  pose proof (runStream_buffers now (stream io) Hall st1 0 H1) as H2.
  set (st2 := runStream now (stream io) st1 0) in *. clearbody st2.
  set (st3 := if streamNoDisk io then _ else st2).
  assert (H3 : BufferInv st3).
  { unfold st3. destruct (streamNoDisk io); [| exact H2].
    eapply BufferInv_same; [| exact H2]. reflexivity. }
  clearbody st3.
  set (cyl := m_actualCurrentCylinder st). set (s := m_actualFloppySide st).
  destruct (H3 cyl s) as [Hcur3 Hn3].
  destruct (negb _).
  - eapply BufferInv_same; [reflexivity |].
    apply BufferInv_setCacheAt; [exact H3 | exact Hcur3 | apply bufferOK_emptied, Hn3].
  - eapply BufferInv_same; [| exact H3]. reflexivity.
Qed.

Lemma processCommand_buffers (now : Z) (io : DeviceAnswers) (info : QueueInfo)
    (st : Bridge) :
  BufferInv st -> BufferInv (processCommand now io info st).
Proof.
  intros Hinv. unfold processCommand. destruct (command info); cbv zeta;
    try (eapply BufferInv_same; [| exact Hinv]; split_ifs; reflexivity).
  destruct (m_pendingTrackWrites st) as [| track rest]; [exact Hinv |].
  destruct (negb (floppyBufferSizeBits track =? 0));
    [| eapply BufferInv_same; [| exact Hinv]; reflexivity].
  set (st1 := if negb (DiskSurface_eqb _ _) then _ else _).
  assert (H1 : BufferInv st1)
    by (eapply BufferInv_same; [| exact Hinv]; unfold st1; split_ifs; reflexivity).
  clearbody st1.
  eapply BufferInv_same; [reflexivity |].
  destruct (H1 (m_actualCurrentCylinder st1) (m_actualFloppySide st1)) as [Hcur Hn].
  apply BufferInv_setCacheAt; [exact H1 | apply bufferOK_ready, Hcur | exact Hn].
Qed.

Lemma mainThreadPass_buffers (now : Z) (io : DeviceAnswers) (st : Bridge) :
  Forall streamEventOK (stream io) -> BufferInv st ->
  BufferInv (fst (mainThreadPass now io st)).
Proof.
  intros Hall Hinv.
  assert (Hupd : forall st1, BufferInv st1 -> BufferInv (updateDriveStatus now io st1)).
  { intros st1 H1. unfold updateDriveStatus. cbv zeta.
    set (st2 := if m_motorSpinningUp st1 && _ then _ else st1).
    assert (H2 : BufferInv st2)
      by (eapply BufferInv_same; [| exact H1]; unfold st2; split_ifs; reflexivity).
    clearbody st2.
    destruct (negb (Bool.eqb _ _));
      [| eapply BufferInv_same; [| exact H2]; reflexivity].
    destruct (negb _); [| eapply BufferInv_same; [| exact H2]; reflexivity].
    intros c s. unfold resetMFMCache, resetWriteBuffer, cacheAt. cbv zeta. members.
    destruct ((0 <=? c) && (c <? ARD_MAX_CYLINDER_BRIDGE));
      [split; apply bufferOK_zeroCache | apply H2]. }
  unfold mainThreadPass. destruct (0 <? m_queueSemaphore st).
  - unfold processQueue. members. destruct (m_queue st) as [| cmd rest].
    + cbn [fst]. apply Hupd. eapply BufferInv_same; [| exact Hinv]. reflexivity.
    + cbv zeta. destruct (QueueCommand_eqb (command cmd) qcTerminate); cbn [fst].
      * eapply BufferInv_same; [| exact Hinv]. reflexivity.
      * apply Hupd, processCommand_buffers.
        eapply BufferInv_same; [| exact Hinv]. reflexivity.
  - cbn [fst]. apply Hupd. unfold idleWork. cbv zeta.
    set (st1 := if m_motorIsReady st then _ else st).
    assert (H1 : BufferInv st1).
    { unfold st1. destruct (m_motorIsReady st); [| exact Hinv].
      destruct (_ || _); [| exact Hinv].
      apply handleBackgroundDiskRead_buffers; assumption. }
    clearbody st1. destruct (_ && _); [| exact H1].
    eapply BufferInv_same; [| exact H1]. reflexivity.
Qed.

Lemma run_BufferInv (mem : Bridge) (now : Z) (diskInDrive : bool) (events : list Event) :
  Forall eventOK events ->
  BufferInv (run events (initialise now diskInDrive (construct mem))).
Proof.
  intros Hall.
  assert (H0 : BufferInv (initialise now diskInDrive (construct mem))).
  { intros c s. split; apply bufferOK_zeroCache. }
  revert H0. generalize (initialise now diskInDrive (construct mem)).
  induction Hall as [| ev events Hev Hall IH]; intros st Hinv; [exact Hinv |].
  change (run (ev :: events) st) with (run events (step ev st)). apply IH.
  destruct ev as [t c | t io]; cbn [step].
  - exact (proj1 (EmulatorWrite_buffers st _ (ew_emulatorCall st t c st (ew_none st)) Hinv)).
  - apply mainThreadPass_buffers; assumption.
Qed.

(** X16.  The cache buffers stay within their bounds.  From construction on,
    whatever the two threads do and whatever the device delivers in chunks
    whose length is an [unsigned], every [current] and [next] buffer holds
    between 0 and [ARD_MFM_BUFFER_MAX_TRACK_LENGTH * 8] bits, and the copies
    of the stream callback never store a sample outside the
    [ARD_MFM_BUFFER_MAX_TRACK_LENGTH] samples of a buffer. *)
Theorem cache_buffers_within_bounds (mem : Bridge) (now : Z) (diskInDrive : bool)
    (events : list Event) :
  Forall eventOK events ->
  forall (cylinder : Z) (s : DiskSurface),
    let e := cacheAt (run events (initialise now diskInDrive (construct mem))) cylinder s in
    (0 <= amountReadInBits (current e) <= ARD_MFM_BUFFER_MAX_TRACK_LENGTH * 8
     /\ forall i, ~ (0 <= i < ARD_MFM_BUFFER_MAX_TRACK_LENGTH) ->
                  mfmBuffer (current e) i = zeroSample)
    /\ (0 <= amountReadInBits (next e) <= ARD_MFM_BUFFER_MAX_TRACK_LENGTH * 8
        /\ forall i, ~ (0 <= i < ARD_MFM_BUFFER_MAX_TRACK_LENGTH) ->
                     mfmBuffer (next e) i = zeroSample).
Proof. intros Hall cylinder s. exact (run_BufferInv mem now diskInDrive events Hall cylinder s). Qed.

Lemma cache_buffers_within_bounds_witness :
  let st := run Scenario.readShortRevolution Scenario.started in
  amountReadInBits (current (cacheAt st 0 dsLower)) = 1024
  /\ forall i, ~ (0 <= i < ARD_MFM_BUFFER_MAX_TRACK_LENGTH) ->
               mfmBuffer (current (cacheAt st 0 dsLower)) i = zeroSample.
Proof.
  intros st. split; [vm_compute; reflexivity |].
  assert (Hall : Forall eventOK Scenario.readShortRevolution)
    by (repeat constructor; cbn; unfold chunkOK; cbn; lia).
  exact (proj2 (proj1 (cache_buffers_within_bounds Scenario.zeroMemory 0 true
                         Scenario.readShortRevolution Hall 0 dsLower))).
Defined.




End BufferProperties.

(** ** Properties of the flux stream written to the Greaseweazle *)

Module FluxStreamProperties.

Import GreaseWeazleInterface.
Import Notions.
Import StreamNotions.

Ltac flux_bytes :=
  repeat (apply Forall_cons;
          [first [assumption
                 | unfold fluxByte, FluxOp_Space, to_uint8;
                   rewrite ?(Z.mod_small _ 256) by lia; lia] |]);
  apply Forall_nil.

Lemma fluxByte_odd (x : Z) : fluxByte (to_uint8 (Z.lor 1 (Z.land x 255))).
Proof.
  unfold fluxByte, to_uint8. set (v := Z.lor 1 (Z.land x 255)).
  pose proof (Z.mod_pos_bound v 256 ltac:(lia)) as Hb.
  assert (Hne : v mod 256 <> 0).
  { intros E.
    assert (T : Z.testbit (v mod 2 ^ 8) 0 = true).
    { rewrite Z.mod_pow2_bits_low by lia. unfold v. rewrite Z.lor_spec. reflexivity. }
    change (2 ^ 8) with 256 in T. rewrite E in T. discriminate T. }
  lia.
Qed.

Lemma write28bit_bytes (value : Z) (output : list Z) :
  exists b1 b2 b3 b4,
    write28bit value output = output ++ [b1; b2; b3; b4]
    /\ fluxByte b1 /\ fluxByte b2 /\ fluxByte b3 /\ fluxByte b4.
Proof.
  unfold write28bit. cbv zeta. do 4 eexists. split.
  - rewrite <- !app_assoc. cbn [app]. reflexivity.
  - repeat split; apply fluxByte_odd.
Qed.

(** The bytes one interval adds to the stream. *)
Lemma encodeTicks_bytes (ticks nfa_thresh : Z) (outputBuffer : list Z) :
  exists bytes,
    encodeTicks ticks nfa_thresh outputBuffer = outputBuffer ++ bytes
    /\ Forall fluxByte bytes.
Proof.
  unfold encodeTicks.
  destruct (Z.gtb_spec ticks 0) as [Hpos | Hpos];
    [| exists []; rewrite app_nil_r; split; [reflexivity | constructor]].
  destruct (Z.ltb_spec ticks 250) as [Hlt | Hge].
  { exists [to_uint8 ticks]. split; [reflexivity | flux_bytes]. }
  destruct (ticks >? nfa_thresh).
  { cbv zeta.
    destruct (write28bit_bytes ticks ((outputBuffer ++ [255]) ++ [FluxOp_Space]))
      as (b1 & b2 & b3 & b4 & E & H1 & H2 & H3 & H4).
    rewrite E. exists [255; FluxOp_Space; b1; b2; b3; b4; 255; FluxOp_Space]. split.
    - rewrite <- !app_assoc. reflexivity.
    - flux_bytes. }
  cbv zeta.
  assert (Hq : 0 <= Z.quot (ticks - 250) 255) by (apply Z.quot_pos; lia).
  pose proof (Z.rem_bound_pos (ticks - 250) 255 ltac:(lia) ltac:(lia)) as Hr.
  destruct (Z.ltb_spec (to_uint32 (Z.quot (ticks - 250) 255)) 5) as [Hh | Hh].
  - pose proof (Z.mod_pos_bound (Z.quot (ticks - 250) 255) 4294967296 ltac:(lia)) as Hm.
    unfold to_uint32 in *.
    exists [to_uint8 (250 + Z.quot (ticks - 250) 255 mod 4294967296);
            to_uint8 (1 + Z.rem (ticks - 250) 255)].
    split; [rewrite <- app_assoc; reflexivity | flux_bytes].
  - destruct (write28bit_bytes (ticks - 249) ((outputBuffer ++ [255]) ++ [FluxOp_Space]))
      as (b1 & b2 & b3 & b4 & E & H1 & H2 & H3 & H4).
    rewrite E. exists [255; FluxOp_Space; b1; b2; b3; b4; 249]. split.
    + rewrite <- !app_assoc. reflexivity.
    + flux_bytes.
Qed.

Lemma gw_encodeLoop_bytes (usePrecomp : bool) (sample_freq nfa_thresh : Z)
    (mfmData : Z -> Z) (numBytes : Z) (fuel : nat) :
  forall (e : Encoder) (outputBuffer result : list Z),
    encodeLoop fuel usePrecomp sample_freq nfa_thresh mfmData numBytes e outputBuffer
    = encoded result ->
    exists bytes, result = outputBuffer ++ bytes ++ [0] /\ Forall fluxByte bytes.
Proof.
  induction fuel as [| fuel IH]; intros e outputBuffer result; cbn [encodeLoop];
    destruct (pos e <? numBytes + 1).
  - discriminate.
  - intros E. injection E as <-. exists []. split; [reflexivity | constructor].
  - unfold encodeInterval.
    destruct (ArduinoInterface.scanToOne _ mfmData numBytes (pos e) (bit e) (sequenceBits e) 0)
      as [[[p b] sq] c].
    cbv zeta. destruct (applyPrecomp usePrecomp sq _ _) as [t x].
    destruct (encodeTicks_bytes (nSecToTicks t (to_int32 sample_freq)) nfa_thresh outputBuffer)
      as (bytes & E1 & H1).
    rewrite E1. intros E. apply IH in E. destruct E as (rest & -> & H2).
    exists (bytes ++ rest). split; [rewrite <- !app_assoc; reflexivity |].
    apply Forall_app. split; assumption.
  - intros E. injection E as <-. exists []. split; [reflexivity | constructor].
Qed.

(** X18.  The flux stream [writeCurrentTrackPrecomp] builds for the
    Greaseweazle is always completed, whatever the track data, the sample
    frequency and the threshold, and its only zero byte is the terminator
    pushed last: no interval, in any of its encodings (one byte, two bytes or
    a [Space] opcode with its 28-bit operand), contributes a zero byte that
    would end the stream early. *)
Theorem flux_stream_ends_at_its_terminator (sample_freq nfa_thresh : Z) (mfmData : Z -> Z)
    (numBytes : Z) (usePrecomp : bool) :
  exists bytes,
    writeCurrentTrackPrecomp sample_freq nfa_thresh mfmData numBytes usePrecomp
    = encoded (bytes ++ [0])
    /\ Forall (fun b => 1 <= b <= 255) bytes.
Proof.
  pose proof (PrecompProperties.gw_writeCurrentTrackPrecomp_completes sample_freq nfa_thresh
                mfmData numBytes usePrecomp) as Hends.
  destruct (writeCurrentTrackPrecomp sample_freq nfa_thresh mfmData numBytes usePrecomp)
    as [result |] eqn:E; [| contradiction].
  unfold writeCurrentTrackPrecomp in E. apply gw_encodeLoop_bytes in E.
  destruct E as (bytes & -> & H). exists bytes. split; [reflexivity | exact H].
Qed.

End FluxStreamProperties.

(** ** Properties of the Greaseweazle timing: ticks, nanoseconds and cells *)

Module PLLProperties.

Import GreaseWeazleInterface.
Import Notions.
Import FlushProperties.

Lemma nSecToTicks_value (nSec sampleFrequency : Z) :
  0 <= nSec <= 2147483647 -> 1 <= sampleFrequency <= 1000000000 ->
  nSecToTicks nSec sampleFrequency = nSec * sampleFrequency / 1000000000
  /\ 0 <= nSecToTicks nSec sampleFrequency <= nSec.
Proof.
  intros Hn Hf. unfold nSecToTicks, ONE_NANOSECOND.
  rewrite Z.quot_div_nonneg by nia.
  assert (H : 0 <= nSec * sampleFrequency / 1000000000 <= nSec).
  { split; [apply Z.div_pos; nia |]. apply Z.div_le_upper_bound; nia. }
  rewrite int32_of_small by lia. split; [reflexivity | exact H].
Qed.

Lemma ticksToNSec_value (ticks sampleFrequency : Z) :
  0 <= ticks -> 1 <= sampleFrequency ->
  ticks * 1000000000 / sampleFrequency <= 2147483647 ->
  ticksToNSec ticks sampleFrequency = ticks * 1000000000 / sampleFrequency.
Proof.
  intros Ht Hf Hr. unfold ticksToNSec, ONE_NANOSECOND.
  rewrite Z.quot_div_nonneg by lia.
  apply int32_of_small. split; [apply Z.div_pos; lia | exact Hr].
Qed.

(** A time converted to ticks and back. *)
Lemma ticks_of_time_back (nSec sampleFrequency : Z) :
  0 <= nSec <= 2147483647 -> 1 <= sampleFrequency <= 1000000000 ->
  ticksToNSec (nSecToTicks nSec sampleFrequency) sampleFrequency <= nSec
  /\ sampleFrequency
     * (nSec - ticksToNSec (nSecToTicks nSec sampleFrequency) sampleFrequency)
     < 1000000000 + sampleFrequency
  /\ 0 <= ticksToNSec (nSecToTicks nSec sampleFrequency) sampleFrequency.
Proof.
  intros Hn Hf. destruct (nSecToTicks_value nSec sampleFrequency Hn Hf) as [E Ht].
  set (t := nSecToTicks nSec sampleFrequency) in *.
  pose proof (Z.mul_div_le (nSec * sampleFrequency) 1000000000 ltac:(lia)) as L1.
  pose proof (Z.mul_succ_div_gt (nSec * sampleFrequency) 1000000000 ltac:(lia)) as L2.
  rewrite <- E in L1, L2.
  pose proof (Z.mul_div_le (t * 1000000000) sampleFrequency ltac:(lia)) as M1.
  pose proof (Z.mul_succ_div_gt (t * 1000000000) sampleFrequency ltac:(lia)) as M2.
  assert (Hr : t * 1000000000 / sampleFrequency <= nSec).
  { apply Z.div_le_upper_bound; lia. }
  rewrite ticksToNSec_value by lia.
  split; [exact Hr |]. split; [lia |]. apply Z.div_pos; lia.
Qed.

(** The loop that clocks out the cells of an interval rounds what is left of
    it to the nearest cell, a half going down. *)
Lemma clockOut_rounds (fuel : nat) :
  forall t s : Z,
    0 <= s -> t <= 1000 + 2000 * Z.of_nat fuel -> t <= 1000 + 2000 * (255 - s) ->
    exists n,
      clockOut fuel t s = s + n /\ 0 <= n
      /\ (t <= 1000 -> n = 0)
      /\ (1000 < t -> 2000 * n - 1000 < t <= 2000 * n + 1000).
Proof.
  induction fuel as [| fuel IH]; intros t s Hs Hfuel Hcap; cbn [clockOut].
  - exists 0. repeat split; lia.
  - unfold BITCELL_SIZE_IN_NS. change (2000 / 2) with 1000.
    destruct (Z.gtb_spec t 1000) as [G | G]; [| exists 0; repeat split; lia].
    assert (E : to_uint8 (s + 1) = s + 1) by (unfold to_uint8; apply Z.mod_small; lia).
    rewrite E.
    destruct (IH (t - 2000) (s + 1)) as (n & En & Hn & H0 & H1); try lia.
    exists (n + 1). split; [lia |]. split; [lia |]. split; [lia |].
    intros _. destruct (Z_le_gt_dec (t - 2000) 1000) as [L | L].
    + specialize (H0 L). lia.
    + specialize (H1 ltac:(lia)). lia.
Qed.

Lemma accumulateTicks_cells (val : Z) (queue : list Z) (pllData : PLLData)
    (output : Sequence) :
  let tickInNS := ticksToNSec (ticks pllData + val) (to_int32 (freq pllData)) in
  2000 < tickInNS <= 513000 ->
  exists s sp,
    accumulateTicks val queue pllData output
    = (1, queue, mkPLLData (freq pllData) 0, mkSequence s sp (atIndex output))
    /\ 0 <= s <= 254
    /\ (tickInNS <= 3000 -> s = 0)
    /\ (3000 < tickInNS -> 2000 * (s + 2) - 1000 < tickInNS <= 2000 * (s + 2) + 1000)
    /\ sp = tickInNS * 100 / ((s + 2) * 2000)
    /\ 50 <= sp <= 125
    /\ (3000 < tickInNS -> 75 <= sp).
Proof.
  intros tickInNS HT. unfold accumulateTicks. cbv zeta. cbn [freq ticks].
  fold tickInNS. unfold BITCELL_SIZE_IN_NS.
  destruct (Z.gtb_spec tickInNS 2000) as [G | G]; [| lia].
  destruct (clockOut_rounds (Z.to_nat (tickInNS - 2000)) (tickInNS - 2000) 0)
    as (n & En & Hn & H0 & H1); try lia.
  rewrite En. cbn [Z.add].
  set (s1 := if n <? 1 then 1 else n).
  assert (Hs1 : 1 <= s1 <= 255 /\ (tickInNS <= 3000 -> s1 = 1)
                /\ (3000 < tickInNS -> s1 = n)).
  { unfold s1. destruct (Z.ltb_spec n 1); repeat split; lia. }
  clearbody s1. destruct Hs1 as (B1 & S0 & S1).
  assert (E8 : to_uint8 (s1 - 1) = s1 - 1) by (unfold to_uint8; apply Z.mod_small; lia).
  rewrite E8.
  assert (Hrange : 3000 < tickInNS ->
                   2000 * (s1 - 1 + 2) - 1000 < tickInNS <= 2000 * (s1 - 1 + 2) + 1000).
  { intros L. specialize (S1 L). specialize (H1 ltac:(lia)). lia. }
  assert (Hsp : 50 <= tickInNS * 100 / ((s1 - 1 + 2) * 2000) <= 125
                /\ (3000 < tickInNS -> 75 <= tickInNS * 100 / ((s1 - 1 + 2) * 2000))).
  { destruct (Z_le_gt_dec tickInNS 3000) as [L | L].
    - rewrite (S0 L). change ((1 - 1 + 2) * 2000) with 4000. split; [| lia]. split.
      + apply Z.div_le_lower_bound; lia.
      + assert (tickInNS * 100 / 4000 < 126) by (apply Z.div_lt_upper_bound; lia). lia.
    - specialize (Hrange ltac:(lia)). split; [split |].
      + apply Z.div_le_lower_bound; lia.
      + assert (tickInNS * 100 / ((s1 - 1 + 2) * 2000) < 126)
          by (apply Z.div_lt_upper_bound; lia). lia.
      + intros _. apply Z.div_le_lower_bound; lia. }
  rewrite Z.quot_div_nonneg by lia.
  assert (E16 : to_uint16 (tickInNS * 100 / ((s1 - 1 + 2) * 2000))
                = tickInNS * 100 / ((s1 - 1 + 2) * 2000))
    by (unfold to_uint16; apply Z.mod_small; lia).
  rewrite E16.
  exists (s1 - 1), (tickInNS * 100 / ((s1 - 1 + 2) * 2000)).
  split; [reflexivity |]. split; [lia |]. split; [intros L; rewrite (S0 L); reflexivity |].
  split; [exact Hrange |]. split; [reflexivity |]. exact Hsp.
Qed.

(** X19.  The two conversions of the Greaseweazle adapter lose less than a
    tick and a nanosecond: a time of [nSec] nanoseconds, at a sample
    frequency of up to 1 GHz, converted to ticks and back is never more than
    [nSec], and falls short of it by less than
    [ONE_NANOSECOND / sampleFrequency + 1]. *)
Theorem tick_conversion_loss (nSec sampleFrequency : Z) :
  0 <= nSec <= 2147483647 -> 1 <= sampleFrequency <= 1000000000 ->
  let back := ticksToNSec (nSecToTicks nSec sampleFrequency) sampleFrequency in
  0 <= back <= nSec
  /\ sampleFrequency * (nSec - back) < ONE_NANOSECOND + sampleFrequency.
Proof.
  intros Hn Hf back.
  destruct (ticks_of_time_back nSec sampleFrequency Hn Hf) as (H1 & H2 & H3).
  unfold ONE_NANOSECOND. fold back in H1, H2, H3. repeat split; assumption.
Qed.

Lemma tick_conversion_loss_witness :
  ticksToNSec (nSecToTicks 4000 72000000) 72000000 = 4000
  /\ 3986 < ticksToNSec (nSecToTicks 4140 72000000) 72000000 <= 4140.
Proof.
  split; [vm_compute; reflexivity |].
  destruct (tick_conversion_loss 4140 72000000) as [H1 H2]; try lia.
  cbv zeta in H1, H2. unfold ONE_NANOSECOND in H2. lia.
Defined.

(** X20.  The decoder of the read stream rounds an interval to the nearest
    number of bit cells.  In [unpackStreamQueue], from [pllData.ticks += val]
    on: while the ticks gathered make 2000 ns or less, nothing is produced
    and the ticks are kept; above that (and up to 513000 ns, the most an
    [unsigned char] counts) a sequence is produced and the ticks are reset,
    with [sequence + 2] cells of 2000 ns within 1000 ns of the interval, a
    half going down, 2 cells for anything up to 5000 ns, and with [speed]
    the interval in percent of those cells, between 50 and 125 and at least
    75 from 3000 ns on. *)
Theorem pll_rounds_to_nearest_cell (val : Z) (queue : list Z) (pllData : PLLData)
    (output : Sequence) :
  let tickInNS := ticksToNSec (ticks pllData + val) (to_int32 (freq pllData)) in
  (tickInNS <= 2000 ->
   accumulateTicks val queue pllData output
   = (0, queue, mkPLLData (freq pllData) (ticks pllData + val), output))
  /\ (2000 < tickInNS <= 513000 ->
      exists s sp,
        accumulateTicks val queue pllData output
        = (1, queue, mkPLLData (freq pllData) 0, mkSequence s sp (atIndex output))
        /\ 0 <= s <= 254
        /\ (tickInNS <= 3000 -> s = 0)
        /\ (3000 < tickInNS ->
            2000 * (s + 2) - 1000 < tickInNS <= 2000 * (s + 2) + 1000)
        /\ sp = tickInNS * 100 / ((s + 2) * 2000)
        /\ 50 <= sp <= 125
        /\ (3000 < tickInNS -> 75 <= sp)).
Proof.
  intros tickInNS. split.
  - intros L. unfold accumulateTicks. cbv zeta. cbn [freq ticks]. fold tickInNS.
    unfold BITCELL_SIZE_IN_NS. destruct (Z.gtb_spec tickInNS 2000); [lia | reflexivity].
  - apply accumulateTicks_cells.
Qed.

Lemma pll_rounds_to_nearest_cell_witness :
  accumulateTicks 100 [] (mkPLLData 72000000 0) (mkSequence 0 0 false)
  = (0, [], mkPLLData 72000000 100, mkSequence 0 0 false)
  /\ exists s sp,
       accumulateTicks 440 [] (mkPLLData 72000000 0) (mkSequence 0 0 false)
       = (1, [], mkPLLData 72000000 0, mkSequence s sp false)
       /\ 2000 * (s + 2) - 1000 < 6111 <= 2000 * (s + 2) + 1000.
Proof.
  pose proof (pll_rounds_to_nearest_cell 100 [] (mkPLLData 72000000 0)
                (mkSequence 0 0 false)) as [H1 _].
  pose proof (pll_rounds_to_nearest_cell 440 [] (mkPLLData 72000000 0)
                (mkSequence 0 0 false)) as [_ H2].
  split.
  - apply H1. vm_compute. discriminate.
  - destruct H2 as (s & sp & E & _ & _ & Hr & _).
    + vm_compute. split; [reflexivity | discriminate].
    + exists s, sp. split; [exact E |]. apply Hr. vm_compute. reflexivity.
Defined.

(** X21.  What the encoder writes, the decoder reads back as the same number
    of cells.  For a sample frequency from 2 MHz to 1 GHz and an encoder
    whose carried precompensation is within 140 ns, the interval of one pass
    of the loop of [writeCurrentTrackPrecomp], with or without
    precompensation, converted to ticks as the encoder does and handed to
    the decoder with no ticks pending, is decoded as the sequence
    [count - 2], where [count] is the number of bits scanned up to the next
    1, limited to 2..5, at a speed between 75 and 125 percent; and the
    precompensation carried on stays within 140 ns. *)
Theorem written_interval_reads_back (usePrecomp : bool) (sample_freq nfa_thresh : Z)
    (mfmData : Z -> Z) (numBytes : Z) (e : Encoder) (outputBuffer queue : list Z)
    (output : Sequence) :
  2000000 <= sample_freq <= 1000000000 ->
  -140 <= extraTimeFromPrevious e <= 140 ->
  let scanned :=
    snd (ArduinoInterface.scanToOne (ArduinoInterface.scanFuel numBytes (pos e)) mfmData
           numBytes (pos e) (bit e) (sequenceBits e) 0) in
  let count := Z.min 5 (Z.max 2 scanned) in
  let e' := fst (fst (encodeInterval usePrecomp sample_freq nfa_thresh mfmData numBytes e
                        outputBuffer)) in
  let timeInNS := snd (encodeInterval usePrecomp sample_freq nfa_thresh mfmData numBytes e
                         outputBuffer) in
  -140 <= extraTimeFromPrevious e' <= 140
  /\ exists sp,
       accumulateTicks (nSecToTicks timeInNS (to_int32 sample_freq)) queue
         (mkPLLData sample_freq 0) output
       = (1, queue, mkPLLData sample_freq 0, mkSequence (count - 2) sp (atIndex output))
       /\ 75 <= sp <= 125.
Proof.
  intros Hf Hx scanned count e' timeInNS.
  assert (Hf32 : to_int32 sample_freq = sample_freq) by (apply int32_of_small; lia).
  assert (Htime : -140 <= extraTimeFromPrevious e' <= 140
                  /\ count * 2000 - 280 <= timeInNS <= count * 2000 + 280).
  { unfold e', timeInNS, count, scanned, encodeInterval.
    destruct (ArduinoInterface.scanToOne _ mfmData numBytes (pos e) (bit e) (sequenceBits e) 0)
      as [[[p b] sq] c].
    cbn [snd]. cbv zeta.
    assert (Hc : (if (if c <? 2 then 2 else c) >? 5 then 5 else (if c <? 2 then 2 else c))
                 = Z.min 5 (Z.max 2 c)).
    { destruct (Z.ltb_spec c 2); [destruct (Z.gtb_spec 2 5) | destruct (Z.gtb_spec c 5)];
        lia. }
    rewrite Hc. unfold applyPrecomp, precompTime.
    destruct usePrecomp; [destruct (_ || _); [| destruct (_ || _)] |];
      cbn [fst snd extraTimeFromPrevious]; lia. }
  destruct Htime as [He' Ht]. split; [exact He' |].
  assert (Hcount : 2 <= count <= 5) by (unfold count; lia).
  clearbody timeInNS count. clear e' He' scanned.
  rewrite Hf32.
  destruct (ticks_of_time_back timeInNS sample_freq ltac:(lia) ltac:(lia)) as (B1 & B2 & B3).
  set (val := nSecToTicks timeInNS sample_freq) in *.
  pose proof (accumulateTicks_cells val queue (mkPLLData sample_freq 0) output) as H.
  cbv zeta in H. cbn [freq ticks] in H. rewrite Hf32 in H. cbn [Z.add] in H.
  set (T := ticksToNSec val sample_freq) in *.
  assert (HT : timeInNS - 501 < T) by nia.
  destruct H as (s & sp & E & Hs & _ & Hr & _ & Hsp & Hsp75); [lia |].
  specialize (Hr ltac:(lia)). specialize (Hsp75 ltac:(lia)).
  assert (Es : s = count - 2) by lia. subst s.
  exists sp. split; [exact E | lia].
Qed.

Lemma written_interval_reads_back_witness :
  let e := mkEncoder 0 7 0xAA 0 in
  exists sp,
    accumulateTicks
      (nSecToTicks
         (snd (encodeInterval true 72000000 10800 Scenario.someTrackData 4 e []))
         (to_int32 72000000))
      [] (mkPLLData 72000000 0) (mkSequence 0 0 false)
    = (1, [], mkPLLData 72000000 0,
       mkSequence
         (Z.min 5
            (Z.max 2
               (snd (ArduinoInterface.scanToOne (ArduinoInterface.scanFuel 4 0)
                       Scenario.someTrackData 4 0 7 0xAA 0))) - 2)
         sp false)
    /\ 75 <= sp <= 125.
Proof.
  intros e.
  exact (proj2 (written_interval_reads_back true 72000000 10800 Scenario.someTrackData 4 e
                  [] [] (mkSequence 0 0 false) ltac:(lia) ltac:(cbn; lia))).
Defined.

End PLLProperties.

(** *** From the chunks of the stream to the bits the emulator reads *)

Module ReadPathProperties.

Import ArduinoFloppyBridge.
Import Notions.
Import StreamNotions.
Import ThreadNotions.
Import ReadPathNotions.
Import BridgeTactics.
Import StreamProperties.
Import FlushProperties.
Import DiskProperties.
Import ServedProperties.
Import BufferProperties.

Lemma bitOf_testbit (c : MFMCache) (mfmPositionByte mfmPositionBit : Z) :
  0 <= mfmPositionBit ->
  bitOf c mfmPositionByte mfmPositionBit
  = Z.testbit (mfmData (mfmBuffer c mfmPositionByte)) mfmPositionBit.
Proof.
  intros Hb. unfold bitOf. set (x := mfmData (mfmBuffer c mfmPositionByte)).
  rewrite Z.shiftl_1_l.
  destruct (Z.testbit x mfmPositionBit) eqn:T.
  - destruct (Z.eqb_spec (Z.land x (2 ^ mfmPositionBit)) 0) as [E | E]; [| reflexivity].
    assert (T2 : Z.testbit (Z.land x (2 ^ mfmPositionBit)) mfmPositionBit = true)
      by (rewrite Z.land_spec, T, Z.pow2_bits_true by lia; reflexivity).
    rewrite E, Z.bits_0 in T2. discriminate T2.
  - assert (E : Z.land x (2 ^ mfmPositionBit) = 0).
    { apply Z.bits_inj'. intros n Hn. rewrite Z.land_spec, Z.bits_0, Z.pow2_bits_eqb by lia.
      destruct (Z.eqb_spec mfmPositionBit n) as [<- | Hne];
        [rewrite T; reflexivity | apply andb_false_r]. }
    rewrite E. reflexivity.
Qed.

Lemma nth_map_seq {A : Type} (f : nat -> A) (n k : nat) (d : A) :
  (k < n)%nat -> nth k (map f (seq 0 n)) d = f k.
Proof.
  intros Hk. rewrite (nth_indep _ d (f 0%nat)) by (rewrite length_map, length_seq; exact Hk).
  rewrite (map_nth f), seq_nth by exact Hk. reflexivity.
Qed.

Lemma nth_sampleCells (s : MFMSample) (k : nat) (d : Cell) :
  (k < 8)%nat ->
  nth k (sampleCells s 8) d
  = (Z.testbit (mfmData s) (7 - Z.of_nat k), speed s (7 - Z.of_nat k)).
Proof.
  intros Hk. unfold sampleCells. change (Z.to_nat 8) with 8%nat.
  rewrite nth_map_seq by exact Hk.
  replace (8 - 1 - Z.of_nat k) with (7 - Z.of_nat k) by lia. reflexivity.
Qed.

Lemma nth_samplesCells (buffer : Z -> MFMSample) (d : Cell) (n : nat) :
  forall p : Z,
    0 <= p < 8 * Z.of_nat n ->
    nth (Z.to_nat p) (samplesCells buffer 0 n) d
    = (Z.testbit (mfmData (buffer (p / 8))) (7 - p mod 8),
       speed (buffer (p / 8)) (7 - p mod 8)).
Proof.
  induction n as [| n IH]; intros p Hp; [lia |].
  rewrite samplesCells_snoc.
  pose proof (Z.div_mod p 8 ltac:(lia)) as Hdm.
  pose proof (Z.mod_pos_bound p 8 ltac:(lia)) as Hm.
  destruct (Z_lt_ge_dec p (8 * Z.of_nat n)) as [L | G].
  - rewrite app_nth1 by (rewrite length_samplesCells; lia). apply IH. lia.
  - rewrite app_nth2 by (rewrite length_samplesCells; lia).
    rewrite length_samplesCells.
    assert (Eq : p / 8 = Z.of_nat n) by lia.
    rewrite nth_sampleCells by lia. rewrite Eq.
    replace (Z.of_nat (Z.to_nat p - 8 * n)) with (p mod 8) by lia. reflexivity.
Qed.

(** What the bridge reads at a position is the cell of that number. *)
Lemma cellAt_nth (c : MFMCache) (d : Cell) (n : nat) (p : Z) :
  0 <= p < 8 * Z.of_nat n ->
  cellAt c p = nth (Z.to_nat p) (samplesCells (mfmBuffer c) 0 n) d.
Proof.
  intros Hp. rewrite nth_samplesCells by exact Hp. unfold cellAt.
  rewrite land_7, Z.shiftr_div_pow2 by lia. change (2 ^ 3) with 8.
  pose proof (Z.mod_pos_bound p 8 ltac:(lia)) as Hm.
  rewrite bitOf_testbit by lia. reflexivity.
Qed.

Lemma length_chunkCells (chunk : StreamChunk) :
  0 <= dataLengthInBits chunk ->
  Z.of_nat (length (chunkCells chunk)) = dataLengthInBits chunk.
Proof.
  intros H. unfold chunkCells.
  pose proof (Z.div_mod (dataLengthInBits chunk) 8 ltac:(lia)) as Hdm.
  pose proof (Z.mod_pos_bound (dataLengthInBits chunk) 8 ltac:(lia)) as Hm.
  assert (Hq : 0 <= dataLengthInBits chunk / 8) by (apply Z.div_pos; lia).
  rewrite length_app, length_samplesCells, length_firstn, length_sampleCells.
  change (Z.to_nat 8) with 8%nat. lia.
Qed.

(** The bits of a buffer after the copy of a chunk at sample [t]. *)
Lemma cells_after_copy (buffer : Z -> MFMSample) (t : Z) (chunk : StreamChunk) :
  0 <= t -> 0 <= dataLengthInBits chunk ->
  let lengthInBytes := if negb (dataLengthInBits chunk mod 8 =? 0)
                       then dataLengthInBits chunk / 8 + 1
                       else dataLengthInBits chunk / 8 in
  firstn (Z.to_nat (8 * t + dataLengthInBits chunk))
    (samplesCells (memcpy buffer t (chunkData chunk) lengthInBytes) 0
       (Z.to_nat (t + lengthInBytes)))
  = samplesCells buffer 0 (Z.to_nat t) ++ chunkCells chunk.
Proof.
  intros Ht Hbits lengthInBytes.
  pose proof (Z.div_mod (dataLengthInBits chunk) 8 ltac:(lia)) as Hdm.
  pose proof (Z.mod_pos_bound (dataLengthInBits chunk) 8 ltac:(lia)) as Hm.
  assert (Hq : 0 <= dataLengthInBits chunk / 8) by (apply Z.div_pos; lia).
  assert (Hlen : dataLengthInBits chunk / 8 <= lengthInBytes)
    by (unfold lengthInBytes; destruct (negb _); lia).
  replace (Z.to_nat (t + lengthInBytes)) with (Z.to_nat t + Z.to_nat lengthInBytes)%nat
    by lia.
  rewrite samplesCells_app.
  rewrite (samplesCells_ext (memcpy buffer t (chunkData chunk) lengthInBytes) buffer 0 0
             (Z.to_nat t)).
  2: { intros i Hi. unfold memcpy. destruct (Z.leb_spec t (0 + i)); [lia | reflexivity]. }
  rewrite (samplesCells_ext (memcpy buffer t (chunkData chunk) lengthInBytes)
             (chunkData chunk) (0 + Z.of_nat (Z.to_nat t)) 0 (Z.to_nat lengthInBytes)).
  2: { intros i Hi. unfold memcpy.
       destruct (Z.leb_spec t (0 + Z.of_nat (Z.to_nat t) + i)); [| lia].
       destruct (Z.ltb_spec (0 + Z.of_nat (Z.to_nat t) + i) (t + lengthInBytes)); [| lia].
       cbn [andb]. f_equal. lia. }
  rewrite firstn_app, length_samplesCells.
  rewrite firstn_all2 by (rewrite length_samplesCells; lia).
  f_equal.
  replace (Z.to_nat (8 * t + dataLengthInBits chunk) - 8 * Z.to_nat t)%nat
    with (Z.to_nat (dataLengthInBits chunk)) by lia.
  unfold chunkCells, lengthInBytes.
  destruct (Z.eqb_spec (dataLengthInBits chunk mod 8) 0) as [E | E]; cbn [negb].
  - rewrite E. change (Z.to_nat 0) with 0%nat. cbn [firstn]. rewrite app_nil_r.
    apply firstn_all2. rewrite length_samplesCells. lia.
  - replace (Z.to_nat (dataLengthInBits chunk / 8 + 1))
      with (S (Z.to_nat (dataLengthInBits chunk / 8))) by lia.
    rewrite samplesCells_snoc, firstn_app, length_samplesCells.
    rewrite firstn_all2 by (rewrite length_samplesCells; lia).
    f_equal. rewrite Z.add_0_l, Z2Nat.id by lia. f_equal. lia.
Qed.

Lemma chunksBits_app (a b : list StreamChunk) :
  chunksBits (a ++ b) = chunksBits a + chunksBits b.
Proof.
  unfold chunksBits. induction a as [| c a IH]; cbn [app fold_right]; lia.
Qed.

(** The callback when no command waits and the chunk fits: the samples are
    copied, the bits counted, and at the end of a revolution the buffer is
    handed to [saveNextBuffer]. *)
Lemma streamCallback_copy (chunk : StreamChunk) (st : Bridge) (t : Z) (cells : list Cell) :
  Filling t cells st -> 0 <= dataLengthInBits chunk ->
  8 * t + dataLengthInBits chunk < 8 * ARD_MFM_BUFFER_MAX_TRACK_LENGTH ->
  let cyl := m_actualCurrentCylinder st in
  let s := m_actualFloppySide st in
  let e := cacheAt st cyl s in
  let lengthInBytes := if negb (dataLengthInBits chunk mod 8 =? 0)
                       then dataLengthInBits chunk / 8 + 1
                       else dataLengthInBits chunk / 8 in
  let nx := set_amountReadInBits (8 * t + dataLengthInBits chunk)
              (set_mfmBuffer (memcpy (mfmBuffer (next e)) t (chunkData chunk) lengthInBytes)
                 (next e)) in
  let st1 := setCacheAt cyl s (set_next nx e) st in
  streamCallback chunk st t
  = if isEndOfRevolution chunk then
      if negb (ready (next (cacheAt (saveNextBuffer cyl s st1) cyl s)))
      then (saveNextBuffer cyl s st1, 0, true)
      else (saveNextBuffer cyl s st1, 0, false)
    else (st1, t + lengthInBytes, true).
Proof.
  intros (Hq & Ht & Ham & _ & _) Hbits Hfit. cbv zeta.
  pose proof (Z.div_mod (dataLengthInBits chunk) 8 ltac:(lia)) as Hdm.
  pose proof (Z.mod_pos_bound (dataLengthInBits chunk) 8 ltac:(lia)) as Hm.
  assert (Hdiv : 0 <= dataLengthInBits chunk / 8) by (apply Z.div_pos; lia).
  unfold ARD_MFM_BUFFER_MAX_TRACK_LENGTH in Hfit.
  unfold streamCallback. cbv zeta. rewrite Hq. cbn [length Z.of_nat Z.eqb negb].
  rewrite (uint32_of_small (t + dataLengthInBits chunk / 8)) by lia.
  destruct (Z.geb_spec (t + dataLengthInBits chunk / 8) ARD_MFM_BUFFER_MAX_TRACK_LENGTH)
    as [G | G]; [unfold ARD_MFM_BUFFER_MAX_TRACK_LENGTH in G; lia |].
  rewrite (int32_of_small (dataLengthInBits chunk / 8)) by lia.
  rewrite land_7.
  set (lengthInBytes := if negb (dataLengthInBits chunk mod 8 =? 0)
                        then dataLengthInBits chunk / 8 + 1
                        else dataLengthInBits chunk / 8).
  assert (Hlen : dataLengthInBits chunk / 8 <= lengthInBytes <= dataLengthInBits chunk / 8 + 1)
    by (unfold lengthInBytes; destruct (negb _); lia).
  cbn [amountReadInBits set_mfmBuffer]. rewrite Ham.
  rewrite (int32_of_small (8 * t + dataLengthInBits chunk)) by lia.
  rewrite (uint32_of_small (t + lengthInBytes)) by lia.
  reflexivity.
Qed.

Lemma streamCallback_whole (chunk : StreamChunk) (st : Bridge) (t : Z) (cells : list Cell) :
  Filling t cells st -> wholeChunk chunk ->
  8 * t + dataLengthInBits chunk < 8 * ARD_MFM_BUFFER_MAX_TRACK_LENGTH ->
  exists st',
    streamCallback chunk st t = (st', t + dataLengthInBits chunk / 8, true)
    /\ cacheWritten st st'
    /\ Filling (t + dataLengthInBits chunk / 8) (cells ++ chunkCells chunk) st'.
Proof.
  intros HF (Heor & Hbits & Hmod) Hfit.
  pose proof (streamCallback_copy chunk st t cells HF Hbits Hfit) as E. cbv zeta in E.
  destruct HF as (Hq & Ht & Ham & Hcells & Hcur).
  pose proof (cells_after_copy
                (mfmBuffer (next (cacheAt st (m_actualCurrentCylinder st)
                                    (m_actualFloppySide st))))
                t chunk Ht Hbits) as Hcopy.
  cbv zeta in Hcopy.
  rewrite Heor, Hmod in E. rewrite Hmod in Hcopy. cbn [Z.eqb negb] in E, Hcopy.
  pose proof (Z.div_mod (dataLengthInBits chunk) 8 ltac:(lia)) as Hdm.
  assert (Hdiv : 0 <= dataLengthInBits chunk / 8) by (apply Z.div_pos; lia).
  eexists. split; [exact E |]. split; [apply cacheWritten_setCacheAt |].
  unfold Filling. cbv zeta.
  change (m_actualCurrentCylinder (setCacheAt _ _ _ st)) with (m_actualCurrentCylinder st).
  change (m_actualFloppySide (setCacheAt _ _ _ st)) with (m_actualFloppySide st).
  rewrite entry_setCacheAt_here.
  cbn [next set_next current mfmBuffer set_amountReadInBits set_mfmBuffer amountReadInBits].
  split; [exact Hq |]. split; [lia |]. split; [lia |]. split; [| exact Hcur].
  rewrite <- Hcells, <- Hcopy. symmetry. apply firstn_all2.
  rewrite length_samplesCells. lia.
Qed.

(** [saveNextBuffer] on an entry whose [current] is not ready and whose
    [next] holds bits: [next] becomes [current], marked ready. *)
Lemma saveNextBuffer_promotes (c : Z) (s : DiskSurface) (st : Bridge) :
  ready (current (cacheAt st c s)) = false ->
  amountReadInBits (next (cacheAt st c s)) <> 0 ->
  current (cacheAt (saveNextBuffer c s st) c s) = set_ready true (next (cacheAt st c s))
  /\ ready (next (cacheAt (saveNextBuffer c s st) c s)) = false.
Proof.
  intros Hcur Ham.
  assert (Hself : (c =? c) && DiskSurface_eqb s s = true)
    by (rewrite Z.eqb_refl; destruct s; reflexivity).
  unfold saveNextBuffer. cbv zeta.
  rewrite (proj2 (Z.eqb_neq _ _) Ham). cbn [negb].
  rewrite !entry_setCacheAt_here.
  cbn [next set_next set_ready ready current negb]. rewrite Hcur. cbn [negb].
  unfold internalSwitchCylinder. rewrite entry_setCacheAt_here.
  cbn [next set_next set_ready ready]. cbv zeta.
  match goal with
  | |- context [if ?b then set_m_readBufferAvailable true _ else _] => destruct b
  end; unfold cacheAt, setCacheAt; members; rewrite ?Hself; split; reflexivity.
Qed.

Lemma streamCallback_last (chunk : StreamChunk) (st : Bridge) (t : Z) (cells : list Cell) :
  Filling t cells st -> isEndOfRevolution chunk = true -> 0 <= dataLengthInBits chunk ->
  8 * t + dataLengthInBits chunk < 8 * ARD_MFM_BUFFER_MAX_TRACK_LENGTH ->
  0 < 8 * t + dataLengthInBits chunk ->
  exists st',
    streamCallback chunk st t = (st', 0, true)
    /\ cacheWritten st st'
    /\ ready (current (cacheAt st' (m_actualCurrentCylinder st) (m_actualFloppySide st)))
       = true
    /\ amountReadInBits
         (current (cacheAt st' (m_actualCurrentCylinder st) (m_actualFloppySide st)))
       = 8 * t + dataLengthInBits chunk
    /\ forall (p : Z) (d : Cell),
         0 <= p < 8 * t + dataLengthInBits chunk ->
         cellAt (current (cacheAt st' (m_actualCurrentCylinder st) (m_actualFloppySide st)))
           p
         = nth (Z.to_nat p) (cells ++ chunkCells chunk) d.
Proof.
  intros HF Heor Hbits Hfit Hsome.
  pose proof (streamCallback_copy chunk st t cells HF Hbits Hfit) as E. cbv zeta in E.
  destruct HF as (Hq & Ht & Ham & Hcells & Hcur).
  pose proof (cells_after_copy
                (mfmBuffer (next (cacheAt st (m_actualCurrentCylinder st)
                                    (m_actualFloppySide st))))
                t chunk Ht Hbits) as Hcopy.
  cbv zeta in Hcopy. rewrite Hcells in Hcopy.
  rewrite Heor in E.
  set (cyl := m_actualCurrentCylinder st) in *. set (s := m_actualFloppySide st) in *.
  set (lengthInBytes := if negb (dataLengthInBits chunk mod 8 =? 0)
                        then dataLengthInBits chunk / 8 + 1
                        else dataLengthInBits chunk / 8) in *.
  set (nx := set_amountReadInBits _ _) in E.
  set (st1 := setCacheAt cyl s _ st) in E.
  assert (E1 : cacheAt st1 cyl s = set_next nx (cacheAt st cyl s))
    by (unfold st1; apply entry_setCacheAt_here).
  destruct (saveNextBuffer_promotes cyl s st1) as [P1 P2].
  { rewrite E1. exact Hcur. }
  { rewrite E1. unfold nx, set_amountReadInBits. cbn [next set_next amountReadInBits]. lia. }
  rewrite P2 in E. cbn [negb] in E. rewrite E1 in P1. cbn [next set_next] in P1.
  exists (saveNextBuffer cyl s st1). split; [exact E |]. split.
  { eapply cacheWritten_trans; [| apply cacheWritten_saveNextBuffer].
    apply cacheWritten_setCacheAt. }
  rewrite P1. split; [reflexivity |]. split; [reflexivity |].
  intros p d Hp.
  pose proof (Z.div_mod (dataLengthInBits chunk) 8 ltac:(lia)) as Hdm.
  pose proof (Z.mod_pos_bound (dataLengthInBits chunk) 8 ltac:(lia)) as Hm.
  assert (Hlen : 8 * (t + lengthInBytes) >= 8 * t + dataLengthInBits chunk /\ 0 <= lengthInBytes).
  { unfold lengthInBytes.
    destruct (Z.eqb_spec (dataLengthInBits chunk mod 8) 0); cbn [negb]; lia. }
  rewrite (cellAt_nth _ d (Z.to_nat (t + lengthInBytes))) by lia.
  rewrite <- Hcopy.
  rewrite nth_firstn.
  replace (Z.to_nat p <? Z.to_nat (8 * t + dataLengthInBits chunk))%nat with true
    by (symmetry; apply Nat.ltb_lt; lia).
  reflexivity.
Qed.

Lemma chunksBits_whole (chunks : list StreamChunk) :
  Forall wholeChunk chunks -> 0 <= chunksBits chunks /\ chunksBits chunks mod 8 = 0.
Proof.
  unfold chunksBits. induction 1 as [| c chunks (_ & Hb & Hm) _ IH]; cbn [fold_right].
  - split; [lia | reflexivity].
  - destruct IH as [I1 I2]. split; [lia |].
    rewrite Z.add_mod, Hm, I2 by lia. reflexivity.
Qed.

Lemma cacheWritten_members (st st' : Bridge) :
  cacheWritten st st' ->
  m_actualCurrentCylinder st' = m_actualCurrentCylinder st
  /\ m_actualFloppySide st' = m_actualFloppySide st
  /\ m_currentTrack st' = m_currentTrack st
  /\ m_floppySide st' = m_floppySide st
  /\ m_diskInDrive st' = m_diskInDrive st
  /\ m_motorIsReady st' = m_motorIsReady st.
Proof. unfold cacheWritten. intros H. rewrite H. repeat split. Qed.

Lemma cacheWritten_checked (st st' : Bridge) (now : Z) :
  cacheWritten st st' ->
  cacheWritten st (set_m_lastDiskCheckTime (m_lastDiskCheckTime st)
                     (set_m_lastDiskCheckTime now st')).
Proof.
  unfold cacheWritten. intros W.
  set (r := m_readBufferAvailable st') in W. set (m := m_mfmRead st') in W.
  clearbody r m. subst st'. reflexivity.
Qed.

Lemma cacheWritten_runStream (now : Z) (events : list StreamEvent) :
  forallb isChunk events = true ->
  forall (st : Bridge) (pos : Z), cacheWritten st (runStream now events st pos).
Proof.
  induction events as [| ev events IH]; intros Hall st pos; cbn [runStream];
    [apply cacheWritten_refl |].
  cbn [forallb] in Hall. apply andb_prop in Hall. destruct Hall as [Hev Hall].
  destruct ev as [chunk | c]; [| discriminate].
  pose proof (cacheWritten_streamCallback chunk st pos) as K.
  destruct (streamCallback chunk st pos) as [[st' pos'] more]. cbn [fst] in K.
  destruct more; [| exact K].
  eapply cacheWritten_trans; [exact K | apply IH, Hall].
Qed.

Lemma forallb_isChunk (chunks : list StreamChunk) :
  forallb isChunk (map seChunk chunks) = true.
Proof. induction chunks as [| c chunks IH]; [reflexivity | exact IH]. Qed.

(** The whole chunks of a revolution, one after the other. *)
Lemma runStream_whole (now : Z) (rest : list StreamEvent) (chunks : list StreamChunk) :
  Forall wholeChunk chunks ->
  forall (st : Bridge) (t : Z) (cells : list Cell),
    Filling t cells st ->
    8 * t + chunksBits chunks < 8 * ARD_MFM_BUFFER_MAX_TRACK_LENGTH ->
    exists st',
      runStream now (map seChunk chunks ++ rest) st t
      = runStream now rest st' (t + chunksBits chunks / 8)
      /\ cacheWritten st st'
      /\ Filling (t + chunksBits chunks / 8) (cells ++ chunksCells chunks) st'.
Proof.
  induction 1 as [| c chunks Hc Hall IH]; intros st t cells HF Hfit.
  - exists st. cbn [map app]. change (chunksBits []) with 0. change (chunksCells []) with (@nil Cell).
    rewrite Z.add_0_r, app_nil_r. split; [reflexivity |].
    split; [apply cacheWritten_refl | exact HF].
  - destruct (chunksBits_whole chunks Hall) as [Hn Hm].
    pose proof Hc as (_ & Hb & Hcm).
    change (chunksBits (c :: chunks)) with (dataLengthInBits c + chunksBits chunks) in *.
    pose proof (Z.div_mod (dataLengthInBits c) 8 ltac:(lia)) as D1.
    pose proof (Z.div_mod (chunksBits chunks) 8 ltac:(lia)) as D2.
    pose proof (Z.div_mod (dataLengthInBits c + chunksBits chunks) 8 ltac:(lia)) as D3.
    pose proof (Z.mod_pos_bound (dataLengthInBits c + chunksBits chunks) 8 ltac:(lia)) as B3.
    destruct (streamCallback_whole c st t cells HF Hc ltac:(lia)) as (st1 & E1 & W1 & F1).
    destruct (IH st1 (t + dataLengthInBits c / 8) (cells ++ chunkCells c) F1 ltac:(lia))
      as (st2 & E2 & W2 & F2).
    exists st2. cbn [map app runStream]. rewrite E1, E2.
    replace (t + dataLengthInBits c / 8 + chunksBits chunks / 8)
      with (t + (dataLengthInBits c + chunksBits chunks) / 8) in * by lia.
    split; [reflexivity |]. split; [eapply cacheWritten_trans; eassumption |].
    change (chunksCells (c :: chunks)) with (chunkCells c ++ chunksCells chunks).
    rewrite app_assoc. exact F2.
Qed.

(** A revolution captured by a background read, as the cache holds it. *)
Lemma handleBackgroundDiskRead_captures (now : Z) (io : DeviceAnswers) (st : Bridge)
    (chunks : list StreamChunk) (last : StreamChunk) (more : list StreamChunk) :
  isReady st = true -> m_queue st = [] ->
  ready (next (cacheAt st (m_actualCurrentCylinder st) (m_actualFloppySide st))) = false ->
  ready (current (cacheAt st (m_actualCurrentCylinder st) (m_actualFloppySide st))) = false ->
  stream io = map seChunk (chunks ++ last :: more) -> streamNoDisk io = false ->
  Forall wholeChunk chunks ->
  isEndOfRevolution last = true -> 0 <= dataLengthInBits last ->
  0 < chunksBits (chunks ++ [last]) < 8 * ARD_MFM_BUFFER_MAX_TRACK_LENGTH ->
  let st' := handleBackgroundDiskRead now io st in
  let c := current (cacheAt st' (m_actualCurrentCylinder st) (m_actualFloppySide st)) in
  cacheWritten st (set_m_lastDiskCheckTime (m_lastDiskCheckTime st) st')
  /\ ready c = true
  /\ amountReadInBits c = chunksBits (chunks ++ [last])
  /\ forall (p : Z) (d : Cell),
       0 <= p < chunksBits (chunks ++ [last]) ->
       cellAt c p = nth (Z.to_nat p) (chunksCells (chunks ++ [last])) d.
Proof.
  intros Hready Hq Hnext Hcur Hstream Hno Hall Heor Hbits Htotal.
  destruct (chunksBits_whole chunks Hall) as [Hn Hm].
  rewrite chunksBits_app in Htotal |- *.
  change (chunksBits [last]) with (dataLengthInBits last + 0) in *.
  pose proof (Z.div_mod (chunksBits chunks) 8 ltac:(lia)) as D.
  cbv zeta. unfold handleBackgroundDiskRead. rewrite Hready, Hnext. cbn [negb]. cbv zeta.
  rewrite Hstream, Hno, map_app. cbn [map].
  set (cyl := m_actualCurrentCylinder st) in *. set (s := m_actualFloppySide st) in *.
  set (st1 := setCacheAt cyl s _ st).
  assert (W1 : cacheWritten st st1) by apply cacheWritten_setCacheAt.
  assert (F1 : Filling 0 [] st1).
  { unfold Filling. cbv zeta.
    change (m_actualCurrentCylinder st1) with cyl. change (m_actualFloppySide st1) with s.
    unfold st1. rewrite entry_setCacheAt_here.
    cbn [next set_next current set_ready set_amountReadInBits amountReadInBits mfmBuffer].
    repeat split; try assumption; lia. }
  assert (A1 : m_actualCurrentCylinder st1 = cyl /\ m_actualFloppySide st1 = s)
    by (split; reflexivity).
  clearbody st1.
  destruct (runStream_whole now (seChunk last :: map seChunk more) chunks Hall st1 0 []
              F1 ltac:(lia)) as (st2 & E2 & W2 & F2).
  rewrite E2. cbn [runStream app] in *. rewrite Z.add_0_l in *.
  destruct (cacheWritten_members st1 st2 W2) as (B1 & B2 & _).
  destruct (streamCallback_last last st2 (chunksBits chunks / 8) (chunksCells chunks) F2
              Heor Hbits ltac:(lia) ltac:(lia)) as (st3 & E3 & W3 & R3 & M3 & C3).
  rewrite E3. rewrite B1, B2 in R3, M3, C3. destruct A1 as [A1 A2]. rewrite A1, A2 in R3, M3, C3.
  pose proof (servedKept_runStream now (map seChunk more) (forallb_isChunk more) st3 0
                cyl s R3) as K4.
  pose proof (cacheWritten_runStream now (map seChunk more) (forallb_isChunk more) st3 0)
    as W4.
  set (st4 := runStream now (map seChunk more) st3 0) in *. clearbody st4.
  assert (W : cacheWritten st st4).
  { eapply cacheWritten_trans; [exact W1 |]. eapply cacheWritten_trans; [exact W2 |].
    eapply cacheWritten_trans; eassumption. }
  assert (G4 : cacheWritten st (set_m_lastDiskCheckTime (m_lastDiskCheckTime st)
                                   (set_m_lastDiskCheckTime now st4)))
    by (apply cacheWritten_checked, W).
  set (st5 := setCacheAt cyl s
                (set_next (set_amountReadInBits 0 (next (cacheAt st4 cyl s)))
                   (cacheAt st4 cyl s)) st4).
  assert (G5 : cacheWritten st (set_m_lastDiskCheckTime (m_lastDiskCheckTime st)
                                   (set_m_lastDiskCheckTime now st5))).
  { apply cacheWritten_checked. eapply cacheWritten_trans; [exact W |].
    apply cacheWritten_setCacheAt. }
  assert (K5 : current (cacheAt (set_m_lastDiskCheckTime now st5) cyl s)
               = current (cacheAt st3 cyl s)).
  { rewrite <- K4. change (cacheAt (set_m_lastDiskCheckTime now st5) cyl s)
      with (cacheAt st5 cyl s).
    unfold st5. rewrite entry_setCacheAt_here. reflexivity. }
  clearbody st5.
  assert (Hcells : forall (p : Z) (d : Cell),
             0 <= p < chunksBits chunks + (dataLengthInBits last + 0) ->
             cellAt (current (cacheAt st3 cyl s)) p
             = nth (Z.to_nat p) (chunksCells (chunks ++ [last])) d).
  { intros p d Hp. rewrite (C3 p d) by lia.
    rewrite chunksCells_app, chunksCells_one. reflexivity. }
  destruct (negb (ready (next (cacheAt st4 cyl s)))).
  - split; [exact G5 |]. rewrite K5. split; [exact R3 |]. split; [lia | exact Hcells].
  - split; [exact G4 |].
    change (cacheAt (set_m_lastDiskCheckTime now st4) cyl s) with (cacheAt st4 cyl s).
    rewrite K4. split; [exact R3 |]. split; [lia | exact Hcells].
Qed.

Lemma length_chunksCells (chunks : list StreamChunk) :
  Forall (fun c => 0 <= dataLengthInBits c) chunks ->
  Z.of_nat (length (chunksCells chunks)) = chunksBits chunks.
Proof.
  induction 1 as [| c chunks Hb _ IH]; [reflexivity |].
  change (chunksCells (c :: chunks)) with (chunkCells c ++ chunksCells chunks).
  change (chunksBits (c :: chunks)) with (dataLengthInBits c + chunksBits chunks).
  rewrite length_app, Nat2Z.inj_add, length_chunkCells by exact Hb. lia.
Qed.

Lemma limitedSpeed_clamps (c : MFMCache) (mfmPositionByte mfmPositionBit : Z) :
  limitedSpeed c mfmPositionByte mfmPositionBit
  = Z.min 3000 (Z.max 700 (10 * speed (mfmBuffer c mfmPositionByte) mfmPositionBit)).
Proof.
  unfold limitedSpeed. cbv zeta.
  set (v := 10 * speed (mfmBuffer c mfmPositionByte) mfmPositionBit).
  destruct (Z.ltb_spec v 700); [destruct (Z.gtb_spec 700 3000) | destruct (Z.gtb_spec v 3000)];
    lia.
Qed.

(** X22.  What the emulator reads is what the device delivered.  The motor
    is ready, no command waits, a disk is in the drive, the head is on the
    track the emulator is on and neither buffer of that track is ready.  A
    background read in which the device delivers a revolution, as chunks of
    whole samples followed by the chunk that ends the revolution (and
    whatever chunks after it), of at least one bit and less than the buffer
    holds, makes that revolution the track served: [maxMFMBitPosition] is the
    number of bits delivered, and for every position below it [getMFMBit]
    returns the bit of that number in the chunks, in the order delivered, and
    [getMFMSpeed] ten times the speed delivered with it, limited to
    700..3000. *)
Theorem revolution_read_is_revolution_served (now now' : Z) (io : DeviceAnswers)
    (st : Bridge) (chunks : list StreamChunk) (last : StreamChunk)
    (more : list StreamChunk) (later : Z -> MFMCaches) :
  isReady st = true -> m_queue st = [] -> m_diskInDrive st = true ->
  m_currentTrack st = m_actualCurrentCylinder st ->
  m_floppySide st = m_actualFloppySide st ->
  ready (next (activeCache st)) = false -> ready (current (activeCache st)) = false ->
  stream io = map seChunk (chunks ++ last :: more) -> streamNoDisk io = false ->
  Forall wholeChunk chunks ->
  isEndOfRevolution last = true -> 0 <= dataLengthInBits last ->
  0 < chunksBits (chunks ++ [last]) < 8 * ARD_MFM_BUFFER_MAX_TRACK_LENGTH ->
  let st' := handleBackgroundDiskRead now io st in
  let cells := chunksCells (chunks ++ [last]) in
  maxMFMBitPosition st' = chunksBits (chunks ++ [last])
  /\ Z.of_nat (length cells) = chunksBits (chunks ++ [last])
  /\ forall mfmPositionBits : Z,
       0 <= mfmPositionBits < chunksBits (chunks ++ [last]) ->
       getMFMBit now' st' later mfmPositionBits
       = fst (nth (Z.to_nat mfmPositionBits) cells (false, 0))
       /\ getMFMSpeed now' st' mfmPositionBits
          = Z.min 3000
              (Z.max 700 (10 * snd (nth (Z.to_nat mfmPositionBits) cells (false, 0)))).
Proof.
  intros Hready Hq Hdisk Htrack Hside Hnext Hcur Hstream Hno Hall Heor Hbits Htotal st' cells.
  unfold activeCache in Hnext, Hcur. rewrite Htrack, Hside in Hnext, Hcur.
  destruct (handleBackgroundDiskRead_captures now io st chunks last more Hready Hq Hnext
              Hcur Hstream Hno Hall Heor Hbits Htotal) as (W & R & A & C).
  fold st' in W, R, A, C.
  destruct (cacheWritten_members _ _ W) as (M1 & M2 & M3 & M4 & M5 & M6).
  change (m_currentTrack (set_m_lastDiskCheckTime _ st')) with (m_currentTrack st') in M3.
  change (m_floppySide (set_m_lastDiskCheckTime _ st')) with (m_floppySide st') in M4.
  change (m_diskInDrive (set_m_lastDiskCheckTime _ st')) with (m_diskInDrive st') in M5.
  change (m_motorIsReady (set_m_lastDiskCheckTime _ st')) with (m_motorIsReady st') in M6.
  assert (Hmotor : m_motorIsReady st = true)
    by (unfold isReady in Hready; apply andb_prop in Hready; exact (proj1 Hready)).
  assert (Eactive : activeCache st'
                    = cacheAt st' (m_actualCurrentCylinder st) (m_actualFloppySide st))
    by (unfold activeCache; rewrite M3, M4, Htrack, Hside; reflexivity).
  clearbody st'.
  split; [| split].
  - unfold maxMFMBitPosition. rewrite Eactive, R. exact A.
  - apply length_chunksCells. apply Forall_app. split; [| repeat constructor; exact Hbits].
    eapply Forall_impl; [| exact Hall]. intros c (_ & Hb & _). exact Hb.
  - intros p Hp. specialize (C p (false, 0) Hp). fold cells in C.
    unfold getMFMBit, getMFMSpeed. rewrite M5, M6, Hdisk, Hmotor. cbn [negb orb]. cbv zeta.
    rewrite Eactive, R, limitedSpeed_clamps. rewrite <- C. split; reflexivity.
Qed.

Lemma revolution_read_is_revolution_served_witness :
  let st := run (firstn 3 Scenario.readShortRevolution) Scenario.started in
  let st' := handleBackgroundDiskRead 801 Scenario.shortRevolution st in
  maxMFMBitPosition st' = 1024
  /\ getMFMBit 2000 st' (fun _ => activeCache st') 8 = true
  /\ getMFMSpeed 2000 st' 8 = 1200.
Proof.
  intros st st'.
  pose (chunk := mkStreamChunk Scenario.someSamples 1024 false).
  pose (last := mkStreamChunk Scenario.someSamples 0 true).
  assert (Hall : Forall wholeChunk [chunk])
    by (repeat constructor; cbn; lia).
  destruct (revolution_read_is_revolution_served 801 2000 Scenario.shortRevolution st
              [chunk] last [] (fun _ => activeCache st'))
    as (H1 & _ & H2); try (vm_compute; reflexivity); try exact Hall.
  - vm_compute. discriminate.
  - vm_compute. split; reflexivity.
  - split; [exact H1 |]. destruct (H2 8) as [B S].
    + vm_compute. split; [discriminate | reflexivity].
    + split; (etransitivity; [first [exact B | exact S] | vm_compute; reflexivity]).
Defined.

End ReadPathProperties.

(** ** Properties of the read stream of the flux adapter *)

Module GWStreamProperties.

Import GreaseWeazleStream.
Import FlushProperties.

Lemma gw_pushed_value (d v : Z) :
  0 <= v <= 1 -> to_uint8 (Z.lor (to_uint8 (Z.shiftl d 1)) v) = (2 * d + v) mod 256.
Proof.
  intros Hv. unfold to_uint8. rewrite Z.shiftl_mul_pow2 by lia. change (2 ^ 1) with 2.
  assert (E : (d * 2) mod 256 = 2 * (d mod 128)).
  { rewrite (Z.mul_comm d 2). change 256 with (2 * 128).
    rewrite Z.mul_mod_distr_l by lia. reflexivity. }
  rewrite E.
  assert (L : Z.land (2 * (d mod 128)) v = 0).
  { assert (v = 0 \/ v = 1) as [-> | ->] by lia; [apply Z.land_0_r |].
    change 1 with (Z.ones 1). rewrite Z.land_ones by lia. change (2 ^ 1) with 2.
    rewrite Z.mul_comm. apply Z.mod_mul. lia. }
  rewrite <- Z.lxor_lor by exact L. rewrite <- Z.add_nocarry_lxor by exact L.
  rewrite <- E, Z.add_mod_idemp_l by lia. f_equal. lia.
Qed.

Lemma valueOf_congruent (writes : list (Z * Z)) :
  forall x y : Z, x mod 256 = y mod 256 -> valueOf writes x mod 256 = valueOf writes y mod 256.
Proof.
  unfold valueOf. induction writes as [| w writes IH]; intros x y H; cbn [fold_left];
    [exact H |].
  apply IH.
  rewrite (Z.add_mod (2 * x)), (Z.add_mod (2 * y)), (Z.mul_mod 2 x), (Z.mul_mod 2 y), H
    by lia.
  reflexivity.
Qed.

Lemma speedSum_bounds (writes : list (Z * Z)) :
  Forall writeOK writes -> 0 <= speedSum writes <= 8191 * Z.of_nat (length writes).
Proof.
  unfold speedSum. induction 1 as [| w writes [_ Hw] _ IH]; cbn [fold_right length]; lia.
Qed.

(** The bits of one sample, from bit [bit] on. *)
Lemma writeStreamBits_sample (pos maxLength : Z) (writes : list (Z * Z)) :
  0 <= pos < maxLength -> maxLength <= 4294967295 ->
  Forall writeOK writes ->
  forall (output : Z -> GWMfmSample) (bit : Z),
    0 <= bit < 8 -> bit + Z.of_nat (length writes) <= 8 ->
    bit = 0 \/ 0 <= speed (output pos) <= 8191 * bit ->
    let r := writeStreamBits writes output pos bit maxLength in
    (if bit + Z.of_nat (length writes) =? 8
     then snd (fst r) = pos + 1 /\ snd r = 0
     else snd (fst r) = pos /\ snd r = bit + Z.of_nat (length writes))
    /\ (writes <> [] ->
        speed (fst (fst r) pos)
        = (if bit =? 0 then 0 else speed (output pos)) + speedSum writes
        /\ 0 <= mfmData (fst (fst r) pos) < 256)
    /\ mfmData (fst (fst r) pos) mod 256 = valueOf writes (mfmData (output pos)) mod 256
    /\ (forall i, i <> pos -> fst (fst r) i = output i).
Proof.
  intros Hpos Hmax. induction 1 as [| [v s] writes [Hv Hs] Hall IH];
    intros output bit Hbit Hlen Hacc; cbn [writeStreamBits length].
  - cbn [fst snd]. rewrite Z.add_0_r.
    destruct (Z.eqb_spec bit 8) as [-> | Hne]; [lia |]. repeat split; try lia; congruence.
  - cbn [fst snd] in Hv, Hs. cbn [length] in Hlen. rewrite Nat2Z.inj_succ in Hlen |- *.
    unfold writeStreamBit. destruct (Z.geb_spec pos maxLength) as [G | G]; [lia |].
    cbv zeta. rewrite gw_pushed_value by exact Hv.
    rewrite (uint32_of_small (bit + 1)) by lia.
    set (acc := if bit =? 0 then 0 else speed (output pos)).
    assert (Hacc' : 0 <= acc <= 8191 * bit).
    { unfold acc. destruct (Z.eqb_spec bit 0); lia. }
    assert (E16 : to_uint16 (acc + s) = acc + s)
      by (unfold to_uint16; apply Z.mod_small; lia).
    rewrite E16.
    set (o1 := store output pos _).
    assert (S1 : speed (o1 pos) = acc + s)
      by (unfold o1, store; rewrite Z.eqb_refl; reflexivity).
    assert (D1 : mfmData (o1 pos) = (2 * mfmData (output pos) + v) mod 256)
      by (unfold o1, store; rewrite Z.eqb_refl; reflexivity).
    assert (F1 : forall i, i <> pos -> o1 i = output i).
    { intros i Hi. unfold o1, store. destruct (Z.eqb_spec i pos); [contradiction |].
      reflexivity. }
    pose proof (Z.mod_pos_bound (2 * mfmData (output pos) + v) 256 ltac:(lia)) as B1.
    clearbody o1.
    assert (Hval : valueOf ((v, s) :: writes) (mfmData (output pos)) mod 256
                   = valueOf writes (mfmData (o1 pos)) mod 256).
    { unfold valueOf at 1. cbn [fold_left fst]. fold (valueOf writes).
      apply valueOf_congruent. rewrite D1, Z.mod_mod by lia. reflexivity. }
    destruct writes as [| w writes'].
    + cbn [writeStreamBits length Z.of_nat] in *.
      destruct (Z.geb_spec (bit + 1) 8) as [G8 | G8]; cbn [fst snd].
      * rewrite (uint32_of_small (pos + 1)) by lia.
        replace (bit + Z.succ 0 =? 8) with true by (symmetry; apply Z.eqb_eq; lia).
        split; [split; reflexivity |]. split; [intros _; rewrite S1; cbn; lia |].
        split; [rewrite Hval; reflexivity | exact F1].
      * replace (bit + Z.succ 0 =? 8) with false by (symmetry; apply Z.eqb_neq; lia).
        split; [split; [reflexivity | lia] |]. split; [intros _; rewrite S1; cbn; lia |].
        split; [rewrite Hval; reflexivity | exact F1].
    + assert (Hmore : (0 < length (w :: writes'))%nat) by (cbn; lia).
      destruct (Z.geb_spec (bit + 1) 8) as [G8 | G8]; [lia |].
      specialize (IH o1 (bit + 1) ltac:(lia) ltac:(lia) ltac:(right; lia)).
      cbv zeta in IH. destruct IH as (I1 & I2 & I3 & I4).
      replace (bit + 1 + Z.of_nat (length (w :: writes')))
        with (bit + Z.succ (Z.of_nat (length (w :: writes')))) in I1 by lia.
      split; [destruct (_ =? 8); lia |].
      destruct (I2 ltac:(discriminate)) as [I2a I2b].
      split; [intros _; split; [| exact I2b] |].
      * rewrite I2a. replace (bit + 1 =? 0) with false by (symmetry; apply Z.eqb_neq; lia).
        rewrite S1. unfold speedSum. cbn [fold_right snd]. lia.
      * split; [rewrite I3, Hval; reflexivity |].
        intros i Hi. rewrite I4 by exact Hi. apply F1, Hi.
Qed.

Lemma gw_limitedSpeed_clamps (sample : GWMfmSample) :
  0 <= speed sample ->
  limitedSpeed sample = Z.min 3000 (Z.max 700 (10 * speed sample / 8)).
Proof.
  intros H. unfold limitedSpeed. cbv zeta. rewrite Z.quot_div_nonneg by lia.
  set (v := 10 * speed sample / 8).
  destruct (Z.ltb_spec v 700); [destruct (Z.gtb_spec 700 3000) | destruct (Z.gtb_spec v 3000)];
    lia.
Qed.

(** X23.  A sample of the Greaseweazle read stream carries the sum of the
    speeds of its bits, and the bridge reports ten times their mean.  Eight
    calls of [writeStreamBit] from bit 0 of a sample within the buffer, with
    bit values 0 or 1 and speeds up to 8191, fill exactly that sample: its
    [mfmData] holds the bits, the first written most significant, whatever
    the sample held before; its [speed] is the sum of the eight speeds, the
    old value discarded; no other sample changes; [pos] moves on by one.  For
    that sample [GreaseWeazleDiskBridge::getMFMSpeed] returns
    [10 * sum / 8], limited to 700..3000. *)
Theorem gw_sample_speed_is_sum (writes : list (Z * Z)) (output : Z -> GWMfmSample)
    (pos maxLength : Z) :
  length writes = 8%nat -> Forall writeOK writes ->
  0 <= pos < maxLength -> maxLength <= 4294967295 ->
  let r := writeStreamBits writes output pos 0 maxLength in
  snd (fst r) = pos + 1 /\ snd r = 0
  /\ speed (fst (fst r) pos) = speedSum writes
  /\ mfmData (fst (fst r) pos) = valueOf writes 0
  /\ (forall i, i <> pos -> fst (fst r) i = output i)
  /\ limitedSpeed (fst (fst r) pos) = Z.min 3000 (Z.max 700 (10 * speedSum writes / 8)).
Proof.
  intros Hlen Hall Hpos Hmax r.
  pose proof (writeStreamBits_sample pos maxLength writes Hpos Hmax Hall output 0
                ltac:(lia) ltac:(lia) ltac:(left; reflexivity)) as H.
  cbv zeta in H. fold r in H. rewrite Hlen in H. cbn [Z.of_nat Z.add Z.eqb Pos.eqb] in H.
  destruct H as ((P & B) & H2 & D & F).
  destruct H2 as [S R]; [destruct writes; [discriminate Hlen | discriminate] |].
  pose proof (speedSum_bounds writes Hall) as Hsum.
  change ((if 0 =? 0 then 0 else speed (output pos)) + speedSum writes)
    with (speedSum writes) in S.
  assert (V : valueOf writes (mfmData (output pos)) mod 256 = valueOf writes 0).
  { do 9 (destruct writes as [| [? ?] writes]; try discriminate Hlen).
    unfold valueOf. cbn [fold_left fst].
    repeat match goal with
           | H : Forall writeOK (_ :: _) |- _ => inversion H as [| ? ? [? _] ?]; subst; clear H
           end.
    cbn [fst] in *.
    match goal with
    | |- ?a mod 256 = ?b => replace a with (b + mfmData (output pos) * 256) by lia
    end.
    rewrite Z.mod_add by lia. apply Z.mod_small. lia. }
  rewrite Z.mod_small in D by exact R. rewrite V in D.
  repeat split; try assumption.
  rewrite gw_limitedSpeed_clamps by lia. rewrite S. reflexivity.
Qed.

Lemma gw_sample_speed_is_sum_witness :
  let writes := [(0, 100); (1, 100); (0, 104); (0, 104); (1, 104); (0, 98); (0, 98); (1, 98)] in
  let r := writeStreamBits writes (fun _ => mkGWMfmSample 7 255) 3 0 10 in
  mfmData (fst (fst r) 3) = 0x49 /\ speed (fst (fst r) 3) = 806
  /\ limitedSpeed (fst (fst r) 3) = 1007.
Proof.
  intros writes r.
  destruct (gw_sample_speed_is_sum writes (fun _ => mkGWMfmSample 7 255) 3 10)
    as (_ & _ & S & D & _ & L); try lia; try reflexivity.
  - repeat constructor; cbn; lia.
  - fold r in S, D, L. rewrite S, D, L. repeat split.
Defined.

End GWStreamProperties.
